(* ===== verification/_CoqProject ===== *)
-Q . S2P
Prelude.v
Numeral.v
Fastssz.v
FastsszRef.v
Hasher.v
HasherRef.v
SszObject.v
FixedContainers.v
VarContainers.v
BlockContainers.v
SszProperties.v
BigInt.v
Common.v
HexutilRef.v
Signing.v
BLSRef.v
Geth.v
GethRef.v
Payload.v
MockChain.v
Mining.v
P2p.v
Cache.v
CacheRef.v
Engine.v
Http.v
Relay.v
RelayServing.v
Float64.v
Clock.v
Behavior.v
Prologue.v
Api.v
Router.v
RouterRef.v
RelayRef.v
Consensus.v
Startup.v
SlotLoop.v
SlotProperties.v
Exits.v
RunNode.v
Eth.v
Transport.v
RelayStart.v
TransportRef.v
Json.v
JsonRef.v
NodeRef.v
Examples.v
ExamplesNode.v
