(* ===== verification/Prelude.v ===== *)
(** * Mergemock: root of the verification development

    Mergemock is a Go program that mocks the two sides of the Ethereum merge: a
    consensus client that drives an execution engine, an execution engine behind
    the engine API, and a builder relay that serves payload headers and payloads
    to validators.  This library models the parts of it that compute: the data it
    exchanges and their codecs, the chain and the engine that build and process
    payloads, the relay's HTTP handlers, and the consensus client with its slot
    loop.  It is a shallow embedding: each Go function is a Rocq function of the
    same name and the theorems are about those.

    ** The program and the files that model it

    - The data of the builder API and its SSZ codecs ([types/builder.go],
      [types/builder_encoding.go], [types/signing_encoding.go]).  [SszObject] has
      the interface every container implements ([MarshalSSZTo], [UnmarshalSSZ],
      [SizeSSZ], [HashTreeRootWith]), its specification and its laws, and the
      loops the generated code repeats for lists; [FixedContainers],
      [VarContainers] and [BlockContainers] have a module per Go struct, with its
      fields as a record and its four methods; [SszProperties] has the theorems.
      The runtime of the generated code, [ferranbt/fastssz], is the parameter of
      [Fastssz] (its codec) and [Hasher] (its hasher), with executable instances
      in [FastsszRef] and [HasherRef].
    - The text forms of the scalar types ([types/common.go]).  [Common] has a
      module per type ([Signature], [PublicKey], [Address], [Hash], [CommitteeBits],
      [Bloom], [U256Str], [ExtraData]); [math/big] is [BigInt], and the hex codec
      [hexutil] is a parameter with an instance in [HexutilRef].
    - Signing ([types/signing.go]).  [Signing] has the domains, the signing root
      and the verification of a signature; the BLS library is a parameter with an
      instance in [BLSRef].
    - Payloads and their conversions ([types/engine.go], the end of
      [types/builder.go]): [Payload].
    - The chain ([mock.go]): [MockChain] has the header checks and the functions that
      build a block and process a payload, as state-passing computations on the
      chain and its database; [Mining] has the mock consensus engine, the interface
      it implements, [MineBlock], which works with any such engine, and the opening
      of a chain.  go-ethereum is the parameter of [Geth], with a toy instance in
      [GethRef].
    - The engine ([engine.go], [BlockToPayload] of [api/engine.go]): [Engine], the
      three methods of the engine API on the chain, the payload counter and the
      cache of recent payloads.  The cache library is the parameter of [Cache],
      with an instance in [CacheRef].
    - The JSON codecs of the engine API ([types/gen_ep.go],
      [types/gen_blockparams.go]): [Json], on JSON values, with the engine called
      through them; the hex forms are a parameter with an instance in [JsonRef].
    - The eth namespace ([eth.go], [types/rpc_encoding.go]): [Eth].
    - The relay ([relay.go], [utils.go]): [Http] has the response writer and the
      logging middleware, [Relay] the handlers and registration, [RelayServing]
      the serving of headers and payloads, [Router] the routes and the requests the
      client sends through them, [RelayStart] the default options and the start.
      The router library is a parameter with an instance in [RouterRef].
    - The clients of both APIs ([api/engine.go], [api/builder.go]): [Api], where the
      engine and the relay are interfaces and [Engine] and [Relay] implement them;
      [RelayRef] has instances of the JSON codecs of both sides.
    - The consensus mock ([consensus.go], [behavior.go]): [Float64] has the float
      arithmetic, [Clock] the timestamps of slots, [Behavior] the random choices and
      the transactions of mocked blocks, [Consensus] how a payload is obtained,
      checked, processed and sent, [Startup] the start of the commands, [Prologue]
      the proof-of-work prologue, [SlotLoop] the slot loop with its goroutines,
      [SlotProperties] and [Exits] more of its properties, and [RunNode] the whole
      from its start.
    - The peer-to-peer connection ([p2p/server.go]): [P2p].
    - The RPC transport ([rpc/client.go], [rpc/server.go], [startRPC] of
      [engine.go]): [Transport], how clients and servers are put together from the
      parts of go-ethereum, with instances of these in [TransportRef].
    - [Prelude] (this file) has the Go values all files share, [Numeral] the
      positional notation of integers, [NodeRef] instances of what the consensus
      mock calls, [Examples] and [ExamplesNode] the instances of the theorems at
      concrete inputs.

    The consensus mock calls the clients and its own chain, and in its prologue the
    mining chain and the peer; the relay calls the engine's cache, the conversions
    and the signing functions; the engine calls the chain and the conversions; the
    signing functions hash containers.  A file requires the files of the components
    it calls.

    ** How code becomes definitions

    A function that can fail or panic returns [res]; one that also changes state
    is a computation [M S A], which keeps the state it reached when it fails or
    panics.  A pointer is an [option] and its dereference [deref]; a fixed-size
    array is a list of bytes whose length is part of the well-formedness ([wf]) of
    the value; an unsigned integer is a [Z] in the range of its width, with the
    wrap-around of its arithmetic written out ([wrap64]); a float is one of the
    Standard Library's IEEE 754 floats.  A method with a pointer receiver takes the
    receiver and returns the new one: the SSZ methods allocate nil fields as they
    go, and the container they return shows it.  A goroutine is a value that says
    where it goes on; a run of the slot loop is a sequence of ticks and of steps of
    goroutines, in any order.  Logging and tracing are left out, except for the
    status the middleware logs.

    Every loop of the modelled code but one is bounded by a list or a counter and is
    a structural recursion ([for_range] for counted loops).  The loop of the
    prologue takes fuel, and [prologue_terminates] gives a number of iterations that
    is enough: every block raises the total difficulty, so the distance from the
    terminal one bounds them.

    ** What the theorems show

    - Codecs ([SszProperties]): marshalling writes the serialization the SSZ
      specification gives the container; decoding inverts it, never panics on any
      input and yields exactly the values within the limits it checks; equal encodings
      mean equal values; list limits are enforced when marshalling and hashing;
      hashing computes the specified root; and the places where the code departs
      from this (a nil body, the limit of the extra data, a reused receiver).
    - Texts ([Common]): hex and decimal texts round-trip; what happens to input of
      the wrong length, malformed input, and integers that do not fit.
    - Signing ([Signing]): the layout and separation of domains; verification
      accepts exactly valid signatures over the signing root, and accepts what
      was signed.
    - Payloads ([Payload], [Json]): the header of a payload; the REST form
      round-trips; the byte order of the base fee; the JSON form round-trips and
      every accepted input has all fields; the engine behind JSON is the engine.
    - Chain and engine ([MockChain], [Mining], [Engine], [Eth]): processing a payload
      inserts the block it announces or, unless that insertion is refused, leaves the
      chain as it was; the statuses of [NewPayloadV1]; a forkchoice update builds
      and files a payload; the invariant of every reachable engine state; the blocks
      the eth namespace shows; what mining with the mock engine comes to.
    - Relay ([Relay], [RelayServing]): registration of a batch refines a
      specification by a relation; the answers of the two builder endpoints, the
      flow from header to payload, and the invariant of every reachable relay
      state, with the engine's steps interleaved.
    - Routes ([Router]): the client's calls over HTTP reach the handlers with what
      the client sent, and every request is a step of the relay.
    - Proposals ([Clock], [Consensus]): slot timestamps are exact and distinct; a
      header accepted from any builder was signed; a proposal obtained through the
      relay is the payload its engine built; only a payload that was checked and
      processed reaches the engine, and a stale one is dropped.
    - Slot loop ([SlotLoop], [SlotProperties], [Exits], [RunNode]): the invariant of
      every state reachable from the start of the process, and where its transition
      block comes from; when, why and with which status the process exits; finality
      lags by two epochs; what a tick does, from its draws; at most one payload id is
      pending when the goroutines finish, or wait to send, between ticks; while
      finality is not above the head, blocks are built above it whatever the reorg;
      and two states in which the mock defeats itself (an invalid hash while a
      payload is pending, a finalized block above the head).
    - Start and prologue ([Startup], [RelayStart], [Prologue], [P2p]): the validators
      end up registered with the relay; the engine starts in a good state, and a relay
      with its default options whenever its engine does; peering checks
      the peer's head and difficulty, unless the peer pings; the prologue terminates
      at the terminal total difficulty.
    - Transport ([Transport]): every call of the engine client carries a fresh token;
      the WebSocket server asks for it, the HTTP server does not.

    ** Hypotheses

    Code outside the repository enters as a class of operations and a class of laws
    stating its documented behaviour: [SSZ] with [SSZLaws], [Hasher] with
    [HasherModel], [Hexutil] with [HexutilLaws], [BLS] with [BLSLaws], [Geth] with
    [GethLaws] and [ChainLaws] (chains that grow), [EthBlocks] with [EthBlocksLaws],
    [ConsensusEngine] with [PoWLaws], [ChainStore] with [ChainStoreLaws], [LRU] with
    [LRULaws], [RelayCodec] and [ClientCodec] with [RelayCodecLaws] and [WireLaws],
    [HexJson] with [HexJsonLaws], [Rand] with [RandLaws], [Mux] with [MuxLaws],
    [RpcClient] and [RpcServer] with [Authentication], [SecretKeys].  [Platform] (the
    conversions Go leaves to the implementation), [Keccak], [DevP2P], [Enode] and
    [Entropy] have no laws.  Every class of laws has an executable instance, and
    every theorem with a hypothesis has a witness at a concrete input of these
    instances.

    ** What is not modelled

    Listening and serving, logging, the parsing of the command line, the text level
    of JSON and the tests do input and output or belong to libraries, and so do the
    one-line methods of the containers that pass to fastssz ([MarshalSSZ],
    [GetTree]).  Closing the consensus mock releases resources and is not part of a
    run of its loop.  A request or an engine call is one step that answers or fails:
    the theorems on runs cover every order of steps, not the data races of handlers
    that run at the same time, nor the timeouts of calls.  A goroutine that blocks on
    the channel of pending payload ids leaves the list of those that can go on, and
    its id waits among the senders; so nothing is claimed of when goroutines finish. *)

From Stdlib Require Export ZArith Lia.
From Stdlib Require Import Strings.Byte.
From stdpp Require Export base tactics list numbers countable option strings gmap.

#[local] Open Scope Z_scope.

(** ** Go values: bytes, lengths, errors, outcomes *)

Abbreviation byte := Byte.byte.
Abbreviation bytes := (list Byte.byte).

#[export] Instance byte_eq_dec : EqDecision byte := Byte.byte_eq_dec.
#[export] Program Instance byte_countable : Countable byte :=
  inj_countable Byte.to_N Byte.of_N _.
Next Obligation. apply Byte.of_to_N. Qed.

(** Go's [len] of a slice, a string or an array, as the [int] it returns. *)
Definition len {A} (l : list A) : Z := Z.of_nat (length l).

(** The zero value of a byte array [[n]byte]. *)
Definition zeros (n : nat) : bytes := replicate n x00.

(** The errors the program returns.  [Lib] stands for an error value a library
    produced and whose text the program never inspects; [Errorf] carries the
    literal text of an [errors.New]/[fmt.Errorf] of the program, and [Rpc] is an
    [rpc.Error] with its code. *)
Inductive error : Type :=
  | ErrSize | ErrOffset | ErrInvalidVariableOffset | ErrListTooBig
  | ErrBytesLength | ErrIncorrectListSize | ErrEmptyBitlist
  | ErrLength
  | Errorf (s : string)
  | Rpc (code : Z) (s : string)
  | Lib (s : string).

#[export] Instance error_eq_dec : EqDecision error.
Proof. solve_decision. Defined.

(** The outcome of running a Go function: a value with a nil error, a non-nil
    error, or a run-time panic (nil dereference, index out of range). *)
Inductive res (A : Type) : Type :=
  | Ok (a : A)
  | Err (e : error)
  | Panic.
Arguments Ok {_} _.
Arguments Err {_} _.
Arguments Panic {_}.

#[export] Instance res_eq_dec `{EqDecision A} : EqDecision (res A).
Proof. solve_decision. Defined.

#[export] Instance res_ret : MRet res := @Ok.
#[export] Instance res_bind : MBind res := λ A B f m,
  match m with Ok a => f a | Err e => Err e | Panic => Panic end.

Declare Scope go_scope.
Delimit Scope go_scope with go.

(** Dereference of a pointer: nil panics. *)
Definition deref {A} (p : option A) : res A :=
  match p with Some a => Ok a | None => Panic end.

(** [b[lo:hi]] on a slice whose capacity is its length. *)
Definition slice {A} (b : list A) (lo hi : Z) : res (list A) :=
  if (0 <=? lo) && (lo <=? hi) && (hi <=? len b)
  then Ok (take (Z.to_nat (hi - lo)) (drop (Z.to_nat lo) b))
  else Panic.

(** [b[lo:]]. *)
Definition slice_from {A} (b : list A) (lo : Z) : res (list A) := slice b lo (len b).

(** [copy(dst[:], src)]: the first [min (len dst) (len src)] elements move. *)
Definition copy {A} (dst src : list A) : list A :=
  take (length dst) src ++ drop (length src) dst.

(** [l[i] = x]: out of range panics. *)
Definition set_index {A} (l : list A) (i : Z) (x : A) : res (list A) :=
  if (0 <=? i) && (i <? len l) then Ok (<[Z.to_nat i := x]> l) else Panic.

(** [l[i]]: out of range panics. *)
Definition get_index {A} (l : list A) (i : Z) : res A :=
  if 0 <=? i then deref (l !! Z.to_nat i) else Panic.

(** [for ii := i; ii < i + n; ii++ { s = body(ii, s) }], left by the first
    error or panic. *)
Fixpoint for_from {S} (i : Z) (n : nat) (body : Z → S → res S) (s : S) : res S :=
  match n with
  | O => Ok s
  | Datatypes.S n => s' ← body i s; for_from (i + 1) n body s'
  end.

(** [for ii := 0; ii < n; ii++ { ... }]. *)
Definition for_range {S} (n : Z) (body : Z → S → res S) (s : S) : res S :=
  for_from 0 (Z.to_nat n) body s.

(** Partial correctness with panic freedom: [m ⇓ Q] says that [m] does not
    panic and that a value it returns satisfies [Q]. *)
Definition post {A} (m : res A) (Q : A → Prop) : Prop :=
  match m with Ok a => Q a | Err _ => True | Panic => False end.
Notation "m ⇓ Q" := (post m Q) (at level 70, no associativity) : go_scope.
#[local] Open Scope go_scope.

(** Stateful code: a computation that reads and updates a state of type [S] and
    ends with a value, an error or a panic; the state reached so far is kept in
    every case. *)
Definition M (S A : Type) : Type := S → S * res A.
#[export] Instance M_ret S : MRet (M S) := λ A a s, (s, Ok a).
#[export] Instance M_bind S : MBind (M S) := λ A B f m s,
  match m s with
  | (s', Ok a) => f a s'
  | (s', Err e) => (s', Err e)
  | (s', Panic) => (s', Panic)
  end.
Definition lift {S A} (r : res A) : M S A := λ s, (s, r).
Definition get {S} : M S S := λ s, (s, Ok s).
Definition put {S} (s : S) : M S unit := λ _, (s, Ok tt).
Definition fail {S A} (e : error) : M S A := lift (Err e).

(** [v, err := m(); if err != nil ...]: the error as a value; a panic goes on. *)
Definition attempt {S A} (m : M S A) : M S (A + error) := λ s,
  match m s with
  | (s, Ok a) => (s, Ok (inl a))
  | (s, Err e) => (s, Ok (inr e))
  | (s, Panic) => (s, Panic)
  end.

(** A pointer that is non-nil and whose target satisfies [P]. *)
Definition ptr {A} (P : A → Prop) (p : option A) : Prop :=
  match p with Some a => P a | None => False end.

(** The range of a [uint64], a [uint32]. *)
Definition u64 (z : Z) : Prop := 0 ≤ z < 2 ^ 64.
Definition u32 (z : Z) : Prop := 0 ≤ z < 2 ^ 32.
(** [uint64] arithmetic. *)
Definition wrap64 (z : Z) : Z := z mod 2 ^ 64.
#[export] Instance u64_dec z : Decision (u64 z).
Proof. unfold u64. apply _. Defined.
#[export] Instance u32_dec z : Decision (u32 z).
Proof. unfold u32. apply _. Defined.
#[export] Instance ptr_dec {A} (P : A → Prop) `{∀ a, Decision (P a)} p : Decision (ptr P p).
Proof. destruct p; simpl; apply _. Defined.

Create HintDb len discriminated.
Create Rewrite HintDb len.

(** ** Lengths *)
Section length_lemmas.
Context {A : Type}.
Implicit Types a b l : list A.

Lemma len_nil : len (@nil A) = 0.
Proof. reflexivity. Qed.

Lemma len_cons x l : len (x :: l) = 1 + len l.
Proof. unfold len. simpl. lia. Qed.

Lemma len_app a b : len (a ++ b) = len a + len b.
Proof. unfold len. rewrite length_app. lia. Qed.

Lemma len_nonneg l : 0 ≤ len l.
Proof. unfold len. lia. Qed.

Lemma len_app_eq a b m n : len a = m → len b = n → len (a ++ b) = m + n.
Proof. intros <- <-. apply len_app. Qed.

Lemma len_copy (dst src : list A) : len (copy dst src) = len dst.
Proof. unfold copy, len. rewrite length_app, length_take, length_drop. lia. Qed.

Lemma copy_same (dst src : list A) : len src = len dst → copy dst src = src.
Proof.
  unfold copy, len. intros H.
  rewrite take_ge, drop_ge, app_nil_r by lia. reflexivity.
Qed.

Lemma len_to_nat l : Z.to_nat (len l) = length l.
Proof. unfold len. lia. Qed.

Lemma len_0_nil l : len l = 0 → l = [].
Proof. unfold len. intros H. apply nil_length_inv. lia. Qed.
End length_lemmas.

Lemma len_fmap {A B} (f : A → B) (l : list A) : len (f <$> l) = len l.
Proof. unfold len. by rewrite length_fmap. Qed.

Lemma len_replicate {A} n (x : A) : len (replicate n x) = Z.of_nat n.
Proof. unfold len. by rewrite length_replicate. Qed.

Lemma len_zeros n : len (zeros n) = Z.of_nat n.
Proof. apply len_replicate. Qed.

#[export] Hint Rewrite @len_nil @len_cons @len_app @len_copy @len_fmap @len_zeros : len.
#[export] Hint Resolve len_nil len_zeros : len.
#[export] Hint Extern 1 (len (zeros _) = _) => (rewrite len_zeros; reflexivity) : len.
#[export] Hint Extern 1 (len (copy _ _) = _) => rewrite len_copy : len.
Arguments len : simpl never.
Arguments zeros : simpl never.
Arguments copy : simpl never.

(** ** Slices *)
Section slices.
Context {A : Type}.
Implicit Types a b pre mid suf : list A.

Lemma slice_inv b lo hi r :
  slice b lo hi = Ok r →
  0 ≤ lo ≤ hi ∧ hi ≤ len b ∧ len r = hi - lo.
Proof.
  unfold slice. intros H. repeat case_match; try discriminate.
  injection H as <-. unfold len in *. rewrite length_take, length_drop. lia.
Qed.

Lemma slice_ok b lo hi :
  0 ≤ lo ≤ hi → hi ≤ len b →
  slice b lo hi = Ok (take (Z.to_nat (hi - lo)) (drop (Z.to_nat lo) b)).
Proof. intros. unfold slice. by replace (_ && _) with true by lia. Qed.

Lemma slice_mid pre mid suf lo hi :
  lo = len pre → hi = lo + len mid → slice (pre ++ mid ++ suf) lo hi = Ok mid.
Proof.
  intros -> ->. pose proof (len_nonneg pre). pose proof (len_nonneg mid).
  rewrite slice_ok by (rewrite ?len_app; pose proof (len_nonneg suf); lia).
  rewrite len_to_nat, drop_app_length.
  replace (len pre + len mid - len pre) with (len mid) by lia.
  by rewrite len_to_nat, take_app_length.
Qed.

Lemma slice_tail pre mid lo hi :
  lo = len pre → hi = lo + len mid → slice (pre ++ mid) lo hi = Ok mid.
Proof.
  intros Hlo Hhi. rewrite <- (slice_mid pre mid [] lo hi Hlo Hhi). by rewrite app_nil_r.
Qed.

Lemma slice_hd mid suf hi : len mid = hi → slice (mid ++ suf) 0 hi = Ok mid.
Proof. intros <-. by apply (slice_mid [] mid suf). Qed.

Lemma slice_all mid hi : len mid = hi → slice mid 0 hi = Ok mid.
Proof. intros H. rewrite <- (slice_hd mid [] hi H). by rewrite app_nil_r. Qed.

(** Slicing past a prefix of known length; every side condition is
    decided by computation when the bounds are numerals. *)
Lemma slice_skip a b lo hi n lo' hi' :
  len a = n → (n <=? lo) = true → lo - n = lo' → hi - n = hi' →
  slice (a ++ b) lo hi = slice b lo' hi'.
Proof.
  intros Hn Hlo <- <-. unfold slice. rewrite len_app.
  pose proof (len_nonneg a).
  replace (0 <=? lo) with true by lia. replace (0 <=? lo - n) with true by lia.
  replace (lo <=? hi) with (lo - n <=? hi - n) by lia.
  replace (hi <=? len a + len b) with (hi - n <=? len b) by lia.
  destruct ((lo - n <=? hi - n) && (hi - n <=? len b)) eqn:E; simpl; rewrite E; [|done].
  f_equal. replace (hi - n - (lo - n)) with (hi - lo) by lia. f_equal.
  rewrite drop_app_ge by (unfold len in *; lia). f_equal. unfold len in *. lia.
Qed.

Lemma slice_from_skip a b lo n lo' :
  len a = n → (n <=? lo) = true → lo - n = lo' →
  slice_from (a ++ b) lo = slice_from b lo'.
Proof.
  intros Hn Hlo Hlo'. unfold slice_from.
  apply (slice_skip a b lo _ n lo'); [done..|]. rewrite len_app. lia.
Qed.

Lemma slice_from_0 b : slice_from b 0 = Ok b.
Proof. by apply slice_all. Qed.

Lemma slice_from_app a b lo : len a = lo → slice_from (a ++ b) lo = Ok b.
Proof.
  intros <-. rewrite (slice_from_skip a b _ (len a) 0); [apply slice_from_0|done|lia|lia].
Qed.

(** Slicing inside a prefix does not see the suffix. *)
Lemma slice_prefix a b lo hi :
  hi ≤ len a → slice (a ++ b) lo hi = slice a lo hi.
Proof.
  intros Hhi. unfold slice. rewrite len_app. pose proof (len_nonneg b).
  replace (hi <=? len a + len b) with (hi <=? len a) by lia.
  destruct ((0 <=? lo) && (lo <=? hi) && (hi <=? len a)) eqn:E; simpl; rewrite ?E; [|done].
  f_equal. rewrite drop_app_le by (unfold len in *; lia).
  rewrite take_app_le; [done|]. rewrite length_drop. unfold len in *. lia.
Qed.
End slices.

(** ** Outcomes *)

Lemma bind_Ok_inv {A B} (m : res A) (f : A → res B) b :
  (m ≫= f) = Ok b ↔ ∃ a, m = Ok a ∧ f a = Ok b.
Proof. destruct m; simpl; naive_solver. Qed.

Lemma post_bind {A B} (P : A → Prop) (Q : B → Prop) (m : res A) (f : A → res B) :
  m ⇓ P → (∀ a, P a → f a ⇓ Q) → (m ≫= f) ⇓ Q.
Proof. destruct m; simpl; auto. Qed.

Lemma post_impl {A} (P Q : A → Prop) (m : res A) :
  m ⇓ P → (∀ a, P a → Q a) → m ⇓ Q.
Proof. destruct m; simpl; auto. Qed.

Lemma post_Ok {A} (P : A → Prop) (m : res A) a : m ⇓ P → m = Ok a → P a.
Proof. by intros H ->. Qed.

Lemma post_not_panic {A} (P : A → Prop) (m : res A) : m ⇓ P → m ≠ Panic.
Proof. by destruct m. Qed.

Lemma post_slice {A} (b : list A) lo hi :
  0 ≤ lo ≤ hi → hi ≤ len b → slice b lo hi ⇓ λ r, len r = hi - lo.
Proof.
  intros. destruct (slice b lo hi) eqn:E; simpl; [..|by rewrite slice_ok in E].
  - by apply slice_inv in E as (_ & _ & ?).
  - done.
Qed.

Lemma post_slice_from {A} (b : list A) lo :
  0 ≤ lo ≤ len b → slice_from b lo ⇓ λ r, len r = len b - lo.
Proof. intros. apply post_slice; lia. Qed.

Lemma ptr_inv {A} (P : A → Prop) p : ptr P p → ∃ a, p = Some a ∧ P a.
Proof. destruct p; simpl; naive_solver. Qed.

(** ** Stateful computations *)
Section stateful.
Context {S A B : Type}.
Implicit Types (m : M S A) (f : A → M S B) (s : S).

Lemma M_bind_eq m f s :
  (m ≫= f) s = match m s with
               | (s', Ok a) => f a s'
               | (s', Err e) => (s', Err e)
               | (s', Panic) => (s', Panic)
               end.
Proof. reflexivity. Qed.

(** A successful sequence: both halves succeed. *)
Lemma M_bind_Ok_inv m f s s' b :
  (m ≫= f) s = (s', Ok b) → ∃ s1 a, m s = (s1, Ok a) ∧ f a s1 = (s', Ok b).
Proof. rewrite M_bind_eq. destruct (m s) as [s1 [a|e|]]; naive_solver. Qed.

(** A sequence goes on after its first half, or ends with it. *)
Lemma M_bind_inv m f s s' r :
  (m ≫= f) s = (s', r) →
  (∃ s1 a, m s = (s1, Ok a) ∧ f a s1 = (s', r)) ∨ ∃ r1, m s = (s', r1).
Proof. rewrite M_bind_eq. destruct (m s) as [s1 [a|e|]]; naive_solver. Qed.
End stateful.

(** ** How computations change their state *)

(** Every outcome of [m] leaves its state related by [R] to the one it started in. *)
Definition evolves {S A} (R : relation S) (m : M S A) : Prop :=
  ∀ s s' r, m s = (s', r) → R s s'.

(** Relations on states: by what a projection sees, and by an invariant. *)
Definition along {S T} (f : S → T) (R : relation T) : relation S := λ s s', R (f s) (f s').
Definition keeping {S} (I : S → Prop) : relation S := λ s s', I s → I s'.

#[export] Instance along_preorder {S T} (f : S → T) (R : relation T) :
  PreOrder R → PreOrder (along f R).
Proof. intros HR. split; [intros s|intros s1 s2 s3]; unfold along; [done|apply HR]. Qed.
#[export] Instance keeping_preorder {S} (I : S → Prop) : PreOrder (keeping I).
Proof. split; [intros s|intros s1 s2 s3]; unfold keeping; auto. Qed.

Section evolution.
Context {S : Type} (R : relation S) `{!PreOrder R}.
Lemma evolves_lift {A} (r : res A) : evolves R (lift r).
Proof. by intros s s' r' [= <- _]. Qed.
Lemma evolves_ret {A} (a : A) : evolves R (mret a).
Proof. by intros s s' r' [= <- _]. Qed.
Lemma evolves_get : evolves R get.
Proof. by intros s s' r' [= <- _]. Qed.
Lemma evolves_bind {A B} (m : M S A) (f : A → M S B) :
  evolves R m → (∀ a, evolves R (f a)) → evolves R (m ≫= f).
Proof.
  intros Hm Hf s s' r. rewrite M_bind_eq. destruct (m s) as [s1 [a|e|]] eqn:E.
  - intros Hr. etransitivity; [by eapply Hm|by eapply Hf].
  - intros [= <- _]. by eapply Hm.
  - intros [= <- _]. by eapply Hm.
Qed.
Lemma evolves_attempt {A} (m : M S A) : evolves R m → evolves R (attempt m).
Proof.
  intros Hm s s' r. unfold attempt. destruct (m s) as [s1 [a|e|]] eqn:E;
    intros [= <- _]; by eapply Hm.
Qed.
End evolution.

Create HintDb evolves discriminated.
#[export] Hint Resolve evolves_lift evolves_ret evolves_get evolves_attempt : evolves.

(** Follow the control flow of a computation down to its effects. *)
Ltac evolve :=
  unfold fail; repeat first
    [ solve [eauto 4 with evolves typeclass_instances nocore]
    | apply evolves_bind; [apply _| |intros] | case_match ].

(** ** Updates and loops *)

Lemma set_index_ok {A} (l : list A) i x :
  0 ≤ i < len l → set_index l i x = Ok (<[Z.to_nat i := x]> l).
Proof. intros. unfold set_index. by replace (_ && _) with true by lia. Qed.

(** Filling the next slot of a partly filled array. *)
Lemma set_index_next {A} (l1 l2 : list A) i x y :
  i = len l1 → set_index (l1 ++ y :: l2) i x = Ok ((l1 ++ [x]) ++ l2).
Proof.
  intros ->. pose proof (len_nonneg l1). pose proof (len_nonneg l2).
  rewrite set_index_ok by (rewrite len_app, len_cons; lia).
  rewrite len_to_nat, <- (Nat.add_0_r (length l1)), insert_app_r. simpl.
  by rewrite <- app_assoc.
Qed.

Section loops.
Context {S : Type} (body : Z → S → res S).

Lemma for_from_eq (g : Z → S) i n :
  (∀ j, i ≤ j < i + Z.of_nat n → body j (g j) = Ok (g (j + 1))) →
  for_from i n body (g i) = Ok (g (i + Z.of_nat n)).
Proof.
  revert i. induction n as [|n IH]; intros i Hstep; simpl.
  - by rewrite Z.add_0_r.
  - rewrite Hstep by lia. simpl. rewrite IH by (intros; apply Hstep; lia).
    do 2 f_equal. lia.
Qed.

Lemma for_from_post (I : Z → S → Prop) i n s :
  (∀ j s, i ≤ j < i + Z.of_nat n → I j s → body j s ⇓ I (j + 1)) →
  I i s → for_from i n body s ⇓ I (i + Z.of_nat n).
Proof.
  revert i s. induction n as [|n IH]; intros i s Hstep Hi; simpl.
  - by rewrite Z.add_0_r.
  - eapply post_bind; [apply Hstep; [lia|done]|]. intros s' Hs'.
    eapply post_impl; [apply IH; [|done]|].
    + intros. apply Hstep; [lia|done].
    + intros. by replace (i + Z.of_nat (Datatypes.S n)) with (i + 1 + Z.of_nat n) by lia.
Qed.

Lemma for_range_eq (g : Z → S) n :
  0 ≤ n → (∀ j, 0 ≤ j < n → body j (g j) = Ok (g (j + 1))) →
  for_range n body (g 0) = Ok (g n).
Proof.
  intros Hn Hstep. unfold for_range. rewrite for_from_eq.
  - do 2 f_equal. lia.
  - intros. apply Hstep. lia.
Qed.

Lemma for_range_post (I : Z → S → Prop) n s :
  0 ≤ n → (∀ j s, 0 ≤ j < n → I j s → body j s ⇓ I (j + 1)) →
  I 0 s → for_range n body s ⇓ I n.
Proof.
  intros Hn Hstep H0. unfold for_range.
  replace n with (0 + Z.of_nat (Z.to_nat n)) at 2 by lia.
  apply for_from_post; [|done]. intros. apply Hstep; [lia|done].
Qed.
End loops.

(** ** Automation *)

(** Prove a length equation from hypotheses and the [len] hints. *)
Ltac len_tac := solve [ eauto 4 with len | autorewrite with len; eauto with len; lia ].

(** Run a stateful computation as far as its control flow is known. *)
Ltac mrun :=
  repeat progress
    (repeat first [ rewrite M_bind_eq | progress unfold get, put, lift, fail, mret, M_ret ];
     cbn [fst snd negb deref]).

(** Evaluate one slice of an append, at numeral bounds. *)
Ltac slice_step :=
  match goal with
  | |- context [slice (?a ++ ?b) 0 ?hi] =>
      rewrite (slice_hd a b hi) by (eauto 4 with len nocore)
  | |- context [slice ?a 0 ?hi] =>
      rewrite (slice_all a hi) by (eauto 4 with len nocore)
  | |- context [slice_from ?a 0] => rewrite (slice_from_0 a)
  | |- context [slice_from (?a ++ ?b) ?lo] =>
      let H := fresh "Hlen" in
      eassert (len a = _) as H by (eauto 4 with len nocore);
      lazymatch type of H with
      | _ = ?n =>
          let lo' := eval vm_compute in (lo - n) in
          rewrite (slice_from_skip a b lo n lo' H eq_refl eq_refl)
      end; clear H
  | |- context [slice (?a ++ ?b) ?lo ?hi] =>
      let H := fresh "Hlen" in
      eassert (len a = _) as H by (eauto 4 with len nocore);
      lazymatch type of H with
      | _ = ?n =>
          let lo' := eval vm_compute in (lo - n) in
          let hi' := eval vm_compute in (hi - n) in
          rewrite (slice_skip a b lo hi n lo' hi' H eq_refl eq_refl eq_refl)
      end; clear H
  end.
Ltac slices := repeat (slice_step; cbn [mbind res_bind]).
