(* ===== verification/Numeral.v ===== *)
(** * Numbers as byte strings and digit strings

    Bytes as integers, little- and big-endian byte strings of a fixed length, and
    digits in an arbitrary base, with the lemmas that relate them. *)

From S2P Require Import Prelude.
#[local] Open Scope Z_scope.
#[local] Open Scope go_scope.

(** ** Little-endian integers *)
Definition byte_of_Z (z : Z) : byte :=
  default Byte.x00 (Byte.of_N (Z.to_N (z mod 256))).
Definition Z_of_byte (b : byte) : Z := Z.of_N (Byte.to_N b).

Fixpoint le_encode (n : nat) (z : Z) : bytes :=
  match n with
  | O => []
  | S n => byte_of_Z z :: le_encode n (z / 256)
  end.
Fixpoint le_decode (b : bytes) : Z :=
  match b with
  | [] => 0
  | x :: b => Z_of_byte x + 256 * le_decode b
  end.

Lemma Z_of_byte_range b : 0 ≤ Z_of_byte b < 256.
Proof. unfold Z_of_byte. pose proof (Byte.to_N_bounded b). lia. Qed.

Lemma byte_of_Z_of_byte b z : byte_of_Z (Z_of_byte b + 256 * z) = b.
Proof.
  unfold byte_of_Z. pose proof (Z_of_byte_range b).
  replace ((Z_of_byte b + 256 * z) mod 256) with (Z_of_byte b).
  - unfold Z_of_byte. by rewrite N2Z.id, Byte.of_to_N.
  - rewrite Z.mul_comm, Z.mod_add, Z.mod_small; lia.
Qed.

Lemma Z_of_byte_of_Z z : Z_of_byte (byte_of_Z z) = z mod 256.
Proof.
  unfold byte_of_Z, Z_of_byte. pose proof (Z.mod_pos_bound z 256 ltac:(lia)).
  destruct (Byte.of_N (Z.to_N (z mod 256))) eqn:E; simpl.
  - apply Byte.to_of_N in E. rewrite E. lia.
  - apply Byte.of_N_None_iff in E. lia.
Qed.

Lemma le_encode_length n z : length (le_encode n z) = n.
Proof. revert z. induction n as [|n IH]; intros z; simpl; [done|]. by rewrite IH. Qed.

Lemma le_encode_len n z : len (le_encode n z) = Z.of_nat n.
Proof. unfold len. by rewrite le_encode_length. Qed.

Lemma le_decode_encode n z :
  0 ≤ z < 256 ^ Z.of_nat n → le_decode (le_encode n z) = z.
Proof.
  revert z. induction n as [|n IH]; intros z Hz; simpl.
  - change (Z.of_nat 0) with 0 in Hz. rewrite Z.pow_0_r in Hz. lia.
  - rewrite Nat2Z.inj_succ, Z.pow_succ_r in Hz by lia.
    rewrite Z_of_byte_of_Z, IH.
    + pose proof (Z.div_mod z 256). lia.
    + split; [apply Z.div_pos; lia|]. apply Z.div_lt_upper_bound; lia.
Qed.

Lemma le_encode_decode b : le_encode (length b) (le_decode b) = b.
Proof.
  induction b as [|x b IH]; simpl; [done|]. rewrite byte_of_Z_of_byte. f_equal.
  rewrite Z.add_comm, Z.mul_comm, Z.div_add_l by lia.
  rewrite (Z.div_small (Z_of_byte x)) by apply Z_of_byte_range.
  by rewrite Z.add_0_r.
Qed.

Lemma le_decode_range b : 0 ≤ le_decode b < 256 ^ len b.
Proof.
  induction b as [|x b IH]; [simpl; change (len (@nil byte)) with 0; lia|].
  simpl. rewrite len_cons, Z.pow_add_r by (pose proof (len_nonneg b); lia).
  pose proof (Z_of_byte_range x). lia.
Qed.

Arguments le_encode : simpl never.
Arguments le_decode : simpl never.

Lemma le_decode_inj a b : length a = length b → le_decode a = le_decode b → a = b.
Proof.
  intros Hl Hv. rewrite <- (le_encode_decode a), <- (le_encode_decode b). by rewrite Hl, Hv.
Qed.

Lemma le_encode_zero n : le_encode n 0 = zeros n.
Proof.
  induction n as [|n IH]; [done|]. change (le_encode (S n) 0) with (Byte.x00 :: le_encode n 0).
  by rewrite IH.
Qed.

Lemma le_decode_app a b : le_decode (a ++ b) = le_decode a + 256 ^ len a * le_decode b.
Proof.
  induction a as [|x a IH].
  - change (len (@nil byte)) with 0. rewrite Z.pow_0_r. simpl. change (le_decode []) with 0. lia.
  - change (le_decode ((x :: a) ++ b)) with (Z_of_byte x + 256 * le_decode (a ++ b)).
    change (le_decode (x :: a)) with (Z_of_byte x + 256 * le_decode a).
    rewrite IH, len_cons, Z.pow_add_r by (pose proof (len_nonneg a); lia). lia.
Qed.

(** ** Big-endian integers *)
Definition be_encode (n : nat) (z : Z) : bytes := rev (le_encode n z).
Definition be_decode (b : bytes) : Z := le_decode (rev b).

Lemma be_encode_len n z : len (be_encode n z) = Z.of_nat n.
Proof. unfold be_encode, len. by rewrite length_rev, le_encode_length. Qed.

Lemma be_decode_encode n z : 0 ≤ z < 256 ^ Z.of_nat n → be_decode (be_encode n z) = z.
Proof. intros. unfold be_decode, be_encode. rewrite rev_involutive. by apply le_decode_encode. Qed.

Lemma be_encode_decode b : be_encode (length b) (be_decode b) = b.
Proof.
  unfold be_decode, be_encode. rewrite <- length_rev, le_encode_decode. apply rev_involutive.
Qed.

Lemma be_decode_range b : 0 ≤ be_decode b < 256 ^ len b.
Proof.
  unfold be_decode. pose proof (le_decode_range (rev b)) as H.
  unfold len in *. by rewrite length_rev in H.
Qed.

Lemma le_encode_add n k z :
  le_encode (n + k) z = le_encode n z ++ le_encode k (z / 256 ^ Z.of_nat n).
Proof.
  revert z. induction n as [|n IH]; intros z.
  - change (256 ^ Z.of_nat 0) with 1. by rewrite Z.div_1_r.
  - change (le_encode (S n + k) z) with (byte_of_Z z :: le_encode (n + k) (z / 256)).
    change (le_encode (S n) z) with (byte_of_Z z :: le_encode n (z / 256)).
    rewrite IH, Nat2Z.inj_succ, Z.pow_succ_r, <- Z.div_div by lia. done.
Qed.

Lemma rev_zeros n : rev (zeros n) = zeros n.
Proof.
  unfold zeros. induction n as [|n IH]; [done|]. cbn [replicate rev].
  rewrite IH. by rewrite <- replicate_cons_app.
Qed.

(** A big-endian number keeps its digits when it is padded on the left. *)
Lemma be_encode_pad n m z :
  0 ≤ z < 256 ^ Z.of_nat n → (n ≤ m)%nat → be_encode m z = zeros (m - n) ++ be_encode n z.
Proof.
  intros Hz Hnm. unfold be_encode. replace m with (n + (m - n))%nat at 1 by lia.
  rewrite le_encode_add, rev_app_distr, Z.div_small by done.
  by rewrite le_encode_zero, rev_zeros.
Qed.

(** ** Digits in base [b], least significant first *)
Fixpoint digits (b : Z) (fuel : nat) (v : Z) : list Z :=
  match fuel with
  | O => []
  | S fuel => if v =? 0 then [] else v mod b :: digits b fuel (v / b)
  end.
Definition value (b : Z) (ds : list Z) : Z := foldr (λ d v, d + b * v) 0 ds.

Section digits.
Context (b : Z) (Hb : 2 ≤ b).

Lemma value_digits fuel v : 0 ≤ v < b ^ Z.of_nat fuel → value b (digits b fuel v) = v.
Proof.
  revert v. induction fuel as [|fuel IH]; intros v Hv; cbn [digits value foldr].
  - change (Z.of_nat 0) with 0 in Hv. rewrite Z.pow_0_r in Hv. lia.
  - rewrite Nat2Z.inj_succ, Z.pow_succ_r in Hv by lia.
    destruct (Z.eqb_spec v 0) as [->|Hnz]; [done|]. cbn [foldr]. fold (value b).
    change (foldr (λ d v0 : Z, d + b * v0) 0 (digits b fuel (v / b)))
      with (value b (digits b fuel (v / b))).
    rewrite IH.
    + pose proof (Z.div_mod v b). lia.
    + split; [apply Z.div_pos; lia|]. apply Z.div_lt_upper_bound; lia.
Qed.

Lemma digits_range fuel v : Forall (λ d, 0 ≤ d < b) (digits b fuel v).
Proof.
  revert v. induction fuel as [|fuel IH]; intros v; cbn [digits]; [constructor|].
  destruct (v =? 0); constructor; [apply Z.mod_pos_bound; lia|apply IH].
Qed.

(** The most significant digit is not zero. *)
Lemma digits_last fuel v :
  0 ≤ v < b ^ Z.of_nat fuel → ∀ d, last (digits b fuel v) = Some d → d ≠ 0.
Proof.
  revert v. induction fuel as [|fuel IH]; intros v Hv d; cbn [digits]; [done|].
  rewrite Nat2Z.inj_succ, Z.pow_succ_r in Hv by lia.
  destruct (Z.eqb_spec v 0) as [->|Hnz]; [done|].
  assert (0 ≤ v / b < b ^ Z.of_nat fuel) as Hq.
  { split; [apply Z.div_pos; lia|]. apply Z.div_lt_upper_bound; lia. }
  destruct (digits b fuel (v / b)) as [|d' ds] eqn:E.
  - intros [= <-] Hm. pose proof (value_digits fuel (v / b) Hq) as Hval. rewrite E in Hval.
    change (0 = v / b) in Hval. pose proof (Z.div_mod v b). lia.
  - rewrite last_cons_cons. rewrite <- E. by apply IH.
Qed.

Lemma value_app ds es : value b (ds ++ es) = value b ds + b ^ len ds * value b es.
Proof.
  induction ds as [|d ds IH].
  - change (len (@nil Z)) with 0. rewrite Z.pow_0_r. change (value b []) with 0.
    cbn [app rev foldl]. ring.
  - change (value b ((d :: ds) ++ es)) with (d + b * value b (ds ++ es)).
    change (value b (d :: ds)) with (d + b * value b ds).
    rewrite IH, len_cons, Z.pow_add_r by (pose proof (len_nonneg ds); lia). lia.
Qed.

(** Reading the digits most significant first. *)
Lemma value_rev_fold ds acc :
  foldl (λ v d, v * b + d) acc (rev ds) = acc * b ^ len ds + value b ds.
Proof.
  revert acc. induction ds as [|d ds IH]; intros acc.
  - change (len (@nil Z)) with 0. rewrite Z.pow_0_r. change (value b []) with 0.
    cbn [app rev foldl]. ring.
  - cbn [rev]. rewrite foldl_app, IH. cbn [foldl].
    change (value b (d :: ds)) with (d + b * value b ds).
    rewrite len_cons, Z.pow_add_r by (pose proof (len_nonneg ds); lia).
    rewrite Z.pow_1_r. ring.
Qed.
End digits.

Arguments value : simpl never.

(** Enough fuel for every [v] of [n] bits, in any base. *)
Lemma pow_fuel b v n : 2 ≤ b → 0 ≤ v → v < 2 ^ n → 0 ≤ n → v < b ^ Z.of_nat (Z.to_nat n).
Proof.
  intros Hb Hv Hlt Hn. rewrite Z2Nat.id by lia.
  eapply Z.lt_le_trans; [exact Hlt|]. apply Z.pow_le_mono_l; lia.
Qed.
