(* ===== verification/Fastssz.v ===== *)
(** * The interface of the fastssz codec

    [types/builder_encoding.go] and [types/signing_encoding.go] are written
    against the package [github.com/ferranbt/fastssz], which is not part of the
    repository.  Its codec functions are the operations of the class [SSZ]; what
    the repository relies on of them is the class [SSZLaws].  The file also
    states the serialization the SSZ specification gives a container, against
    which the [MarshalSSZTo] methods are proved. *)

From S2P Require Import Prelude.
#[local] Open Scope Z_scope.
#[local] Open Scope go_scope.

(** The functions of fastssz the generated codecs call. *)
Class SSZ := {
  MarshalUint64 : bytes → Z → bytes;
  UnmarshallUint64 : bytes → Z;
  MarshalUint32 : bytes → Z → bytes;
  UnmarshallUint32 : bytes → Z;
  WriteOffset : bytes → Z → bytes;
  ReadOffset : bytes → Z;
  DivideInt2 : Z → Z → Z → res Z;
  DecodeDynamicLength : bytes → Z → res Z;
  UnmarshalDynamic : ∀ {S : Type}, bytes → Z → (Z → bytes → S → res S) → S → res S;
  ValidateBitlist : bytes → Z → res unit;
  ExtendUint64 : list Z → Z → list Z;
}.

(** ** The serialization of a container, from the SSZ specification

    A container is the concatenation of its fixed-size parts, a variable-size
    part being replaced by the 4-byte offset of its content, followed by the
    contents of the variable-size parts in order. *)
Inductive part : Type :=
  | Fixed (b : bytes)
  | Var (b : bytes).

Section spec.
Context `{!SSZ}.

Definition uint64_bytes (v : Z) : bytes := MarshalUint64 [] v.
Definition uint32_bytes (v : Z) : bytes := MarshalUint32 [] v.
Definition offset_bytes (o : Z) : bytes := WriteOffset [] o.

Definition part_fixed_len (p : part) : Z :=
  match p with Fixed b => len b | Var _ => 4 end.
Fixpoint fixed_len (ps : list part) : Z :=
  match ps with [] => 0 | p :: ps => part_fixed_len p + fixed_len ps end.
Fixpoint fixed_region (off : Z) (ps : list part) : bytes :=
  match ps with
  | [] => []
  | Fixed b :: ps => b ++ fixed_region off ps
  | Var b :: ps => offset_bytes off ++ fixed_region (off + len b) ps
  end.
Fixpoint var_region (ps : list part) : bytes :=
  match ps with
  | [] => []
  | Fixed _ :: ps => var_region ps
  | Var b :: ps => b ++ var_region ps
  end.
Definition container (ps : list part) : bytes :=
  fixed_region (fixed_len ps) ps ++ var_region ps.

(** A list of fixed-size, respectively variable-size, elements. *)
Definition fixed_list (es : list bytes) : bytes := concat es.
Definition var_list (es : list bytes) : bytes := container (Var <$> es).
End spec.

(** Run the callback of [UnmarshalDynamic] on consecutive elements. *)
Fixpoint dynamic_run {S} (f : Z → bytes → S → res S) (i : Z) (es : list bytes) (s : S) : res S :=
  match es with
  | [] => Ok s
  | e :: es => s' ← f i e s; dynamic_run f (i + 1) es s'
  end.

(** What the repository relies on of fastssz: integers and offsets are appended
    in a fixed-width form that reads back, [DivideInt2] and
    [DecodeDynamicLength] enforce the list limits, [UnmarshalDynamic] hands the
    elements of a well-formed list to its callback in order, and on any input
    only ever runs its callback on indices below the length. *)
Class SSZLaws `{!SSZ} : Prop := {
  MarshalUint64_app dst v : MarshalUint64 dst v = dst ++ MarshalUint64 [] v;
  MarshalUint64_len v : len (MarshalUint64 [] v) = 8;
  Uint64_roundtrip v : u64 v → UnmarshallUint64 (MarshalUint64 [] v) = v;
  Uint64_canonical b : len b = 8 → MarshalUint64 [] (UnmarshallUint64 b) = b;
  UnmarshallUint64_range b : len b = 8 → u64 (UnmarshallUint64 b);
  MarshalUint32_app dst v : MarshalUint32 dst v = dst ++ MarshalUint32 [] v;
  MarshalUint32_len v : len (MarshalUint32 [] v) = 4;
  Uint32_roundtrip v : u32 v → UnmarshallUint32 (MarshalUint32 [] v) = v;
  Uint32_canonical b : len b = 4 → MarshalUint32 [] (UnmarshallUint32 b) = b;
  UnmarshallUint32_range b : len b = 4 → u32 (UnmarshallUint32 b);
  WriteOffset_app dst o : WriteOffset dst o = dst ++ WriteOffset [] o;
  WriteOffset_len o : len (WriteOffset [] o) = 4;
  Offset_roundtrip o : u32 o → ReadOffset (WriteOffset [] o) = o;
  ReadOffset_range b : len b = 4 → u32 (ReadOffset b);
  DivideInt2_ok n b max : 0 < b → 0 ≤ n ≤ max → DivideInt2 (n * b) b max = Ok n;
  DivideInt2_post a b max :
    0 ≤ a → 0 < b → DivideInt2 a b max ⇓ λ n, a = n * b ∧ 0 ≤ n ≤ max;
  DecodeDynamicLength_ok es max :
    len es ≤ max → u32 (4 * len es) → DecodeDynamicLength (var_list es) max = Ok (len es);
  DecodeDynamicLength_post b max :
    0 ≤ max → DecodeDynamicLength b max ⇓ λ n, 0 ≤ n ≤ max;
  UnmarshalDynamic_ok S es (f : Z → bytes → S → res S) s :
    u32 (len (var_list es)) →
    UnmarshalDynamic (var_list es) (len es) f s = dynamic_run f 0 es s;
  UnmarshalDynamic_run S b max n (f : Z → bytes → S → res S) s :
    DecodeDynamicLength b max = Ok n →
    ∃ es, (len es = n ∧ UnmarshalDynamic b n f s = dynamic_run f 0 es s) ∨
          (len es ≤ n ∧ ∃ e, UnmarshalDynamic b n f s = (dynamic_run f 0 es s ≫= λ _, Err e));
  ValidateBitlist_post b n : ValidateBitlist b n ⇓ λ _, 0 < len b ≤ n `div` 8 + 1;
  ExtendUint64_len l n : 0 ≤ n → len (ExtendUint64 l n) = n;
}.

#[export] Hint Resolve MarshalUint64_len MarshalUint32_len WriteOffset_len : len.
#[export] Hint Rewrite @MarshalUint64_len @MarshalUint32_len @WriteOffset_len
  using (apply _) : len.

Section spec_lemmas.
Context `{!SSZ, !SSZLaws}.

Lemma uint64_bytes_len v : len (uint64_bytes v) = 8.
Proof. apply MarshalUint64_len. Qed.
Lemma uint32_bytes_len v : len (uint32_bytes v) = 4.
Proof. apply MarshalUint32_len. Qed.
Lemma offset_bytes_len o : len (offset_bytes o) = 4.
Proof. apply WriteOffset_len. Qed.
Lemma MarshalUint64_eq dst v : MarshalUint64 dst v = dst ++ uint64_bytes v.
Proof. apply MarshalUint64_app. Qed.
Lemma MarshalUint32_eq dst v : MarshalUint32 dst v = dst ++ uint32_bytes v.
Proof. apply MarshalUint32_app. Qed.
Lemma WriteOffset_eq dst o : WriteOffset dst o = dst ++ offset_bytes o.
Proof. apply WriteOffset_app. Qed.

Lemma uint64_bytes_roundtrip v : u64 v → UnmarshallUint64 (uint64_bytes v) = v.
Proof. apply Uint64_roundtrip. Qed.
Lemma uint32_bytes_roundtrip v : u32 v → UnmarshallUint32 (uint32_bytes v) = v.
Proof. apply Uint32_roundtrip. Qed.
Lemma offset_bytes_roundtrip o : u32 o → ReadOffset (offset_bytes o) = o.
Proof. apply Offset_roundtrip. Qed.
Lemma uint64_bytes_canonical b : len b = 8 → uint64_bytes (UnmarshallUint64 b) = b.
Proof. apply Uint64_canonical. Qed.
Lemma uint32_bytes_canonical b : len b = 4 → uint32_bytes (UnmarshallUint32 b) = b.
Proof. apply Uint32_canonical. Qed.

Lemma fixed_region_len off ps : len (fixed_region off ps) = fixed_len ps.
Proof.
  revert off. induction ps as [|[b|b] ps IH]; intros off; simpl; [done|..];
    by rewrite len_app, IH, ?offset_bytes_len.
Qed.

Lemma container_len ps :
  len (container ps) = fixed_len ps + len (var_region ps).
Proof. unfold container. by rewrite len_app, fixed_region_len. Qed.

Lemma var_region_fmap es : var_region (Var <$> es) = concat es.
Proof. induction es as [|e es IH]; csimpl; [done|]. by rewrite IH. Qed.

Lemma fixed_len_fmap es : fixed_len (Var <$> es) = 4 * len es.
Proof. induction es as [|e es IH]; csimpl; [done|]. rewrite IH, len_cons. lia. Qed.

Lemma var_list_len es : len (var_list es) = 4 * len es + len (concat es).
Proof. unfold var_list. by rewrite container_len, fixed_len_fmap, var_region_fmap. Qed.
End spec_lemmas.

#[export] Hint Resolve uint64_bytes_len uint32_bytes_len offset_bytes_len fixed_region_len : len.
#[export] Hint Rewrite @uint64_bytes_len @uint32_bytes_len @offset_bytes_len
  @fixed_region_len using (apply _) : len.
