(* ===== verification/FastsszRef.v ===== *)
(** * A reference implementation of the fastssz interface

    A small-scale codec, little-endian as the SSZ specification asks, that
    satisfies every law of [SSZLaws].  It shows that the interface can be
    implemented and lets the examples of the development run. *)

From S2P Require Import Prelude Numeral Fastssz.
#[local] Open Scope Z_scope.
#[local] Open Scope go_scope.

(** ** The codec *)
Definition divide2 (a b max : Z) : res Z :=
  if negb (a mod b =? 0) then Err (Lib "not divisible")
  else if max <? a / b then Err (Lib "too big") else Ok (a / b).

Definition dynamic_length (buf : bytes) (max : Z) : res Z :=
  if len buf =? 0 then Ok 0
  else if len buf <? 4 then Err (Lib "not enough data")
  else divide2 (le_decode (take 4 buf)) 4 max.

(** The elements [n] consecutive offsets delimit; the last one ends with the
    buffer. *)
Fixpoint dynamic_elems {S} (src table : bytes) (off : Z) (n : nat) (i : Z)
    (f : Z → bytes → S → res S) (s : S) : res S :=
  match n with
  | O => Ok s
  | Datatypes.S n =>
      end_off ← (if decide (n = O) then Ok (len src)
                 else if len table <? 4 then Err (Lib "not enough data")
                 else Ok (le_decode (take 4 table)));
      if end_off <? off then Err (Lib "offsets decrease")
      else if len src <? end_off then Err (Lib "offset out of range")
      else e ← slice src off end_off;
           s' ← f i e s;
           dynamic_elems src (drop 4 table) end_off n (i + 1) f s'
  end.

Definition validate_bitlist (b : bytes) (n : Z) : res unit :=
  if (len b =? 0) || (n `div` 8 + 1 <? len b) || bool_decide (last b = Some Byte.x00)
  then Err (Lib "bitlist") else Ok tt.

Definition ref_unmarshal_dynamic (S : Type) (src : bytes) (n : Z)
    (f : Z → bytes → S → res S) (s : S) : res S :=
  if n =? 0 then Ok s
  else dynamic_elems src (drop 4 src) (le_decode (take 4 src)) (Z.to_nat n) 0 f s.

#[export] Instance ref_ssz : SSZ := {
  MarshalUint64 dst v := dst ++ le_encode 8 v;
  UnmarshallUint64 := le_decode;
  MarshalUint32 dst v := dst ++ le_encode 4 v;
  UnmarshallUint32 := le_decode;
  WriteOffset dst v := dst ++ le_encode 4 v;
  ReadOffset := le_decode;
  DivideInt2 := divide2;
  DecodeDynamicLength := dynamic_length;
  UnmarshalDynamic := ref_unmarshal_dynamic;
  ValidateBitlist := validate_bitlist;
  ExtendUint64 l n := resize (Z.to_nat n) 0 l;
}.

(** ** Its laws *)
Lemma divide2_ok n b max : 0 < b → 0 ≤ n ≤ max → divide2 (n * b) b max = Ok n.
Proof.
  intros Hb Hn. unfold divide2. rewrite Z.mod_mul, Z.div_mul by lia. simpl.
  by replace (max <? n) with false by lia.
Qed.

Lemma divide2_post a b max :
  0 ≤ a → 0 < b → divide2 a b max ⇓ λ n, a = n * b ∧ 0 ≤ n ≤ max.
Proof.
  intros Ha Hb. unfold divide2. repeat case_match; simpl; try done.
  apply negb_false_iff, Z.eqb_eq in H. pose proof (Z.div_mod a b).
  pose proof (Z.div_pos a b). lia.
Qed.

Lemma take_len_app {A} (a b : list A) n : length a = n → take n (a ++ b) = a.
Proof. intros <-. apply take_app_length. Qed.
Lemma drop_len_app {A} (a b : list A) n : length a = n → drop n (a ++ b) = b.
Proof. intros <-. apply drop_app_length. Qed.

Lemma dynamic_length_ok es max :
  len es ≤ max → u32 (4 * len es) → dynamic_length (var_list es) max = Ok (len es).
Proof.
  intros Hmax Hu. destruct es as [|e es]; [done|].
  pose proof (len_nonneg es). pose proof (len_nonneg (e :: es)).
  assert (∃ r, var_list (e :: es) = le_encode 4 (4 * len (e :: es)) ++ r) as [r Hr].
  { eexists. unfold var_list, container. rewrite fixed_len_fmap. csimpl. reflexivity. }
  unfold dynamic_length. rewrite Hr, len_app.
  rewrite le_encode_len. change (Z.of_nat 4) with 4.
  pose proof (len_nonneg r).
  replace (4 + len r =? 0) with false by lia.
  replace (4 + len r <? 4) with false by lia.
  rewrite take_len_app by apply le_encode_length.
  rewrite le_decode_encode by exact Hu.
  rewrite Z.mul_comm. apply divide2_ok; lia.
Qed.

Lemma dynamic_length_post b max : 0 ≤ max → dynamic_length b max ⇓ λ n, 0 ≤ n ≤ max.
Proof.
  intros. unfold dynamic_length. repeat case_match; [simpl; lia|done|].
  eapply post_impl; [apply divide2_post; [apply le_decode_range|lia]|].
  simpl. lia.
Qed.

(** The second and following offsets of a list's table. *)
Lemma dynamic_table_cons off (e : bytes) es rest :
  fixed_region off (Var <$> e :: es) ++ rest
  = le_encode 4 off ++ fixed_region (off + len e) (Var <$> es) ++ rest.
Proof. csimpl. by rewrite ?app_assoc. Qed.

Lemma dynamic_elems_S {S} src table off n i (f : Z → bytes → S → res S) s :
  dynamic_elems src table off (Datatypes.S n) i f s =
  (end_off ← (if decide (n = O) then Ok (len src)
              else if len table <? 4 then Err (Lib "not enough data")
              else Ok (le_decode (take 4 table)));
   if end_off <? off then Err (Lib "offsets decrease")
   else if len src <? end_off then Err (Lib "offset out of range")
   else e ← slice src off end_off;
        s' ← f i e s;
        dynamic_elems src (drop 4 table) end_off n (i + 1) f s').
Proof. reflexivity. Qed.

Lemma dynamic_elems_ok {S} (f : Z → bytes → S → res S) rest es :
  ∀ pre e i s,
    u32 (len (pre ++ e ++ concat es)) →
    dynamic_elems (pre ++ e ++ concat es)
      (fixed_region (len pre + len e) (Var <$> es) ++ rest)
      (len pre) (Datatypes.S (length es)) i f s
    = dynamic_run f i (e :: es) s.
Proof.
  induction es as [|e2 es IH]; intros pre e i s Hu; rewrite dynamic_elems_S; cbn [length];
    pose proof (len_nonneg pre); pose proof (len_nonneg e).
  - cbn [concat]. rewrite app_nil_r, len_app. rewrite decide_True by done. cbn [mbind res_bind].
    replace (len pre + len e <? len pre) with false by lia.
    replace (len pre + len e <? len pre + len e) with false by lia.
    by rewrite (slice_tail pre e) by lia.
  - rewrite decide_False by done. rewrite dynamic_table_cons.
    pose proof (len_nonneg (concat (e2 :: es))).
    pose proof (len_nonneg (fixed_region (len pre + len e + len e2) (Var <$> es) ++ rest)).
    rewrite !len_app in *.
    rewrite le_encode_len. rewrite (proj2 (Z.ltb_ge _ 4)) by lia.
    rewrite take_len_app, drop_len_app by apply le_encode_length.
    rewrite le_decode_encode by (change (256 ^ Z.of_nat 4) with (2 ^ 32); unfold u32 in Hu; lia).
    cbn [mbind res_bind].
    replace (len pre + len e <? len pre) with false by lia.
    replace (len pre + (len e + len (concat (e2 :: es))) <? len pre + len e) with false by lia.
    rewrite (slice_mid pre e) by lia.
    cbn [mbind res_bind dynamic_run].
    destruct (f i e s) as [s'| |]; [|done..]. cbn [mbind res_bind].
    rewrite <- (len_app pre e). cbn [concat].
    rewrite (app_assoc pre e). apply IH.
    rewrite <- app_assoc, !len_app. cbn [concat] in Hu. by rewrite len_app in Hu.
Qed.

Lemma dynamic_table_len off es : len (fixed_region off (Var <$> es)) = 4 * len es.
Proof.
  revert off. induction es as [|e es IH]; intros off; [done|].
  rewrite fmap_cons. cbn [fixed_region].
  change (offset_bytes off) with (le_encode 4 off).
  rewrite len_app, le_encode_len, IH, len_cons. lia.
Qed.

Lemma unmarshal_dynamic_ok {S} es (f : Z → bytes → S → res S) s :
  u32 (len (var_list es)) →
  ref_unmarshal_dynamic S (var_list es) (len es) f s = dynamic_run f 0 es s.
Proof.
  intros Hu. destruct es as [|e es]; [done|]. unfold ref_unmarshal_dynamic.
  pose proof (len_nonneg es).
  rewrite len_cons. replace (1 + len es =? 0) with false by lia.
  replace (Z.to_nat (1 + len es)) with (Datatypes.S (length es)) by (unfold len; lia).
  assert (var_list (e :: es)
          = fixed_region (4 * len (e :: es)) (Var <$> e :: es) ++ e ++ concat es) as Hv.
  { unfold var_list, container. by rewrite fixed_len_fmap, var_region_fmap. }
  rewrite Hv in *. pose proof (dynamic_table_len (4 * len (e :: es)) (e :: es)) as Ht.
  assert (u32 (4 * len (e :: es))) as Ho.
  { unfold u32 in *. rewrite len_app, Ht in Hu.
    pose proof (len_nonneg (e ++ concat es)). rewrite len_cons in *. lia. }
  rewrite <- (dynamic_elems_ok f (e ++ concat es) es _ e 0 s Hu), Ht.
  rewrite dynamic_table_cons.
  rewrite take_len_app, drop_len_app by apply le_encode_length.
  by rewrite le_decode_encode.
Qed.

Lemma dynamic_elems_run {S} (f : Z → bytes → S → res S) n :
  ∀ src table off i s, 0 ≤ off →
  ∃ es, (len es = Z.of_nat n ∧ dynamic_elems src table off n i f s = dynamic_run f i es s) ∨
        (len es ≤ Z.of_nat n ∧
         ∃ e, dynamic_elems src table off n i f s = (dynamic_run f i es s ≫= λ _, Err e)).
Proof.
  induction n as [|n IH]; intros src table off i s Hoff; [by exists []; left|].
  rewrite dynamic_elems_S.
  match goal with |- context [mbind _ ?m] => assert (m ⇓ λ o, 0 ≤ o) as Hend end.
  { repeat case_match; simpl; try done; [apply len_nonneg|apply le_decode_range]. }
  destruct (if decide (n = 0%nat) then _ else _) as [end_off|err|];
    cbn [mbind res_bind]; [|by exists []; right; split; [rewrite len_nil; lia|exists err]|done].
  destruct (end_off <? off) eqn:E1; [by exists []; right; split; [rewrite len_nil; lia|eexists]|].
  destruct (len src <? end_off) eqn:E2; [by exists []; right; split; [rewrite len_nil; lia|eexists]|].
  rewrite slice_ok by lia. cbn [mbind res_bind].
  set (e := take _ _). destruct (f i e s) as [s'|err|] eqn:Ef; cbn [mbind res_bind].
  - destruct (IH src (drop 4 table) end_off (i + 1) s' Hend) as [es [[Hn Hr]|[Hn [err Hr]]]];
      exists (e :: es); rewrite len_cons; cbn [dynamic_run]; rewrite Ef, Hr.
    + left. split; [lia|done].
    + right. split; [lia|by exists err].
  - exists [e]. right. rewrite len_cons, len_nil. split; [lia|].
    exists err. cbn [dynamic_run]. by rewrite Ef.
  - exists [e]. right. rewrite len_cons, len_nil. split; [lia|].
    exists ErrSize. cbn [dynamic_run]. by rewrite Ef.
Qed.

Lemma validate_bitlist_post b n : validate_bitlist b n ⇓ λ _, 0 < len b ≤ n `div` 8 + 1.
Proof.
  unfold validate_bitlist. case_match eqn:E; simpl; [done|].
  apply orb_false_iff in E as [[? ?]%orb_false_iff _]. pose proof (len_nonneg b). lia.
Qed.

#[export] Instance ref_ssz_laws : SSZLaws.
Proof.
  split; simpl; intros; rewrite ?le_encode_len; auto using divide2_ok, divide2_post,
    dynamic_length_ok, dynamic_length_post, @unmarshal_dynamic_ok, validate_bitlist_post.
  - apply le_decode_encode. unfold u64 in *. change (256 ^ Z.of_nat 8) with (2 ^ 64). lia.
  - rewrite <- (le_encode_decode b) at 2. f_equal. unfold len in *. lia.
  - pose proof (le_decode_range b) as Hr. unfold u64. rewrite H in Hr. exact Hr.
  - apply le_decode_encode. unfold u32 in *. change (256 ^ Z.of_nat 4) with (2 ^ 32). lia.
  - rewrite <- (le_encode_decode b) at 2. f_equal. unfold len in *. lia.
  - pose proof (le_decode_range b) as Hr. unfold u32. rewrite H in Hr. exact Hr.
  - apply le_decode_encode. unfold u32 in *. change (256 ^ Z.of_nat 4) with (2 ^ 32). lia.
  - pose proof (le_decode_range b) as Hr. unfold u32. rewrite H in Hr. exact Hr.
  - unfold ref_unmarshal_dynamic. unfold dynamic_length in H.
    destruct (n =? 0) eqn:E; [exists []; left; by rewrite len_nil; split; [lia|]|].
    assert (0 ≤ n).
    { repeat case_match; try discriminate; [injection H as <-; lia|].
      apply (post_Ok _ _ n (divide2_post _ 4 max (proj1 (le_decode_range (take 4 b))) ltac:(lia))) in H.
      lia. }
    rewrite <- (Z2Nat.id n) by done. rewrite !Nat2Z.id.
    apply dynamic_elems_run, le_decode_range.
  - unfold len. rewrite length_resize. lia.
Qed.
