(* ===== verification/Hasher.v ===== *)
(** * The interface of the fastssz hasher

    The [HashTreeRootWith] methods drive a [*ssz.Hasher], a stack of 32-byte
    chunks owned by [github.com/ferranbt/fastssz].  The class [Hasher] lists the
    operations the repository calls; [HasherModel] describes them by what they
    do to the chunk buffer, the combining functions themselves (the hash and
    the padding) staying abstract. *)

From S2P Require Import Prelude.
#[local] Open Scope Z_scope.
#[local] Open Scope go_scope.

Class Hasher := {
  hasher : Type;
  hh_Index : hasher → Z;
  hh_PutBytes : hasher → bytes → hasher;
  hh_PutUint64 : hasher → Z → hasher;
  hh_PutUint32 : hasher → Z → hasher;
  hh_PutBitlist : hasher → bytes → Z → hasher;
  hh_AppendUint64 : hasher → Z → hasher;
  hh_AppendBytes32 : hasher → bytes → hasher;
  hh_FillUpTo32 : hasher → hasher;
  hh_Merkleize : hasher → Z → hasher;
  hh_MerkleizeWithMixin : hasher → Z → Z → Z → hasher;
  CalculateLimit : Z → Z → Z → Z;
  HashWithDefaultHasher : (hasher → res hasher) → res bytes;
}.

(** A whole number of 32-byte chunks. *)
Definition chunked (b : bytes) : Prop := len b `mod` 32 = 0.

Class HasherModel `{!Hasher} := {
  (** the chunk buffer of a hasher, and the hasher a pool hands out *)
  hh_buf : hasher → bytes;
  hh_empty : hasher;
  (** the chunks a value contributes *)
  bytes_chunks : bytes → bytes;
  uint64_chunk : Z → bytes;
  uint32_chunk : Z → bytes;
  bitlist_chunk : bytes → Z → bytes;
  uint64_pack : Z → bytes;
  pad32 : bytes → bytes;
  (** the root of a chunk sequence, without and with a length mixed in *)
  merkleize : bytes → bytes;
  merkleize_mixin : bytes → Z → Z → bytes;

  hh_empty_buf : hh_buf hh_empty = [];
  Index_buf h : hh_Index h = len (hh_buf h);
  PutBytes_buf h b : hh_buf (hh_PutBytes h b) = hh_buf h ++ bytes_chunks b;
  PutUint64_buf h v : hh_buf (hh_PutUint64 h v) = hh_buf h ++ uint64_chunk v;
  PutUint32_buf h v : hh_buf (hh_PutUint32 h v) = hh_buf h ++ uint32_chunk v;
  PutBitlist_buf h b n : hh_buf (hh_PutBitlist h b n) = hh_buf h ++ bitlist_chunk b n;
  AppendUint64_buf h v : hh_buf (hh_AppendUint64 h v) = hh_buf h ++ uint64_pack v;
  AppendBytes32_buf h b : hh_buf (hh_AppendBytes32 h b) = hh_buf h ++ pad32 b;
  FillUpTo32_buf h a b :
    hh_buf h = a ++ b → chunked a → hh_buf (hh_FillUpTo32 h) = a ++ pad32 b;
  Merkleize_buf h a b i :
    hh_buf h = a ++ b → i = len a → hh_buf (hh_Merkleize h i) = a ++ merkleize b;
  MerkleizeWithMixin_buf h a b i n lim :
    hh_buf h = a ++ b → i = len a →
    hh_buf (hh_MerkleizeWithMixin h i n lim) = a ++ merkleize_mixin b n lim;
  bytes_chunks_chunked b : chunked (bytes_chunks b);
  pad32_chunked b : chunked (pad32 b);
  uint64_chunk_len v : len (uint64_chunk v) = 32;
  uint32_chunk_len v : len (uint32_chunk v) = 32;
  bitlist_chunk_len b n : len (bitlist_chunk b n) = 32;
  merkleize_len b : len (merkleize b) = 32;
  merkleize_mixin_len b n lim : len (merkleize_mixin b n lim) = 32;
  HashWithDefaultHasher_ok f h :
    f hh_empty = Ok h → len (hh_buf h) = 32 → HashWithDefaultHasher f = Ok (hh_buf h);
  HashWithDefaultHasher_err f e : f hh_empty = Err e → HashWithDefaultHasher f = Err e;
  HashWithDefaultHasher_panic f : f hh_empty = Panic → HashWithDefaultHasher f = Panic;
}.

Lemma chunked_nil : chunked [].
Proof. reflexivity. Qed.
Lemma chunked_app a b : chunked a → chunked b → chunked (a ++ b).
Proof. unfold chunked. rewrite len_app. intros. rewrite Z.add_mod by lia. by rewrite H, H0. Qed.
Lemma chunked_32 a : len a = 32 → chunked a.
Proof. unfold chunked. by intros ->. Qed.

Create HintDb chunked discriminated.
#[export] Hint Resolve chunked_nil chunked_app bytes_chunks_chunked pad32_chunked : chunked.
#[export] Hint Resolve chunked_32 uint64_chunk_len uint32_chunk_len bitlist_chunk_len
  merkleize_len merkleize_mixin_len : chunked.

(** Hash an object that pushes its root: the hasher's final state holds it. *)
Section hash.
Context `{!Hasher, !HasherModel}.

(** [pushes f c]: on a chunk-aligned hasher, [f] succeeds and appends [c]. *)
Definition pushes (f : hasher → res hasher) (c : bytes) : Prop :=
  ∀ h, chunked (hh_buf h) → ∃ h', f h = Ok h' ∧ hh_buf h' = hh_buf h ++ c.

Lemma HashWithDefaultHasher_pushes f c :
  pushes f c → len c = 32 → HashWithDefaultHasher f = Ok c.
Proof.
  intros Hf Hc. destruct (Hf hh_empty) as (h & Hh & Hb); [rewrite hh_empty_buf; apply chunked_nil|].
  rewrite hh_empty_buf in Hb. rewrite (HashWithDefaultHasher_ok f h Hh); by rewrite Hb.
Qed.
End hash.

(** The root of a container: its fields' chunks, merkleized. *)
Definition container_root `{!Hasher, !HasherModel} (fields : list bytes) : bytes :=
  merkleize (concat fields).

(** Read off the buffer of a hasher after a straight line of operations. *)
Ltac hh_norm :=
  repeat first
    [ rewrite PutBytes_buf | rewrite PutUint64_buf | rewrite PutUint32_buf
    | rewrite PutBitlist_buf | rewrite AppendUint64_buf | rewrite AppendBytes32_buf
    | match goal with H : hh_buf ?h = _ |- context [hh_buf ?h] => rewrite H end ].

(** A list field in the middle of a method: its elements, merkleized with the
    length mixed in. *)
Ltac mixin_step :=
  match goal with
  | |- context [hh_MerkleizeWithMixin ?h' (hh_Index ?h) ?n ?lim] =>
      let x := fresh "hm" in
      let Hb := fresh "Hm" in
      eassert (hh_buf (hh_MerkleizeWithMixin h' (hh_Index h) n lim) = _) as Hb
        by (eapply MerkleizeWithMixin_buf; [hh_norm; reflexivity|];
            rewrite Index_buf; hh_norm; reflexivity);
      cbn in Hb;
      generalize dependent (hh_MerkleizeWithMixin h' (hh_Index h) n lim); intros x Hb
  end.

(** A method that merkleizes what it pushed since its start appends a root. *)
Ltac merkleize_tac :=
  eexists; split; [reflexivity|];
  unfold container_root; cbn [concat]; rewrite ?app_nil_r;
  eapply Merkleize_buf; [hh_norm; rewrite <- ?app_assoc; reflexivity|apply Index_buf].
