(* ===== verification/HasherRef.v ===== *)
(** * A hasher that fulfils the hasher's contract

    An executable instance of [Hasher] and [HasherModel].  Its combining
    functions truncate instead of hashing: it shows that the contract can be met,
    and lets the theorems that rest on it be evaluated on concrete inputs. *)

From S2P Require Import Prelude Numeral Hasher.
#[local] Open Scope Z_scope.
#[local] Open Scope go_scope.

(** The first 32 bytes, zero-padded. *)
Definition chunk32 (b : bytes) : bytes := take 32 (b ++ zeros 32).

(** Zero-pad to a whole number of chunks. *)
Definition pad_chunks (b : bytes) : bytes :=
  b ++ zeros (Z.to_nat ((- len b) `mod` 32)).

Definition ref_merkleize (b : bytes) (i : Z) : bytes :=
  take (Z.to_nat i) b ++ chunk32 (drop (Z.to_nat i) b).
Definition ref_mixin (b : bytes) (i n lim : Z) : bytes :=
  take (Z.to_nat i) b ++ chunk32 (le_encode 2 n ++ drop (Z.to_nat i) b).

#[export] Instance ref_hasher : Hasher := {|
  hasher := bytes;
  hh_Index := len;
  hh_PutBytes h b := h ++ pad_chunks b;
  hh_PutUint64 h v := h ++ chunk32 (le_encode 8 v);
  hh_PutUint32 h v := h ++ chunk32 (le_encode 4 v);
  hh_PutBitlist h b n := h ++ chunk32 b;
  hh_AppendUint64 h v := h ++ le_encode 8 v;
  hh_AppendBytes32 h b := h ++ pad_chunks b;
  hh_FillUpTo32 := pad_chunks;
  hh_Merkleize := ref_merkleize;
  hh_MerkleizeWithMixin := ref_mixin;
  CalculateLimit max _ size := (max * size + 31) / 32;
  HashWithDefaultHasher f :=
    h ← f []; if len h =? 32 then Ok h else Err (Lib "expected 32 byte size");
|}.

Lemma chunk32_len b : len (chunk32 b) = 32.
Proof.
  unfold chunk32, len, zeros. rewrite length_take, length_app, length_replicate. lia.
Qed.

Lemma pad_chunks_chunked b : chunked (pad_chunks b).
Proof.
  unfold chunked, pad_chunks. rewrite len_app, len_zeros.
  pose proof (Z.mod_pos_bound (- len b) 32). rewrite Z2Nat.id by lia.
  rewrite Z.add_mod_idemp_r by lia. by replace (len b + - len b) with 0 by lia.
Qed.

Lemma pad_chunks_app a b : chunked a → pad_chunks (a ++ b) = a ++ pad_chunks b.
Proof.
  unfold chunked, pad_chunks. intros Ha. rewrite <- app_assoc. do 4 f_equal.
  rewrite len_app. rewrite Z.opp_add_distr, Z.add_mod by lia.
  rewrite Z.mod_opp_l_z by lia. rewrite Z.add_0_l. by rewrite Z.mod_mod by lia.
Qed.

Lemma len_split (a b : bytes) i :
  i = len a → take (Z.to_nat i) (a ++ b) = a ∧ drop (Z.to_nat i) (a ++ b) = b.
Proof. intros ->. by rewrite len_to_nat, take_app_length, drop_app_length. Qed.

#[export, refine] Instance ref_hasher_model : @HasherModel ref_hasher := {|
  hh_buf := λ h : @hasher ref_hasher, h;
  hh_empty := [];
  bytes_chunks := pad_chunks;
  uint64_chunk v := chunk32 (le_encode 8 v);
  uint32_chunk v := chunk32 (le_encode 4 v);
  bitlist_chunk b _ := chunk32 b;
  uint64_pack := le_encode 8;
  pad32 := pad_chunks;
  merkleize := chunk32;
  merkleize_mixin b n _ := chunk32 (le_encode 2 n ++ b);
|}.
Proof.
  all: try (intros; reflexivity).
  all: try (intros; apply chunk32_len).
  all: try (intros; apply pad_chunks_chunked).
  - cbn. intros h a b -> Ha. by apply pad_chunks_app.
  - cbn. intros h a b i -> Hi. unfold ref_merkleize. by destruct (len_split a b i Hi) as [-> ->].
  - cbn. intros h a b i n lim -> Hi. unfold ref_mixin.
    by destruct (len_split a b i Hi) as [-> ->].
  - cbn. intros f h -> Hh. cbn. by rewrite Hh, Z.eqb_refl.
  - cbn. by intros f e ->.
  - cbn. by intros f ->.
Defined.
