(* ===== verification/SszObject.v ===== *)
(** * The methods every SSZ container has

    Each container type of [types/builder_encoding.go] has the methods
    [MarshalSSZTo], [UnmarshalSSZ], [SizeSSZ] and [HashTreeRootWith], and calls
    them on the containers it holds.  The classes [Codec] and [Hashable] are
    those method sets; [CodecLaws] and [HashableLaws] are the contract the outer
    container relies on and every container is proved to fulfil.  The loops the
    generated code repeats for each list field are defined here once, over the
    class. *)

From S2P Require Import Prelude Fastssz Hasher.
#[local] Open Scope Z_scope.
#[local] Open Scope go_scope.

(** ** The codec methods *)

(** A method returns the receiver as it leaves it: marshalling and sizing
    allocate the nil pointers they meet.  When a method returns an error the
    receiver and buffer it leaves behind are not described: no caller reads
    them. *)
Class Codec `{!SSZ} (T : Type) := {
  new : T;
  marshalSSZTo : T → bytes → res (T * bytes);
  unmarshalSSZ : T → bytes → res T;
  sizeSSZ : T → res (T * Z);
}.

(** What a container promises.  [wf] is the representation invariant: every
    pointer is set, every array has its declared length, every integer its
    width, every list respects its limit.  [enc] is its SSZ serialization. *)
Class CodecSpec `{!SSZ} (T : Type) := {
  wf : T → Prop;
  enc : T → bytes;
  max_size : Z;
}.

Class CodecLaws `{!SSZ} (T : Type) `{!Codec T, !CodecSpec T} : Prop := {
  marshal_enc (x : T) dst : wf x → marshalSSZTo x dst = Ok (x, dst ++ enc x);
  size_enc (x : T) : wf x → sizeSSZ x = Ok (x, len (enc x));
  unmarshal_enc (x : T) : wf x → unmarshalSSZ new (enc x) = Ok x;
  unmarshal_wf b : unmarshalSSZ new b ⇓ @wf _ T _;
  enc_max (x : T) : wf x → len (enc x) ≤ max_size (T := T);
}.

Section codec_laws.
Context `{!SSZ} {T : Type} `{!Codec T, !CodecSpec T, !CodecLaws T}.

Lemma codec_roundtrip (x : T) :
  wf x →
  ∃ out, marshalSSZTo x [] = Ok (x, out) ∧ sizeSSZ x = Ok (x, len out) ∧
         unmarshalSSZ new out = Ok x.
Proof.
  intros Hx. exists (enc x).
  split; [exact (marshal_enc x [] Hx)|]. split; [by apply size_enc|by apply unmarshal_enc].
Qed.

Lemma codec_injective (x y : T) out :
  wf x → wf y → marshalSSZTo x [] = Ok (x, out) → marshalSSZTo y [] = Ok (y, out) → x = y.
Proof.
  intros Hx Hy. rewrite !marshal_enc, !app_nil_l by done. intros Ex Ey.
  pose proof (unmarshal_enc x Hx). pose proof (unmarshal_enc y Hy). congruence.
Qed.
End codec_laws.

(** A container of constant size [n] whose encoding is canonical. *)
Class FixedSize `{!SSZ} (T : Type) `{!Codec T, !CodecSpec T} (n : Z) : Prop := {
  enc_len (x : T) : wf x → len (enc x) = n;
  unmarshal_canonical b (x : T) : unmarshalSSZ new b = Ok x → enc x = b;
}.

(** ** The hashing method *)
Class Hashable `{!Hasher} (T : Type) := {
  hashTreeRootWith : T → hasher → res hasher;
}.

(** [x.HashTreeRoot()]: [ssz.HashWithDefaultHasher(x)]. *)
Definition HashTreeRoot `{!Hasher} {T} `{!Hashable T} (x : T) : res bytes :=
  HashWithDefaultHasher (hashTreeRootWith x).

(** [root] is the hash tree root the SSZ specification gives the container. *)
Class HashableSpec `{!Hasher, !HasherModel} (T : Type) := {
  root : T → bytes;
  root_len (x : T) : len (root x) = 32;
}.

Class HashableLaws `{!SSZ, !Hasher, !HasherModel} (T : Type)
    `{!CodecSpec T, !Hashable T, !HashableSpec T} : Prop := {
  root_pushes (x : T) : wf x → pushes (hashTreeRootWith x) (root x);
}.

#[export] Hint Resolve root_len : chunked.

Lemma HashTreeRoot_root `{HashableLaws T} (x : T) : wf x → HashTreeRoot x = Ok (root x).
Proof. intros. apply HashWithDefaultHasher_pushes; [by apply root_pushes|apply root_len]. Qed.

(** ** The loops over list fields *)
Section loops.
Context `{!SSZ} {T : Type} `{!Codec T}.

(** [for ii := 0; ii < len(l); ii++ { offset += 4; offset += l[ii].SizeSSZ() }];
    a method call on a nil element panics. *)
Fixpoint sizes_loop (l : list (option T)) (offset : Z) : res (list (option T) * Z) :=
  match l with
  | [] => Ok ([], offset)
  | p :: l =>
      x ← deref p;
      '(x, n) ← sizeSSZ x;
      '(l, offset) ← sizes_loop l (offset + 4 + n);
      Ok (Some x :: l, offset)
  end.

(** [for ii := 0; ii < len(l); ii++ { dst = ssz.WriteOffset(dst, offset);
    offset += l[ii].SizeSSZ() }]. *)
Fixpoint offsets_loop (l : list (option T)) (dst : bytes) (offset : Z)
    : res (list (option T) * bytes) :=
  match l with
  | [] => Ok ([], dst)
  | p :: l =>
      let dst := WriteOffset dst offset in
      x ← deref p;
      '(x, n) ← sizeSSZ x;
      '(l, dst) ← offsets_loop l dst (offset + n);
      Ok (Some x :: l, dst)
  end.

(** [for ii := 0; ii < len(l); ii++ { if dst, err = l[ii].MarshalSSZTo(dst);
    err != nil { return } }]. *)
Fixpoint marshal_loop (l : list (option T)) (dst : bytes) : res (list (option T) * bytes) :=
  match l with
  | [] => Ok ([], dst)
  | p :: l =>
      x ← deref p;
      '(x, dst) ← marshalSSZTo x dst;
      '(l, dst) ← marshal_loop l dst;
      Ok (Some x :: l, dst)
  end.

(** The field's buffer is cut into [size]-byte elements. *)
Definition unmarshal_fixed_list (size max : Z) (buf : bytes) : res (list (option T)) :=
  num ← DivideInt2 (len buf) size max;
  for_range num (λ ii l,
    cur ← get_index l ii;
    b ← slice buf (ii * size) ((ii + 1) * size);
    x ← unmarshalSSZ (default new cur) b;
    set_index l ii (Some x)) (replicate (Z.to_nat num) None).

(** The field's buffer starts with the offsets of its elements. *)
Definition unmarshal_dynamic_list (max : Z) (buf : bytes) : res (list (option T)) :=
  num ← DecodeDynamicLength buf max;
  UnmarshalDynamic buf num (λ indx b l,
    cur ← get_index l indx;
    x ← unmarshalSSZ (default new cur) b;
    set_index l indx (Some x)) (replicate (Z.to_nat num) None).
End loops.

Section hash_loops.
Context `{!Hasher} {T : Type} `{!Hashable T}.

(** [for _, elem := range l { if err = elem.HashTreeRootWith(hh); ... }]. *)
Fixpoint hash_loop (l : list (option T)) (hh : hasher) : res hasher :=
  match l with
  | [] => Ok hh
  | p :: l => x ← deref p; hh ← hashTreeRootWith x hh; hash_loop l hh
  end.

(** A list field: the limit check, the elements, the length mixed in. *)
Definition hash_list (l : list (option T)) (limit : Z) (hh : hasher) : res hasher :=
  let subIndx := hh_Index hh in
  let num := len l in
  if limit <? num then Err ErrIncorrectListSize else
  hh ← hash_loop l hh;
  Ok (hh_MerkleizeWithMixin hh subIndx num limit).
End hash_loops.

(** ** Their contracts *)

Definition enc_ptr `{!SSZ} {T} `{!CodecSpec T} (p : option T) : bytes :=
  match p with Some x => enc x | None => [] end.
Definition root_ptr `{!Hasher, !HasherModel} {T} `{!HashableSpec T} (p : option T) : bytes :=
  match p with Some x => root x | None => [] end.

(** A list field that respects its limit and holds no nil or ill-formed element. *)
Definition wf_list `{!SSZ} {T} `{!CodecSpec T} (limit : Z) (l : list (option T)) : Prop :=
  len l ≤ limit ∧ Forall (ptr wf) l.

Lemma get_index_ok {A} (l : list A) i x :
  0 ≤ i → l !! Z.to_nat i = Some x → get_index l i = Ok x.
Proof. intros. unfold get_index. replace (0 <=? i) with true by lia. by rewrite H0. Qed.

Lemma get_index_next {A} (l1 l2 : list A) i y :
  i = len l1 → get_index (l1 ++ y :: l2) i = Ok y.
Proof.
  intros ->. apply get_index_ok; [apply len_nonneg|].
  rewrite len_to_nat. apply list_lookup_middle. done.
Qed.

Section loop_laws.
Context `{!SSZ, !SSZLaws} {T : Type} `{!Codec T, !CodecSpec T, !CodecLaws T}.
Implicit Types l : list (option T).

Lemma marshal_loop_enc l dst :
  Forall (ptr wf) l → marshal_loop l dst = Ok (l, dst ++ concat (enc_ptr <$> l)).
Proof.
  intros Hl. revert dst. induction Hl as [|[x|] l Hx Hl IH]; intros dst; csimpl in *; [|..|done].
  - by rewrite app_nil_r.
  - rewrite marshal_enc by done. cbn [mbind res_bind]. rewrite IH. cbn [mbind res_bind]. by rewrite <- app_assoc.
Qed.

Lemma sizes_loop_enc l offset :
  Forall (ptr wf) l →
  sizes_loop l offset = Ok (l, offset + len (var_list (enc_ptr <$> l))).
Proof.
  intros Hl. rewrite var_list_len, len_fmap. revert offset.
  induction Hl as [|[x|] l Hx Hl IH]; intros offset; csimpl in *; [|..|done].
  - unfold len. cbn. by rewrite Z.add_0_r.
  - rewrite size_enc by done. cbn [mbind res_bind]. rewrite IH. cbn [mbind res_bind]. rewrite len_cons, len_app.
    do 2 f_equal. lia.
Qed.

Lemma offsets_loop_enc l dst offset :
  Forall (ptr wf) l →
  offsets_loop l dst offset = Ok (l, dst ++ fixed_region offset (Var <$> (enc_ptr <$> l))).
Proof.
  intros Hl. revert dst offset.
  induction Hl as [|[x|] l Hx Hl IH]; intros dst offset; csimpl in *; [|..|done].
  - by rewrite app_nil_r.
  - rewrite size_enc by done. cbn [mbind res_bind]. rewrite IH. cbn [mbind res_bind]. by rewrite WriteOffset_eq, <- app_assoc.
Qed.

Lemma var_list_fold l r :
  fixed_region (4 * len l) (Var <$> (enc_ptr <$> l)) ++ concat (enc_ptr <$> l) ++ r
  = var_list (enc_ptr <$> l) ++ r.
Proof.
  unfold var_list, container.
  by rewrite fixed_len_fmap, var_region_fmap, len_fmap, <- app_assoc.
Qed.

(** The two loops that write a list of variable-size elements write
    [var_list] of their encodings. *)
Lemma var_list_loops l dst :
  Forall (ptr wf) l →
  ('(l, dst) ← offsets_loop l dst (4 * len l); marshal_loop l dst)
  = Ok (l, dst ++ var_list (enc_ptr <$> l)).
Proof.
  intros Hl. rewrite offsets_loop_enc by done. cbn [mbind res_bind]. rewrite marshal_loop_enc by done.
  unfold var_list, container.
  by rewrite fixed_len_fmap, var_region_fmap, len_fmap, <- app_assoc.
Qed.

Lemma enc_list_max l :
  Forall (ptr wf) l → len (concat (enc_ptr <$> l)) ≤ len l * max_size (T := T).
Proof.
  induction 1 as [|[x|] l Hx Hl IH]; csimpl in *; [done|..|done].
  rewrite len_app, len_cons. pose proof (enc_max x Hx). lia.
Qed.

(** Filling slot [i] of the list under construction. *)
Lemma fill_slot l n i x b :
  wf x → i = len l → b = enc x →
  (cur ← get_index (l ++ replicate (S n) None) i;
   x ← unmarshalSSZ (default new cur) b;
   set_index (l ++ replicate (S n) None) i (Some x))
  = Ok ((l ++ [Some x]) ++ replicate n None).
Proof.
  intros Hx Hi ->. cbn [replicate]. rewrite get_index_next by done. cbn [mbind res_bind default].
  rewrite unmarshal_enc by done. cbn [mbind res_bind]. by apply set_index_next.
Qed.

Lemma dynamic_fill l l0 n i :
  Forall (ptr wf) l → i = len l0 → n = length l →
  dynamic_run (λ indx b l,
    cur ← get_index l indx;
    x ← unmarshalSSZ (default new cur) b;
    set_index l indx (Some x)) i (enc_ptr <$> l) (l0 ++ replicate n None)
  = Ok (l0 ++ l).
Proof.
  intros Hl. revert l0 n i.
  induction Hl as [|[x|] l Hx Hl IH]; intros l0 n i Hi ->; [|..|destruct Hx].
  - done.
  - rewrite fmap_cons. cbn [dynamic_run length]. rewrite (fill_slot l0 _ i x) by done.
    cbn [mbind res_bind]. rewrite IH; [by rewrite <- app_assoc| |done].
    rewrite len_app, len_cons, len_nil. lia.
Qed.

Lemma var_list_max m limit l :
  max_size (T := T) = m → 0 ≤ m → wf_list limit l →
  len (var_list (enc_ptr <$> l)) ≤ limit * (4 + m).
Proof.
  intros <- Hm [Hlim Hl]. rewrite var_list_len, len_fmap.
  pose proof (enc_list_max l Hl). pose proof (len_nonneg l). nia.
Qed.

Lemma unmarshal_dynamic_list_enc l max :
  wf_list max l → u32 (len (var_list (enc_ptr <$> l))) →
  unmarshal_dynamic_list max (var_list (enc_ptr <$> l)) = Ok l.
Proof.
  intros [Hmax Hl] Hu. unfold unmarshal_dynamic_list.
  pose proof (len_nonneg l). pose proof (len_nonneg (concat (enc_ptr <$> l))).
  assert (u32 (4 * len (enc_ptr <$> l))).
  { rewrite var_list_len, len_fmap in Hu. rewrite len_fmap. unfold u32 in *. lia. }
  rewrite DecodeDynamicLength_ok; [|by rewrite len_fmap|done].
  cbn [mbind res_bind]. rewrite UnmarshalDynamic_ok by done.
  rewrite len_fmap, len_to_nat. by apply (dynamic_fill l [] _ 0).
Qed.

Lemma concat_enc_len n l :
  FixedSize T n → Forall (ptr wf) l → len (concat (enc_ptr <$> l)) = len l * n.
Proof.
  intros Hn. induction 1 as [|[x|] l Hx Hl IH]; csimpl in *; [done|..|done].
  rewrite len_app, len_cons, enc_len, IH by done. lia.
Qed.

(** The [j]-th element of a list of fixed-size elements. *)
Lemma slice_elem n l j x :
  FixedSize T n → Forall (ptr wf) l → 0 ≤ j → l !! Z.to_nat j = Some (Some x) → wf x →
  slice (concat (enc_ptr <$> l)) (j * n) ((j + 1) * n) = Ok (enc x).
Proof.
  intros Hn Hl Hj Hp Hx. pose proof (lookup_lt_Some _ _ _ Hp).
  rewrite <- (take_drop_middle l _ _ Hp).
  rewrite fmap_app, fmap_cons, concat_app. cbn [concat enc_ptr]. apply slice_mid.
  - rewrite (concat_enc_len n) by (try done; by apply Forall_take).
    unfold len. rewrite length_take. f_equal. lia.
  - rewrite enc_len by done. lia.
Qed.

Lemma unmarshal_fixed_list_enc n max l :
  FixedSize T n → 0 < n → wf_list max l →
  unmarshal_fixed_list n max (concat (enc_ptr <$> l)) = Ok l.
Proof.
  intros Hn Hpos [Hmax Hl]. unfold unmarshal_fixed_list. pose proof (len_nonneg l).
  rewrite (concat_enc_len n) by done. rewrite DivideInt2_ok by lia.
  cbn [mbind res_bind].
  pose (g := λ j, take (Z.to_nat j) l ++ replicate (Z.to_nat (len l - j)) None).
  assert (g 0 = replicate (Z.to_nat (len l)) None) as <- by (unfold g; by rewrite Z.sub_0_r).
  assert (g (len l) = l) as Hg.
  { unfold g. by rewrite Z.sub_diag, len_to_nat, firstn_all, app_nil_r. }
  transitivity (Ok (g (len l))); [|by rewrite Hg].
  apply for_range_eq; [done|]. intros j Hj.
  destruct (lookup_lt_is_Some_2 l (Z.to_nat j)) as [p Hp]; [unfold len in *; lia|].
  pose proof (Forall_lookup_1 _ _ _ _ Hl Hp) as Hx. apply ptr_inv in Hx as (x & -> & Hx).
  rewrite (slice_elem n l j x) by (done || lia). unfold g.
  replace (Z.to_nat (len l - j)) with (S (Z.to_nat (len l - (j + 1)))) by lia.
  replace (Z.to_nat (j + 1)) with (S (Z.to_nat j)) by lia.
  rewrite (take_S_r l _ (Some x) Hp).
  apply (fill_slot _ _ j x (enc x)); [done| |done].
  unfold len. rewrite length_take. unfold len in *. lia.
Qed.

(** Whatever the buffer, a slot is filled with a well-formed element. *)
Lemma fill_slot_wf l n i b :
  i = len l →
  (cur ← get_index (l ++ replicate (S n) None) i;
   x ← unmarshalSSZ (default new cur) b;
   set_index (l ++ replicate (S n) None) i (Some x))
  ⇓ λ l', ∃ x, wf x ∧ l' = (l ++ [Some x]) ++ replicate n None.
Proof.
  intros Hi. cbn [replicate]. rewrite get_index_next by done. cbn [mbind res_bind default].
  eapply post_bind; [apply unmarshal_wf|]. intros x Hx. cbv beta.
  rewrite (set_index_next _ _ _ (Some x)) by done. simpl. by exists x.
Qed.

Lemma Forall_snoc_ptr l x : Forall (ptr wf) l → wf x → Forall (ptr wf) (l ++ [Some x]).
Proof. intros. apply Forall_app; split; [done|]. by repeat constructor. Qed.

Lemma unmarshal_fixed_list_wf n max buf :
  0 < n → unmarshal_fixed_list n max buf ⇓ wf_list max.
Proof.
  intros Hpos. unfold unmarshal_fixed_list.
  eapply post_bind; [apply DivideInt2_post; [apply len_nonneg|done]|].
  intros num [Hbuf Hnum]. cbv beta.
  eapply post_impl.
  - apply (for_range_post _ (λ j l, ∃ l0, len l0 = j ∧ Forall (ptr wf) l0
      ∧ l = l0 ++ replicate (Z.to_nat (num - j)) None)); [lia| |].
    + intros j l Hj (l0 & Hlen & Hl0 & ->).
      replace (Z.to_nat (num - j)) with (S (Z.to_nat (num - (j + 1)))) by lia.
      rewrite slice_ok by nia.
      eapply post_impl; [apply (fill_slot_wf l0 _ j); done|].
      intros l' (x & Hx & ->). exists (l0 ++ [Some x]). rewrite len_app, len_cons, len_nil.
      split; [lia|]. split; [by apply Forall_snoc_ptr|done].
    + exists []. by rewrite Z.sub_0_r.
  - intros l (l0 & Hlen & Hl0 & ->). rewrite Z.sub_diag. simpl. rewrite app_nil_r.
    split; [lia|done].
Qed.

Lemma dynamic_run_wf n es l0 i :
  i = len l0 → (length es ≤ n)%nat → Forall (ptr wf) l0 →
  dynamic_run (λ indx b l,
    cur ← get_index l indx;
    x ← unmarshalSSZ (default new cur) b;
    set_index l indx (Some x)) i es (l0 ++ replicate n None)
  ⇓ λ l, ∃ l1, len l1 = len l0 + len es ∧ Forall (ptr wf) l1
              ∧ l = l1 ++ replicate (n - length es) None.
Proof.
  revert n l0 i. induction es as [|e es IH]; intros n l0 i Hi Hn Hl0; cbn [dynamic_run].
  - exists l0. rewrite len_nil, Z.add_0_r. simpl. by rewrite Nat.sub_0_r.
  - destruct n as [|n]; [simpl in Hn; lia|].
    eapply post_bind; [by apply fill_slot_wf|]. intros l' (x & Hx & ->). cbv beta.
    eapply post_impl; [apply IH|].
    + rewrite len_app, len_cons, len_nil. lia.
    + simpl in Hn. lia.
    + by apply Forall_snoc_ptr.
    + intros l (l1 & Hlen & Hl1 & ->). exists l1.
      rewrite len_app, !len_cons, len_nil in *. split; [lia|]. split; [done|]. done.
Qed.

Lemma unmarshal_dynamic_list_wf max buf :
  0 ≤ max → unmarshal_dynamic_list max buf ⇓ wf_list max.
Proof.
  intros Hmax. unfold unmarshal_dynamic_list.
  destruct (DecodeDynamicLength buf max) as [n|e|] eqn:E; cbn [mbind res_bind]; [|done|].
  2: { pose proof (DecodeDynamicLength_post buf max Hmax) as H'. by rewrite E in H'. }
  assert (0 ≤ n ≤ max) as Hn.
  { pose proof (DecodeDynamicLength_post buf max Hmax) as H'. by rewrite E in H'. }
  destruct (UnmarshalDynamic_run _ _ _ _ (λ indx b l,
    cur ← get_index l indx;
    x ← unmarshalSSZ (default new cur) b;
    set_index l indx (Some x)) (replicate (Z.to_nat n) None) E)
    as (es & [[Hes ->]|[Hes [e ->]]]);
    (assert (length es ≤ Z.to_nat n)%nat as Hle by (unfold len in *; lia));
    pose proof (dynamic_run_wf (Z.to_nat n) es [] 0 eq_refl Hle (Forall_nil_2 _)) as Hrun;
    rewrite app_nil_l in Hrun.
  - eapply post_impl; [exact Hrun|]. intros l (l1 & Hlen & Hl1 & ->).
    replace (Z.to_nat n - length es)%nat with 0%nat by (unfold len in *; lia).
    simpl. rewrite app_nil_r. rewrite len_nil in Hlen. split; [lia|done].
  - eapply post_bind; [exact Hrun|]. done.
Qed.
End loop_laws.

Section hash_loop_laws.
Context `{!SSZ, !Hasher, !HasherModel} {T : Type}.
Context `{!CodecSpec T, !Hashable T, !HashableSpec T, !HashableLaws T}.

Lemma hash_loop_pushes (l : list (option T)) :
  Forall (ptr wf) l → pushes (hash_loop l) (concat (root_ptr <$> l)).
Proof.
  induction 1 as [|[x|] l Hx Hl IH]; intros h Hh; csimpl; [|..|destruct Hx].
  - exists h. by rewrite app_nil_r.
  - destruct (root_pushes x Hx h Hh) as (h1 & -> & Hb1). cbn [mbind res_bind].
    destruct (IH h1) as (h2 & -> & Hb2).
    + rewrite Hb1. auto with chunked.
    + exists h2. by rewrite Hb2, Hb1, app_assoc.
Qed.

(** A list field pushes the SSZ root of the list: its elements' roots,
    merkleized to the limit, with the length mixed in. *)
Definition list_root (limit : Z) (l : list (option T)) : bytes :=
  merkleize_mixin (concat (root_ptr <$> l)) (len l) limit.

Lemma hash_list_pushes l limit :
  wf_list limit l → pushes (hash_list l limit) (list_root limit l).
Proof.
  intros [Hlim Hl] h Hh. unfold hash_list. replace (limit <? len l) with false by lia.
  destruct (hash_loop_pushes l Hl h Hh) as (h' & -> & Hb). cbn [mbind res_bind].
  eexists. split; [done|]. apply MerkleizeWithMixin_buf; [done|]. apply Index_buf.
Qed.
End hash_loop_laws.

(** ** Automation for the containers *)

(** Open the representation invariant of a destructed container. *)
Ltac open_wf :=
  match goal with H : wf _ |- _ => hnf in H; cbn in H end;
  repeat match goal with
  | H : _ ∧ _ |- _ => destruct H
  | H : ptr _ _ |- _ => apply ptr_inv in H as (? & -> & ?)
  end.

(** Prove a fact about the length of a concatenation. *)
Ltac len_norm :=
  rewrite ?len_app;
  repeat match goal with
  | |- context [len ?a] =>
      let H := fresh in
      eassert (len a = _) as H by (eauto 4 with len nocore); rewrite H; clear H
  end; first [reflexivity | lia].

(** Write an encoding as a right-nested concatenation of its parts. *)
Ltac enc_norm :=
  unfold container; cbn;
  rewrite ?MarshalUint64_eq, ?MarshalUint32_eq, ?WriteOffset_eq, ?app_nil_r, <- ?app_assoc.

Ltac children :=
  repeat first
    [ rewrite marshal_enc by eassumption
    | rewrite size_enc by eassumption
    | rewrite unmarshal_enc by eassumption ];
  cbn [mbind res_bind default].

(** [marshal_enc]: the written bytes are the specified parts. *)
Ltac marshal_tac := repeat (progress children); enc_norm; reflexivity.

(** The size check at the head of [UnmarshalSSZ] passes. *)
Ltac size_check :=
  match goal with
  | |- context [negb (len ?b =? ?n)] =>
      replace (len b) with n by (symmetry; len_norm); rewrite Z.eqb_refl; cbn [negb]
  | |- context [len ?b <? ?n] =>
      rewrite (proj2 (Z.ltb_ge (len b) n)) by len_norm
  end.

(** [unmarshal_enc]: every field is read back from its own slice. *)
Ltac read_back :=
  repeat first
    [ progress slices
    | rewrite unmarshal_enc by eassumption; cbn [mbind res_bind default]
    | rewrite copy_same by (first [eassumption | rewrite len_zeros; eassumption | len_norm])
    | rewrite uint64_bytes_roundtrip by eassumption
    | rewrite uint32_bytes_roundtrip by eassumption ].
Ltac unmarshal_tac := enc_norm; size_check; read_back; reflexivity.

(** The content of a variable-size part: [F] is the fixed region, [vs] the
    contents in order. *)
Lemma slice_concat {A} (F : list A) vs i v lo hi :
  vs !! i = Some v → lo = len F + len (concat (take i vs)) → hi = lo + len v →
  slice (F ++ concat vs) lo hi = Ok v.
Proof.
  intros Hv Hlo Hhi. rewrite <- (take_drop_middle vs i v Hv) at 1.
  rewrite concat_app, app_assoc. cbn [concat]. apply slice_mid; [by rewrite len_app|done].
Qed.

Lemma slice_from_concat {A} (F : list A) vs v lo :
  lo = len F + len (concat vs) → slice_from (F ++ concat (vs ++ [v])) lo = Ok v.
Proof.
  intros Hlo. rewrite concat_app, app_assoc. cbn [concat]. rewrite app_nil_r.
  apply slice_from_app. by rewrite len_app.
Qed.

(** Pass the guards and offset checks of a variable-size container. *)
Ltac guards :=
  rewrite ?offset_bytes_roundtrip by (unfold u32; lia);
  repeat match goal with
  | |- context [?a <? ?b] => rewrite (proj2 (Z.ltb_ge a b)) by lia
  end; cbn [orb].

(** Read a variable-size container back: first the fixed region, then, once
    the offsets are known, the [i]-th variable part. *)
Ltac bounds :=
  repeat match goal with
  | H : wf ?x |- _ =>
      lazymatch goal with
      | _ : 0 ≤ len (enc x) |- _ => fail
      | _ => pose proof (len_nonneg (enc x))
      end;
      let Hm := fresh "Hmax" in
      pose proof (enc_max x H) as Hm;
      lazymatch type of Hm with
      | _ ≤ ?m => let v := eval vm_compute in m in change m with v in Hm
      end
  end.
Ltac read_fixed :=
  repeat match goal with
  | |- context [slice (?F ++ concat ?vs) ?lo ?hi] =>
      rewrite (slice_prefix F (concat vs) lo hi) by len_norm
  end; read_back; guards.
Ltac read_var i :=
  match goal with
  | |- context [slice (?F ++ concat ?vs) ?lo ?hi] =>
      let v := eval cbn in (default [] (vs !! i)) in
      rewrite (slice_concat F vs i v lo hi) by (first [reflexivity | cbn [concat take]; len_norm])
  | |- context [slice_from (?F ++ concat ?vs) ?lo] =>
      let vs' := eval cbn in (take i vs) in
      let v := eval cbn in (default [] (vs !! i)) in
      change (concat vs) with (concat (vs' ++ [v]));
      rewrite (slice_from_concat F vs' v lo) by (cbn [concat]; len_norm)
  end; cbn [mbind res_bind].

(** [unmarshal_wf]: walk the decoder; slices are in range after the size
    check, children return well-formed values. *)
Ltac post_step :=
  match goal with
  | |- (if ?c then _ else _) ⇓ _ => destruct c eqn:?; [exact I|]
  | H : len ?b = 4 - 0 |- context [ReadOffset ?b] =>
      lazymatch goal with
      | _ : 0 ≤ ReadOffset b < _ |- _ => fail
      | _ => pose proof (ReadOffset_range b H : 0 ≤ ReadOffset b < 2 ^ 32)
      end
  | |- slice _ _ _ ≫= _ ⇓ _ =>
      eapply post_bind; [apply post_slice; lia|intros ? ?; cbv beta in *]
  | |- slice_from _ _ ≫= _ ⇓ _ =>
      eapply post_bind; [apply post_slice_from; lia|intros ? ?; cbv beta in *]
  | |- unmarshal_fixed_list _ _ _ ≫= _ ⇓ _ =>
      eapply post_bind; [apply unmarshal_fixed_list_wf; lia|intros ? ?; cbv beta in *]
  | |- unmarshal_dynamic_list _ _ ≫= _ ⇓ _ =>
      eapply post_bind; [apply unmarshal_dynamic_list_wf; lia|intros ? ?; cbv beta in *]
  | |- DivideInt2 _ _ _ ≫= _ ⇓ _ =>
      eapply post_bind; [apply DivideInt2_post; lia|intros ? [? ?]; cbv beta in *]
  | |- unmarshalSSZ (default ?n ?p) _ ≫= _ ⇓ _ => change (default n p) with n
  | |- unmarshalSSZ new _ ≫= _ ⇓ _ =>
      eapply post_bind; [apply unmarshal_wf|intros ? ?; cbv beta in *]
  end.

Ltac wf_fields :=
  hnf; cbn; repeat match goal with |- _ ∧ _ => split end;
  rewrite ?len_copy, ?len_zeros;
  solve [ reflexivity | assumption | lia
        | apply UnmarshallUint64_range; lia
        | apply UnmarshallUint32_range; lia ].
Ltac unmarshal_wf_tac :=
  repeat post_step; wf_fields.

(** [unmarshal_canonical]: glue the slices a constant-size decoder read. *)
Lemma slice_glue {A} (b x y : list A) lo mid hi :
  slice b lo mid = Ok x → slice b mid hi = Ok y → slice b lo hi = Ok (x ++ y).
Proof.
  intros Hx Hy. pose proof (slice_inv _ _ _ _ Hx) as (? & ? & ?).
  pose proof (slice_inv _ _ _ _ Hy) as (? & ? & ?).
  rewrite slice_ok in Hx by lia. rewrite slice_ok in Hy by lia. rewrite slice_ok by lia.
  injection Hx as <-. injection Hy as <-. f_equal.
  replace (Z.to_nat (hi - lo)) with (Z.to_nat (mid - lo) + Z.to_nat (hi - mid))%nat by lia.
  rewrite <- take_take_drop, drop_drop. do 3 f_equal. lia.
Qed.

Lemma slice_whole {A} (b x : list A) n : len b = n → slice b 0 n = Ok x → b = x.
Proof.
  intros Hn H. rewrite <- (app_nil_r b) in H. rewrite (slice_hd b [] n Hn) in H. congruence.
Qed.

Ltac invert_binds :=
  repeat match goal with
  | H : (if ?c then _ else _) = Ok _ |- _ => destruct c eqn:?; [discriminate H|]
  | H : (_ ≫= _) = Ok _ |- _ =>
      apply bind_Ok_inv in H as (? & ? & H); cbv beta in H
  end.

Ltac glue_slices :=
  repeat match goal with
  | H1 : slice ?b 0 ?m = Ok _, H2 : slice ?b ?m _ = Ok _ |- _ =>
      pose proof (slice_glue _ _ _ _ _ _ H1 H2); clear H1 H2
  end.
Ltac canonical_tac Hx :=
  cbn in Hx; invert_binds; injection Hx as <-; cbn; enc_norm;
  repeat match goal with
  | H : slice _ _ _ = Ok ?x |- context [?x] =>
      lazymatch goal with
      | _ : len x = _ |- _ => fail
      | _ => pose proof (proj2 (proj2 (slice_inv _ _ _ _ H)))
      end
  end;
  rewrite ?copy_same by (rewrite ?len_zeros; lia);
  rewrite ?uint64_bytes_canonical, ?uint32_bytes_canonical by lia;
  repeat match goal with
  | H : unmarshalSSZ new _ = Ok _ |- _ => apply unmarshal_canonical in H; rewrite H
  end;
  glue_slices; rewrite ?app_assoc; symmetry; eapply slice_whole; [|eassumption]; lia.

(** Hash the next child on the way to the end of a [HashTreeRootWith]. *)
Ltac push_child :=
  match goal with
  | Hx : wf ?x |- context [hashTreeRootWith ?x ?h] =>
      let h' := fresh "hh" in
      let Hb := fresh "Hb" in
      destruct (root_pushes x Hx h) as (h' & -> & Hb);
      [hh_norm; auto 20 with chunked|cbn [mbind res_bind]]
  end.
Ltac push_list :=
  match goal with
  | Hx : wf_list ?n ?l |- context [hash_list ?l ?n ?h] =>
      let h' := fresh "hh" in
      let Hb := fresh "Hb" in
      destruct (hash_list_pushes l n Hx h) as (h' & -> & Hb);
      [hh_norm; auto 20 with chunked|cbn [mbind res_bind]]
  end.
Ltac push_tac := cbn [deref mbind res_bind]; repeat first [push_child | push_list]; merkleize_tac.

Lemma list_root_len `{!Hasher, !HasherModel} {T} `{!HashableSpec T} limit (l : list (option T)) :
  len (list_root limit l) = 32.
Proof. apply merkleize_mixin_len. Qed.
#[export] Hint Resolve list_root_len : chunked.
#[export] Hint Extern 2 (len (enc _) = _) => (notypeclasses refine (@enc_len _ _ _ _ _ _ _ _); [tc_solve|eassumption]) : len.
