(* ===== verification/FixedContainers.v ===== *)
(** * Containers of constant size

    The containers of [types/builder.go] and [types/signing.go] whose SSZ
    encoding has a constant size, with the methods [types/builder_encoding.go]
    and [types/signing_encoding.go] give them.  Each module has the struct, its
    methods, its SSZ specification, and the proof that the methods fulfil
    [CodecLaws], [FixedSize] and [HashableLaws]. *)

From S2P Require Import Prelude Fastssz Hasher SszObject.
#[local] Open Scope Z_scope.
#[local] Open Scope go_scope.

Module Eth1Data.
Record t := mk { DepositRoot : bytes; DepositCount : Z; BlockHash : bytes }.
Definition zero : t := mk (zeros 32) 0 (zeros 32).

Section codec.
Context `{!SSZ}.

Definition Wf (e : t) : Prop :=
  len (DepositRoot e) = 32 ∧ u64 (DepositCount e) ∧ len (BlockHash e) = 32.

Definition MarshalSSZTo (e : t) (buf : bytes) : res (t * bytes) :=
  let dst := buf in
  let dst := dst ++ DepositRoot e in
  let dst := MarshalUint64 dst (DepositCount e) in
  let dst := dst ++ BlockHash e in
  Ok (e, dst).

Definition UnmarshalSSZ (e : t) (buf : bytes) : res t :=
  let size := len buf in
  if negb (size =? 72) then Err ErrSize else
  b0 ← slice buf 0 32;
  b1 ← slice buf 32 40;
  b2 ← slice buf 40 72;
  Ok (mk (copy (DepositRoot e) b0) (UnmarshallUint64 b1) (copy (BlockHash e) b2)).

Definition SizeSSZ (e : t) : res (t * Z) := Ok (e, 72).

#[global] Instance codec : Codec t := {
  new := zero; marshalSSZTo := MarshalSSZTo;
  unmarshalSSZ := UnmarshalSSZ; sizeSSZ := SizeSSZ;
}.

Definition parts (e : t) : list part :=
  [Fixed (DepositRoot e); Fixed (uint64_bytes (DepositCount e));
   Fixed (BlockHash e)].
#[global] Instance spec : CodecSpec t :=
  { wf := Wf; enc e := container (parts e); max_size := 72 }.

Context `{!SSZLaws}.
#[global] Instance laws : CodecLaws t.
Proof.
  split.
  - intros [] dst Hx. open_wf. cbn. unfold MarshalSSZTo. marshal_tac.
  - intros [] Hx. open_wf. cbn. unfold SizeSSZ. do 2 f_equal. enc_norm. len_norm.
  - intros [] Hx. open_wf. cbn. unfold UnmarshalSSZ. unmarshal_tac.
  - intros b. cbn. unfold UnmarshalSSZ. unmarshal_wf_tac.
  - intros [] Hx. open_wf. cbn. enc_norm. len_norm.
Qed.
#[global] Instance fixed : FixedSize t 72.
Proof.
  split.
  - intros [] Hx. open_wf. cbn. enc_norm. len_norm.
  - intros b x Hx. cbn in Hx. unfold UnmarshalSSZ in Hx. canonical_tac Hx.
Qed.
End codec.

Section hash.
Context `{!Hasher}.

Definition HashTreeRootWith (e : t) (hh : hasher) : res hasher :=
  let indx := hh_Index hh in
  let hh := hh_PutBytes hh (DepositRoot e) in
  let hh := hh_PutUint64 hh (DepositCount e) in
  let hh := hh_PutBytes hh (BlockHash e) in
  Ok (hh_Merkleize hh indx).
#[global] Instance hashable : Hashable t := { hashTreeRootWith := HashTreeRootWith }.

Context `{!HasherModel}.
#[global, refine] Instance hash_spec : HashableSpec t :=
  { root e := container_root
    [bytes_chunks (DepositRoot e); uint64_chunk (DepositCount e);
     bytes_chunks (BlockHash e)] }.
Proof. intros. apply merkleize_len. Defined.
#[global] Instance hash_laws `{!SSZ} : HashableLaws t.
Proof.
  split. intros [] Hx hh Hh. open_wf. cbn. unfold HashTreeRootWith. push_tac.
Qed.
End hash.
#[global] Opaque codec spec hashable hash_spec.
End Eth1Data.

Module BeaconBlockHeader.
Record t := mk {
  Slot : Z;
  ProposerIndex : Z;
  ParentRoot : bytes;
  StateRoot : bytes;
  BodyRoot : bytes;
}.
Definition zero : t := mk 0 0 (zeros 32) (zeros 32) (zeros 32).

Section codec.
Context `{!SSZ}.

Definition Wf (b : t) : Prop :=
  u64 (Slot b) ∧ u64 (ProposerIndex b) ∧ len (ParentRoot b) = 32 ∧ len (StateRoot b) = 32 ∧ len (BodyRoot b) = 32.

Definition MarshalSSZTo (b : t) (buf : bytes) : res (t * bytes) :=
  let dst := buf in
  let dst := MarshalUint64 dst (Slot b) in
  let dst := MarshalUint64 dst (ProposerIndex b) in
  let dst := dst ++ ParentRoot b in
  let dst := dst ++ StateRoot b in
  let dst := dst ++ BodyRoot b in
  Ok (b, dst).

Definition UnmarshalSSZ (b : t) (buf : bytes) : res t :=
  let size := len buf in
  if negb (size =? 112) then Err ErrSize else
  b0 ← slice buf 0 8;
  b1 ← slice buf 8 16;
  b2 ← slice buf 16 48;
  b3 ← slice buf 48 80;
  b4 ← slice buf 80 112;
  Ok (mk (UnmarshallUint64 b0) (UnmarshallUint64 b1) (copy (ParentRoot b) b2)
    (copy (StateRoot b) b3) (copy (BodyRoot b) b4)).

Definition SizeSSZ (b : t) : res (t * Z) := Ok (b, 112).

#[global] Instance codec : Codec t := {
  new := zero; marshalSSZTo := MarshalSSZTo;
  unmarshalSSZ := UnmarshalSSZ; sizeSSZ := SizeSSZ;
}.

Definition parts (b : t) : list part :=
  [Fixed (uint64_bytes (Slot b)); Fixed (uint64_bytes (ProposerIndex b)); Fixed (ParentRoot b);
   Fixed (StateRoot b); Fixed (BodyRoot b)].
#[global] Instance spec : CodecSpec t :=
  { wf := Wf; enc b := container (parts b); max_size := 112 }.

Context `{!SSZLaws}.
#[global] Instance laws : CodecLaws t.
Proof.
  split.
  - intros [] dst Hx. open_wf. cbn. unfold MarshalSSZTo. marshal_tac.
  - intros [] Hx. open_wf. cbn. unfold SizeSSZ. do 2 f_equal. enc_norm. len_norm.
  - intros [] Hx. open_wf. cbn. unfold UnmarshalSSZ. unmarshal_tac.
  - intros b. cbn. unfold UnmarshalSSZ. unmarshal_wf_tac.
  - intros [] Hx. open_wf. cbn. enc_norm. len_norm.
Qed.
#[global] Instance fixed : FixedSize t 112.
Proof.
  split.
  - intros [] Hx. open_wf. cbn. enc_norm. len_norm.
  - intros b x Hx. cbn in Hx. unfold UnmarshalSSZ in Hx. canonical_tac Hx.
Qed.
End codec.

Section hash.
Context `{!Hasher}.

Definition HashTreeRootWith (b : t) (hh : hasher) : res hasher :=
  let indx := hh_Index hh in
  let hh := hh_PutUint64 hh (Slot b) in
  let hh := hh_PutUint64 hh (ProposerIndex b) in
  let hh := hh_PutBytes hh (ParentRoot b) in
  let hh := hh_PutBytes hh (StateRoot b) in
  let hh := hh_PutBytes hh (BodyRoot b) in
  Ok (hh_Merkleize hh indx).
#[global] Instance hashable : Hashable t := { hashTreeRootWith := HashTreeRootWith }.

Context `{!HasherModel}.
#[global, refine] Instance hash_spec : HashableSpec t :=
  { root b := container_root
    [uint64_chunk (Slot b); uint64_chunk (ProposerIndex b); bytes_chunks (ParentRoot b);
     bytes_chunks (StateRoot b); bytes_chunks (BodyRoot b)] }.
Proof. intros. apply merkleize_len. Defined.
#[global] Instance hash_laws `{!SSZ} : HashableLaws t.
Proof.
  split. intros [] Hx hh Hh. open_wf. cbn. unfold HashTreeRootWith. push_tac.
Qed.
End hash.
#[global] Opaque codec spec hashable hash_spec.
End BeaconBlockHeader.

Module SignedBeaconBlockHeader.
Record t := mk { Header : option BeaconBlockHeader.t; Signature : bytes }.
Definition zero : t := mk None (zeros 96).

Section codec.
Context `{!SSZ}.

Definition Wf (s : t) : Prop :=
  ptr wf (Header s) ∧ len (Signature s) = 96.

Definition MarshalSSZTo (s : t) (buf : bytes) : res (t * bytes) :=
  let dst := buf in
  '(pHeader, dst) ← marshalSSZTo (default new (Header s)) dst;
  let dst := dst ++ Signature s in
  Ok (mk (Some pHeader) (Signature s), dst).

Definition UnmarshalSSZ (s : t) (buf : bytes) : res t :=
  let size := len buf in
  if negb (size =? 208) then Err ErrSize else
  b0 ← slice buf 0 112;
  pHeader ← unmarshalSSZ (default new (Header s)) b0;
  b1 ← slice buf 112 208;
  Ok (mk (Some pHeader) (copy (Signature s) b1)).

Definition SizeSSZ (s : t) : res (t * Z) := Ok (s, 208).

#[global] Instance codec : Codec t := {
  new := zero; marshalSSZTo := MarshalSSZTo;
  unmarshalSSZ := UnmarshalSSZ; sizeSSZ := SizeSSZ;
}.

Definition parts (s : t) : list part :=
  [Fixed (enc_ptr (Header s)); Fixed (Signature s)].
#[global] Instance spec : CodecSpec t :=
  { wf := Wf; enc s := container (parts s); max_size := 208 }.

Context `{!SSZLaws}.
#[global] Instance laws : CodecLaws t.
Proof.
  split.
  - intros [] dst Hx. open_wf. cbn. unfold MarshalSSZTo. marshal_tac.
  - intros [] Hx. open_wf. cbn. unfold SizeSSZ. do 2 f_equal. enc_norm. len_norm.
  - intros [] Hx. open_wf. cbn. unfold UnmarshalSSZ. unmarshal_tac.
  - intros b. cbn. unfold UnmarshalSSZ. unmarshal_wf_tac.
  - intros [] Hx. open_wf. cbn. enc_norm. len_norm.
Qed.
#[global] Instance fixed : FixedSize t 208.
Proof.
  split.
  - intros [] Hx. open_wf. cbn. enc_norm. len_norm.
  - intros b x Hx. cbn in Hx. unfold UnmarshalSSZ in Hx. canonical_tac Hx.
Qed.
End codec.

Section hash.
Context `{!Hasher}.

Definition HashTreeRootWith (s : t) (hh : hasher) : res hasher :=
  let indx := hh_Index hh in
  pHeader ← deref (Header s);
  hh ← hashTreeRootWith pHeader hh;
  let hh := hh_PutBytes hh (Signature s) in
  Ok (hh_Merkleize hh indx).
#[global] Instance hashable : Hashable t := { hashTreeRootWith := HashTreeRootWith }.

Context `{!HasherModel}.
#[global, refine] Instance hash_spec : HashableSpec t :=
  { root s := container_root
    [root_ptr (Header s); bytes_chunks (Signature s)] }.
Proof. intros. apply merkleize_len. Defined.
#[global] Instance hash_laws `{!SSZ} : HashableLaws t.
Proof.
  split. intros [] Hx hh Hh. open_wf. cbn. unfold HashTreeRootWith. push_tac.
Qed.
End hash.
#[global] Opaque codec spec hashable hash_spec.
End SignedBeaconBlockHeader.

Module ProposerSlashing.
Record t := mk {
  A : option SignedBeaconBlockHeader.t;
  B : option SignedBeaconBlockHeader.t;
}.
Definition zero : t := mk None None.

Section codec.
Context `{!SSZ}.

Definition Wf (p : t) : Prop :=
  ptr wf (A p) ∧ ptr wf (B p).

Definition MarshalSSZTo (p : t) (buf : bytes) : res (t * bytes) :=
  let dst := buf in
  '(pA, dst) ← marshalSSZTo (default new (A p)) dst;
  '(pB, dst) ← marshalSSZTo (default new (B p)) dst;
  Ok (mk (Some pA) (Some pB), dst).

Definition UnmarshalSSZ (p : t) (buf : bytes) : res t :=
  let size := len buf in
  if negb (size =? 416) then Err ErrSize else
  b0 ← slice buf 0 208;
  pA ← unmarshalSSZ (default new (A p)) b0;
  b1 ← slice buf 208 416;
  pB ← unmarshalSSZ (default new (B p)) b1;
  Ok (mk (Some pA) (Some pB)).

Definition SizeSSZ (p : t) : res (t * Z) := Ok (p, 416).

#[global] Instance codec : Codec t := {
  new := zero; marshalSSZTo := MarshalSSZTo;
  unmarshalSSZ := UnmarshalSSZ; sizeSSZ := SizeSSZ;
}.

Definition parts (p : t) : list part :=
  [Fixed (enc_ptr (A p)); Fixed (enc_ptr (B p))].
#[global] Instance spec : CodecSpec t :=
  { wf := Wf; enc p := container (parts p); max_size := 416 }.

Context `{!SSZLaws}.
#[global] Instance laws : CodecLaws t.
Proof.
  split.
  - intros [] dst Hx. open_wf. cbn. unfold MarshalSSZTo. marshal_tac.
  - intros [] Hx. open_wf. cbn. unfold SizeSSZ. do 2 f_equal. enc_norm. len_norm.
  - intros [] Hx. open_wf. cbn. unfold UnmarshalSSZ. unmarshal_tac.
  - intros b. cbn. unfold UnmarshalSSZ. unmarshal_wf_tac.
  - intros [] Hx. open_wf. cbn. enc_norm. len_norm.
Qed.
#[global] Instance fixed : FixedSize t 416.
Proof.
  split.
  - intros [] Hx. open_wf. cbn. enc_norm. len_norm.
  - intros b x Hx. cbn in Hx. unfold UnmarshalSSZ in Hx. canonical_tac Hx.
Qed.
End codec.

Section hash.
Context `{!Hasher}.

Definition HashTreeRootWith (p : t) (hh : hasher) : res hasher :=
  let indx := hh_Index hh in
  pA ← deref (A p);
  hh ← hashTreeRootWith pA hh;
  pB ← deref (B p);
  hh ← hashTreeRootWith pB hh;
  Ok (hh_Merkleize hh indx).
#[global] Instance hashable : Hashable t := { hashTreeRootWith := HashTreeRootWith }.

Context `{!HasherModel}.
#[global, refine] Instance hash_spec : HashableSpec t :=
  { root p := container_root
    [root_ptr (A p); root_ptr (B p)] }.
Proof. intros. apply merkleize_len. Defined.
#[global] Instance hash_laws `{!SSZ} : HashableLaws t.
Proof.
  split. intros [] Hx hh Hh. open_wf. cbn. unfold HashTreeRootWith. push_tac.
Qed.
End hash.
#[global] Opaque codec spec hashable hash_spec.
End ProposerSlashing.

Module Checkpoint.
Record t := mk { Epoch : Z; Root : bytes }.
Definition zero : t := mk 0 (zeros 32).

Section codec.
Context `{!SSZ}.

Definition Wf (c : t) : Prop :=
  u64 (Epoch c) ∧ len (Root c) = 32.

Definition MarshalSSZTo (c : t) (buf : bytes) : res (t * bytes) :=
  let dst := buf in
  let dst := MarshalUint64 dst (Epoch c) in
  let dst := dst ++ Root c in
  Ok (c, dst).

Definition UnmarshalSSZ (c : t) (buf : bytes) : res t :=
  let size := len buf in
  if negb (size =? 40) then Err ErrSize else
  b0 ← slice buf 0 8;
  b1 ← slice buf 8 40;
  Ok (mk (UnmarshallUint64 b0) (copy (Root c) b1)).

Definition SizeSSZ (c : t) : res (t * Z) := Ok (c, 40).

#[global] Instance codec : Codec t := {
  new := zero; marshalSSZTo := MarshalSSZTo;
  unmarshalSSZ := UnmarshalSSZ; sizeSSZ := SizeSSZ;
}.

Definition parts (c : t) : list part :=
  [Fixed (uint64_bytes (Epoch c)); Fixed (Root c)].
#[global] Instance spec : CodecSpec t :=
  { wf := Wf; enc c := container (parts c); max_size := 40 }.

Context `{!SSZLaws}.
#[global] Instance laws : CodecLaws t.
Proof.
  split.
  - intros [] dst Hx. open_wf. cbn. unfold MarshalSSZTo. marshal_tac.
  - intros [] Hx. open_wf. cbn. unfold SizeSSZ. do 2 f_equal. enc_norm. len_norm.
  - intros [] Hx. open_wf. cbn. unfold UnmarshalSSZ. unmarshal_tac.
  - intros b. cbn. unfold UnmarshalSSZ. unmarshal_wf_tac.
  - intros [] Hx. open_wf. cbn. enc_norm. len_norm.
Qed.
#[global] Instance fixed : FixedSize t 40.
Proof.
  split.
  - intros [] Hx. open_wf. cbn. enc_norm. len_norm.
  - intros b x Hx. cbn in Hx. unfold UnmarshalSSZ in Hx. canonical_tac Hx.
Qed.
End codec.

Section hash.
Context `{!Hasher}.

Definition HashTreeRootWith (c : t) (hh : hasher) : res hasher :=
  let indx := hh_Index hh in
  let hh := hh_PutUint64 hh (Epoch c) in
  let hh := hh_PutBytes hh (Root c) in
  Ok (hh_Merkleize hh indx).
#[global] Instance hashable : Hashable t := { hashTreeRootWith := HashTreeRootWith }.

Context `{!HasherModel}.
#[global, refine] Instance hash_spec : HashableSpec t :=
  { root c := container_root
    [uint64_chunk (Epoch c); bytes_chunks (Root c)] }.
Proof. intros. apply merkleize_len. Defined.
#[global] Instance hash_laws `{!SSZ} : HashableLaws t.
Proof.
  split. intros [] Hx hh Hh. open_wf. cbn. unfold HashTreeRootWith. push_tac.
Qed.
End hash.
#[global] Opaque codec spec hashable hash_spec.
End Checkpoint.

Module AttestationData.
Record t := mk {
  Slot : Z;
  Index : Z;
  BlockRoot : bytes;
  Source : option Checkpoint.t;
  Target : option Checkpoint.t;
}.
Definition zero : t := mk 0 0 (zeros 32) None None.

Section codec.
Context `{!SSZ}.

Definition Wf (a : t) : Prop :=
  u64 (Slot a) ∧ u64 (Index a) ∧ len (BlockRoot a) = 32 ∧ ptr wf (Source a) ∧ ptr wf (Target a).

Definition MarshalSSZTo (a : t) (buf : bytes) : res (t * bytes) :=
  let dst := buf in
  let dst := MarshalUint64 dst (Slot a) in
  let dst := MarshalUint64 dst (Index a) in
  let dst := dst ++ BlockRoot a in
  '(pSource, dst) ← marshalSSZTo (default new (Source a)) dst;
  '(pTarget, dst) ← marshalSSZTo (default new (Target a)) dst;
  Ok (mk (Slot a) (Index a) (BlockRoot a) (Some pSource) (Some pTarget), dst).

Definition UnmarshalSSZ (a : t) (buf : bytes) : res t :=
  let size := len buf in
  if negb (size =? 128) then Err ErrSize else
  b0 ← slice buf 0 8;
  b1 ← slice buf 8 16;
  b2 ← slice buf 16 48;
  b3 ← slice buf 48 88;
  pSource ← unmarshalSSZ (default new (Source a)) b3;
  b4 ← slice buf 88 128;
  pTarget ← unmarshalSSZ (default new (Target a)) b4;
  Ok (mk (UnmarshallUint64 b0) (UnmarshallUint64 b1) (copy (BlockRoot a) b2)
    (Some pSource) (Some pTarget)).

Definition SizeSSZ (a : t) : res (t * Z) := Ok (a, 128).

#[global] Instance codec : Codec t := {
  new := zero; marshalSSZTo := MarshalSSZTo;
  unmarshalSSZ := UnmarshalSSZ; sizeSSZ := SizeSSZ;
}.

Definition parts (a : t) : list part :=
  [Fixed (uint64_bytes (Slot a)); Fixed (uint64_bytes (Index a)); Fixed (BlockRoot a);
   Fixed (enc_ptr (Source a)); Fixed (enc_ptr (Target a))].
#[global] Instance spec : CodecSpec t :=
  { wf := Wf; enc a := container (parts a); max_size := 128 }.

Context `{!SSZLaws}.
#[global] Instance laws : CodecLaws t.
Proof.
  split.
  - intros [] dst Hx. open_wf. cbn. unfold MarshalSSZTo. marshal_tac.
  - intros [] Hx. open_wf. cbn. unfold SizeSSZ. do 2 f_equal. enc_norm. len_norm.
  - intros [] Hx. open_wf. cbn. unfold UnmarshalSSZ. unmarshal_tac.
  - intros b. cbn. unfold UnmarshalSSZ. unmarshal_wf_tac.
  - intros [] Hx. open_wf. cbn. enc_norm. len_norm.
Qed.
#[global] Instance fixed : FixedSize t 128.
Proof.
  split.
  - intros [] Hx. open_wf. cbn. enc_norm. len_norm.
  - intros b x Hx. cbn in Hx. unfold UnmarshalSSZ in Hx. canonical_tac Hx.
Qed.
End codec.

Section hash.
Context `{!Hasher}.

Definition HashTreeRootWith (a : t) (hh : hasher) : res hasher :=
  let indx := hh_Index hh in
  let hh := hh_PutUint64 hh (Slot a) in
  let hh := hh_PutUint64 hh (Index a) in
  let hh := hh_PutBytes hh (BlockRoot a) in
  pSource ← deref (Source a);
  hh ← hashTreeRootWith pSource hh;
  pTarget ← deref (Target a);
  hh ← hashTreeRootWith pTarget hh;
  Ok (hh_Merkleize hh indx).
#[global] Instance hashable : Hashable t := { hashTreeRootWith := HashTreeRootWith }.

Context `{!HasherModel}.
#[global, refine] Instance hash_spec : HashableSpec t :=
  { root a := container_root
    [uint64_chunk (Slot a); uint64_chunk (Index a); bytes_chunks (BlockRoot a);
     root_ptr (Source a); root_ptr (Target a)] }.
Proof. intros. apply merkleize_len. Defined.
#[global] Instance hash_laws `{!SSZ} : HashableLaws t.
Proof.
  split. intros [] Hx hh Hh. open_wf. cbn. unfold HashTreeRootWith. push_tac.
Qed.
End hash.
#[global] Opaque codec spec hashable hash_spec.
End AttestationData.

Module Deposit.
Record t := mk {
  Pubkey : bytes;
  WithdrawalCredentials : bytes;
  Amount : Z;
  Signature : bytes;
}.
Definition zero : t := mk (zeros 48) (zeros 32) 0 (zeros 96).

Section codec.
Context `{!SSZ}.

Definition Wf (d : t) : Prop :=
  len (Pubkey d) = 48 ∧ len (WithdrawalCredentials d) = 32 ∧ u64 (Amount d) ∧ len (Signature d) = 96.

Definition MarshalSSZTo (d : t) (buf : bytes) : res (t * bytes) :=
  let dst := buf in
  let dst := dst ++ Pubkey d in
  let dst := dst ++ WithdrawalCredentials d in
  let dst := MarshalUint64 dst (Amount d) in
  let dst := dst ++ Signature d in
  Ok (d, dst).

Definition UnmarshalSSZ (d : t) (buf : bytes) : res t :=
  let size := len buf in
  if negb (size =? 184) then Err ErrSize else
  b0 ← slice buf 0 48;
  b1 ← slice buf 48 80;
  b2 ← slice buf 80 88;
  b3 ← slice buf 88 184;
  Ok (mk (copy (Pubkey d) b0) (copy (WithdrawalCredentials d) b1) (UnmarshallUint64 b2)
    (copy (Signature d) b3)).

Definition SizeSSZ (d : t) : res (t * Z) := Ok (d, 184).

#[global] Instance codec : Codec t := {
  new := zero; marshalSSZTo := MarshalSSZTo;
  unmarshalSSZ := UnmarshalSSZ; sizeSSZ := SizeSSZ;
}.

Definition parts (d : t) : list part :=
  [Fixed (Pubkey d); Fixed (WithdrawalCredentials d);
   Fixed (uint64_bytes (Amount d)); Fixed (Signature d)].
#[global] Instance spec : CodecSpec t :=
  { wf := Wf; enc d := container (parts d); max_size := 184 }.

Context `{!SSZLaws}.
#[global] Instance laws : CodecLaws t.
Proof.
  split.
  - intros [] dst Hx. open_wf. cbn. unfold MarshalSSZTo. marshal_tac.
  - intros [] Hx. open_wf. cbn. unfold SizeSSZ. do 2 f_equal. enc_norm. len_norm.
  - intros [] Hx. open_wf. cbn. unfold UnmarshalSSZ. unmarshal_tac.
  - intros b. cbn. unfold UnmarshalSSZ. unmarshal_wf_tac.
  - intros [] Hx. open_wf. cbn. enc_norm. len_norm.
Qed.
#[global] Instance fixed : FixedSize t 184.
Proof.
  split.
  - intros [] Hx. open_wf. cbn. enc_norm. len_norm.
  - intros b x Hx. cbn in Hx. unfold UnmarshalSSZ in Hx. canonical_tac Hx.
Qed.
End codec.

Section hash.
Context `{!Hasher}.

Definition HashTreeRootWith (d : t) (hh : hasher) : res hasher :=
  let indx := hh_Index hh in
  let hh := hh_PutBytes hh (Pubkey d) in
  let hh := hh_PutBytes hh (WithdrawalCredentials d) in
  let hh := hh_PutUint64 hh (Amount d) in
  let hh := hh_PutBytes hh (Signature d) in
  Ok (hh_Merkleize hh indx).
#[global] Instance hashable : Hashable t := { hashTreeRootWith := HashTreeRootWith }.

Context `{!HasherModel}.
#[global, refine] Instance hash_spec : HashableSpec t :=
  { root d := container_root
    [bytes_chunks (Pubkey d); bytes_chunks (WithdrawalCredentials d);
     uint64_chunk (Amount d); bytes_chunks (Signature d)] }.
Proof. intros. apply merkleize_len. Defined.
#[global] Instance hash_laws `{!SSZ} : HashableLaws t.
Proof.
  split. intros [] Hx hh Hh. open_wf. cbn. unfold HashTreeRootWith. push_tac.
Qed.
End hash.
#[global] Opaque codec spec hashable hash_spec.
End Deposit.

Module VoluntaryExit.
Record t := mk { Epoch : Z; ValidatorIndex : Z }.
Definition zero : t := mk 0 0.

Section codec.
Context `{!SSZ}.

Definition Wf (v : t) : Prop :=
  u64 (Epoch v) ∧ u64 (ValidatorIndex v).

Definition MarshalSSZTo (v : t) (buf : bytes) : res (t * bytes) :=
  let dst := buf in
  let dst := MarshalUint64 dst (Epoch v) in
  let dst := MarshalUint64 dst (ValidatorIndex v) in
  Ok (v, dst).

Definition UnmarshalSSZ (v : t) (buf : bytes) : res t :=
  let size := len buf in
  if negb (size =? 16) then Err ErrSize else
  b0 ← slice buf 0 8;
  b1 ← slice buf 8 16;
  Ok (mk (UnmarshallUint64 b0) (UnmarshallUint64 b1)).

Definition SizeSSZ (v : t) : res (t * Z) := Ok (v, 16).

#[global] Instance codec : Codec t := {
  new := zero; marshalSSZTo := MarshalSSZTo;
  unmarshalSSZ := UnmarshalSSZ; sizeSSZ := SizeSSZ;
}.

Definition parts (v : t) : list part :=
  [Fixed (uint64_bytes (Epoch v)); Fixed (uint64_bytes (ValidatorIndex v))].
#[global] Instance spec : CodecSpec t :=
  { wf := Wf; enc v := container (parts v); max_size := 16 }.

Context `{!SSZLaws}.
#[global] Instance laws : CodecLaws t.
Proof.
  split.
  - intros [] dst Hx. open_wf. cbn. unfold MarshalSSZTo. marshal_tac.
  - intros [] Hx. open_wf. cbn. unfold SizeSSZ. do 2 f_equal. enc_norm. len_norm.
  - intros [] Hx. open_wf. cbn. unfold UnmarshalSSZ. unmarshal_tac.
  - intros b. cbn. unfold UnmarshalSSZ. unmarshal_wf_tac.
  - intros [] Hx. open_wf. cbn. enc_norm. len_norm.
Qed.
#[global] Instance fixed : FixedSize t 16.
Proof.
  split.
  - intros [] Hx. open_wf. cbn. enc_norm. len_norm.
  - intros b x Hx. cbn in Hx. unfold UnmarshalSSZ in Hx. canonical_tac Hx.
Qed.
End codec.

Section hash.
Context `{!Hasher}.

Definition HashTreeRootWith (v : t) (hh : hasher) : res hasher :=
  let indx := hh_Index hh in
  let hh := hh_PutUint64 hh (Epoch v) in
  let hh := hh_PutUint64 hh (ValidatorIndex v) in
  Ok (hh_Merkleize hh indx).
#[global] Instance hashable : Hashable t := { hashTreeRootWith := HashTreeRootWith }.

Context `{!HasherModel}.
#[global, refine] Instance hash_spec : HashableSpec t :=
  { root v := container_root
    [uint64_chunk (Epoch v); uint64_chunk (ValidatorIndex v)] }.
Proof. intros. apply merkleize_len. Defined.
#[global] Instance hash_laws `{!SSZ} : HashableLaws t.
Proof.
  split. intros [] Hx hh Hh. open_wf. cbn. unfold HashTreeRootWith. push_tac.
Qed.
End hash.
#[global] Opaque codec spec hashable hash_spec.
End VoluntaryExit.

Module SyncAggregate.
Record t := mk { CommitteeBits : bytes; CommitteeSignature : bytes }.
Definition zero : t := mk (zeros 64) (zeros 96).

Section codec.
Context `{!SSZ}.

Definition Wf (s : t) : Prop :=
  len (CommitteeBits s) = 64 ∧ len (CommitteeSignature s) = 96.

Definition MarshalSSZTo (s : t) (buf : bytes) : res (t * bytes) :=
  let dst := buf in
  let dst := dst ++ CommitteeBits s in
  let dst := dst ++ CommitteeSignature s in
  Ok (s, dst).

Definition UnmarshalSSZ (s : t) (buf : bytes) : res t :=
  let size := len buf in
  if negb (size =? 160) then Err ErrSize else
  b0 ← slice buf 0 64;
  b1 ← slice buf 64 160;
  Ok (mk (copy (CommitteeBits s) b0) (copy (CommitteeSignature s) b1)).

Definition SizeSSZ (s : t) : res (t * Z) := Ok (s, 160).

#[global] Instance codec : Codec t := {
  new := zero; marshalSSZTo := MarshalSSZTo;
  unmarshalSSZ := UnmarshalSSZ; sizeSSZ := SizeSSZ;
}.

Definition parts (s : t) : list part :=
  [Fixed (CommitteeBits s); Fixed (CommitteeSignature s)].
#[global] Instance spec : CodecSpec t :=
  { wf := Wf; enc s := container (parts s); max_size := 160 }.

Context `{!SSZLaws}.
#[global] Instance laws : CodecLaws t.
Proof.
  split.
  - intros [] dst Hx. open_wf. cbn. unfold MarshalSSZTo. marshal_tac.
  - intros [] Hx. open_wf. cbn. unfold SizeSSZ. do 2 f_equal. enc_norm. len_norm.
  - intros [] Hx. open_wf. cbn. unfold UnmarshalSSZ. unmarshal_tac.
  - intros b. cbn. unfold UnmarshalSSZ. unmarshal_wf_tac.
  - intros [] Hx. open_wf. cbn. enc_norm. len_norm.
Qed.
#[global] Instance fixed : FixedSize t 160.
Proof.
  split.
  - intros [] Hx. open_wf. cbn. enc_norm. len_norm.
  - intros b x Hx. cbn in Hx. unfold UnmarshalSSZ in Hx. canonical_tac Hx.
Qed.
End codec.

Section hash.
Context `{!Hasher}.

Definition HashTreeRootWith (s : t) (hh : hasher) : res hasher :=
  let indx := hh_Index hh in
  let hh := hh_PutBytes hh (CommitteeBits s) in
  let hh := hh_PutBytes hh (CommitteeSignature s) in
  Ok (hh_Merkleize hh indx).
#[global] Instance hashable : Hashable t := { hashTreeRootWith := HashTreeRootWith }.

Context `{!HasherModel}.
#[global, refine] Instance hash_spec : HashableSpec t :=
  { root s := container_root
    [bytes_chunks (CommitteeBits s);
     bytes_chunks (CommitteeSignature s)] }.
Proof. intros. apply merkleize_len. Defined.
#[global] Instance hash_laws `{!SSZ} : HashableLaws t.
Proof.
  split. intros [] Hx hh Hh. open_wf. cbn. unfold HashTreeRootWith. push_tac.
Qed.
End hash.
#[global] Opaque codec spec hashable hash_spec.
End SyncAggregate.

Module RegisterValidatorRequestMessage.
Record t := mk { FeeRecipient : bytes; GasLimit : Z; Timestamp : Z; Pubkey : bytes }.
Definition zero : t := mk (zeros 20) 0 0 (zeros 48).

Section codec.
Context `{!SSZ}.

Definition Wf (r : t) : Prop :=
  len (FeeRecipient r) = 20 ∧ u64 (GasLimit r) ∧ u64 (Timestamp r) ∧ len (Pubkey r) = 48.

Definition MarshalSSZTo (r : t) (buf : bytes) : res (t * bytes) :=
  let dst := buf in
  let dst := dst ++ FeeRecipient r in
  let dst := MarshalUint64 dst (GasLimit r) in
  let dst := MarshalUint64 dst (Timestamp r) in
  let dst := dst ++ Pubkey r in
  Ok (r, dst).

Definition UnmarshalSSZ (r : t) (buf : bytes) : res t :=
  let size := len buf in
  if negb (size =? 84) then Err ErrSize else
  b0 ← slice buf 0 20;
  b1 ← slice buf 20 28;
  b2 ← slice buf 28 36;
  b3 ← slice buf 36 84;
  Ok (mk (copy (FeeRecipient r) b0) (UnmarshallUint64 b1) (UnmarshallUint64 b2)
    (copy (Pubkey r) b3)).

Definition SizeSSZ (r : t) : res (t * Z) := Ok (r, 84).

#[global] Instance codec : Codec t := {
  new := zero; marshalSSZTo := MarshalSSZTo;
  unmarshalSSZ := UnmarshalSSZ; sizeSSZ := SizeSSZ;
}.

Definition parts (r : t) : list part :=
  [Fixed (FeeRecipient r); Fixed (uint64_bytes (GasLimit r));
   Fixed (uint64_bytes (Timestamp r)); Fixed (Pubkey r)].
#[global] Instance spec : CodecSpec t :=
  { wf := Wf; enc r := container (parts r); max_size := 84 }.

Context `{!SSZLaws}.
#[global] Instance laws : CodecLaws t.
Proof.
  split.
  - intros [] dst Hx. open_wf. cbn. unfold MarshalSSZTo. marshal_tac.
  - intros [] Hx. open_wf. cbn. unfold SizeSSZ. do 2 f_equal. enc_norm. len_norm.
  - intros [] Hx. open_wf. cbn. unfold UnmarshalSSZ. unmarshal_tac.
  - intros b. cbn. unfold UnmarshalSSZ. unmarshal_wf_tac.
  - intros [] Hx. open_wf. cbn. enc_norm. len_norm.
Qed.
#[global] Instance fixed : FixedSize t 84.
Proof.
  split.
  - intros [] Hx. open_wf. cbn. enc_norm. len_norm.
  - intros b x Hx. cbn in Hx. unfold UnmarshalSSZ in Hx. canonical_tac Hx.
Qed.
End codec.

Section hash.
Context `{!Hasher}.

Definition HashTreeRootWith (r : t) (hh : hasher) : res hasher :=
  let indx := hh_Index hh in
  let hh := hh_PutBytes hh (FeeRecipient r) in
  let hh := hh_PutUint64 hh (GasLimit r) in
  let hh := hh_PutUint64 hh (Timestamp r) in
  let hh := hh_PutBytes hh (Pubkey r) in
  Ok (hh_Merkleize hh indx).
#[global] Instance hashable : Hashable t := { hashTreeRootWith := HashTreeRootWith }.

Context `{!HasherModel}.
#[global, refine] Instance hash_spec : HashableSpec t :=
  { root r := container_root
    [bytes_chunks (FeeRecipient r); uint64_chunk (GasLimit r);
     uint64_chunk (Timestamp r); bytes_chunks (Pubkey r)] }.
Proof. intros. apply merkleize_len. Defined.
#[global] Instance hash_laws `{!SSZ} : HashableLaws t.
Proof.
  split. intros [] Hx hh Hh. open_wf. cbn. unfold HashTreeRootWith. push_tac.
Qed.
End hash.
#[global] Opaque codec spec hashable hash_spec.
End RegisterValidatorRequestMessage.

Module SigningData.
Record t := mk { Root : bytes; Domain : bytes }.
Definition zero : t := mk (zeros 32) (zeros 32).

Section codec.
Context `{!SSZ}.

Definition Wf (s : t) : Prop :=
  len (Root s) = 32 ∧ len (Domain s) = 32.

Definition MarshalSSZTo (s : t) (buf : bytes) : res (t * bytes) :=
  let dst := buf in
  let dst := dst ++ Root s in
  let dst := dst ++ Domain s in
  Ok (s, dst).

Definition UnmarshalSSZ (s : t) (buf : bytes) : res t :=
  let size := len buf in
  if negb (size =? 64) then Err ErrSize else
  b0 ← slice buf 0 32;
  b1 ← slice buf 32 64;
  Ok (mk (copy (Root s) b0) (copy (Domain s) b1)).

Definition SizeSSZ (s : t) : res (t * Z) := Ok (s, 64).

#[global] Instance codec : Codec t := {
  new := zero; marshalSSZTo := MarshalSSZTo;
  unmarshalSSZ := UnmarshalSSZ; sizeSSZ := SizeSSZ;
}.

Definition parts (s : t) : list part :=
  [Fixed (Root s); Fixed (Domain s)].
#[global] Instance spec : CodecSpec t :=
  { wf := Wf; enc s := container (parts s); max_size := 64 }.

Context `{!SSZLaws}.
#[global] Instance laws : CodecLaws t.
Proof.
  split.
  - intros [] dst Hx. open_wf. cbn. unfold MarshalSSZTo. marshal_tac.
  - intros [] Hx. open_wf. cbn. unfold SizeSSZ. do 2 f_equal. enc_norm. len_norm.
  - intros [] Hx. open_wf. cbn. unfold UnmarshalSSZ. unmarshal_tac.
  - intros b. cbn. unfold UnmarshalSSZ. unmarshal_wf_tac.
  - intros [] Hx. open_wf. cbn. enc_norm. len_norm.
Qed.
#[global] Instance fixed : FixedSize t 64.
Proof.
  split.
  - intros [] Hx. open_wf. cbn. enc_norm. len_norm.
  - intros b x Hx. cbn in Hx. unfold UnmarshalSSZ in Hx. canonical_tac Hx.
Qed.
End codec.

Section hash.
Context `{!Hasher}.

Definition HashTreeRootWith (s : t) (hh : hasher) : res hasher :=
  let indx := hh_Index hh in
  let hh := hh_PutBytes hh (Root s) in
  let hh := hh_PutBytes hh (Domain s) in
  Ok (hh_Merkleize hh indx).
#[global] Instance hashable : Hashable t := { hashTreeRootWith := HashTreeRootWith }.

Context `{!HasherModel}.
#[global, refine] Instance hash_spec : HashableSpec t :=
  { root s := container_root
    [bytes_chunks (Root s); bytes_chunks (Domain s)] }.
Proof. intros. apply merkleize_len. Defined.
#[global] Instance hash_laws `{!SSZ} : HashableLaws t.
Proof.
  split. intros [] Hx hh Hh. open_wf. cbn. unfold HashTreeRootWith. push_tac.
Qed.
End hash.
#[global] Opaque codec spec hashable hash_spec.
End SigningData.

Module forkData.
Record t := mk { CurrentVersion : Z; GenesisValidatorsRoot : bytes }.
Definition zero : t := mk 0 (zeros 32).

Section codec.
Context `{!SSZ}.

Definition Wf (f : t) : Prop :=
  u32 (CurrentVersion f) ∧ len (GenesisValidatorsRoot f) = 32.

Definition MarshalSSZTo (f : t) (buf : bytes) : res (t * bytes) :=
  let dst := buf in
  let dst := MarshalUint32 dst (CurrentVersion f) in
  let dst := dst ++ GenesisValidatorsRoot f in
  Ok (f, dst).

Definition UnmarshalSSZ (f : t) (buf : bytes) : res t :=
  let size := len buf in
  if negb (size =? 36) then Err ErrSize else
  b0 ← slice buf 0 4;
  b1 ← slice buf 4 36;
  Ok (mk (UnmarshallUint32 b0) (copy (GenesisValidatorsRoot f) b1)).

Definition SizeSSZ (f : t) : res (t * Z) := Ok (f, 36).

#[global] Instance codec : Codec t := {
  new := zero; marshalSSZTo := MarshalSSZTo;
  unmarshalSSZ := UnmarshalSSZ; sizeSSZ := SizeSSZ;
}.

Definition parts (f : t) : list part :=
  [Fixed (uint32_bytes (CurrentVersion f)); Fixed (GenesisValidatorsRoot f)].
#[global] Instance spec : CodecSpec t :=
  { wf := Wf; enc f := container (parts f); max_size := 36 }.

Context `{!SSZLaws}.
#[global] Instance laws : CodecLaws t.
Proof.
  split.
  - intros [] dst Hx. open_wf. cbn. unfold MarshalSSZTo. marshal_tac.
  - intros [] Hx. open_wf. cbn. unfold SizeSSZ. do 2 f_equal. enc_norm. len_norm.
  - intros [] Hx. open_wf. cbn. unfold UnmarshalSSZ. unmarshal_tac.
  - intros b. cbn. unfold UnmarshalSSZ. unmarshal_wf_tac.
  - intros [] Hx. open_wf. cbn. enc_norm. len_norm.
Qed.
#[global] Instance fixed : FixedSize t 36.
Proof.
  split.
  - intros [] Hx. open_wf. cbn. enc_norm. len_norm.
  - intros b x Hx. cbn in Hx. unfold UnmarshalSSZ in Hx. canonical_tac Hx.
Qed.
End codec.

Section hash.
Context `{!Hasher}.

Definition HashTreeRootWith (f : t) (hh : hasher) : res hasher :=
  let indx := hh_Index hh in
  let hh := hh_PutUint32 hh (CurrentVersion f) in
  let hh := hh_PutBytes hh (GenesisValidatorsRoot f) in
  Ok (hh_Merkleize hh indx).
#[global] Instance hashable : Hashable t := { hashTreeRootWith := HashTreeRootWith }.

Context `{!HasherModel}.
#[global, refine] Instance hash_spec : HashableSpec t :=
  { root f := container_root
    [uint32_chunk (CurrentVersion f);
     bytes_chunks (GenesisValidatorsRoot f)] }.
Proof. intros. apply merkleize_len. Defined.
#[global] Instance hash_laws `{!SSZ} : HashableLaws t.
Proof.
  split. intros [] Hx hh Hh. open_wf. cbn. unfold HashTreeRootWith. push_tac.
Qed.
End hash.
#[global] Opaque codec spec hashable hash_spec.
End forkData.
