(* ===== verification/VarContainers.v ===== *)
(** * Containers of variable size

    The containers of [types/builder.go] with a variable-size field, other than
    the block itself: attestations and slashings, the execution payload header,
    the builder's bid, and the transaction list. *)

From S2P Require Import Prelude Fastssz Hasher SszObject FixedContainers.
#[local] Open Scope Z_scope.
#[local] Open Scope go_scope.

Lemma container_at `{!SSZ} n ps :
  fixed_len ps = n → container ps = fixed_region n ps ++ var_region ps.
Proof. by intros <-. Qed.

(** ** Lists of integers *)
Section uint64_list.
Context `{!SSZ}.

(** [for ii := 0; ii < len(l); ii++ { dst = ssz.MarshalUint64(dst, l[ii]) }]. *)
Definition marshal_uint64s (l : list Z) (dst : bytes) : bytes :=
  foldl MarshalUint64 dst l.

(** [for ii := 0; ii < num; ii++ {
      l[ii] = ssz.UnmarshallUint64(buf[ii*8 : (ii+1)*8]) }]. *)
Definition unmarshal_uint64s (buf : bytes) (num : Z) (l : list Z) : res (list Z) :=
  for_range num (λ ii l,
    b ← slice buf (ii * 8) ((ii + 1) * 8);
    set_index l ii (UnmarshallUint64 b)) l.

Definition enc_uint64s (l : list Z) : bytes := concat (uint64_bytes <$> l).

Context `{!SSZLaws}.

Lemma marshal_uint64s_eq l dst : marshal_uint64s l dst = dst ++ enc_uint64s l.
Proof.
  unfold marshal_uint64s, enc_uint64s. revert dst.
  induction l as [|v l IH]; intros dst; csimpl; [by rewrite app_nil_r|].
  by rewrite IH, MarshalUint64_eq, app_assoc.
Qed.

Lemma enc_uint64s_len l : len (enc_uint64s l) = 8 * len l.
Proof.
  unfold enc_uint64s. induction l as [|v l IH]; csimpl; [done|].
  rewrite len_app, IH, len_cons, uint64_bytes_len. lia.
Qed.

Lemma slice_uint64 l j v :
  0 ≤ j → l !! Z.to_nat j = Some v →
  slice (enc_uint64s l) (j * 8) ((j + 1) * 8) = Ok (uint64_bytes v).
Proof.
  intros Hj Hv. pose proof (lookup_lt_Some _ _ _ Hv).
  unfold enc_uint64s. rewrite <- (take_drop_middle l _ _ Hv).
  rewrite fmap_app, fmap_cons, concat_app. cbn [concat]. apply slice_mid.
  - fold (enc_uint64s (take (Z.to_nat j) l)). rewrite enc_uint64s_len.
    unfold len. rewrite length_take. lia.
  - rewrite uint64_bytes_len. lia.
Qed.

Lemma unmarshal_uint64s_enc l l0 :
  Forall u64 l → len l0 = len l → unmarshal_uint64s (enc_uint64s l) (len l) l0 = Ok l.
Proof.
  intros Hl Hlen. unfold unmarshal_uint64s.
  pose (g := λ j, take (Z.to_nat j) l ++ drop (Z.to_nat j) l0).
  change l0 with (g 0) at 1.
  transitivity (Ok (g (len l))).
  2: { unfold g. unfold len in *. rewrite Nat2Z.id, firstn_all, drop_ge by lia.
       by rewrite app_nil_r. }
  apply for_range_eq; [apply len_nonneg|]. intros j Hj.
  destruct (lookup_lt_is_Some_2 l (Z.to_nat j)) as [v Hv]; [unfold len in *; lia|].
  destruct (lookup_lt_is_Some_2 l0 (Z.to_nat j)) as [w Hw]; [unfold len in *; lia|].
  rewrite (slice_uint64 l j v) by (done || lia). cbn [mbind res_bind].
  rewrite uint64_bytes_roundtrip by (by eapply Forall_lookup_1).
  unfold g. rewrite (drop_S l0 w _ Hw). rewrite (set_index_next _ _ _ v).
  - replace (Z.to_nat (j + 1)) with (S (Z.to_nat j)) by lia.
    by rewrite (take_S_r l _ v Hv).
  - unfold len in *. rewrite length_take. lia.
Qed.

Lemma unmarshal_uint64s_wf buf num l :
  0 ≤ num → len buf = num * 8 → len l = num →
  unmarshal_uint64s buf num l ⇓ λ l, len l = num ∧ Forall u64 l.
Proof.
  intros Hnum Hbuf Hlen. unfold unmarshal_uint64s.
  eapply post_impl.
  - apply (for_range_post _ (λ j l, len l = num ∧ Forall u64 (take (Z.to_nat j) l)));
      [done| |by rewrite Hlen].
    intros j l' Hj [Hl' HF].
    eapply post_bind; [apply post_slice; lia|]. intros b Hb. cbv beta in *.
    destruct (lookup_lt_is_Some_2 l' (Z.to_nat j)) as [v Hv]; [unfold len in *; lia|].
    rewrite set_index_ok by lia. cbn. split.
    + unfold len. rewrite length_insert. done.
    + replace (Z.to_nat (j + 1)) with (S (Z.to_nat j)) by lia.
      rewrite (take_S_r _ _ (UnmarshallUint64 b)).
      * apply Forall_app. rewrite take_insert_ge by lia. split; [done|].
        repeat constructor; apply UnmarshallUint64_range; lia.
      * apply list_lookup_insert_eq. unfold len in *. lia.
  - cbv beta. intros l' [Hl' HF]. split; [done|].
    rewrite take_ge in HF by (unfold len in *; lia). done.
Qed.
End uint64_list.

(** A list of integers is packed into chunks, with the length mixed in. *)
Definition uint64s_root `{!Hasher, !HasherModel} (limit : Z) (l : list Z) : bytes :=
  merkleize_mixin (pad32 (concat (uint64_pack <$> l))) (len l)
    (CalculateLimit limit (len l) 8).

Lemma AppendUint64s_buf `{!Hasher, !HasherModel} (l : list Z) h :
  hh_buf (foldl hh_AppendUint64 h l) = hh_buf h ++ concat (uint64_pack <$> l).
Proof.
  revert h. induction l as [|v l IH]; intros h; csimpl; [by rewrite app_nil_r|].
  by rewrite IH, AppendUint64_buf, app_assoc.
Qed.

Lemma uint64s_root_buf `{!Hasher, !HasherModel} (l : list Z) limit h :
  chunked (hh_buf h) →
  hh_buf (hh_MerkleizeWithMixin (hh_FillUpTo32 (foldl hh_AppendUint64 h l))
            (hh_Index h) (len l) (CalculateLimit limit (len l) 8))
  = hh_buf h ++ uint64s_root limit l.
Proof.
  intros Hh. apply MerkleizeWithMixin_buf; [|apply Index_buf].
  apply FillUpTo32_buf; [apply AppendUint64s_buf|done].
Qed.

Lemma uint64s_root_len `{!Hasher, !HasherModel} limit l : len (uint64s_root limit l) = 32.
Proof. apply merkleize_mixin_len. Qed.
#[export] Hint Resolve uint64s_root_len : chunked.

Arguments enc_uint64s : simpl never.
Arguments marshal_uint64s : simpl never.
Arguments unmarshal_uint64s : simpl never.

Module IndexedAttestation.
Record t := mk {
  AttestingIndices : list Z;
  Data : option AttestationData.t;
  Signature : bytes;
}.
Definition zero : t := mk [] None (zeros 96).

Section codec.
Context `{!SSZ}.

Definition Wf (i : t) : Prop :=
  (len (AttestingIndices i) ≤ 2048 ∧ Forall u64 (AttestingIndices i)) ∧
  ptr wf (Data i) ∧ len (Signature i) = 96.

Definition MarshalSSZTo (i : t) (buf : bytes) : res (t * bytes) :=
  let dst := buf in
  let offset := 228 in
  let dst := WriteOffset dst offset in
  '(data, dst) ← marshalSSZTo (default new (Data i)) dst;
  let dst := dst ++ Signature i in
  if 2048 <? len (AttestingIndices i) then Err ErrListTooBig else
  let dst := marshal_uint64s (AttestingIndices i) dst in
  Ok (mk (AttestingIndices i) (Some data) (Signature i), dst).

Definition UnmarshalSSZ (i : t) (buf : bytes) : res t :=
  let size := len buf in
  if size <? 228 then Err ErrSize else
  let tail := buf in
  b ← slice buf 0 4;
  let o0 := ReadOffset b in
  if size <? o0 then Err ErrOffset else
  if o0 <? 228 then Err ErrInvalidVariableOffset else
  b ← slice buf 4 132;
  data ← unmarshalSSZ (default new (Data i)) b;
  b ← slice buf 132 228;
  let signature := copy (Signature i) b in
  buf ← slice_from tail o0;
  num ← DivideInt2 (len buf) 8 2048;
  indices ← unmarshal_uint64s buf num (ExtendUint64 (AttestingIndices i) num);
  Ok (mk indices (Some data) signature).

Definition SizeSSZ (i : t) : res (t * Z) :=
  let size := 228 in
  Ok (i, size + len (AttestingIndices i) * 8).

#[global] Instance codec : Codec t := {
  new := zero; marshalSSZTo := MarshalSSZTo;
  unmarshalSSZ := UnmarshalSSZ; sizeSSZ := SizeSSZ;
}.

Definition parts (i : t) : list part :=
  [Var (enc_uint64s (AttestingIndices i)); Fixed (enc_ptr (Data i)); Fixed (Signature i)].
#[global] Instance spec : CodecSpec t :=
  { wf := Wf; enc i := container (parts i); max_size := 228 + 8 * 2048 }.

Context `{!SSZLaws}.

Lemma IndexedAttestation_enc i :
  wf i → enc i = fixed_region 228 (parts i) ++ var_region (parts i).
Proof. intros Hx. apply container_at. destruct i. open_wf. cbn. len_norm. Qed.

Lemma IndexedAttestation_len i :
  wf i → len (enc i) = 228 + 8 * len (AttestingIndices i).
Proof.
  intros Hx. rewrite IndexedAttestation_enc by done. destruct i. open_wf. cbn.
  rewrite !len_app, enc_uint64s_len. len_norm.
Qed.

#[global] Instance laws : CodecLaws t.
Proof.
  split.
  - intros i dst Hx. rewrite IndexedAttestation_enc by done.
    destruct i. open_wf. cbn. unfold MarshalSSZTo. cbn. children.
    rewrite (proj2 (Z.ltb_ge _ _)) by done. rewrite marshal_uint64s_eq. marshal_tac.
  - intros i Hx. rewrite IndexedAttestation_len by done.
    cbn. unfold SizeSSZ. do 2 f_equal. lia.
  - intros i Hx. pose proof (IndexedAttestation_len i Hx) as Hlen.
    rewrite IndexedAttestation_enc in * by done. destruct i. open_wf. cbn in Hlen |- *.
    unfold UnmarshalSSZ. rewrite Hlen. pose proof (len_nonneg AttestingIndices0).
    rewrite (proj2 (Z.ltb_ge _ 228)) by lia. enc_norm. slices.
    guards. read_back. rewrite enc_uint64s_len, (Z.mul_comm 8), DivideInt2_ok by lia.
    cbn [mbind res_bind]. by rewrite unmarshal_uint64s_enc by (done || by rewrite ExtendUint64_len).
  - intros b. cbn. unfold UnmarshalSSZ. repeat post_step.
    eapply post_bind.
    { apply unmarshal_uint64s_wf; [lia|lia|apply ExtendUint64_len; lia]. }
    intros l [Hl HF]. cbv beta in *. wf_fields.
  - intros i Hx. rewrite IndexedAttestation_len by done.
    destruct i. open_wf. cbn in *. lia.
Qed.
End codec.

Section hash.
Context `{!Hasher}.

Definition HashTreeRootWith (i : t) (hh : hasher) : res hasher :=
  let indx := hh_Index hh in
  if 2048 <? len (AttestingIndices i) then Err ErrListTooBig else
  let subIndx := hh_Index hh in
  let hh := foldl hh_AppendUint64 hh (AttestingIndices i) in
  let hh := hh_FillUpTo32 hh in
  let numItems := len (AttestingIndices i) in
  let hh := hh_MerkleizeWithMixin hh subIndx numItems (CalculateLimit 2048 numItems 8) in
  data ← deref (Data i);
  hh ← hashTreeRootWith data hh;
  let hh := hh_PutBytes hh (Signature i) in
  Ok (hh_Merkleize hh indx).
#[global] Instance hashable : Hashable t := { hashTreeRootWith := HashTreeRootWith }.

Context `{!HasherModel}.
#[global, refine] Instance hash_spec : HashableSpec t :=
  { root i := container_root
    [uint64s_root 2048 (AttestingIndices i); root_ptr (Data i);
     bytes_chunks (Signature i)] }.
Proof. intros. apply merkleize_len. Defined.
#[global] Instance hash_laws `{!SSZ} : HashableLaws t.
Proof.
  split. intros [] Hx hh Hh. open_wf. cbn. unfold HashTreeRootWith. cbn.
  guards. pose proof (uint64s_root_buf AttestingIndices0 2048 hh Hh). push_tac.
Qed.
End hash.
#[global] Opaque codec spec hashable hash_spec.
End IndexedAttestation.

Module AttesterSlashing.
Record t := mk {
  A : option IndexedAttestation.t;
  B : option IndexedAttestation.t;
}.
Definition zero : t := mk None None.

Section codec.
Context `{!SSZ}.

Definition Wf (a : t) : Prop := ptr wf (A a) ∧ ptr wf (B a).

Definition MarshalSSZTo (a : t) (buf : bytes) : res (t * bytes) :=
  let dst := buf in
  let offset := 8 in
  let dst := WriteOffset dst offset in
  '(va, n) ← sizeSSZ (default new (A a));
  let offset := offset + n in
  let dst := WriteOffset dst offset in
  '(vb, n) ← sizeSSZ (default new (B a));
  '(va, dst) ← marshalSSZTo va dst;
  '(vb, dst) ← marshalSSZTo vb dst;
  Ok (mk (Some va) (Some vb), dst).

Definition UnmarshalSSZ (a : t) (buf : bytes) : res t :=
  let size := len buf in
  if size <? 8 then Err ErrSize else
  let tail := buf in
  b ← slice buf 0 4;
  let o0 := ReadOffset b in
  if size <? o0 then Err ErrOffset else
  if o0 <? 8 then Err ErrInvalidVariableOffset else
  b ← slice buf 4 8;
  let o1 := ReadOffset b in
  if (size <? o1) || (o1 <? o0) then Err ErrOffset else
  buf ← slice tail o0 o1;
  va ← unmarshalSSZ (default new (A a)) buf;
  buf ← slice_from tail o1;
  vb ← unmarshalSSZ (default new (B a)) buf;
  Ok (mk (Some va) (Some vb)).

Definition SizeSSZ (a : t) : res (t * Z) :=
  let size := 8 in
  '(va, n) ← sizeSSZ (default new (A a));
  let size := size + n in
  '(vb, n) ← sizeSSZ (default new (B a));
  let size := size + n in
  Ok (mk (Some va) (Some vb), size).

#[global] Instance codec : Codec t := {
  new := zero; marshalSSZTo := MarshalSSZTo;
  unmarshalSSZ := UnmarshalSSZ; sizeSSZ := SizeSSZ;
}.

Definition parts (a : t) : list part := [Var (enc_ptr (A a)); Var (enc_ptr (B a))].
#[global] Instance spec : CodecSpec t :=
  { wf := Wf; enc a := container (parts a);
    max_size := 8 + 2 * 16612 }.

Context `{!SSZLaws}.

Lemma AttesterSlashing_max : max_size (T := t) = 33232.
Proof. reflexivity. Qed.

Lemma AttesterSlashing_enc a :
  enc a = (offset_bytes 8 ++ offset_bytes (8 + len (enc_ptr (A a))))
          ++ concat [enc_ptr (A a); enc_ptr (B a)].
Proof. destruct a. cbn. unfold container. cbn. by rewrite !app_nil_r. Qed.

Lemma AttesterSlashing_len a :
  len (enc a) = 8 + len (enc_ptr (A a)) + len (enc_ptr (B a)).
Proof.
  rewrite AttesterSlashing_enc. cbn. rewrite !len_app, !offset_bytes_len, len_nil. lia.
Qed.

#[global] Instance laws : CodecLaws t.
Proof.
  split.
  - intros a dst Hx. rewrite AttesterSlashing_enc. destruct a. open_wf. cbn.
    unfold MarshalSSZTo. cbn. repeat (progress children). enc_norm. reflexivity.
  - intros a Hx. rewrite AttesterSlashing_len. destruct a. open_wf. cbn.
    unfold SizeSSZ. cbn. repeat (progress children). reflexivity.
  - intros a Hx. pose proof (AttesterSlashing_len a) as Hlen.
    rewrite AttesterSlashing_enc in *. destruct a. open_wf. cbn [unmarshalSSZ codec].
    unfold UnmarshalSSZ. rewrite Hlen. cbn [A B enc_ptr new codec zero default].
    bounds. read_fixed. read_var 0%nat. rewrite unmarshal_enc by done. cbn [mbind res_bind].
    read_var 1%nat. by rewrite unmarshal_enc.
  - intros b. cbn. unfold UnmarshalSSZ. unmarshal_wf_tac.
  - intros a Hx. rewrite AttesterSlashing_len. destruct a. open_wf. bounds. cbn. lia.
Qed.
End codec.

Section hash.
Context `{!Hasher}.

Definition HashTreeRootWith (a : t) (hh : hasher) : res hasher :=
  let indx := hh_Index hh in
  va ← deref (A a);
  hh ← hashTreeRootWith va hh;
  vb ← deref (B a);
  hh ← hashTreeRootWith vb hh;
  Ok (hh_Merkleize hh indx).
#[global] Instance hashable : Hashable t := { hashTreeRootWith := HashTreeRootWith }.

Context `{!HasherModel}.
#[global, refine] Instance hash_spec : HashableSpec t :=
  { root a := container_root [root_ptr (A a); root_ptr (B a)] }.
Proof. intros. apply merkleize_len. Defined.
#[global] Instance hash_laws `{!SSZ} : HashableLaws t.
Proof.
  split. intros [] Hx hh Hh. open_wf. cbn. unfold HashTreeRootWith. push_tac.
Qed.
End hash.
#[global] Opaque codec spec hashable hash_spec.
End AttesterSlashing.

Module Attestation.
Record t := mk {
  AggregationBits : bytes;
  Data : option AttestationData.t;
  Signature : bytes;
}.
Definition zero : t := mk [] None (zeros 96).

Section codec.
Context `{!SSZ}.

Definition Wf (a : t) : Prop :=
  ValidateBitlist (AggregationBits a) 2048 = Ok tt ∧ ptr wf (Data a) ∧ len (Signature a) = 96.

Definition MarshalSSZTo (a : t) (buf : bytes) : res (t * bytes) :=
  let dst := buf in
  let offset := 228 in
  let dst := WriteOffset dst offset in
  '(data, dst) ← marshalSSZTo (default new (Data a)) dst;
  let dst := dst ++ Signature a in
  if 2048 <? len (AggregationBits a) then Err ErrBytesLength else
  let dst := dst ++ AggregationBits a in
  Ok (mk (AggregationBits a) (Some data) (Signature a), dst).

Definition UnmarshalSSZ (a : t) (buf : bytes) : res t :=
  let size := len buf in
  if size <? 228 then Err ErrSize else
  let tail := buf in
  b ← slice buf 0 4;
  let o0 := ReadOffset b in
  if size <? o0 then Err ErrOffset else
  if o0 <? 228 then Err ErrInvalidVariableOffset else
  b ← slice buf 4 132;
  data ← unmarshalSSZ (default new (Data a)) b;
  b ← slice buf 132 228;
  let signature := copy (Signature a) b in
  buf ← slice_from tail o0;
  _ ← ValidateBitlist buf 2048;
  Ok (mk (AggregationBits a ++ buf) (Some data) signature).

Definition SizeSSZ (a : t) : res (t * Z) :=
  let size := 228 in
  Ok (a, size + len (AggregationBits a)).

#[global] Instance codec : Codec t := {
  new := zero; marshalSSZTo := MarshalSSZTo;
  unmarshalSSZ := UnmarshalSSZ; sizeSSZ := SizeSSZ;
}.

Definition parts (a : t) : list part :=
  [Var (AggregationBits a); Fixed (enc_ptr (Data a)); Fixed (Signature a)].
#[global] Instance spec : CodecSpec t :=
  { wf := Wf; enc a := container (parts a); max_size := 228 + 257 }.

Context `{!SSZLaws}.

Lemma Attestation_bits a : wf a → 0 < len (AggregationBits a) ≤ 257.
Proof.
  intros [Hv _]. pose proof (ValidateBitlist_post (AggregationBits a) 2048) as Hp.
  rewrite Hv in Hp. exact Hp.
Qed.

Lemma Attestation_max : max_size (T := t) = 485.
Proof. reflexivity. Qed.

Lemma Attestation_enc a :
  wf a → enc a = (offset_bytes 228 ++ enc_ptr (Data a) ++ Signature a)
                 ++ concat [AggregationBits a].
Proof.
  intros Hx. etrans; [apply (container_at 228)|]; destruct a; open_wf; cbn; [len_norm|].
  by rewrite !app_nil_r.
Qed.

Lemma Attestation_len a : wf a → len (enc a) = 228 + len (AggregationBits a).
Proof.
  intros Hx. rewrite Attestation_enc by done. destruct a. open_wf. cbn.
  rewrite app_nil_r. len_norm.
Qed.

#[global] Instance laws : CodecLaws t.
Proof.
  split.
  - intros a dst Hx. pose proof (Attestation_bits a Hx). rewrite Attestation_enc by done.
    destruct a. open_wf. cbn in *. unfold MarshalSSZTo. cbn. children. guards. marshal_tac.
  - intros a Hx. by rewrite Attestation_len.
  - intros a Hx. pose proof (Attestation_len a Hx) as Hlen. pose proof (Attestation_bits a Hx).
    rewrite Attestation_enc in * by done. destruct a. open_wf.
    cbn [unmarshalSSZ codec new]. unfold UnmarshalSSZ. rewrite Hlen.
    cbn [AggregationBits Data Signature enc_ptr zero default] in *.
    read_fixed. read_var 0%nat.
    by match goal with H : ValidateBitlist _ _ = _ |- _ => rewrite H end.
  - intros b. cbn. unfold UnmarshalSSZ. repeat post_step.
    destruct (ValidateBitlist _ _) as [[]|e|] eqn:Hv; cbn [mbind res_bind]; [wf_fields|done|].
    pose proof (ValidateBitlist_post a3 2048) as Hp. by rewrite Hv in Hp.
  - intros a Hx. pose proof (Attestation_bits a Hx). rewrite Attestation_len by done.
    cbn. lia.
Qed.
End codec.

Section hash.
Context `{!Hasher}.

Definition HashTreeRootWith (a : t) (hh : hasher) : res hasher :=
  let indx := hh_Index hh in
  if len (AggregationBits a) =? 0 then Err ErrEmptyBitlist else
  let hh := hh_PutBitlist hh (AggregationBits a) 2048 in
  data ← deref (Data a);
  hh ← hashTreeRootWith data hh;
  let hh := hh_PutBytes hh (Signature a) in
  Ok (hh_Merkleize hh indx).
#[global] Instance hashable : Hashable t := { hashTreeRootWith := HashTreeRootWith }.

Context `{!HasherModel}.
#[global, refine] Instance hash_spec : HashableSpec t :=
  { root a := container_root
    [bitlist_chunk (AggregationBits a) 2048; root_ptr (Data a); bytes_chunks (Signature a)] }.
Proof. intros. apply merkleize_len. Defined.
#[global] Instance hash_laws `{!SSZ, !SSZLaws} : HashableLaws t.
Proof.
  split. intros a Hx hh Hh. pose proof (Attestation_bits a Hx). destruct a. open_wf.
  cbn [hashTreeRootWith hashable root hash_spec root_ptr]. unfold HashTreeRootWith.
  cbn [AggregationBits Data Signature] in *. rewrite (proj2 (Z.eqb_neq _ _)) by lia. push_tac.
Qed.
End hash.
#[global] Opaque codec spec hashable hash_spec.
End Attestation.

Module ExecutionPayloadHeader.
Record t := mk {
  ParentHash : bytes;
  FeeRecipient : bytes;
  StateRoot : bytes;
  ReceiptsRoot : bytes;
  LogsBloom : bytes;
  Random : bytes;
  BlockNumber : Z;
  GasLimit : Z;
  GasUsed : Z;
  Timestamp : Z;
  ExtraData : bytes;
  BaseFeePerGas : bytes;
  BlockHash : bytes;
  TransactionsRoot : bytes;
}.
Definition zero : t :=
  mk (zeros 32) (zeros 20) (zeros 32) (zeros 32) (zeros 256) (zeros 32)
     0 0 0 0 [] (zeros 32) (zeros 32) (zeros 32).

Section codec.
Context `{!SSZ}.

Definition Wf (e : t) : Prop :=
  len (ParentHash e) = 32 ∧ len (FeeRecipient e) = 20 ∧ len (StateRoot e) = 32 ∧
  len (ReceiptsRoot e) = 32 ∧ len (LogsBloom e) = 256 ∧ len (Random e) = 32 ∧
  u64 (BlockNumber e) ∧ u64 (GasLimit e) ∧ u64 (GasUsed e) ∧ u64 (Timestamp e) ∧
  len (ExtraData e) ≤ 2048 ∧ len (BaseFeePerGas e) = 32 ∧ len (BlockHash e) = 32 ∧
  len (TransactionsRoot e) = 32.

Definition MarshalSSZTo (e : t) (buf : bytes) : res (t * bytes) :=
  let dst := buf in
  let offset := 536 in
  let dst := dst ++ ParentHash e in
  let dst := dst ++ FeeRecipient e in
  let dst := dst ++ StateRoot e in
  let dst := dst ++ ReceiptsRoot e in
  let dst := dst ++ LogsBloom e in
  let dst := dst ++ Random e in
  let dst := MarshalUint64 dst (BlockNumber e) in
  let dst := MarshalUint64 dst (GasLimit e) in
  let dst := MarshalUint64 dst (GasUsed e) in
  let dst := MarshalUint64 dst (Timestamp e) in
  let dst := WriteOffset dst offset in
  let dst := dst ++ BaseFeePerGas e in
  let dst := dst ++ BlockHash e in
  let dst := dst ++ TransactionsRoot e in
  if 2048 <? len (ExtraData e) then Err ErrBytesLength else
  let dst := dst ++ ExtraData e in
  Ok (e, dst).

Definition UnmarshalSSZ (e : t) (buf : bytes) : res t :=
  let size := len buf in
  if size <? 536 then Err ErrSize else
  let tail := buf in
  b0 ← slice buf 0 32;
  b1 ← slice buf 32 52;
  b2 ← slice buf 52 84;
  b3 ← slice buf 84 116;
  b4 ← slice buf 116 372;
  b5 ← slice buf 372 404;
  b6 ← slice buf 404 412;
  b7 ← slice buf 412 420;
  b8 ← slice buf 420 428;
  b9 ← slice buf 428 436;
  b ← slice buf 436 440;
  let o10 := ReadOffset b in
  if size <? o10 then Err ErrOffset else
  if o10 <? 536 then Err ErrInvalidVariableOffset else
  b11 ← slice buf 440 472;
  b12 ← slice buf 472 504;
  b13 ← slice buf 504 536;
  buf ← slice_from tail o10;
  if 2048 <? len buf then Err ErrBytesLength else
  Ok (mk (copy (ParentHash e) b0) (copy (FeeRecipient e) b1) (copy (StateRoot e) b2)
        (copy (ReceiptsRoot e) b3) (copy (LogsBloom e) b4) (copy (Random e) b5)
        (UnmarshallUint64 b6) (UnmarshallUint64 b7) (UnmarshallUint64 b8)
        (UnmarshallUint64 b9) (ExtraData e ++ buf) (copy (BaseFeePerGas e) b11)
        (copy (BlockHash e) b12) (copy (TransactionsRoot e) b13)).

Definition SizeSSZ (e : t) : res (t * Z) :=
  let size := 536 in
  Ok (e, size + len (ExtraData e)).

#[global] Instance codec : Codec t := {
  new := zero; marshalSSZTo := MarshalSSZTo;
  unmarshalSSZ := UnmarshalSSZ; sizeSSZ := SizeSSZ;
}.

Definition parts (e : t) : list part :=
  [Fixed (ParentHash e); Fixed (FeeRecipient e); Fixed (StateRoot e); Fixed (ReceiptsRoot e);
   Fixed (LogsBloom e); Fixed (Random e); Fixed (uint64_bytes (BlockNumber e));
   Fixed (uint64_bytes (GasLimit e)); Fixed (uint64_bytes (GasUsed e));
   Fixed (uint64_bytes (Timestamp e)); Var (ExtraData e); Fixed (BaseFeePerGas e);
   Fixed (BlockHash e); Fixed (TransactionsRoot e)].
#[global] Instance spec : CodecSpec t :=
  { wf := Wf; enc e := container (parts e); max_size := 536 + 2048 }.

Context `{!SSZLaws}.

Lemma ExecutionPayloadHeader_enc e :
  wf e → enc e =
    (ParentHash e ++ FeeRecipient e ++ StateRoot e ++ ReceiptsRoot e ++ LogsBloom e ++
     Random e ++ uint64_bytes (BlockNumber e) ++ uint64_bytes (GasLimit e) ++
     uint64_bytes (GasUsed e) ++ uint64_bytes (Timestamp e) ++ offset_bytes 536 ++
     BaseFeePerGas e ++ BlockHash e ++ TransactionsRoot e) ++ concat [ExtraData e].
Proof.
  intros Hx. etrans; [apply (container_at 536)|]; destruct e; open_wf; cbn; [len_norm|].
  by rewrite !app_nil_r.
Qed.

Lemma ExecutionPayloadHeader_len e : wf e → len (enc e) = 536 + len (ExtraData e).
Proof.
  intros Hx. rewrite ExecutionPayloadHeader_enc by done. destruct e. open_wf. cbn.
  rewrite app_nil_r. len_norm.
Qed.

#[global] Instance laws : CodecLaws t.
Proof.
  split.
  - intros e dst Hx. rewrite ExecutionPayloadHeader_enc by done.
    destruct e. open_wf. cbn in *. unfold MarshalSSZTo. cbn. guards. marshal_tac.
  - intros e Hx. by rewrite ExecutionPayloadHeader_len.
  - intros e Hx. pose proof (ExecutionPayloadHeader_len e Hx) as Hlen.
    rewrite ExecutionPayloadHeader_enc in * by done. destruct e. open_wf.
    cbn [unmarshalSSZ codec new]. unfold UnmarshalSSZ. rewrite Hlen.
    cbn [ParentHash FeeRecipient StateRoot ReceiptsRoot LogsBloom Random BlockNumber GasLimit
      GasUsed Timestamp ExtraData BaseFeePerGas BlockHash TransactionsRoot zero] in *.
    pose proof (len_nonneg ExtraData0).
    read_fixed. read_var 0%nat. guards. reflexivity.
  - intros b. cbn. unfold UnmarshalSSZ. unmarshal_wf_tac.
  - intros e Hx. rewrite ExecutionPayloadHeader_len by done. destruct e. open_wf. cbn in *. lia.
Qed.

Definition with_extra (e : t) (x : bytes) : t :=
  mk (ParentHash e) (FeeRecipient e) (StateRoot e) (ReceiptsRoot e) (LogsBloom e) (Random e)
     (BlockNumber e) (GasLimit e) (GasUsed e) (Timestamp e) x (BaseFeePerGas e) (BlockHash e)
     (TransactionsRoot e).

(** Decoding into a receiver that was used before. *)
Lemma unmarshal_reuse e0 e :
  wf e0 → wf e → UnmarshalSSZ e0 (enc e) = Ok (with_extra e (ExtraData e0 ++ ExtraData e)).
Proof.
  intros Hy Hx. pose proof (ExecutionPayloadHeader_len e Hx) as Hlen.
  rewrite ExecutionPayloadHeader_enc in * by done. destruct e0, e. open_wf. open_wf.
  unfold UnmarshalSSZ. rewrite Hlen. clear Hlen.
  cbn [ParentHash FeeRecipient StateRoot ReceiptsRoot LogsBloom Random BlockNumber GasLimit
    GasUsed Timestamp ExtraData BaseFeePerGas BlockHash TransactionsRoot zero] in *.
  match goal with H : len ?x ≤ 2048 |- context [concat [?x]] => pose proof (len_nonneg x) end.
  read_fixed. read_var 0%nat. guards. reflexivity.
Qed.

Lemma marshal_extra e dst :
  2048 < len (ExtraData e) → MarshalSSZTo e dst = Err ErrBytesLength.
Proof. intros. unfold MarshalSSZTo. by rewrite (proj2 (Z.ltb_lt _ _)) by lia. Qed.
End codec.

Section hash.
Context `{!Hasher}.

Definition HashTreeRootWith (e : t) (hh : hasher) : res hasher :=
  let indx := hh_Index hh in
  let hh := hh_PutBytes hh (ParentHash e) in
  let hh := hh_PutBytes hh (FeeRecipient e) in
  let hh := hh_PutBytes hh (StateRoot e) in
  let hh := hh_PutBytes hh (ReceiptsRoot e) in
  let hh := hh_PutBytes hh (LogsBloom e) in
  let hh := hh_PutBytes hh (Random e) in
  let hh := hh_PutUint64 hh (BlockNumber e) in
  let hh := hh_PutUint64 hh (GasLimit e) in
  let hh := hh_PutUint64 hh (GasUsed e) in
  let hh := hh_PutUint64 hh (Timestamp e) in
  let elemIndx := hh_Index hh in
  let byteLen := len (ExtraData e) in
  if 2048 <? byteLen then Err ErrIncorrectListSize else
  let hh := hh_PutBytes hh (ExtraData e) in
  let hh := hh_MerkleizeWithMixin hh elemIndx byteLen ((32 + 31) / 32) in
  let hh := hh_PutBytes hh (BaseFeePerGas e) in
  let hh := hh_PutBytes hh (BlockHash e) in
  let hh := hh_PutBytes hh (TransactionsRoot e) in
  Ok (hh_Merkleize hh indx).
#[global] Instance hashable : Hashable t := { hashTreeRootWith := HashTreeRootWith }.

Context `{!HasherModel}.
#[global, refine] Instance hash_spec : HashableSpec t :=
  { root e := container_root
    [bytes_chunks (ParentHash e); bytes_chunks (FeeRecipient e); bytes_chunks (StateRoot e);
     bytes_chunks (ReceiptsRoot e); bytes_chunks (LogsBloom e); bytes_chunks (Random e);
     uint64_chunk (BlockNumber e); uint64_chunk (GasLimit e); uint64_chunk (GasUsed e);
     uint64_chunk (Timestamp e);
     merkleize_mixin (bytes_chunks (ExtraData e)) (len (ExtraData e)) 1;
     bytes_chunks (BaseFeePerGas e); bytes_chunks (BlockHash e);
     bytes_chunks (TransactionsRoot e)] }.
Proof. intros. apply merkleize_len. Defined.
#[global] Instance hash_laws `{!SSZ} : HashableLaws t.
Proof.
  split. intros [] Hx hh Hh. open_wf. cbn in * |-.
  cbn [hashTreeRootWith hashable root hash_spec]. unfold HashTreeRootWith.
  cbn [ParentHash FeeRecipient StateRoot ReceiptsRoot LogsBloom Random BlockNumber GasLimit
    GasUsed Timestamp ExtraData BaseFeePerGas BlockHash TransactionsRoot].
  guards. mixin_step. merkleize_tac.
Qed.

Lemma hash_extra e :
  2048 < len (ExtraData e) → HashTreeRoot e = Err ErrIncorrectListSize.
Proof.
  intros. apply HashWithDefaultHasher_err. cbn. unfold HashTreeRootWith.
  by rewrite (proj2 (Z.ltb_lt _ _)) by lia.
Qed.
End hash.
#[global] Opaque codec spec hashable hash_spec.
End ExecutionPayloadHeader.

Module BuilderBid.
Record t := mk {
  Header : option ExecutionPayloadHeader.t;
  Value : bytes;
  Pubkey : bytes;
}.
Definition zero : t := mk None (zeros 32) (zeros 48).

Section codec.
Context `{!SSZ}.

Definition Wf (b : t) : Prop :=
  ptr wf (Header b) ∧ len (Value b) = 32 ∧ len (Pubkey b) = 48.

Definition MarshalSSZTo (b : t) (buf : bytes) : res (t * bytes) :=
  let dst := buf in
  let offset := 84 in
  let dst := WriteOffset dst offset in
  '(header, _) ← sizeSSZ (default new (Header b));
  let dst := dst ++ Value b in
  let dst := dst ++ Pubkey b in
  '(header, dst) ← marshalSSZTo header dst;
  Ok (mk (Some header) (Value b) (Pubkey b), dst).

Definition UnmarshalSSZ (b : t) (buf : bytes) : res t :=
  let size := len buf in
  if size <? 84 then Err ErrSize else
  let tail := buf in
  b0 ← slice buf 0 4;
  let o0 := ReadOffset b0 in
  if size <? o0 then Err ErrOffset else
  if o0 <? 84 then Err ErrInvalidVariableOffset else
  b1 ← slice buf 4 36;
  b2 ← slice buf 36 84;
  buf ← slice_from tail o0;
  header ← unmarshalSSZ (default new (Header b)) buf;
  Ok (mk (Some header) (copy (Value b) b1) (copy (Pubkey b) b2)).

Definition SizeSSZ (b : t) : res (t * Z) :=
  let size := 84 in
  '(header, n) ← sizeSSZ (default new (Header b));
  let size := size + n in
  Ok (mk (Some header) (Value b) (Pubkey b), size).

#[global] Instance codec : Codec t := {
  new := zero; marshalSSZTo := MarshalSSZTo;
  unmarshalSSZ := UnmarshalSSZ; sizeSSZ := SizeSSZ;
}.

Definition parts (b : t) : list part :=
  [Var (enc_ptr (Header b)); Fixed (Value b); Fixed (Pubkey b)].
#[global] Instance spec : CodecSpec t :=
  { wf := Wf; enc b := container (parts b); max_size := 84 + 2584 }.

Context `{!SSZLaws}.

Lemma BuilderBid_enc b :
  wf b → enc b = (offset_bytes 84 ++ Value b ++ Pubkey b) ++ concat [enc_ptr (Header b)].
Proof.
  intros Hx. etrans; [apply (container_at 84)|]; destruct b; open_wf; cbn; [len_norm|].
  by rewrite !app_nil_r.
Qed.

Lemma BuilderBid_len b : wf b → len (enc b) = 84 + len (enc_ptr (Header b)).
Proof.
  intros Hx. rewrite BuilderBid_enc by done. destruct b. open_wf. cbn.
  rewrite app_nil_r. len_norm.
Qed.

#[global] Instance laws : CodecLaws t.
Proof.
  split.
  - intros b dst Hx. rewrite BuilderBid_enc by done. destruct b. open_wf. cbn.
    unfold MarshalSSZTo. cbn. marshal_tac.
  - intros b Hx. rewrite BuilderBid_len by done. destruct b. open_wf. cbn.
    unfold SizeSSZ. cbn. children. reflexivity.
  - intros b Hx. pose proof (BuilderBid_len b Hx) as Hlen.
    rewrite BuilderBid_enc in * by done. destruct b. open_wf.
    cbn [unmarshalSSZ codec new]. unfold UnmarshalSSZ. rewrite Hlen.
    cbn [Header Value Pubkey zero enc_ptr default] in *. bounds.
    read_fixed. read_var 0%nat. by rewrite unmarshal_enc.
  - intros b. cbn. unfold UnmarshalSSZ. unmarshal_wf_tac.
  - intros b Hx. rewrite BuilderBid_len by done. destruct b. open_wf. bounds. cbn. lia.
Qed.
End codec.

Section hash.
Context `{!Hasher}.

Definition HashTreeRootWith (b : t) (hh : hasher) : res hasher :=
  let indx := hh_Index hh in
  header ← deref (Header b);
  hh ← hashTreeRootWith header hh;
  let hh := hh_PutBytes hh (Value b) in
  let hh := hh_PutBytes hh (Pubkey b) in
  Ok (hh_Merkleize hh indx).
#[global] Instance hashable : Hashable t := { hashTreeRootWith := HashTreeRootWith }.

Context `{!HasherModel}.
#[global, refine] Instance hash_spec : HashableSpec t :=
  { root b := container_root
    [root_ptr (Header b); bytes_chunks (Value b); bytes_chunks (Pubkey b)] }.
Proof. intros. apply merkleize_len. Defined.
#[global] Instance hash_laws `{!SSZ} : HashableLaws t.
Proof.
  split. intros [] Hx hh Hh. open_wf. cbn. unfold HashTreeRootWith. push_tac.
Qed.
End hash.
#[global] Opaque codec spec hashable hash_spec.
End BuilderBid.

Module SignedBuilderBid.
Record t := mk {
  Message : option BuilderBid.t;
  Signature : bytes;
}.
Definition zero : t := mk None (zeros 96).

Section codec.
Context `{!SSZ}.

Definition Wf (s : t) : Prop := ptr wf (Message s) ∧ len (Signature s) = 96.

Definition MarshalSSZTo (s : t) (buf : bytes) : res (t * bytes) :=
  let dst := buf in
  let offset := 100 in
  let dst := WriteOffset dst offset in
  '(message, _) ← sizeSSZ (default new (Message s));
  let dst := dst ++ Signature s in
  '(message, dst) ← marshalSSZTo message dst;
  Ok (mk (Some message) (Signature s), dst).

Definition UnmarshalSSZ (s : t) (buf : bytes) : res t :=
  let size := len buf in
  if size <? 100 then Err ErrSize else
  let tail := buf in
  b0 ← slice buf 0 4;
  let o0 := ReadOffset b0 in
  if size <? o0 then Err ErrOffset else
  if o0 <? 100 then Err ErrInvalidVariableOffset else
  b1 ← slice buf 4 100;
  buf ← slice_from tail o0;
  message ← unmarshalSSZ (default new (Message s)) buf;
  Ok (mk (Some message) (copy (Signature s) b1)).

Definition SizeSSZ (s : t) : res (t * Z) :=
  let size := 100 in
  '(message, n) ← sizeSSZ (default new (Message s));
  let size := size + n in
  Ok (mk (Some message) (Signature s), size).

#[global] Instance codec : Codec t := {
  new := zero; marshalSSZTo := MarshalSSZTo;
  unmarshalSSZ := UnmarshalSSZ; sizeSSZ := SizeSSZ;
}.

Definition parts (s : t) : list part := [Var (enc_ptr (Message s)); Fixed (Signature s)].
#[global] Instance spec : CodecSpec t :=
  { wf := Wf; enc s := container (parts s); max_size := 100 + 2668 }.

Context `{!SSZLaws}.

Lemma SignedBuilderBid_enc s :
  wf s → enc s = (offset_bytes 100 ++ Signature s) ++ concat [enc_ptr (Message s)].
Proof.
  intros Hx. etrans; [apply (container_at 100)|]; destruct s; open_wf; cbn; [len_norm|].
  by rewrite !app_nil_r.
Qed.

Lemma SignedBuilderBid_len s : wf s → len (enc s) = 100 + len (enc_ptr (Message s)).
Proof.
  intros Hx. rewrite SignedBuilderBid_enc by done. destruct s. open_wf. cbn.
  rewrite app_nil_r. len_norm.
Qed.

#[global] Instance laws : CodecLaws t.
Proof.
  split.
  - intros s dst Hx. rewrite SignedBuilderBid_enc by done. destruct s. open_wf. cbn.
    unfold MarshalSSZTo. cbn. marshal_tac.
  - intros s Hx. rewrite SignedBuilderBid_len by done. destruct s. open_wf. cbn.
    unfold SizeSSZ. cbn. children. reflexivity.
  - intros s Hx. pose proof (SignedBuilderBid_len s Hx) as Hlen.
    rewrite SignedBuilderBid_enc in * by done. destruct s. open_wf.
    cbn [unmarshalSSZ codec new]. unfold UnmarshalSSZ. rewrite Hlen.
    cbn [Message Signature zero enc_ptr default] in *. bounds.
    read_fixed. read_var 0%nat. by rewrite unmarshal_enc.
  - intros b. cbn. unfold UnmarshalSSZ. unmarshal_wf_tac.
  - intros s Hx. rewrite SignedBuilderBid_len by done. destruct s. open_wf. bounds. cbn. lia.
Qed.
End codec.

Section hash.
Context `{!Hasher}.

Definition HashTreeRootWith (s : t) (hh : hasher) : res hasher :=
  let indx := hh_Index hh in
  message ← deref (Message s);
  hh ← hashTreeRootWith message hh;
  let hh := hh_PutBytes hh (Signature s) in
  Ok (hh_Merkleize hh indx).
#[global] Instance hashable : Hashable t := { hashTreeRootWith := HashTreeRootWith }.

Context `{!HasherModel}.
#[global, refine] Instance hash_spec : HashableSpec t :=
  { root s := container_root [root_ptr (Message s); bytes_chunks (Signature s)] }.
Proof. intros. apply merkleize_len. Defined.
#[global] Instance hash_laws `{!SSZ} : HashableLaws t.
Proof.
  split. intros [] Hx hh Hh. open_wf. cbn. unfold HashTreeRootWith. push_tac.
Qed.
End hash.
#[global] Opaque codec spec hashable hash_spec.
End SignedBuilderBid.

(** The transaction list of an execution payload.  A list may exceed the 4 GiB
    the offsets can express, so the encoding reads back only under a bound on
    its size, and the methods are specified on their own. *)
Module transactions.
Record t := mk { Transactions : list bytes }.
Definition zero : t := mk [].

Section codec.
Context `{!SSZ}.

Definition Wf (v : t) : Prop :=
  len (Transactions v) ≤ 1048576 ∧ Forall (λ tx, len tx ≤ 1073741824) (Transactions v).

(** [for ii := 0; ii < len(l); ii++ { dst = ssz.WriteOffset(dst, offset);
    offset += len(l[ii]) }]. *)
Fixpoint tx_offsets (l : list bytes) (dst : bytes) (offset : Z) : bytes :=
  match l with
  | [] => dst
  | tx :: l => tx_offsets l (WriteOffset dst offset) (offset + len tx)
  end.

Fixpoint tx_contents (l : list bytes) (dst : bytes) : res bytes :=
  match l with
  | [] => Ok dst
  | tx :: l =>
      if 1073741824 <? len tx then Err ErrBytesLength else tx_contents l (dst ++ tx)
  end.

Definition MarshalSSZTo (v : t) (buf : bytes) : res (t * bytes) :=
  let dst := buf in
  let offset := 4 in
  let dst := WriteOffset dst offset in
  if 1048576 <? len (Transactions v) then Err ErrListTooBig else
  let offset := 4 * len (Transactions v) in
  let dst := tx_offsets (Transactions v) dst offset in
  dst ← tx_contents (Transactions v) dst;
  Ok (v, dst).

(** The function [UnmarshalSSZ] hands to [ssz.UnmarshalDynamic]. *)
Definition tx_callback (indx : Z) (buf : bytes) (txs : list bytes) : res (list bytes) :=
  if 1073741824 <? len buf then Err ErrBytesLength else
  cur ← get_index txs indx;
  set_index txs indx (cur ++ buf).

Definition UnmarshalSSZ (v : t) (buf : bytes) : res t :=
  let size := len buf in
  if size <? 4 then Err ErrSize else
  let tail := buf in
  b0 ← slice buf 0 4;
  let o0 := ReadOffset b0 in
  if size <? o0 then Err ErrOffset else
  if o0 <? 4 then Err ErrInvalidVariableOffset else
  buf ← slice_from tail o0;
  num ← DecodeDynamicLength buf 1048576;
  txs ← UnmarshalDynamic buf num tx_callback (replicate (Z.to_nat num) []);
  Ok (mk txs).

Definition SizeSSZ (v : t) : res (t * Z) :=
  let size := 4 in
  Ok (v, foldl (λ size tx, size + 4 + len tx) size (Transactions v)).

#[global] Instance codec : Codec t := {
  new := zero; marshalSSZTo := MarshalSSZTo;
  unmarshalSSZ := UnmarshalSSZ; sizeSSZ := SizeSSZ;
}.

Definition Enc (v : t) : bytes := container [Var (var_list (Transactions v))].

Context `{!SSZLaws}.

Lemma tx_offsets_eq l dst offset :
  tx_offsets l dst offset = dst ++ fixed_region offset (Var <$> l).
Proof.
  revert dst offset. induction l as [|tx l IH]; intros dst offset; csimpl.
  - by rewrite app_nil_r.
  - by rewrite IH, WriteOffset_eq, <- app_assoc.
Qed.

Lemma tx_contents_eq l dst :
  Forall (λ tx, len tx ≤ 1073741824) l → tx_contents l dst = Ok (dst ++ concat l).
Proof.
  intros Hl. revert dst. induction Hl as [|tx l Htx Hl IH]; intros dst; csimpl.
  - by rewrite app_nil_r.
  - rewrite (proj2 (Z.ltb_ge _ _)) by done. by rewrite IH, <- app_assoc.
Qed.

Lemma transactions_marshal v dst : Wf v → MarshalSSZTo v dst = Ok (v, dst ++ Enc v).
Proof.
  intros [Hn Htx]. unfold MarshalSSZTo. rewrite (proj2 (Z.ltb_ge _ _)) by done.
  rewrite tx_offsets_eq, tx_contents_eq by done. cbn [mbind res_bind].
  unfold Enc, var_list, container. cbn [fixed_len part_fixed_len fixed_region var_region].
  rewrite fixed_len_fmap, var_region_fmap, WriteOffset_eq, !app_nil_r, <- !app_assoc.
  reflexivity.
Qed.

Lemma tx_sizes (l : list bytes) z :
  foldl (λ size tx, size + 4 + len tx) z l = z + (4 * len l + len (concat l)).
Proof.
  revert z. induction l as [|tx l IH]; intros z; cbn [foldl concat].
  - rewrite (len_nil (A := bytes)), (len_nil (A := byte)). lia.
  - rewrite IH, len_cons, len_app. lia.
Qed.

Lemma Enc_len v : len (Enc v) = 4 + (4 * len (Transactions v) + len (concat (Transactions v))).
Proof.
  unfold Enc. rewrite container_len. cbn [fixed_len part_fixed_len var_region].
  by rewrite app_nil_r, var_list_len.
Qed.

Lemma transactions_size v : SizeSSZ v = Ok (v, len (Enc v)).
Proof. unfold SizeSSZ. by rewrite tx_sizes, Enc_len. Qed.

(** The decoder's callback, on the slots it has not filled yet. *)
Lemma tx_callback_next i tx (l0 l1 : list bytes) :
  i = len l0 →
  tx_callback i tx (l0 ++ [] :: l1)
  = if 1073741824 <? len tx then Err ErrBytesLength else Ok ((l0 ++ [tx]) ++ l1).
Proof.
  intros Hi. unfold tx_callback. rewrite get_index_next by done. cbn [mbind res_bind].
  by rewrite set_index_next.
Qed.

Lemma tx_fill (l l0 : list bytes) n i :
  Forall (λ tx, len tx ≤ 1073741824) l → i = len l0 → n = length l →
  dynamic_run tx_callback i l (l0 ++ replicate n []) = Ok (l0 ++ l).
Proof.
  intros Hl. revert l0 n i.
  induction Hl as [|tx l Htx Hl IH]; intros l0 n i Hi ->; cbn [dynamic_run length replicate].
  - done.
  - rewrite tx_callback_next, (proj2 (Z.ltb_ge _ _)) by done. cbn [mbind res_bind].
    rewrite IH; [by rewrite <- app_assoc| |done]. rewrite len_app, len_cons, len_nil. lia.
Qed.

Lemma transactions_unmarshal v :
  Wf v → u32 (len (Enc v)) → UnmarshalSSZ zero (Enc v) = Ok v.
Proof.
  intros [Hn Htx] Hu. rewrite Enc_len in Hu.
  pose proof (len_nonneg (Transactions v)). pose proof (len_nonneg (concat (Transactions v))).
  unfold UnmarshalSSZ. rewrite Enc_len. guards.
  assert (Enc v = offset_bytes 4 ++ concat [var_list (Transactions v)]) as ->.
  { unfold Enc, container. cbn. by rewrite !app_nil_r. }
  unfold u32 in *. read_fixed. read_var 0%nat.
  rewrite DecodeDynamicLength_ok by (done || unfold u32; lia). cbn [mbind res_bind].
  rewrite UnmarshalDynamic_ok by (rewrite var_list_len; unfold u32; lia).
  pose proof (tx_fill (Transactions v) [] _ 0 Htx eq_refl eq_refl) as Hf.
  rewrite !app_nil_l in Hf. rewrite len_to_nat, Hf. by destruct v.
Qed.

Lemma tx_run_wf es n l0 i :
  i = len l0 → (length es ≤ n)%nat → Forall (λ tx, len tx ≤ 1073741824) l0 →
  dynamic_run tx_callback i es (l0 ++ replicate n [])
  ⇓ λ l, ∃ l1, len l1 = len l0 + len es ∧ Forall (λ tx, len tx ≤ 1073741824) l1
              ∧ l = l1 ++ replicate (n - length es) [].
Proof.
  revert n l0 i. induction es as [|tx es IH]; intros n l0 i Hi Hn Hl0; cbn [dynamic_run].
  - exists l0. rewrite len_nil, Z.add_0_r. simpl. by rewrite Nat.sub_0_r.
  - destruct n as [|n]; [simpl in Hn; lia|]. cbn [replicate]. rewrite tx_callback_next by done.
    destruct (1073741824 <? len tx) eqn:Htx; [exact I|]. cbn [mbind res_bind].
    eapply post_impl; [apply IH|].
    + rewrite len_app, len_cons, len_nil. lia.
    + simpl in Hn. lia.
    + apply Forall_app; split; [done|]. repeat constructor. lia.
    + intros l (l1 & Hlen & Hl1 & ->). exists l1.
      rewrite len_app, !len_cons, len_nil in *. split; [lia|]. split; [done|]. done.
Qed.

Lemma transactions_unmarshal_wf b : UnmarshalSSZ zero b ⇓ Wf.
Proof.
  unfold UnmarshalSSZ. repeat post_step.
  pose proof (DecodeDynamicLength_post a0 1048576 ltac:(lia)) as Hpost.
  destruct (DecodeDynamicLength a0 1048576) as [n|e|] eqn:E; cbn [mbind res_bind]; [|done..].
  cbn in Hpost.
  destruct (UnmarshalDynamic_run _ _ _ _ tx_callback (replicate (Z.to_nat n) []) E)
    as (es & [[Hes ->]|[Hes [e ->]]]);
    (assert (length es ≤ Z.to_nat n)%nat as Hle by (unfold len in *; lia));
    pose proof (tx_run_wf es (Z.to_nat n) [] 0 eq_refl Hle (Forall_nil_2 _)) as Hrun;
    rewrite app_nil_l in Hrun.
  - eapply post_bind; [exact Hrun|]. intros l (l1 & Hlen & Hl1 & ->). cbn.
    replace (Z.to_nat n - length es)%nat with 0%nat by (unfold len in *; lia).
    cbn. rewrite app_nil_r. rewrite len_nil in Hlen. split; cbn; [lia|done].
  - destruct (dynamic_run _ _ _ _); [done..|exact Hrun].
Qed.
End codec.

Section hash.
Context `{!Hasher}.

Fixpoint tx_hashes (l : list bytes) (hh : hasher) : res hasher :=
  match l with
  | [] => Ok hh
  | elem :: l =>
      let elemIndx := hh_Index hh in
      let byteLen := len elem in
      if 1073741824 <? byteLen then Err ErrIncorrectListSize else
      let hh := hh_AppendBytes32 hh elem in
      let hh := hh_MerkleizeWithMixin hh elemIndx byteLen ((1073741824 + 31) / 32) in
      tx_hashes l hh
  end.

Definition HashTreeRootWith (v : t) (hh : hasher) : res hasher :=
  let indx := hh_Index hh in
  let subIndx := hh_Index hh in
  let num := len (Transactions v) in
  if 1048576 <? num then Err ErrIncorrectListSize else
  hh ← tx_hashes (Transactions v) hh;
  let hh := hh_MerkleizeWithMixin hh subIndx num 1048576 in
  Ok (hh_Merkleize hh indx).
#[global] Instance hashable : Hashable t := { hashTreeRootWith := HashTreeRootWith }.

Context `{!HasherModel}.

Definition tx_root (tx : bytes) : bytes := merkleize_mixin (pad32 tx) (len tx) 33554432.

#[global, refine] Instance hash_spec : HashableSpec t :=
  { root v := container_root
    [merkleize_mixin (concat (tx_root <$> Transactions v)) (len (Transactions v)) 1048576] }.
Proof. intros. apply merkleize_len. Defined.

Lemma tx_hashes_buf l hh :
  Forall (λ tx, len tx ≤ 1073741824) l →
  ∃ hh', tx_hashes l hh = Ok hh' ∧ hh_buf hh' = hh_buf hh ++ concat (tx_root <$> l).
Proof.
  intros Hl. revert hh. induction Hl as [|tx l Htx Hl IH]; intros hh; csimpl.
  - exists hh. by rewrite app_nil_r.
  - guards. edestruct IH as (hh' & Hrun & Hb). eexists. split; [exact Hrun|]. rewrite Hb.
    rewrite app_assoc. f_equal. apply MerkleizeWithMixin_buf; [apply AppendBytes32_buf|].
    apply Index_buf.
Qed.

Lemma transactions_HashTreeRoot `{!SSZ} v : Wf v → HashTreeRoot v = Ok (root v).
Proof.
  intros [Hn Htx]. apply HashWithDefaultHasher_pushes; [|apply root_len].
  intros h Hh. cbn. unfold HashTreeRootWith. guards.
  destruct (tx_hashes_buf (Transactions v) h Htx) as (h1 & -> & Hb1). cbn [mbind res_bind].
  eexists. split; [reflexivity|]. unfold container_root. cbn [concat]. rewrite app_nil_r.
  eapply Merkleize_buf; [|apply Index_buf].
  apply MerkleizeWithMixin_buf; [done|apply Index_buf].
Qed.
End hash.
End transactions.
