(* ===== verification/BlockContainers.v ===== *)
(** * The blinded beacon block

    [BlindedBeaconBlock] and its body, the containers of [types/builder.go] a
    validator signs when it uses a builder, with the methods
    [types/builder_encoding.go] gives them. *)

From S2P Require Import Prelude Fastssz Hasher SszObject FixedContainers VarContainers.
#[local] Open Scope Z_scope.
#[local] Open Scope go_scope.

Module BlindedBeaconBlockBody.
Record t := mk {
  RandaoReveal : bytes;
  Eth1Data : option Eth1Data.t;
  Graffiti : bytes;
  ProposerSlashings : list (option ProposerSlashing.t);
  AttesterSlashings : list (option AttesterSlashing.t);
  Attestations : list (option Attestation.t);
  Deposits : list (option Deposit.t);
  VoluntaryExits : list (option VoluntaryExit.t);
  SyncAggregate : option SyncAggregate.t;
  ExecutionPayloadHeader : option ExecutionPayloadHeader.t;
}.
Definition zero : t := mk (zeros 96) None (zeros 32) [] [] [] [] [] None None.

Section codec.
Context `{!SSZ}.

Definition Wf (b : t) : Prop :=
  len (RandaoReveal b) = 96 ∧ ptr wf (Eth1Data b) ∧ len (Graffiti b) = 32 ∧
  wf_list 16 (ProposerSlashings b) ∧ wf_list 2 (AttesterSlashings b) ∧
  wf_list 128 (Attestations b) ∧ wf_list 16 (Deposits b) ∧ wf_list 16 (VoluntaryExits b) ∧
  ptr wf (SyncAggregate b) ∧ ptr wf (ExecutionPayloadHeader b).

Definition MarshalSSZTo (b : t) (buf : bytes) : res (t * bytes) :=
  let dst := buf in
  let offset := 384 in
  let dst := dst ++ RandaoReveal b in
  '(eth1, dst) ← marshalSSZTo (default new (Eth1Data b)) dst;
  let dst := dst ++ Graffiti b in
  let dst := WriteOffset dst offset in
  let offset := offset + len (ProposerSlashings b) * 416 in
  let dst := WriteOffset dst offset in
  '(asl, offset) ← sizes_loop (AttesterSlashings b) offset;
  let dst := WriteOffset dst offset in
  '(att, offset) ← sizes_loop (Attestations b) offset;
  let dst := WriteOffset dst offset in
  let offset := offset + len (Deposits b) * 184 in
  let dst := WriteOffset dst offset in
  let offset := offset + len (VoluntaryExits b) * 16 in
  '(sync, dst) ← marshalSSZTo (default new (SyncAggregate b)) dst;
  let dst := WriteOffset dst offset in
  '(eph, _) ← sizeSSZ (default new (ExecutionPayloadHeader b));
  if 16 <? len (ProposerSlashings b) then Err ErrListTooBig else
  '(psl, dst) ← marshal_loop (ProposerSlashings b) dst;
  if 2 <? len asl then Err ErrListTooBig else
  '(asl, dst) ← offsets_loop asl dst (4 * len asl);
  '(asl, dst) ← marshal_loop asl dst;
  if 128 <? len att then Err ErrListTooBig else
  '(att, dst) ← offsets_loop att dst (4 * len att);
  '(att, dst) ← marshal_loop att dst;
  if 16 <? len (Deposits b) then Err ErrListTooBig else
  '(dep, dst) ← marshal_loop (Deposits b) dst;
  if 16 <? len (VoluntaryExits b) then Err ErrListTooBig else
  '(exits, dst) ← marshal_loop (VoluntaryExits b) dst;
  '(eph, dst) ← marshalSSZTo eph dst;
  Ok (mk (RandaoReveal b) (Some eth1) (Graffiti b) psl asl att dep exits (Some sync)
         (Some eph), dst).

Definition UnmarshalSSZ (b : t) (buf : bytes) : res t :=
  let size := len buf in
  if size <? 384 then Err ErrSize else
  let tail := buf in
  s ← slice buf 0 96;
  let randao := copy (RandaoReveal b) s in
  s ← slice buf 96 168;
  eth1 ← unmarshalSSZ (default new (Eth1Data b)) s;
  s ← slice buf 168 200;
  let graffiti := copy (Graffiti b) s in
  s ← slice buf 200 204;
  let o3 := ReadOffset s in
  if size <? o3 then Err ErrOffset else
  if o3 <? 384 then Err ErrInvalidVariableOffset else
  s ← slice buf 204 208;
  let o4 := ReadOffset s in
  if (size <? o4) || (o4 <? o3) then Err ErrOffset else
  s ← slice buf 208 212;
  let o5 := ReadOffset s in
  if (size <? o5) || (o5 <? o4) then Err ErrOffset else
  s ← slice buf 212 216;
  let o6 := ReadOffset s in
  if (size <? o6) || (o6 <? o5) then Err ErrOffset else
  s ← slice buf 216 220;
  let o7 := ReadOffset s in
  if (size <? o7) || (o7 <? o6) then Err ErrOffset else
  s ← slice buf 220 380;
  sync ← unmarshalSSZ (default new (SyncAggregate b)) s;
  s ← slice buf 380 384;
  let o9 := ReadOffset s in
  if (size <? o9) || (o9 <? o7) then Err ErrOffset else
  buf ← slice tail o3 o4;
  psl ← unmarshal_fixed_list 416 16 buf;
  buf ← slice tail o4 o5;
  asl ← unmarshal_dynamic_list 2 buf;
  buf ← slice tail o5 o6;
  att ← unmarshal_dynamic_list 128 buf;
  buf ← slice tail o6 o7;
  dep ← unmarshal_fixed_list 184 16 buf;
  buf ← slice tail o7 o9;
  exits ← unmarshal_fixed_list 16 16 buf;
  buf ← slice_from tail o9;
  eph ← unmarshalSSZ (default new (ExecutionPayloadHeader b)) buf;
  Ok (mk randao (Some eth1) graffiti psl asl att dep exits (Some sync) (Some eph)).

Definition SizeSSZ (b : t) : res (t * Z) :=
  let size := 384 in
  let size := size + len (ProposerSlashings b) * 416 in
  '(asl, size) ← sizes_loop (AttesterSlashings b) size;
  '(att, size) ← sizes_loop (Attestations b) size;
  let size := size + len (Deposits b) * 184 in
  let size := size + len (VoluntaryExits b) * 16 in
  '(eph, n) ← sizeSSZ (default new (ExecutionPayloadHeader b));
  let size := size + n in
  Ok (mk (RandaoReveal b) (Eth1Data b) (Graffiti b) (ProposerSlashings b) asl att
         (Deposits b) (VoluntaryExits b) (SyncAggregate b) (Some eph), size).

#[global] Instance codec : Codec t := {
  new := zero; marshalSSZTo := MarshalSSZTo;
  unmarshalSSZ := UnmarshalSSZ; sizeSSZ := SizeSSZ;
}.

Definition parts (b : t) : list part :=
  [Fixed (RandaoReveal b);
   Fixed (enc_ptr (Eth1Data b));
   Fixed (Graffiti b);
   Var (fixed_list (enc_ptr <$> ProposerSlashings b));
   Var (var_list (enc_ptr <$> AttesterSlashings b));
   Var (var_list (enc_ptr <$> Attestations b));
   Var (fixed_list (enc_ptr <$> Deposits b));
   Var (fixed_list (enc_ptr <$> VoluntaryExits b));
   Fixed (enc_ptr (SyncAggregate b));
   Var (enc_ptr (ExecutionPayloadHeader b))].
#[global] Instance spec : CodecSpec t :=
  { wf := Wf; enc b := container (parts b); max_size := 141888 }.

Context `{!SSZLaws}.

(** The fixed region: four offsets name the running total of the sizes. *)
Definition body_fixed (b : t) (vs : list bytes) : bytes :=
  let off i := 384 + len (concat (take i vs)) in
  RandaoReveal b ++ enc_ptr (Eth1Data b) ++ Graffiti b ++
  offset_bytes 384 ++ offset_bytes (off 1%nat) ++ offset_bytes (off 2%nat) ++
  offset_bytes (off 3%nat) ++ offset_bytes (off 4%nat) ++ enc_ptr (SyncAggregate b) ++
  offset_bytes (off 5%nat).

Definition contents (b : t) : list bytes :=
  [concat (enc_ptr <$> ProposerSlashings b); var_list (enc_ptr <$> AttesterSlashings b);
   var_list (enc_ptr <$> Attestations b); concat (enc_ptr <$> Deposits b);
   concat (enc_ptr <$> VoluntaryExits b); enc_ptr (ExecutionPayloadHeader b)].

Lemma body_enc b : wf b → enc b = body_fixed b (contents b) ++ concat (contents b).
Proof.
  intros Hx. etrans; [apply (container_at 384)|]; destruct b; open_wf.
  - cbn. len_norm.
  - unfold body_fixed, parts, fixed_list.
    cbn [fixed_region var_region contents concat take RandaoReveal Eth1Data Graffiti
      ProposerSlashings AttesterSlashings Attestations Deposits VoluntaryExits SyncAggregate
      ExecutionPayloadHeader].
    rewrite ?len_app, ?app_nil_r, ?Z.add_assoc, ?len_nil, ?Z.add_0_r. reflexivity.
Qed.

(** The sizes the offsets are computed from. *)
Lemma contents_sizes b : wf b →
  len (concat (enc_ptr <$> ProposerSlashings b)) = len (ProposerSlashings b) * 416 ∧
  0 ≤ len (var_list (enc_ptr <$> AttesterSlashings b)) ≤ 2 * (4 + 33232) ∧
  0 ≤ len (var_list (enc_ptr <$> Attestations b)) ≤ 128 * (4 + 485) ∧
  len (concat (enc_ptr <$> Deposits b)) = len (Deposits b) * 184 ∧
  len (concat (enc_ptr <$> VoluntaryExits b)) = len (VoluntaryExits b) * 16 ∧
  0 ≤ len (ProposerSlashings b) ≤ 16 ∧ 0 ≤ len (Deposits b) ≤ 16 ∧
  0 ≤ len (VoluntaryExits b) ≤ 16 ∧
  0 ≤ len (enc_ptr (ExecutionPayloadHeader b)) ≤ 2584.
Proof.
  intros (_ & _ & _ & Hps & Has & Hat & Hd & Hv & _ & (e & -> & He)%ptr_inv).
  pose proof (var_list_max 33232 2 _ AttesterSlashing.AttesterSlashing_max ltac:(lia) Has).
  pose proof (var_list_max 485 128 _ Attestation.Attestation_max ltac:(lia) Hat).
  destruct Hps, Hd, Hv. bounds.
  rewrite (concat_enc_len 416), (concat_enc_len 184), (concat_enc_len 16) by (done || apply _).
  repeat split; auto using len_nonneg.
Qed.

Lemma body_fixed_len b : wf b → len (body_fixed b (contents b)) = 384.
Proof. intros Hx. destruct b. open_wf. unfold body_fixed. cbn [enc_ptr]. cbn. len_norm. Qed.

Lemma body_len b :
  wf b → len (enc b) =
    384 + len (ProposerSlashings b) * 416 + len (var_list (enc_ptr <$> AttesterSlashings b))
    + len (var_list (enc_ptr <$> Attestations b)) + len (Deposits b) * 184
    + len (VoluntaryExits b) * 16 + len (enc_ptr (ExecutionPayloadHeader b)).
Proof.
  intros Hx. rewrite body_enc, len_app, body_fixed_len by done.
  pose proof (contents_sizes b Hx). cbn [contents concat]. rewrite !len_app, len_nil. lia.
Qed.

Lemma body_size b : wf b → SizeSSZ b = Ok (b, len (enc b)).
Proof.
  intros Hx. rewrite body_len by done. destruct b. open_wf.
  repeat match goal with H : wf_list _ _ |- _ => destruct H end.
  unfold SizeSSZ. cbn in *. rewrite !sizes_loop_enc by done. cbn [mbind res_bind].
  rewrite sizes_loop_enc by done. cbn [mbind res_bind]. children. reflexivity.
Qed.
Lemma body_marshal b dst : wf b → MarshalSSZTo b dst = Ok (b, dst ++ enc b).
Proof.
  intros Hx. pose proof (contents_sizes b Hx) as Hs. rewrite body_enc by done.
  destruct b. open_wf.
  repeat match goal with H : wf_list _ _ |- _ => destruct H end.
  unfold MarshalSSZTo. cbn [RandaoReveal Eth1Data Graffiti
      ProposerSlashings AttesterSlashings Attestations Deposits VoluntaryExits SyncAggregate
      ExecutionPayloadHeader enc_ptr default] in *.
  children.
  rewrite sizes_loop_enc by done. cbn [mbind res_bind].
  rewrite sizes_loop_enc by done. cbn [mbind res_bind]. children. guards.
  repeat (first [rewrite marshal_loop_enc by done | rewrite offsets_loop_enc by done];
          cbn [mbind res_bind]).
  rewrite marshal_enc by done. cbn [mbind res_bind].
  do 2 f_equal. unfold body_fixed. cbn [contents take concat RandaoReveal Eth1Data Graffiti
      ProposerSlashings AttesterSlashings Attestations Deposits VoluntaryExits SyncAggregate
      ExecutionPayloadHeader enc_ptr].
  rewrite !WriteOffset_eq, !len_app, !len_nil, !app_nil_r, <- !app_assoc.
  rewrite !var_list_fold. unfold id.
  match goal with
  | H1 : len (concat _) = _, H2 : len (concat _) = _, H3 : len (concat _) = _ |- _ =>
      rewrite H1, H2, H3
  end.
  rewrite !Z.add_assoc, !Z.add_0_r.
  reflexivity.
Qed.

(** The slices [UnmarshalSSZ] takes of the fixed region. *)
Lemma body_slices b vs : wf b →
  let B := body_fixed b vs ++ concat vs in
  let off i := offset_bytes (384 + len (concat (take i vs))) in
  slice B 0 96 = Ok (RandaoReveal b) ∧ slice B 96 168 = Ok (enc_ptr (Eth1Data b)) ∧
  slice B 168 200 = Ok (Graffiti b) ∧ slice B 200 204 = Ok (offset_bytes 384) ∧
  slice B 204 208 = Ok (off 1%nat) ∧ slice B 208 212 = Ok (off 2%nat) ∧
  slice B 212 216 = Ok (off 3%nat) ∧ slice B 216 220 = Ok (off 4%nat) ∧
  slice B 220 380 = Ok (enc_ptr (SyncAggregate b)) ∧ slice B 380 384 = Ok (off 5%nat).
Proof.
  intros Hx. destruct b. open_wf. unfold body_fixed.
  cbn [RandaoReveal Eth1Data Graffiti SyncAggregate enc_ptr].
  generalize (len (concat (take 1 vs))), (len (concat (take 2 vs))),
    (len (concat (take 3 vs))), (len (concat (take 4 vs))), (len (concat (take 5 vs))),
    (concat vs).
  intros o1 o2 o3 o4 o5 R. rewrite <- !app_assoc. repeat split; slices; reflexivity.
Qed.

Lemma contents_offsets b : wf b →
  let off i := len (concat (take i (contents b))) in
  let o5 := len (ProposerSlashings b) * 416 + len (var_list (enc_ptr <$> AttesterSlashings b)) in
  let o6 := o5 + len (var_list (enc_ptr <$> Attestations b)) in
  off 1%nat = len (ProposerSlashings b) * 416 ∧ off 2%nat = o5 ∧ off 3%nat = o6 ∧
  off 4%nat = o6 + len (Deposits b) * 184 ∧
  off 5%nat = o6 + len (Deposits b) * 184 + len (VoluntaryExits b) * 16.
Proof.
  intros Hx. destruct (contents_sizes b Hx) as (L0 & _ & _ & L3 & L4 & _).
  cbn [contents take concat]. rewrite !len_app, !len_nil, L0, L3, L4. repeat split; lia.
Qed.

Lemma body_unmarshal b : wf b → UnmarshalSSZ zero (enc b) = Ok b.
Proof.
  intros Hx. pose proof (body_fixed_len b Hx) as HF.
  destruct (contents_sizes b Hx) as (L0 & ? & ? & L3 & L4 & ? & ? & ? & ?).
  unfold UnmarshalSSZ. rewrite body_len by done. rewrite body_enc by done.
  destruct (body_slices b (contents b) Hx)
    as (-> & E1 & -> & -> & -> & -> & -> & -> & E8 & ->).
  destruct (contents_offsets b Hx) as (-> & -> & -> & -> & ->).
  generalize dependent (body_fixed b (contents b)). intros F HF E1 E8.
  unfold contents in *. destruct b. open_wf.
  cbn [RandaoReveal Eth1Data Graffiti
      ProposerSlashings AttesterSlashings Attestations Deposits VoluntaryExits SyncAggregate
      ExecutionPayloadHeader enc_ptr default zero new] in *.
  cbn [mbind res_bind]. guards. rewrite E1. cbn [mbind res_bind]. children. guards. rewrite E8.
  cbn [mbind res_bind]. children. guards.
  read_var 0%nat. rewrite (unmarshal_fixed_list_enc 416) by (done || apply _). cbn [mbind res_bind].
  read_var 1%nat. rewrite unmarshal_dynamic_list_enc by (done || unfold u32; lia).
  cbn [mbind res_bind].
  read_var 2%nat. rewrite unmarshal_dynamic_list_enc by (done || unfold u32; lia).
  cbn [mbind res_bind].
  read_var 3%nat. rewrite (unmarshal_fixed_list_enc 184) by (done || apply _). cbn [mbind res_bind].
  read_var 4%nat. rewrite (unmarshal_fixed_list_enc 16) by (done || apply _). cbn [mbind res_bind].
  read_var 5%nat. rewrite unmarshal_enc by done. cbn [mbind res_bind].
  by rewrite !copy_same by (rewrite len_zeros; done).
Qed.

#[global] Instance laws : CodecLaws t.
Proof.
  split.
  - intros b dst. apply body_marshal.
  - intros b. apply body_size.
  - intros b. apply body_unmarshal.
  - intros b. cbn. unfold UnmarshalSSZ. unmarshal_wf_tac.
  - intros b Hx. rewrite body_len by done. pose proof (contents_sizes b Hx). cbn. lia.
Qed.
(** A body whose pointers are set and whose elements are well formed; its lists
    may be too long. *)
Definition elems_wf (b : t) : Prop :=
  len (RandaoReveal b) = 96 ∧
  ptr wf (Eth1Data b) ∧
  len (Graffiti b) = 32 ∧
  Forall (ptr wf) (ProposerSlashings b) ∧
  Forall (ptr wf) (AttesterSlashings b) ∧
  Forall (ptr wf) (Attestations b) ∧
  Forall (ptr wf) (Deposits b) ∧
  Forall (ptr wf) (VoluntaryExits b) ∧
  ptr wf (SyncAggregate b) ∧
  ptr wf (ExecutionPayloadHeader b).

Definition limits_ok (b : t) : bool :=
  (len (ProposerSlashings b) <=? 16) &&
  (len (AttesterSlashings b) <=? 2) &&
  (len (Attestations b) <=? 128) &&
  (len (Deposits b) <=? 16) &&
  (len (VoluntaryExits b) <=? 16).

Lemma limits_ok_wf b : elems_wf b → limits_ok b = true → wf b.
Proof.
  unfold limits_ok, elems_wf. intros He Hl. repeat rewrite andb_true_iff in Hl.
  cbn. unfold Wf, wf_list. repeat split; try tauto; lia.
Qed.

Lemma elems_marshal_limits b dst :
  elems_wf b → limits_ok b = false →
  MarshalSSZTo b dst = Err ErrListTooBig.
Proof.
  intros He Hl. destruct b as [rr e1 gr ps asl att dep ve sy eph].
  destruct He as (_ & He1 & _ & Hps & Has & Hat & Hd & Hv & Hsy & He).
  unfold limits_ok in Hl. cbn in He1, Hps, Has, Hat, Hd, Hv, Hsy, He, Hl |- *.
  apply ptr_inv in He1 as (x1 & -> & He1). apply ptr_inv in Hsy as (x2 & -> & Hsy).
  apply ptr_inv in He as (x3 & -> & He).
  unfold MarshalSSZTo. cbn.
  rewrite marshal_enc by done. cbn [mbind res_bind].
  rewrite sizes_loop_enc by done. cbn [mbind res_bind].
  rewrite sizes_loop_enc by done. cbn [mbind res_bind].
  rewrite marshal_enc by done. cbn [mbind res_bind].
  rewrite size_enc by done. cbn [mbind res_bind].
  repeat (match goal with |- (if ?c then _ else _) = _ => destruct c eqn:?; [reflexivity|] end;
    repeat (first [rewrite marshal_loop_enc by done | rewrite offsets_loop_enc by done];
            cbn [mbind res_bind])).
  lia.
Qed.

End codec.

Section hash.
Context `{!Hasher}.

Definition HashTreeRootWith (b : t) (hh : hasher) : res hasher :=
  let indx := hh_Index hh in
  let hh := hh_PutBytes hh (RandaoReveal b) in
  eth1 ← deref (Eth1Data b);
  hh ← hashTreeRootWith eth1 hh;
  let hh := hh_PutBytes hh (Graffiti b) in
  hh ← hash_list (ProposerSlashings b) 16 hh;
  hh ← hash_list (AttesterSlashings b) 2 hh;
  hh ← hash_list (Attestations b) 128 hh;
  hh ← hash_list (Deposits b) 16 hh;
  hh ← hash_list (VoluntaryExits b) 16 hh;
  sync ← deref (SyncAggregate b);
  hh ← hashTreeRootWith sync hh;
  eph ← deref (ExecutionPayloadHeader b);
  hh ← hashTreeRootWith eph hh;
  Ok (hh_Merkleize hh indx).
#[global] Instance hashable : Hashable t := { hashTreeRootWith := HashTreeRootWith }.

Context `{!HasherModel}.
#[global, refine] Instance hash_spec : HashableSpec t :=
  { root b := container_root
    [bytes_chunks (RandaoReveal b); root_ptr (Eth1Data b); bytes_chunks (Graffiti b);
     list_root 16 (ProposerSlashings b); list_root 2 (AttesterSlashings b);
     list_root 128 (Attestations b); list_root 16 (Deposits b);
     list_root 16 (VoluntaryExits b); root_ptr (SyncAggregate b);
     root_ptr (ExecutionPayloadHeader b)] }.
Proof. intros. apply merkleize_len. Defined.
#[global] Instance hash_laws `{!SSZ, !SSZLaws} : HashableLaws t.
Proof.
  split. intros [] Hx hh Hh. open_wf. cbn. unfold HashTreeRootWith.
  cbn [RandaoReveal Eth1Data Graffiti
      ProposerSlashings AttesterSlashings Attestations Deposits VoluntaryExits SyncAggregate
      ExecutionPayloadHeader root_ptr]. push_tac.
Qed.

(** A list over its limit stops the hasher. *)
Lemma hash_list_limit `{!SSZ} {T} `{!CodecSpec T, !Hashable T, !HashableSpec T, !HashableLaws T}
    (l : list (option T)) limit h :
  Forall (ptr wf) l → chunked (hh_buf h) →
  hash_list l limit h = Err ErrIncorrectListSize ∧ limit < len l ∨
  ∃ h', hash_list l limit h = Ok h' ∧ chunked (hh_buf h') ∧ len l ≤ limit.
Proof.
  intros Hl Hh. destruct (Z.le_gt_cases (len l) limit) as [Hle|Hgt].
  - right. destruct (hash_list_pushes l limit (conj Hle Hl) h Hh) as (h' & Hr & Hb).
    exists h'. rewrite Hb. split; [done|]. split; [|done].
    apply chunked_app; [done|]. apply chunked_32, list_root_len.
  - left. split; [|lia]. unfold hash_list. by rewrite (proj2 (Z.ltb_lt _ _)) by lia.
Qed.

Lemma elems_hash_limits `{!SSZ, !SSZLaws} b h :
  elems_wf b → limits_ok b = false → chunked (hh_buf h) →
  HashTreeRootWith b h = Err ErrIncorrectListSize.
Proof.
  intros He Hl Hh. destruct b as [rr e1 gr ps asl att dep ve sy eph].
  destruct He as (_ & He1 & _ & Hps & Has & Hat & Hd & Hv & Hsy & He).
  unfold limits_ok in Hl. cbn in He1, Hps, Has, Hat, Hd, Hv, Hsy, He, Hl |- *.
  apply ptr_inv in He1 as (x1 & -> & He1). unfold HashTreeRootWith. cbn.
  edestruct (root_pushes x1 He1) as (h1 & -> & Hb1); [hh_norm; auto 10 with chunked|].
  cbn [mbind res_bind].
  assert (chunked (hh_buf (hh_PutBytes h1 gr))) as Hc
    by (hh_norm; auto 10 with chunked). revert Hc.
  generalize (hh_PutBytes h1 gr). intros k Hk.
  repeat match goal with
  | HF : Forall _ ?l, Hc : chunked (hh_buf ?h) |- context [hash_list ?l ?n ?h] =>
      let Hr := fresh "Hr" in
      destruct (hash_list_limit l n h HF Hc) as [[Hr ?]|(? & Hr & ? & ?)];
      rewrite Hr; cbn [mbind res_bind]; clear Hr; [reflexivity|]
  end.
  lia.
Qed.
End hash.
#[global] Opaque codec spec hashable hash_spec.
End BlindedBeaconBlockBody.

Module BlindedBeaconBlock.
Record t := mk {
  Slot : Z;
  ProposerIndex : Z;
  ParentRoot : bytes;
  StateRoot : bytes;
  Body : option BlindedBeaconBlockBody.t;
}.
Definition zero : t := mk 0 0 (zeros 32) (zeros 32) None.

Section codec.
Context `{!SSZ}.

Definition Wf (b : t) : Prop :=
  u64 (Slot b) ∧ u64 (ProposerIndex b) ∧ len (ParentRoot b) = 32 ∧
  len (StateRoot b) = 32 ∧ ptr wf (Body b).

Definition MarshalSSZTo (b : t) (buf : bytes) : res (t * bytes) :=
  let dst := buf in
  let offset := 84 in
  let dst := MarshalUint64 dst (Slot b) in
  let dst := MarshalUint64 dst (ProposerIndex b) in
  let dst := dst ++ ParentRoot b in
  let dst := dst ++ StateRoot b in
  let dst := WriteOffset dst offset in
  '(body, _) ← sizeSSZ (default new (Body b));
  '(body, dst) ← marshalSSZTo body dst;
  Ok (mk (Slot b) (ProposerIndex b) (ParentRoot b) (StateRoot b) (Some body), dst).

Definition UnmarshalSSZ (b : t) (buf : bytes) : res t :=
  let size := len buf in
  if size <? 84 then Err ErrSize else
  let tail := buf in
  b0 ← slice buf 0 8;
  b1 ← slice buf 8 16;
  b2 ← slice buf 16 48;
  b3 ← slice buf 48 80;
  s ← slice buf 80 84;
  let o4 := ReadOffset s in
  if size <? o4 then Err ErrOffset else
  if o4 <? 84 then Err ErrInvalidVariableOffset else
  buf ← slice_from tail o4;
  body ← unmarshalSSZ (default new (Body b)) buf;
  Ok (mk (UnmarshallUint64 b0) (UnmarshallUint64 b1) (copy (ParentRoot b) b2)
         (copy (StateRoot b) b3) (Some body)).

Definition SizeSSZ (b : t) : res (t * Z) :=
  let size := 84 in
  '(body, n) ← sizeSSZ (default new (Body b));
  let size := size + n in
  Ok (mk (Slot b) (ProposerIndex b) (ParentRoot b) (StateRoot b) (Some body), size).

#[global] Instance codec : Codec t := {
  new := zero; marshalSSZTo := MarshalSSZTo;
  unmarshalSSZ := UnmarshalSSZ; sizeSSZ := SizeSSZ;
}.

Definition parts (b : t) : list part :=
  [Fixed (uint64_bytes (Slot b)); Fixed (uint64_bytes (ProposerIndex b));
   Fixed (ParentRoot b); Fixed (StateRoot b); Var (enc_ptr (Body b))].
#[global] Instance spec : CodecSpec t :=
  { wf := Wf; enc b := container (parts b); max_size := 84 + 141888 }.

Context `{!SSZLaws}.

Lemma block_enc b :
  wf b → enc b =
    (uint64_bytes (Slot b) ++ uint64_bytes (ProposerIndex b) ++ ParentRoot b ++ StateRoot b ++
     offset_bytes 84) ++ concat [enc_ptr (Body b)].
Proof.
  intros Hx. etrans; [apply (container_at 84)|]; destruct b; open_wf; cbn; [len_norm|].
  by rewrite !app_nil_r, <- !app_assoc.
Qed.

Lemma block_len b : wf b → len (enc b) = 84 + len (enc_ptr (Body b)).
Proof.
  intros Hx. rewrite block_enc by done. destruct b. open_wf. cbn.
  rewrite app_nil_r. len_norm.
Qed.

#[global] Instance laws : CodecLaws t.
Proof.
  split.
  - intros b dst Hx. rewrite block_enc by done. destruct b. open_wf. cbn.
    unfold MarshalSSZTo. cbn. marshal_tac.
  - intros b Hx. rewrite block_len by done. destruct b. open_wf. cbn.
    unfold SizeSSZ. cbn. children. reflexivity.
  - intros b Hx. pose proof (block_len b Hx) as Hlen.
    rewrite block_enc in * by done. destruct b. open_wf.
    cbn [unmarshalSSZ codec new]. unfold UnmarshalSSZ. rewrite Hlen.
    cbn [Slot ProposerIndex ParentRoot StateRoot Body zero enc_ptr default] in *. bounds.
    read_fixed. read_var 0%nat. by rewrite unmarshal_enc.
  - intros b. cbn. unfold UnmarshalSSZ. unmarshal_wf_tac.
  - intros b Hx. rewrite block_len by done. destruct b. open_wf. bounds. cbn. lia.
Qed.
End codec.

Section hash.
Context `{!Hasher}.

Definition HashTreeRootWith (b : t) (hh : hasher) : res hasher :=
  let indx := hh_Index hh in
  let hh := hh_PutUint64 hh (Slot b) in
  let hh := hh_PutUint64 hh (ProposerIndex b) in
  let hh := hh_PutBytes hh (ParentRoot b) in
  let hh := hh_PutBytes hh (StateRoot b) in
  body ← deref (Body b);
  hh ← hashTreeRootWith body hh;
  Ok (hh_Merkleize hh indx).
#[global] Instance hashable : Hashable t := { hashTreeRootWith := HashTreeRootWith }.

Context `{!HasherModel}.
#[global, refine] Instance hash_spec : HashableSpec t :=
  { root b := container_root
    [uint64_chunk (Slot b); uint64_chunk (ProposerIndex b); bytes_chunks (ParentRoot b);
     bytes_chunks (StateRoot b); root_ptr (Body b)] }.
Proof. intros. apply merkleize_len. Defined.
#[global] Instance hash_laws `{!SSZ, !SSZLaws} : HashableLaws t.
Proof.
  split. intros [] Hx hh Hh. open_wf. cbn. unfold HashTreeRootWith. push_tac.
Qed.
End hash.
#[global] Opaque codec spec hashable hash_spec.
End BlindedBeaconBlock.
