(* ===== verification/SszProperties.v ===== *)
(** * What the SSZ codecs guarantee

    The properties of the generated codecs, stated on the methods of
    [types/builder_encoding.go] and [types/signing_encoding.go], each with an
    instance at a concrete container. *)

From Stdlib Require Import Strings.Byte.
From S2P Require Import Prelude Fastssz FastsszRef Hasher HasherRef SszObject.
From S2P Require Import FixedContainers VarContainers BlockContainers.
#[local] Open Scope Z_scope.
#[local] Open Scope go_scope.

#[local] Transparent Eth1Data.codec Eth1Data.spec
  Eth1Data.hashable Eth1Data.hash_spec.
#[local] Transparent BeaconBlockHeader.codec BeaconBlockHeader.spec
  BeaconBlockHeader.hashable BeaconBlockHeader.hash_spec.
#[local] Transparent SignedBeaconBlockHeader.codec SignedBeaconBlockHeader.spec
  SignedBeaconBlockHeader.hashable SignedBeaconBlockHeader.hash_spec.
#[local] Transparent ProposerSlashing.codec ProposerSlashing.spec
  ProposerSlashing.hashable ProposerSlashing.hash_spec.
#[local] Transparent Checkpoint.codec Checkpoint.spec
  Checkpoint.hashable Checkpoint.hash_spec.
#[local] Transparent AttestationData.codec AttestationData.spec
  AttestationData.hashable AttestationData.hash_spec.
#[local] Transparent IndexedAttestation.codec IndexedAttestation.spec
  IndexedAttestation.hashable IndexedAttestation.hash_spec.
#[local] Transparent AttesterSlashing.codec AttesterSlashing.spec
  AttesterSlashing.hashable AttesterSlashing.hash_spec.
#[local] Transparent Attestation.codec Attestation.spec
  Attestation.hashable Attestation.hash_spec.
#[local] Transparent Deposit.codec Deposit.spec
  Deposit.hashable Deposit.hash_spec.
#[local] Transparent VoluntaryExit.codec VoluntaryExit.spec
  VoluntaryExit.hashable VoluntaryExit.hash_spec.
#[local] Transparent SyncAggregate.codec SyncAggregate.spec
  SyncAggregate.hashable SyncAggregate.hash_spec.
#[local] Transparent ExecutionPayloadHeader.codec ExecutionPayloadHeader.spec
  ExecutionPayloadHeader.hashable ExecutionPayloadHeader.hash_spec.
#[local] Transparent BlindedBeaconBlockBody.codec BlindedBeaconBlockBody.spec
  BlindedBeaconBlockBody.hashable BlindedBeaconBlockBody.hash_spec.
#[local] Transparent BlindedBeaconBlock.codec BlindedBeaconBlock.spec
  BlindedBeaconBlock.hashable BlindedBeaconBlock.hash_spec.
#[local] Transparent RegisterValidatorRequestMessage.codec RegisterValidatorRequestMessage.spec
  RegisterValidatorRequestMessage.hashable RegisterValidatorRequestMessage.hash_spec.
#[local] Transparent BuilderBid.codec BuilderBid.spec
  BuilderBid.hashable BuilderBid.hash_spec.
#[local] Transparent SignedBuilderBid.codec SignedBuilderBid.spec
  SignedBuilderBid.hashable SignedBuilderBid.hash_spec.
#[local] Transparent SigningData.codec SigningData.spec
  SigningData.hashable SigningData.hash_spec.
#[local] Transparent forkData.codec forkData.spec
  forkData.hashable forkData.hash_spec.

(** ** Concrete containers *)
Module Sample.
Definition filled (n : nat) (b : byte) : bytes := replicate n b.

Definition checkpoint : Checkpoint.t := Checkpoint.mk 7 (filled 32 x0a).
Definition attestation_data : AttestationData.t :=
  AttestationData.mk 300 2 (filled 32 x0b) (Some checkpoint) (Some checkpoint).
Definition indexed : IndexedAttestation.t :=
  IndexedAttestation.mk [1; 5; 9] (Some attestation_data) (filled 96 x0c).
Definition attester_slashing : AttesterSlashing.t :=
  AttesterSlashing.mk (Some indexed) (Some indexed).
Definition attestation : Attestation.t :=
  Attestation.mk [x05; x01] (Some attestation_data) (filled 96 x0d).
Definition voluntary_exit : VoluntaryExit.t := VoluntaryExit.mk 12 34.
Definition header : ExecutionPayloadHeader.t :=
  ExecutionPayloadHeader.mk (filled 32 x01) (filled 20 x02) (filled 32 x03) (filled 32 x04)
    (filled 256 x00) (filled 32 x05) 17 30000000 21000 1650000000 [x6d; x6f; x63; x6b]
    (filled 32 x07) (filled 32 x08) (filled 32 x09).
Definition body : BlindedBeaconBlockBody.t :=
  BlindedBeaconBlockBody.mk (filled 96 x11)
    (Some (Eth1Data.mk (filled 32 x12) 4 (filled 32 x13))) (filled 32 x14)
    [] [Some attester_slashing] [Some attestation; Some attestation] []
    [Some voluntary_exit] (Some (SyncAggregate.mk (filled 64 xff) (filled 96 x15)))
    (Some header).
Definition block : BlindedBeaconBlock.t :=
  BlindedBeaconBlock.mk 301 4 (filled 32 x16) (filled 32 x17) (Some body).
Definition bid : SignedBuilderBid.t :=
  SignedBuilderBid.mk
    (Some (BuilderBid.mk (Some header) (x01 :: filled 31 x00) (filled 48 x18))) (filled 96 x19).
Definition txs : transactions.t := transactions.mk [[x02; x03]; []; [x04]].
End Sample.

Ltac wf_compute :=
  repeat first [ split | apply Forall_nil_2 | apply Forall_cons_2
               | progress vm_compute; discriminate ].

(** ** The blinded block *)
Section block.
Context `{!SSZ, !SSZLaws}.

(** C1: marshalling a well-formed blinded block never fails; it appends the
    serialization the SSZ specification gives the container (fixed fields in
    order, the body behind its offset) and leaves the block unchanged. *)
Theorem block_marshal_spec (b : BlindedBeaconBlock.t) (dst : bytes) :
  wf b →
  BlindedBeaconBlock.MarshalSSZTo b dst
  = Ok (b, dst ++ container (BlindedBeaconBlock.parts b)).
Proof. intros Hx. exact (marshal_enc b dst Hx). Qed.

(** C2: what a well-formed blinded block marshals to has the size [SizeSSZ]
    announces and unmarshals to the same block. *)
Theorem block_roundtrip (b : BlindedBeaconBlock.t) :
  wf b →
  ∃ out, BlindedBeaconBlock.MarshalSSZTo b [] = Ok (b, out) ∧
         BlindedBeaconBlock.SizeSSZ b = Ok (b, len out) ∧
         BlindedBeaconBlock.UnmarshalSSZ BlindedBeaconBlock.zero out = Ok b.
Proof. intros Hx. exact (codec_roundtrip b Hx). Qed.

(** A block with other extra data in its payload header. *)
Definition body_with_extra (b : BlindedBeaconBlockBody.t) (x : bytes) : BlindedBeaconBlockBody.t :=
  BlindedBeaconBlockBody.mk (BlindedBeaconBlockBody.RandaoReveal b)
    (BlindedBeaconBlockBody.Eth1Data b) (BlindedBeaconBlockBody.Graffiti b)
    (BlindedBeaconBlockBody.ProposerSlashings b) (BlindedBeaconBlockBody.AttesterSlashings b)
    (BlindedBeaconBlockBody.Attestations b) (BlindedBeaconBlockBody.Deposits b)
    (BlindedBeaconBlockBody.VoluntaryExits b) (BlindedBeaconBlockBody.SyncAggregate b)
    ((λ h, ExecutionPayloadHeader.with_extra h x)
       <$> BlindedBeaconBlockBody.ExecutionPayloadHeader b).
Definition block_with_extra (b : BlindedBeaconBlock.t) (x : bytes) : BlindedBeaconBlock.t :=
  BlindedBeaconBlock.mk (BlindedBeaconBlock.Slot b) (BlindedBeaconBlock.ProposerIndex b)
    (BlindedBeaconBlock.ParentRoot b) (BlindedBeaconBlock.StateRoot b)
    ((λ body, body_with_extra body x) <$> BlindedBeaconBlock.Body b).

Lemma header_with_extra_wf (h : ExecutionPayloadHeader.t) x :
  wf h → wf (ExecutionPayloadHeader.with_extra h x) ↔ len x ≤ 2048.
Proof.
  destruct h. intros Hh. cbn in Hh |- *.
  unfold ExecutionPayloadHeader.Wf, ExecutionPayloadHeader.with_extra in *. cbn in *. tauto.
Qed.

Lemma block_with_extra_wf b x : wf b → wf (block_with_extra b x) ↔ len x ≤ 2048.
Proof.
  destruct b as [slot i p s [body|]]; intros Hb; [|by destruct Hb as (_ & _ & _ & _ & [])].
  destruct Hb as (Hs & Hi & Hp & Hst & Hbody). cbn in Hs, Hi, Hp, Hst, Hbody.
  destruct body as [rr e1 g ps asl att d ve sa [h|]];
    [|by destruct Hbody as (_ & _ & _ & _ & _ & _ & _ & _ & _ & [])].
  destruct Hbody as (H1 & H2 & H3 & H4 & H5 & H6 & H7 & H8 & H9 & Hh).
  rewrite <- (header_with_extra_wf h x Hh).
  split; [by intros (_ & _ & _ & _ & _ & _ & _ & _ & _ & _ & _ & _ & _ & Hx)|].
  intros Hx. do 4 (split; [done|]). by do 9 (split; [done|]).
Qed.

(** C3: on any input whatsoever the block decoder terminates without a panic, and the
    blocks it can return are exactly the well-formed ones: every array has its size
    and every list is within the limit the generated code checks.  These are the
    limits of the struct tags but for one: extra data, declared with a limit of 32
    bytes, is accepted up to 2048 bytes and no further. *)
Theorem block_unmarshal_safe :
  (∀ buf, BlindedBeaconBlock.UnmarshalSSZ BlindedBeaconBlock.zero buf ⇓ BlindedBeaconBlock.Wf) ∧
  (∀ b, (∃ buf, BlindedBeaconBlock.UnmarshalSSZ BlindedBeaconBlock.zero buf = Ok b)
        ↔ BlindedBeaconBlock.Wf b) ∧
  (∀ b x, BlindedBeaconBlock.Wf b →
     (∃ buf, BlindedBeaconBlock.UnmarshalSSZ BlindedBeaconBlock.zero buf
             = Ok (block_with_extra b x)) ↔ len x ≤ 2048).
Proof.
  assert (∀ b, (∃ buf, BlindedBeaconBlock.UnmarshalSSZ BlindedBeaconBlock.zero buf = Ok b)
    ↔ BlindedBeaconBlock.Wf b) as Himage.
  { intros b. split; [|intros Hb; exists (enc b); exact (unmarshal_enc b Hb)].
    intros [buf Hbuf]. pose proof (unmarshal_wf (T:=BlindedBeaconBlock.t) buf) as Hwf.
    change (unmarshalSSZ new buf)
      with (BlindedBeaconBlock.UnmarshalSSZ BlindedBeaconBlock.zero buf) in Hwf.
    rewrite Hbuf in Hwf. exact Hwf. }
  split; [exact unmarshal_wf|]. split; [exact Himage|]. intros b x Hb.
  rewrite Himage. exact (block_with_extra_wf b x Hb).
Qed.

End block.

(** ** Limits, nil pointers, roots *)
Section roots.
Context `{!SSZ, !SSZLaws, !Hasher, !HasherModel}.

(** C36: the list limits of a body are enforced when it is written and when it is
    hashed: a body with well-formed elements is serialized and hashed as the
    specification says when every list is within its limit, and is refused with
    [ErrListTooBig] and [ErrIncorrectListSize] otherwise. *)
Theorem body_limits (b : BlindedBeaconBlockBody.t) dst :
  BlindedBeaconBlockBody.elems_wf b →
  if BlindedBeaconBlockBody.limits_ok b
  then BlindedBeaconBlockBody.MarshalSSZTo b dst
         = Ok (b, dst ++ container (BlindedBeaconBlockBody.parts b)) ∧
       HashTreeRoot b = Ok (root b)
  else BlindedBeaconBlockBody.MarshalSSZTo b dst = Err ErrListTooBig ∧
       HashTreeRoot b = Err ErrIncorrectListSize.
Proof.
  intros He. destruct (BlindedBeaconBlockBody.limits_ok b) eqn:Hl.
  - pose proof (BlindedBeaconBlockBody.limits_ok_wf b He Hl) as Hw.
    split; [exact (marshal_enc b dst Hw)|by apply HashTreeRoot_root].
  - split; [by apply BlindedBeaconBlockBody.elems_marshal_limits|].
    apply HashWithDefaultHasher_err. apply BlindedBeaconBlockBody.elems_hash_limits; [done..|].
    rewrite hh_empty_buf. apply chunked_nil.
Qed.

(** C37: hashing a well-formed blinded block succeeds with the merkle root of its
    five fields' roots, the body's root being computed recursively. *)
Theorem block_hash_root (b : BlindedBeaconBlock.t) body :
  wf b → BlindedBeaconBlock.Body b = Some body →
  HashTreeRoot b
  = Ok (container_root
      [uint64_chunk (BlindedBeaconBlock.Slot b); uint64_chunk (BlindedBeaconBlock.ProposerIndex b);
       bytes_chunks (BlindedBeaconBlock.ParentRoot b);
       bytes_chunks (BlindedBeaconBlock.StateRoot b); root body]) ∧
  HashTreeRoot body = Ok (root body).
Proof.
  intros Hx Hb. split.
  - pose proof (HashTreeRoot_root b Hx) as Hr. cbn in Hr. by rewrite Hb in Hr.
  - apply HashTreeRoot_root. destruct Hx as (_ & _ & _ & _ & Hbody). by rewrite Hb in Hbody.
Qed.

(** A block whose [Body] is nil hashes by panicking, yet marshals: the
    method allocates the body, and every pointer inside it, as zero values,
    leaves them in the receiver, and from then on the block hashes too. *)
Theorem block_nil_body s p pr sr dst :
  u64 s → u64 p → len pr = 32 → len sr = 32 →
  let b := BlindedBeaconBlock.mk s p pr sr None in
  HashTreeRoot b = Panic ∧
  ∃ b', BlindedBeaconBlock.MarshalSSZTo b dst
        = Ok (b', dst ++ container (BlindedBeaconBlock.parts b')) ∧
        wf b' ∧ HashTreeRoot b' = Ok (root b').
Proof.
  intros Hs Hp Hpr Hsr b. split; [by apply HashWithDefaultHasher_panic|].
  set (body' := BlindedBeaconBlockBody.mk (zeros 96) (Some Eth1Data.zero) (zeros 32)
    [] [] [] [] [] (Some SyncAggregate.zero) (Some ExecutionPayloadHeader.zero)).
  set (b' := BlindedBeaconBlock.mk s p pr sr (Some body')).
  assert (wf body') as Hbody by (wf_compute; apply Forall_nil_2).
  assert (wf b') as Hb' by (repeat split; done || apply Hs || apply Hp || apply Hbody).
  exists b'. split; [|split; [done|by apply HashTreeRoot_root]].
  transitivity (BlindedBeaconBlock.MarshalSSZTo b' dst); [|exact (marshal_enc b' dst Hb')].
  reflexivity.
Qed.
End roots.




(** ** The execution payload header and the builder's bid *)
Section bid.
Context `{!SSZ, !SSZLaws, !Hasher, !HasherModel}.

(** The header's codec and hasher accept extra data of up to 2048 bytes and
    nothing longer: the declared limit of 32 bytes is not enforced. *)
Theorem header_extra_data_limit (e : ExecutionPayloadHeader.t) (x : bytes) dst :
  wf e →
  let e' := ExecutionPayloadHeader.with_extra e x in
  if len x <=? 2048
  then ExecutionPayloadHeader.MarshalSSZTo e' dst
         = Ok (e', dst ++ container (ExecutionPayloadHeader.parts e')) ∧
       HashTreeRoot e' = Ok (root e')
  else ExecutionPayloadHeader.MarshalSSZTo e' dst = Err ErrBytesLength ∧
       HashTreeRoot e' = Err ErrIncorrectListSize.
Proof.
  intros Hx e'. destruct (Z.leb_spec (len x) 2048) as [Hle|Hgt].
  - assert (wf e') as He'.
    { destruct e. open_wf. unfold e'. cbn.
      unfold ExecutionPayloadHeader.Wf, ExecutionPayloadHeader.with_extra. cbn. tauto. }
    split; [exact (marshal_enc e' dst He')|by apply HashTreeRoot_root].
  - split; [by apply ExecutionPayloadHeader.marshal_extra
           |by apply ExecutionPayloadHeader.hash_extra].
Qed.

(** Decoding into a header that already holds extra data appends to it: the
    receiver ends up with the encoded header except for its extra data. *)
Theorem header_decode_reuse (e0 e : ExecutionPayloadHeader.t) out :
  wf e0 → wf e → ExecutionPayloadHeader.MarshalSSZTo e [] = Ok (e, out) →
  ExecutionPayloadHeader.UnmarshalSSZ e0 out
  = Ok (ExecutionPayloadHeader.with_extra e
          (ExecutionPayloadHeader.ExtraData e0 ++ ExecutionPayloadHeader.ExtraData e)).
Proof.
  intros Hy Hx Hm. pose proof (marshal_enc e [] Hx) as Hm'.
  change (marshalSSZTo e [] = Ok (e, out)) in Hm. rewrite app_nil_l in Hm'.
  assert (out = enc e) as -> by congruence. by apply ExecutionPayloadHeader.unmarshal_reuse.
Qed.

(** A well-formed signed bid marshals as specified, to the announced size,
    reads back, and hashes to its merkle root; no input makes the decoder
    panic or return an ill-formed bid. *)
Theorem signed_bid_codec (s : SignedBuilderBid.t) :
  wf s →
  (∃ out, SignedBuilderBid.MarshalSSZTo s [] = Ok (s, out) ∧
          out = container (SignedBuilderBid.parts s) ∧
          SignedBuilderBid.SizeSSZ s = Ok (s, len out) ∧
          SignedBuilderBid.UnmarshalSSZ SignedBuilderBid.zero out = Ok s) ∧
  HashTreeRoot s = Ok (root s) ∧
  ∀ buf, SignedBuilderBid.UnmarshalSSZ SignedBuilderBid.zero buf ⇓ SignedBuilderBid.Wf.
Proof.
  intros Hx. split; [|split; [by apply HashTreeRoot_root|]].
  2: { intros buf. exact (unmarshal_wf (T := SignedBuilderBid.t) buf). }
  exists (enc s). split; [exact (marshal_enc s [] Hx)|]. split; [reflexivity|].
  split; [exact (size_enc s Hx)|exact (unmarshal_enc s Hx)].
Qed.
End bid.

(** ** Containers of constant size *)

(** [MarshalSSZTo] and [UnmarshalSSZ] are inverse bijections between the
    well-formed values of [T] and the byte strings of length [n] the decoder
    accepts, and the hash tree root is defined on all of them. *)
Definition bijective_codec (T : Type) (n : Z) `{!SSZ, !Codec T, !CodecSpec T}
    `{!Hasher, !HasherModel, !Hashable T, !HashableSpec T} : Prop :=
  (∀ x : T, wf x →
     ∃ out, marshalSSZTo x [] = Ok (x, out) ∧ len out = n ∧ sizeSSZ x = Ok (x, n) ∧
            unmarshalSSZ new out = Ok x ∧ HashTreeRoot x = Ok (root x)) ∧
  (∀ out (x : T), unmarshalSSZ new out = Ok x → wf x ∧ marshalSSZTo x [] = Ok (x, out)) ∧
  (∀ buf, unmarshalSSZ (T := T) new buf ≠ Panic).

Lemma fixed_bijective {T n} `{!SSZ, !Codec T, !CodecSpec T, !CodecLaws T, !FixedSize T n}
    `{!Hasher, !HasherModel, !Hashable T, !HashableSpec T, !HashableLaws T} :
  bijective_codec T n.
Proof.
  split; [|split].
  - intros x Hx. exists (enc x). rewrite marshal_enc, size_enc, enc_len by done.
    split; [done|]. split; [done|]. split; [done|].
    split; [by apply unmarshal_enc|by apply HashTreeRoot_root].
  - intros out x Hx. pose proof (post_Ok _ _ _ (unmarshal_wf out) Hx) as Hw.
    split; [done|]. rewrite marshal_enc by done. by rewrite (unmarshal_canonical out x Hx).
  - intros buf. eapply post_not_panic, unmarshal_wf.
Qed.

Section fixed.
Context `{!SSZ, !SSZLaws, !Hasher, !HasherModel}.

(** C39: every container of constant size has a bijective codec, of the size the
    generated code hard-wires: decoding is the exact inverse of encoding in both
    directions, so no two byte strings decode to the same value. *)
Theorem fixed_codecs_bijective :
  bijective_codec Eth1Data.t 72 ∧ bijective_codec BeaconBlockHeader.t 112 ∧
  bijective_codec SignedBeaconBlockHeader.t 208 ∧ bijective_codec ProposerSlashing.t 416 ∧
  bijective_codec Checkpoint.t 40 ∧ bijective_codec AttestationData.t 128 ∧
  bijective_codec Deposit.t 184 ∧ bijective_codec VoluntaryExit.t 16 ∧
  bijective_codec SyncAggregate.t 160 ∧
  bijective_codec RegisterValidatorRequestMessage.t 84 ∧
  bijective_codec SigningData.t 64 ∧ bijective_codec forkData.t 36.
Proof. repeat match goal with |- _ ∧ _ => split end; apply fixed_bijective. Qed.
End fixed.

(** ** The transaction list *)
Section transactions.
Context `{!SSZ, !SSZLaws, !Hasher, !HasherModel}.

(** A transaction list within its limits marshals to the announced size and
    hashes; if that size can be expressed by an offset, it reads back.  On any
    input the decoder does not panic, nor return a list beyond its limits. *)
Theorem transactions_codec (v : transactions.t) :
  (transactions.Wf v →
   ∃ out, transactions.MarshalSSZTo v [] = Ok (v, out) ∧
          transactions.SizeSSZ v = Ok (v, len out) ∧
          HashTreeRoot v = Ok (root v) ∧
          (u32 (len out) → transactions.UnmarshalSSZ transactions.zero out = Ok v)) ∧
  ∀ buf, transactions.UnmarshalSSZ transactions.zero buf ⇓ transactions.Wf.
Proof.
  split; [|apply transactions.transactions_unmarshal_wf].
  intros Hx. exists (transactions.Enc v).
  rewrite transactions.transactions_marshal, transactions.transactions_size by done.
  split; [done|]. split; [done|]. split; [by apply transactions.transactions_HashTreeRoot|].
  by apply transactions.transactions_unmarshal.
Qed.
End transactions.

(** ** The theorems at concrete inputs *)

Lemma sample_block_wf : wf Sample.block.
Proof. wf_compute. Defined.
Lemma sample_body_wf : wf Sample.body.
Proof. wf_compute. Defined.
Lemma sample_header_wf : wf Sample.header.
Proof. wf_compute. Defined.
Lemma sample_bid_wf : wf Sample.bid.
Proof. wf_compute. Defined.
Lemma sample_txs_wf : transactions.Wf Sample.txs.
Proof. wf_compute. Defined.

Definition many_exits : BlindedBeaconBlockBody.t :=
  BlindedBeaconBlockBody.mk (Sample.filled 96 x11)
    (Some (Eth1Data.mk (Sample.filled 32 x12) 4 (Sample.filled 32 x13))) (Sample.filled 32 x14)
    [] [] [] [] (replicate 17 (Some Sample.voluntary_exit))
    (Some SyncAggregate.zero) (Some Sample.header).
Lemma many_exits_elems : BlindedBeaconBlockBody.elems_wf many_exits.
Proof. wf_compute. Defined.

Lemma block_marshal_spec_witness :
  BlindedBeaconBlock.MarshalSSZTo Sample.block [x2a]
  = Ok (Sample.block, [x2a] ++ container (BlindedBeaconBlock.parts Sample.block)).
Proof. exact (block_marshal_spec Sample.block [x2a] sample_block_wf). Defined.

Lemma block_roundtrip_witness :
  ∃ out, BlindedBeaconBlock.MarshalSSZTo Sample.block [] = Ok (Sample.block, out) ∧
         BlindedBeaconBlock.SizeSSZ Sample.block = Ok (Sample.block, len out) ∧
         BlindedBeaconBlock.UnmarshalSSZ BlindedBeaconBlock.zero out = Ok Sample.block.
Proof. exact (block_roundtrip Sample.block sample_block_wf). Defined.

Lemma block_unmarshal_safe_witness :
  (∃ buf, BlindedBeaconBlock.UnmarshalSSZ BlindedBeaconBlock.zero buf
          = Ok (block_with_extra Sample.block (Sample.filled 33 x61))) ∧
  ¬ ∃ buf, BlindedBeaconBlock.UnmarshalSSZ BlindedBeaconBlock.zero buf
           = Ok (block_with_extra Sample.block (Sample.filled 2049 x61)).
Proof.
  destruct block_unmarshal_safe as (_ & _ & Hextra).
  pose proof (λ x, Hextra Sample.block x sample_block_wf) as H. split.
  - apply H. by vm_compute.
  - intros Hbuf. apply H in Hbuf. by vm_compute in Hbuf.
Defined.

Lemma body_limits_witness :
  BlindedBeaconBlockBody.MarshalSSZTo many_exits [] = Err ErrListTooBig ∧
  HashTreeRoot many_exits = Err ErrIncorrectListSize.
Proof. exact (body_limits many_exits [] many_exits_elems). Defined.

Lemma block_hash_root_witness :
  HashTreeRoot Sample.block
  = Ok (container_root
      [uint64_chunk 301; uint64_chunk 4; bytes_chunks (Sample.filled 32 x16);
       bytes_chunks (Sample.filled 32 x17); root Sample.body]) ∧
  HashTreeRoot Sample.body = Ok (root Sample.body).
Proof. exact (block_hash_root Sample.block Sample.body sample_block_wf eq_refl). Defined.

Lemma block_nil_body_witness :
  let b := BlindedBeaconBlock.mk 1 2 (Sample.filled 32 x01) (Sample.filled 32 x02) None in
  HashTreeRoot b = Panic ∧
  ∃ b', BlindedBeaconBlock.MarshalSSZTo b []
        = Ok (b', [] ++ container (BlindedBeaconBlock.parts b')) ∧
        wf b' ∧ HashTreeRoot b' = Ok (root b').
Proof.
  refine (block_nil_body 1 2 (Sample.filled 32 x01) (Sample.filled 32 x02) [] _ _ _ _);
    wf_compute.
Defined.

Lemma header_extra_data_limit_witness :
  let e' := ExecutionPayloadHeader.with_extra Sample.header (Sample.filled 33 x61) in
  ExecutionPayloadHeader.MarshalSSZTo e' []
    = Ok (e', [] ++ container (ExecutionPayloadHeader.parts e')) ∧
  HashTreeRoot e' = Ok (root e').
Proof.
  exact (header_extra_data_limit Sample.header (Sample.filled 33 x61) [] sample_header_wf).
Defined.

Lemma header_decode_reuse_witness :
  ExecutionPayloadHeader.UnmarshalSSZ Sample.header
    (container (ExecutionPayloadHeader.parts Sample.header))
  = Ok (ExecutionPayloadHeader.with_extra Sample.header
          ([x6d; x6f; x63; x6b] ++ [x6d; x6f; x63; x6b])).
Proof.
  exact (header_decode_reuse Sample.header Sample.header _ sample_header_wf sample_header_wf
    (marshal_enc Sample.header [] sample_header_wf)).
Defined.

Lemma signed_bid_codec_witness :
  (∃ out, SignedBuilderBid.MarshalSSZTo Sample.bid [] = Ok (Sample.bid, out) ∧
          out = container (SignedBuilderBid.parts Sample.bid) ∧
          SignedBuilderBid.SizeSSZ Sample.bid = Ok (Sample.bid, len out) ∧
          SignedBuilderBid.UnmarshalSSZ SignedBuilderBid.zero out = Ok Sample.bid) ∧
  HashTreeRoot Sample.bid = Ok (root Sample.bid) ∧
  ∀ buf, SignedBuilderBid.UnmarshalSSZ SignedBuilderBid.zero buf ⇓ SignedBuilderBid.Wf.
Proof. exact (signed_bid_codec Sample.bid sample_bid_wf). Defined.

Lemma fixed_codecs_bijective_witness : bijective_codec RegisterValidatorRequestMessage.t 84.
Proof. apply fixed_codecs_bijective. Defined.

Lemma transactions_codec_witness :
  ∃ out, transactions.MarshalSSZTo Sample.txs [] = Ok (Sample.txs, out) ∧
         transactions.UnmarshalSSZ transactions.zero out = Ok Sample.txs.
Proof.
  destruct (proj1 (transactions_codec Sample.txs) sample_txs_wf) as (out & Hm & _ & _ & Hu).
  exists out. split; [exact Hm|]. apply Hu.
  pose proof (transactions.transactions_marshal Sample.txs [] sample_txs_wf) as Hm'.
  rewrite Hm in Hm'. injection Hm' as ->. by split; vm_compute.
Defined.
