(* ===== verification/BigInt.v ===== *)
(** * The operations of [math/big] the program uses

    A [big.Int] is an integer of type [Z].  [SetBytes], [Bytes], [FillBytes],
    [String] and the text scanner of Go's standard library, as [types/common.go]
    and [types/builder.go] call them. *)

From Stdlib Require Import Strings.Byte.
From S2P Require Import Prelude Numeral.
#[local] Open Scope Z_scope.
#[local] Open Scope go_scope.

(** [new(big.Int).SetBytes(buf)]: big-endian. *)
Definition SetBytes (buf : bytes) : Z := be_decode buf.

(** The number of bytes of the absolute value: [Bytes] has no leading zero. *)
Definition byte_len (x : Z) : nat :=
  length (digits 256 (Z.to_nat (Z.log2 (Z.abs x) + 1)) (Z.abs x)).
Definition Bytes (x : Z) : bytes := be_encode (byte_len x) (Z.abs x).

(** [x.FillBytes(buf)] for a buffer of [n] bytes: the absolute value, and a panic
    when it does not fit. *)
Definition FillBytes (x : Z) (n : nat) : res bytes :=
  if Z.abs x <? 256 ^ Z.of_nat n then Ok (be_encode n (Z.abs x)) else Panic.

(** ** Decimal text *)
Definition digit_char (d : Z) : byte := byte_of_Z (48 + d).

(** The decimal digits of the absolute value, most significant first. *)
Definition dec_digits (v : Z) : list Z := rev (digits 10 (Z.to_nat (Z.log2 v + 1)) v).

Definition String (x : Z) : bytes :=
  let text := if x =? 0 then [x30] else digit_char <$> dec_digits (Z.abs x) in
  if x <? 0 then x2d :: text else text.

(** The value of a digit of any base up to 36; 63 stands for no digit. *)
Definition digit_value (ch : byte) : Z :=
  let c := Z_of_byte ch in
  if (48 <=? c) && (c <=? 57) then c - 48
  else if (97 <=? c) && (c <=? 122) then c - 97 + 10
  else if (65 <=? c) && (c <=? 90) then c - 65 + 10
  else 63.

(** The state of the digit loop: the value, the number of digits, whether the
    previous character was a digit, and whether a separator was misplaced. *)
Record scan_state := mk_scan {
  acc : Z; count : Z; prev_digit : bool; prev_sep : bool; inval_sep : bool
}.

(** The digit loop of [nat.scan] in base [b], with base argument 0 ([_] is a
    separator): stops at the first character that is no digit. *)
Fixpoint scan_digits (b : Z) (text : bytes) (s : scan_state) : scan_state * bytes :=
  match text with
  | [] => (s, [])
  | ch :: rest =>
      if bool_decide (ch = x5f) then
        scan_digits b rest
          (mk_scan (acc s) (count s) false true (inval_sep s || negb (prev_digit s)))
      else
        let d := digit_value ch in
        if b <=? d then (s, text)
        else scan_digits b rest (mk_scan (acc s * b + d) (count s + 1) true false (inval_sep s))
  end.

(** The base prefix: base, whether the prefix is the bare octal [0], the rest. *)
Definition scan_prefix (text : bytes) : Z * bool * scan_state * bytes :=
  let start := mk_scan 0 0 false false false in
  match text with
  | x30 :: [] => (10, false, mk_scan 0 1 true false false, [])
  | x30 :: (ch :: rest) as tl =>
      if bool_decide (ch = x62 ∨ ch = x42)
      then (2, false, mk_scan 0 0 true false false, rest)
      else if bool_decide (ch = x6f ∨ ch = x4f)
      then (8, false, mk_scan 0 0 true false false, rest)
      else if bool_decide (ch = x78 ∨ ch = x58)
      then (16, false, mk_scan 0 0 true false false, rest)
      else (8, true, mk_scan 0 0 true false false, ch :: rest)
  | _ => (10, false, start, text)
  end.

(** [nat.scan] with base 0: the value and what is left of the text. *)
Definition scan_nat (text : bytes) : option (Z * bytes) :=
  let '(b, octal, s, rest) := scan_prefix text in
  let '(s, rest) := scan_digits b rest s in
  if inval_sep s || prev_sep s then None
  else if count s =? 0 then (if octal then Some (0, rest) else None)
  else Some (acc s, rest).

(** [x.UnmarshalText(text)]: an optional sign, a prefixed numeral, nothing more. *)
Definition UnmarshalText (text : bytes) : res Z :=
  let '(neg, rest) :=
    match text with
    | x2d :: rest => (true, rest)
    | x2b :: rest => (false, rest)
    | _ => (false, text)
    end in
  match scan_nat rest with
  | Some (v, []) => Ok (if neg then - v else v)
  | _ => Err (Lib "math/big: cannot unmarshal")
  end.

(** [x.UnmarshalJSON(text)] on a zero [x]: [null] is ignored. *)
Definition UnmarshalJSON (text : bytes) : res Z :=
  if bool_decide (text = [x6e; x75; x6c; x6c]) then Ok 0 else UnmarshalText text.

(** ** Bytes *)
Lemma abs_fuel x : 0 ≤ Z.abs x < 2 ^ (Z.log2 (Z.abs x) + 1).
Proof.
  split; [lia|]. destruct (Z.eq_dec x 0) as [->|]; [done|].
  apply Z.log2_spec. lia.
Qed.

Lemma byte_len_bound x n : Z.abs x < 256 ^ Z.of_nat n → (byte_len x ≤ n)%nat.
Proof.
  unfold byte_len. generalize (Z.to_nat (Z.log2 (Z.abs x) + 1)) as fuel.
  assert (0 ≤ Z.abs x) as Hx by lia. revert Hx. generalize (Z.abs x) as v.
  induction n as [|n IH]; intros v Hv fuel Hlt.
  - change (Z.of_nat 0) with 0 in Hlt. rewrite Z.pow_0_r in Hlt.
    assert (v = 0) as -> by lia. by destruct fuel.
  - destruct fuel as [|fuel]; cbn [digits]; [cbn; lia|].
    destruct (v =? 0); [cbn; lia|]. cbn [length]. apply le_n_S, IH.
    + apply Z.div_pos; lia.
    + rewrite Nat2Z.inj_succ, Z.pow_succ_r in Hlt by lia.
      apply Z.div_lt_upper_bound; lia.
Qed.

Lemma value_le_decode ds :
  Forall (λ d, 0 ≤ d < 256) ds → value 256 ds < 256 ^ Z.of_nat (length ds).
Proof.
  induction 1 as [|d ds Hd Hds IH]; [done|]. cbn [length]. change (value 256 (d :: ds))
    with (d + 256 * value 256 ds). rewrite Nat2Z.inj_succ, Z.pow_succ_r by lia. lia.
Qed.

Lemma byte_len_fits x : Z.abs x < 256 ^ Z.of_nat (byte_len x).
Proof.
  unfold byte_len. pose proof (abs_fuel x) as [H0 H1].
  pose proof (Z.log2_nonneg (Z.abs x)).
  rewrite <- (value_digits 256 ltac:(lia) (Z.to_nat (Z.log2 (Z.abs x) + 1)) (Z.abs x)) at 1.
  - apply value_le_decode, digits_range. lia.
  - split; [done|]. apply pow_fuel; lia.
Qed.

(** Reading back the bytes of a non-negative integer. *)
Lemma SetBytes_Bytes x : 0 ≤ x → SetBytes (Bytes x) = x.
Proof.
  intros Hx. unfold SetBytes, Bytes. rewrite be_decode_encode; [lia|].
  split; [lia|apply byte_len_fits].
Qed.

Lemma FillBytes_ok x n : 0 ≤ x < 256 ^ Z.of_nat n → FillBytes x n = Ok (be_encode n x).
Proof. intros. unfold FillBytes. rewrite Z.abs_eq by lia. by rewrite (proj2 (Z.ltb_lt _ _)) by lia. Qed.

(** ** Text *)
Lemma digit_value_char d : 0 ≤ d < 10 → digit_value (digit_char d) = d ∧ digit_char d ≠ x5f.
Proof.
  intros Hd. assert (d = 0 ∨ d = 1 ∨ d = 2 ∨ d = 3 ∨ d = 4 ∨ d = 5 ∨ d = 6 ∨ d = 7 ∨ d = 8 ∨ d = 9)
    as Hc by lia.
  by repeat destruct Hc as [->|Hc]; subst.
Qed.

(** On a run of decimal digits the loop accumulates their value. *)
Lemma scan_decimal ds s :
  Forall (λ d, 0 ≤ d < 10) ds → ds ≠ [] →
  scan_digits 10 (digit_char <$> ds) s
  = (mk_scan (foldl (λ v d, v * 10 + d) (acc s) ds) (count s + len ds) true false (inval_sep s), []).
Proof.
  intros Hds. revert s. induction Hds as [|d ds Hd Hds IH]; intros s Hne; [done|].
  destruct (digit_value_char d Hd) as [Hv Hs]. csimpl.
  rewrite bool_decide_false by done. rewrite Hv, (proj2 (Z.leb_gt _ _)) by lia.
  destruct ds as [|d' ds].
  - cbn. do 3 f_equal.
  - rewrite IH by done. cbn [acc count inval_sep]. rewrite (len_cons d), Z.add_assoc. reflexivity.
Qed.

Lemma dec_digits_range v : Forall (λ d, 0 ≤ d < 10) (dec_digits v).
Proof. apply Forall_rev, digits_range. lia. Qed.

Lemma dec_digits_value v : 0 ≤ v → foldl (λ a d, a * 10 + d) 0 (dec_digits v) = v.
Proof.
  intros Hv. unfold dec_digits. rewrite (value_rev_fold 10). rewrite value_digits; [lia|lia|].
  pose proof (abs_fuel v) as Hf. rewrite Z.abs_eq in Hf by done.
  pose proof (Z.log2_nonneg v). split; [done|]. apply pow_fuel; lia.
Qed.

(** The numeral of a positive integer starts with a non-zero digit. *)
Lemma dec_digits_head v : 0 < v → ∃ d ds, dec_digits v = d :: ds ∧ 0 < d < 10.
Proof.
  intros Hv. pose proof (dec_digits_range v) as HF.
  pose proof (dec_digits_value v ltac:(lia)) as Hval.
  destruct (dec_digits v) as [|d ds] eqn:E; [cbn in Hval; lia|].
  exists d, ds. split; [done|]. apply Forall_cons in HF as [Hd _].
  assert (d ≠ 0); [|lia]. unfold dec_digits in E.
  apply (digits_last 10 ltac:(lia) (Z.to_nat (Z.log2 v + 1)) v).
  - pose proof (abs_fuel v) as Hf. rewrite Z.abs_eq in Hf by lia.
    pose proof (Z.log2_nonneg v). split; [lia|]. apply pow_fuel; lia.
  - rewrite <- (rev_involutive (digits _ _ _)), E. cbn [rev]. by rewrite last_snoc.
Qed.

Lemma digit_char_nonzero d : 0 < d < 10 →
  digit_char d ≠ x30 ∧ digit_char d ≠ x2d ∧ digit_char d ≠ x2b.
Proof.
  intros Hd. assert (d = 1 ∨ d = 2 ∨ d = 3 ∨ d = 4 ∨ d = 5 ∨ d = 6 ∨ d = 7 ∨ d = 8 ∨ d = 9)
    as Hc by lia.
  by repeat destruct Hc as [->|Hc]; subst.
Qed.

Lemma scan_prefix_other ch text : ch ≠ x30 →
  scan_prefix (ch :: text) = (10, false, mk_scan 0 0 false false false, ch :: text).
Proof. intros Hch. unfold scan_prefix. by destruct ch. Qed.

(** Printing a non-negative integer and scanning it back. *)
Lemma UnmarshalText_String v : 0 ≤ v → UnmarshalText (String v) = Ok v.
Proof.
  intros Hv. unfold String. rewrite (proj2 (Z.ltb_ge v 0)) by lia.
  destruct (Z.eqb_spec v 0) as [->|Hnz]; [done|]. rewrite Z.abs_eq by lia.
  destruct (dec_digits_head v ltac:(lia)) as (d & ds & Hds & Hd).
  destruct (digit_char_nonzero d Hd) as (H30 & H2d & H2b).
  assert (scan_nat (digit_char <$> dec_digits v) = Some (v, [])) as Hscan.
  { unfold scan_nat. rewrite Hds, fmap_cons, scan_prefix_other by done.
    rewrite <- (fmap_cons digit_char d ds), <- Hds, scan_decimal.
    - cbn [inval_sep prev_sep acc count]. cbn [orb]. rewrite dec_digits_value by done.
      rewrite (proj2 (Z.eqb_neq _ 0)); [done|]. rewrite Hds, len_cons.
      pose proof (len_nonneg ds). lia.
    - apply dec_digits_range.
    - by rewrite Hds. }
  rewrite Hds, fmap_cons in Hscan |- *. unfold UnmarshalText.
  destruct (digit_char d); try done; by rewrite Hscan.
Qed.
