(* ===== verification/Common.v ===== *)
(** * Text encodings of the scalar types

    [types/common.go]: the byte arrays that travel as hex strings, the 256-bit
    integers that travel as decimal strings, and the extra data of a payload.
    The hex codec is [github.com/ethereum/go-ethereum/common/hexutil], a
    parameter; the decimal codec is [math/big], from [BigInt]. *)

From Stdlib Require Import Strings.Byte.
From S2P Require Import Prelude Numeral BigInt.
#[local] Open Scope Z_scope.
#[local] Open Scope go_scope.

(** [hex.Decode] of [encoding/hex]. *)
Fixpoint hex_decode (text : bytes) : option bytes :=
  match text with
  | [] => Some []
  | [_] => None
  | c1 :: c2 :: rest =>
      let d1 := digit_value c1 in
      let d2 := digit_value c2 in
      if (d1 <? 16) && (d2 <? 16)
      then (byte_of_Z (16 * d1 + d2) ::.) <$> hex_decode rest
      else None
  end.

(** [hex.DecodeString]. *)
Definition hex_DecodeString (text : bytes) : res bytes :=
  match hex_decode text with
  | Some b => Ok b
  | None => Err (Lib "encoding/hex: invalid input")
  end.

(** The methods of [hexutil.Bytes] the program calls.  The unmarshal methods
    take the receiver's old value and return the new one and the error. *)
Class Hexutil := {
  Bytes_MarshalText : bytes → bytes;
  Bytes_String : bytes → bytes;
  Bytes_UnmarshalText : bytes → bytes → bytes * option error;
  Bytes_UnmarshalJSON : bytes → bytes → bytes * option error;
}.

(** A JSON string. *)
Definition quote (text : bytes) : bytes := x22 :: text ++ [x22].

(** What the program relies on: text and quoted text decode to the bytes they
    were made from, whatever the receiver held; a failed decode leaves the
    receiver as it was; [String] is the text form, two hex digits a byte after
    the prefix [0x]. *)
Class HexutilLaws `{!Hexutil} : Prop := {
  hex_text old b : Bytes_UnmarshalText old (Bytes_MarshalText b) = (b, None);
  hex_json old b : Bytes_UnmarshalJSON old (quote (Bytes_MarshalText b)) = (b, None);
  hex_text_err old i b e : Bytes_UnmarshalText old i = (b, Some e) → b = old;
  hex_json_err old i b e : Bytes_UnmarshalJSON old i = (b, Some e) → b = old;
  hex_string b : Bytes_String b = Bytes_MarshalText b;
  hex_len b : len (Bytes_MarshalText b) = 2 + 2 * len b;
  hex_digits b : ∃ ds, Bytes_MarshalText b = x30 :: x78 :: ds ∧ hex_decode ds = Some b;
}.

(** ** [Signature] *)
Module Signature.
Section methods.
Context `{!Hexutil}.

Definition MarshalText (s : bytes) : bytes := Bytes_MarshalText s.

Definition FromSlice (s x : bytes) : bytes := copy s x.

Definition UnmarshalJSON (s input : bytes) : bytes * option error :=
  let '(b, err) := Bytes_UnmarshalJSON s input in
  match err with
  | Some e => (s, Some e)
  | None =>
      if negb (len b =? 96) then (s, Some ErrLength) else (FromSlice s b, None)
  end.

Definition UnmarshalText (s input : bytes) : bytes * option error :=
  let '(b, err) := Bytes_UnmarshalText s input in
  match err with
  | Some e => (s, Some e)
  | None =>
      if negb (len b =? 96) then (s, Some ErrLength) else (FromSlice s b, None)
  end.

Definition String (s : bytes) : bytes := Bytes_String s.
End methods.
End Signature.

(** ** [PublicKey] *)
Module PublicKey.
Section methods.
Context `{!Hexutil}.

Definition MarshalText (p : bytes) : bytes := Bytes_MarshalText p.

Definition FromSlice (p x : bytes) : bytes := copy p x.

Definition UnmarshalJSON (p input : bytes) : bytes * option error :=
  let '(b, _) := Bytes_UnmarshalJSON p input in
  if negb (len b =? 48) then (p, Some ErrLength) else (FromSlice p b, None).

Definition UnmarshalText (p input : bytes) : bytes * option error :=
  let '(b, _) := Bytes_UnmarshalText p input in
  if negb (len b =? 48) then (p, Some ErrLength) else (FromSlice p b, None).

Definition String (p : bytes) : bytes := Bytes_String p.
End methods.
End PublicKey.

(** ** [Address] *)
Module Address.
Section methods.
Context `{!Hexutil}.

Definition MarshalText (a : bytes) : bytes := Bytes_MarshalText a.

Definition FromSlice (a x : bytes) : bytes := copy a x.

Definition UnmarshalJSON (a input : bytes) : bytes * option error :=
  let '(b, _) := Bytes_UnmarshalJSON a input in
  if negb (len b =? 20) then (a, Some ErrLength) else (FromSlice a b, None).

Definition UnmarshalText (a input : bytes) : bytes * option error :=
  let '(b, _) := Bytes_UnmarshalText a input in
  if negb (len b =? 20) then (a, Some ErrLength) else (FromSlice a b, None).

Definition String (a : bytes) : bytes := Bytes_String a.
End methods.
End Address.

(** ** [Hash] *)
Module Hash.
Section methods.
Context `{!Hexutil}.

Definition MarshalText (h : bytes) : bytes := Bytes_MarshalText h.

Definition FromSlice (h x : bytes) : bytes := copy h x.

Definition UnmarshalJSON (h input : bytes) : bytes * option error :=
  let '(b, _) := Bytes_UnmarshalJSON h input in
  if negb (len b =? 32) then (h, Some ErrLength) else (FromSlice h b, None).

Definition UnmarshalText (h input : bytes) : bytes * option error :=
  let '(b, _) := Bytes_UnmarshalText h input in
  if negb (len b =? 32) then (h, Some ErrLength) else (FromSlice h b, None).

Definition String (h : bytes) : bytes := Bytes_String h.
End methods.
End Hash.

(** ** [CommitteeBits] *)
Module CommitteeBits.
Section methods.
Context `{!Hexutil}.

Definition MarshalText (c : bytes) : bytes := Bytes_MarshalText c.

Definition FromSlice (c x : bytes) : bytes := copy c x.

Definition UnmarshalJSON (c input : bytes) : bytes * option error :=
  let '(b, _) := Bytes_UnmarshalJSON c input in
  if negb (len b =? 64) then (c, Some ErrLength) else (FromSlice c b, None).

Definition UnmarshalText (c input : bytes) : bytes * option error :=
  let '(b, _) := Bytes_UnmarshalText c input in
  if negb (len b =? 64) then (c, Some ErrLength) else (FromSlice c b, None).

Definition String (c : bytes) : bytes := Bytes_String c.
End methods.
End CommitteeBits.

(** ** [Bloom] *)
Module Bloom.
Section methods.
Context `{!Hexutil}.

Definition MarshalText (b : bytes) : bytes := Bytes_MarshalText b.

Definition FromSlice (b x : bytes) : bytes := copy b x.

Definition UnmarshalJSON (b input : bytes) : bytes * option error :=
  let '(buf, _) := Bytes_UnmarshalJSON b input in
  if negb (len b =? 256) then (b, Some ErrLength) else (FromSlice b buf, None).

Definition UnmarshalText (b input : bytes) : bytes * option error :=
  let '(buf, _) := Bytes_UnmarshalText b input in
  if negb (len b =? 256) then (b, Some ErrLength) else (FromSlice b buf, None).

Definition String (b : bytes) : bytes := Bytes_String b.
End methods.
End Bloom.

(** ** [U256Str]: a little-endian integer that travels as a decimal string *)

(** [dst[i], dst[j] = dst[j], dst[i]]. *)
Definition swap {A} (l : list A) (i j : nat) : list A :=
  match l !! i, l !! j with
  | Some x, Some y => <[i := y]> (<[j := x]> l)
  | _, _ => l
  end.

(** The loop of [reverse], [i] running from [n - 1] down to 0. *)
Fixpoint reverse_loop {A} (n : nat) (dst : list A) : list A :=
  match n with
  | O => dst
  | S i => reverse_loop i (swap dst i (length dst - 1 - i))
  end.

Definition reverse {A} (src : list A) : list A := reverse_loop (length src / 2) src.

Module U256Str.
Definition MarshalText (n : bytes) : bytes := BigInt.String (SetBytes (reverse n)).

(** [copy(n[:], reverse(x.FillBytes(n[:])))]: the buffer is [n] itself. *)
Definition fill (n : bytes) (x : Z) : res bytes :=
  n ← FillBytes x (length n);
  Ok (copy n (reverse n)).

Definition UnmarshalText (n input : bytes) : res (bytes * option error) :=
  match BigInt.UnmarshalText input with
  | Err e => Ok (n, Some e)
  | Panic => Panic
  | Ok x => n ← fill n x; Ok (n, None)
  end.

Definition UnmarshalJSON (n input : bytes) : res (bytes * option error) :=
  if len input <? 2 then Ok (n, Some ErrLength) else
  text ← slice input 1 (len input - 1);
  match BigInt.UnmarshalJSON text with
  | Err e => Ok (n, Some e)
  | Panic => Panic
  | Ok x => n ← fill n x; Ok (n, None)
  end.

Definition String (n : bytes) : bytes := BigInt.String (SetBytes (reverse n)).

Definition FromSlice (n x : bytes) : bytes := copy n x.
End U256Str.

Definition IntToU256 (i : Z) : res bytes :=
  let s := BigInt.String i in
  '(ret, _) ← U256Str.UnmarshalText (zeros 32) s;
  Ok ret.

(** ** [ExtraData] *)
Module ExtraData.
Section methods.
Context `{!Hexutil}.

Definition MarshalText (e : bytes) : bytes := Bytes_MarshalText e.

(** [tmp := make([]byte, len(x)); copy(tmp, x); *e = tmp]. *)
Definition FromSlice (e x : bytes) : bytes := copy (zeros (length x)) x.

Definition UnmarshalJSON (e input : bytes) : bytes * option error :=
  let '(buf, _) := Bytes_UnmarshalJSON [] input in
  if 32 <? len buf then (e, Some ErrLength) else (FromSlice e buf, None).

Definition UnmarshalText (e input : bytes) : bytes * option error :=
  let '(buf, _) := Bytes_UnmarshalText [] input in
  if 32 <? len buf then (e, Some ErrLength) else (FromSlice e buf, None).

Definition String (e : bytes) : bytes := Bytes_String e.
End methods.
End ExtraData.

(** ** Lemmas *)

(** Decoding the hex text of any byte string into an array of length [n]. *)
Lemma copy_len_eq {A} (r x : list A) n : len r = n → len x = n → copy r x = x.
Proof. intros Hr Hx. apply copy_same. lia. Qed.

(** Hex text of a public key's length decodes to the key. *)
Lemma PublicKey_text `{!Hexutil, !HexutilLaws} r x :
  len r = 48 → len x = 48 → PublicKey.UnmarshalText r (Bytes_MarshalText x) = (x, None).
Proof.
  intros Hr Hx. unfold PublicKey.UnmarshalText. rewrite hex_text, Hx. cbn.
  f_equal. by eapply copy_len_eq.
Qed.

Lemma length_swap {A} (l : list A) i j : length (swap l i j) = length l.
Proof. unfold swap. repeat case_match; by rewrite ?length_insert. Qed.

Lemma swap_lookup {A} (l : list A) i j k :
  (i < length l)%nat → (j < length l)%nat →
  swap l i j !! k = if decide (k = i) then l !! j else if decide (k = j) then l !! i else l !! k.
Proof.
  intros Hi Hj. unfold swap.
  destruct (lookup_lt_is_Some_2 l i Hi) as [x Hx]. destruct (lookup_lt_is_Some_2 l j Hj) as [y Hy].
  rewrite Hx, Hy. repeat case_decide; subst.
  - by rewrite list_lookup_insert_eq by (by rewrite length_insert).
  - rewrite list_lookup_insert_ne, list_lookup_insert_eq by done. done.
  - by rewrite !list_lookup_insert_ne.
Qed.

(** The loop mirrors the outermost [n] positions on each side. *)
Lemma reverse_loop_lookup {A} n (l : list A) k :
  (2 * n ≤ length l)%nat → (k < length l)%nat →
  reverse_loop n l !! k
  = if decide (k < n ∨ length l - 1 - k < n)%nat then l !! (length l - 1 - k)%nat else l !! k.
Proof.
  revert l. induction n as [|n IH]; intros l Hn Hk; cbn [reverse_loop].
  - rewrite decide_False by lia. done.
  - rewrite IH by (rewrite length_swap; lia). rewrite length_swap.
    rewrite !swap_lookup by lia.
    repeat case_decide; try lia; f_equal; lia.
Qed.

Lemma length_reverse_loop {A} n (l : list A) : length (reverse_loop n l) = length l.
Proof. revert l. induction n as [|n IH]; intros l; cbn; [done|]. by rewrite IH, length_swap. Qed.

Lemma reverse_rev {A} (l : list A) : reverse l = rev l.
Proof.
  apply list_eq. intros k. unfold reverse.
  destruct (Nat.lt_ge_cases k (length l)) as [Hk|Hk].
  - pose proof (Nat.div_mod_eq (length l) 2) as Hd.
    pose proof (Nat.mod_upper_bound (length l) 2 ltac:(lia)) as Hm.
    rewrite reverse_loop_lookup by lia.
    rewrite rev_alt. change (rev_append l []) with (list.reverse l).
    rewrite reverse_lookup by done. case_decide; f_equal; lia.
  - rewrite !lookup_ge_None_2; [done|..].
    + by rewrite length_rev.
    + by rewrite length_reverse_loop.
Qed.

(** Filling a 256-bit buffer: the value, little-endian. *)
Lemma fill_ok n x :
  length n = 32%nat → 0 ≤ x < 2 ^ 256 → U256Str.fill n x = Ok (le_encode 32 x).
Proof.
  intros Hn Hx. unfold U256Str.fill. rewrite Hn, FillBytes_ok.
  - cbn [mbind res_bind]. rewrite reverse_rev. unfold be_encode. rewrite rev_involutive.
    rewrite copy_same; [done|]. unfold len. by rewrite length_rev, !le_encode_length.
  - change (256 ^ Z.of_nat 32) with (2 ^ 256). lia.
Qed.

Lemma fill_overflow n x : length n = 32%nat → 2 ^ 256 ≤ x → U256Str.fill n x = Panic.
Proof.
  intros Hn Hx. unfold U256Str.fill, FillBytes. rewrite Hn.
  change (256 ^ Z.of_nat 32) with (2 ^ 256). by rewrite (proj2 (Z.ltb_ge _ _)) by lia.
Qed.

Lemma slice_quoted (c1 c2 : byte) text :
  slice (c1 :: text ++ [c2]) 1 (len (c1 :: text ++ [c2]) - 1) = Ok text.
Proof.
  apply (slice_mid [c1] text [c2]); [done|]. rewrite len_cons, len_app, len_cons, len_nil. lia.
Qed.

(** The text of a non-negative integer is not [null]. *)
Lemma UnmarshalJSON_String v : 0 ≤ v → BigInt.UnmarshalJSON (BigInt.String v) = Ok v.
Proof.
  intros Hv. unfold BigInt.UnmarshalJSON. rewrite bool_decide_false.
  - by apply UnmarshalText_String.
  - intros Hn. pose proof (UnmarshalText_String v Hv) as H. rewrite Hn in H.
    by vm_compute in H.
Qed.

Lemma MarshalText_le n : U256Str.MarshalText n = BigInt.String (le_decode n).
Proof.
  unfold U256Str.MarshalText, SetBytes, be_decode. by rewrite reverse_rev, rev_involutive.
Qed.

(** ** Properties *)
Section properties.
Context `{!Hexutil, !HexutilLaws}.

(** What an unmarshal method does with the hex text, or the quoted hex text, of
    [x] when the receiver holds [r]. *)
Definition decodes_hex (um uj : bytes → bytes → bytes * option error) (r x : bytes)
    (out : bytes * option error) : Prop :=
  um r (Bytes_MarshalText x) = out ∧ uj r (quote (Bytes_MarshalText x)) = out.

(** An array type of length [n] accepts the hex text of exactly [n] bytes. *)
Definition exact_length (um uj : bytes → bytes → bytes * option error) (n : Z) : Prop :=
  ∀ r x, len r = n →
    decodes_hex um uj r x (if len x =? n then (x, None) else (r, Some ErrLength)).

(** Hex text of the right length decodes to the bytes it encodes and text of
    any other length is refused with the receiver unchanged, for every array
    type but [Bloom]; [Bloom] accepts any length and overwrites only a prefix;
    extra data is accepted up to 32 bytes. *)
Lemma hex_decode_lengths :
  exact_length Signature.UnmarshalText Signature.UnmarshalJSON 96 ∧
  exact_length PublicKey.UnmarshalText PublicKey.UnmarshalJSON 48 ∧
  exact_length Address.UnmarshalText Address.UnmarshalJSON 20 ∧
  exact_length Hash.UnmarshalText Hash.UnmarshalJSON 32 ∧
  exact_length CommitteeBits.UnmarshalText CommitteeBits.UnmarshalJSON 64 ∧
  (∀ r x, len r = 256 →
     decodes_hex Bloom.UnmarshalText Bloom.UnmarshalJSON r x (copy r x, None)) ∧
  (∀ r x, decodes_hex ExtraData.UnmarshalText ExtraData.UnmarshalJSON r x
     (if len x <=? 32 then (x, None) else (r, Some ErrLength))).
Proof.
  repeat match goal with |- _ ∧ _ => split end; unfold exact_length.
  all: intros r x; try intros Hr; split.
  all: unfold Signature.UnmarshalText, Signature.UnmarshalJSON, PublicKey.UnmarshalText,
    PublicKey.UnmarshalJSON, Address.UnmarshalText, Address.UnmarshalJSON, Hash.UnmarshalText,
    Hash.UnmarshalJSON, CommitteeBits.UnmarshalText, CommitteeBits.UnmarshalJSON,
    Bloom.UnmarshalText, Bloom.UnmarshalJSON, ExtraData.UnmarshalText, ExtraData.UnmarshalJSON.
  all: rewrite ?hex_text, ?hex_json.
  all: try (rewrite Hr; reflexivity).
  all: try (rewrite Z.leb_antisym; destruct (32 <? len x); cbn [negb]; [done|];
    unfold ExtraData.FromSlice; by rewrite copy_same by (by rewrite len_zeros)).
  all: match goal with |- context [len ?y =? ?n] => destruct (Z.eqb_spec (len y) n) end;
    cbn [negb]; [|done].
  all: f_equal; by eapply copy_len_eq.
Qed.

(** C34: the hex texts of the array types.  Text of the right length decodes to the
    bytes it encodes and text of any other length is refused with the receiver
    unchanged, for every type but [Bloom]; [Bloom] accepts any length and overwrites
    only a prefix; extra data is accepted up to 32 bytes.  When the hex decoder
    refuses the input, a [Signature] reports its error; every other array type keeps
    its old value and reports success, and extra data becomes empty. *)
Theorem hex_codec :
  (exact_length Signature.UnmarshalText Signature.UnmarshalJSON 96 ∧
   exact_length PublicKey.UnmarshalText PublicKey.UnmarshalJSON 48 ∧
   exact_length Address.UnmarshalText Address.UnmarshalJSON 20 ∧
   exact_length Hash.UnmarshalText Hash.UnmarshalJSON 32 ∧
   exact_length CommitteeBits.UnmarshalText CommitteeBits.UnmarshalJSON 64 ∧
   (∀ r x, len r = 256 →
      decodes_hex Bloom.UnmarshalText Bloom.UnmarshalJSON r x (copy r x, None)) ∧
   (∀ r x, decodes_hex ExtraData.UnmarshalText ExtraData.UnmarshalJSON r x
      (if len x <=? 32 then (x, None) else (r, Some ErrLength)))) ∧
  (∀ r e0 i e b0,
     Bytes_UnmarshalText r i = (b0, Some e) → Bytes_UnmarshalText [] i = ([], Some e) →
     Signature.UnmarshalText r i = (r, Some e) ∧
     (len r = 48 → PublicKey.UnmarshalText r i = (r, None)) ∧
     (len r = 20 → Address.UnmarshalText r i = (r, None)) ∧
     (len r = 32 → Hash.UnmarshalText r i = (r, None)) ∧
     (len r = 64 → CommitteeBits.UnmarshalText r i = (r, None)) ∧
     (len r = 256 → Bloom.UnmarshalText r i = (r, None)) ∧
     ExtraData.UnmarshalText e0 i = ([], None)).
Proof.
  split; [exact hex_decode_lengths|]. intros r e0 i e b0 Hr Hnil.
  pose proof (hex_text_err r i b0 e Hr) as ->.
  unfold Signature.UnmarshalText, PublicKey.UnmarshalText, Address.UnmarshalText,
    Hash.UnmarshalText, CommitteeBits.UnmarshalText, Bloom.UnmarshalText,
    ExtraData.UnmarshalText. rewrite Hr, Hnil.
  repeat match goal with |- _ ∧ _ => split end; try done.
  all: intros Hn; rewrite Hn; cbn; f_equal; by apply copy_same.
Qed.
End properties.

(** A 256-bit integer survives its decimal text, and its quoted decimal
    text, whatever the receiver held. *)
Lemma u256_text (n r : bytes) :
  len n = 32 → len r = 32 →
  U256Str.UnmarshalText r (U256Str.MarshalText n) = Ok (n, None) ∧
  U256Str.UnmarshalJSON r (quote (U256Str.MarshalText n)) = Ok (n, None).
Proof.
  intros Hn Hr. assert (length r = 32%nat) as Hr' by (unfold len in Hr; lia).
  assert (length n = 32%nat) as Hn' by (unfold len in Hn; lia).
  pose proof (le_decode_range n) as Hv. rewrite Hn in Hv. change (256 ^ 32) with (2 ^ 256) in Hv.
  rewrite MarshalText_le. unfold U256Str.UnmarshalText, U256Str.UnmarshalJSON, quote.
  rewrite slice_quoted, UnmarshalText_String by lia. cbn [mbind res_bind].
  rewrite UnmarshalJSON_String, fill_ok by (done || lia). cbn [mbind res_bind].
  rewrite <- Hn', le_encode_decode. split; [done|].
  rewrite (proj2 (Z.ltb_ge _ 2)); [done|].
  rewrite len_cons, len_app, len_cons, len_nil. pose proof (len_nonneg (BigInt.String (le_decode n))).
  lia.
Qed.

(** C35: 256-bit integers as text.  A value survives its decimal text and its quoted
    decimal text, whatever the receiver held.  Decimal text decodes to the
    little-endian bytes of its value, and a value of 2^256 or more panics; the JSON
    form drops the first and last characters whatever they are, so a JSON number
    loses two digits where a JSON string loses its quotes; [IntToU256] is the
    little-endian encoding. *)
Theorem u256_codec (r : bytes) :
  len r = 32 →
  (∀ n, len n = 32 →
     U256Str.UnmarshalText r (U256Str.MarshalText n) = Ok (n, None) ∧
     U256Str.UnmarshalJSON r (quote (U256Str.MarshalText n)) = Ok (n, None)) ∧
  (∀ v c1 c2, 0 ≤ v →
     let out := if v <? 2 ^ 256 then Ok (le_encode 32 v, None) else Panic in
     U256Str.UnmarshalText r (BigInt.String v) = out ∧
     U256Str.UnmarshalJSON r (c1 :: BigInt.String v ++ [c2]) = out ∧
     (u64 v → IntToU256 v = Ok (le_encode 32 v))).
Proof.
  intros Hr. split; [intros n Hn; by apply u256_text|]. intros v c1 c2 Hv out.
  assert (length r = 32%nat) as Hr' by (unfold len in Hr; lia).
  assert (U256Str.UnmarshalText r (BigInt.String v) = out ∧
    U256Str.UnmarshalJSON r (c1 :: BigInt.String v ++ [c2]) = out) as [Ht Hj].
  { unfold U256Str.UnmarshalText, U256Str.UnmarshalJSON, out.
    rewrite slice_quoted, UnmarshalText_String by lia. cbn [mbind res_bind].
    rewrite UnmarshalJSON_String by lia.
    rewrite (proj2 (Z.ltb_ge _ 2)).
    - destruct (Z.ltb_spec v (2 ^ 256)).
      + by rewrite fill_ok by (done || lia).
      + by rewrite fill_overflow by done.
    - rewrite len_cons, len_app, len_cons, len_nil. pose proof (len_nonneg (BigInt.String v)). lia. }
  split; [done|]. split; [done|]. intros Hu. unfold IntToU256, U256Str.UnmarshalText.
  rewrite UnmarshalText_String by done. rewrite fill_ok; [done|done|]. unfold u64 in Hu. lia.
Qed.
