(* ===== verification/HexutilRef.v ===== *)
(** * A hex codec that fulfils the [hexutil] contract

    An executable instance of [Hexutil] and its laws: the [0x]-prefixed lower-case
    hex text, the decoder refusing a missing prefix, an odd length and any
    character that is no hex digit. *)

From Stdlib Require Import Strings.Byte.
From S2P Require Import Prelude Numeral BigInt Common.
#[local] Open Scope Z_scope.
#[local] Open Scope go_scope.

Definition hex_digit (n : Z) : byte := byte_of_Z (if n <? 10 then 48 + n else 87 + n).
Definition hex_byte (b : byte) : bytes :=
  [hex_digit (Z_of_byte b / 16); hex_digit (Z_of_byte b mod 16)].

Definition hex_encode (b : bytes) : bytes := x30 :: x78 :: concat (hex_byte <$> b).

Definition hex_unmarshal (old text : bytes) : bytes * option error :=
  match text with
  | [] => ([], None)
  | x30 :: (x78 | x58) :: digits =>
      match hex_decode digits with
      | Some b => (b, None)
      | None => (old, Some (Lib "invalid hex string"))
      end
  | _ => (old, Some (Lib "hex string without 0x prefix"))
  end.

Definition hex_unmarshal_json (old input : bytes) : bytes * option error :=
  match input with
  | x22 :: text =>
      if bool_decide (last text = Some x22)
      then hex_unmarshal old (take (length text - 1) text)
      else (old, Some (Lib "non-string"))
  | _ => (old, Some (Lib "non-string"))
  end.

#[export] Instance ref_hexutil : Hexutil := {
  Bytes_MarshalText := hex_encode;
  Bytes_String := hex_encode;
  Bytes_UnmarshalText := hex_unmarshal;
  Bytes_UnmarshalJSON := hex_unmarshal_json;
}.

Lemma hex_decode_byte b text :
  hex_decode (hex_byte b ++ text) = (b ::.) <$> hex_decode text.
Proof. by destruct b. Qed.

Lemma hex_decode_encode b : hex_decode (concat (hex_byte <$> b)) = Some b.
Proof.
  induction b as [|x b IH]; [done|]. rewrite fmap_cons. cbn [concat]. rewrite hex_decode_byte.
  by rewrite IH.
Qed.

Lemma hex_unmarshal_err old i b e : hex_unmarshal old i = (b, Some e) → b = old.
Proof.
  intros H. unfold hex_unmarshal in H.
  repeat (case_match; simplify_eq; try done).
Qed.

#[export] Instance ref_hexutil_laws : HexutilLaws.
Proof.
  split.
  - intros old b. cbn. by rewrite hex_decode_encode.
  - intros old b. unfold quote.
    change (Bytes_UnmarshalJSON old (x22 :: Bytes_MarshalText b ++ [x22]))
      with (if bool_decide (last (hex_encode b ++ [x22]) = Some x22)
            then hex_unmarshal old
                   (take (length (hex_encode b ++ [x22]) - 1) (hex_encode b ++ [x22]))
            else (old, Some (Lib "non-string"))).
    rewrite last_snoc, bool_decide_true by done.
    rewrite length_app, Nat.add_sub, take_app_length.
    cbn. by rewrite hex_decode_encode.
  - intros old i b e. apply hex_unmarshal_err.
  - intros old i b e H. cbn in H. unfold hex_unmarshal_json in H.
    repeat (case_match; simplify_eq; try done). by eapply hex_unmarshal_err.
  - done.
  - intros b. cbn. unfold hex_encode. rewrite !len_cons.
    induction b as [|x b IH]; [done|]. rewrite fmap_cons. cbn [concat].
    rewrite len_app, (len_cons x). change (len (hex_byte x)) with 2. lia.
  - intros b. exists (concat (hex_byte <$> b)). split; [done|apply hex_decode_encode].
Qed.
