(* ===== verification/Signing.v ===== *)
(** * Signing domains and BLS signatures

    [types/signing.go]: the signature domains, the signing root of an object, and
    the verification of a signature over it.  The BLS library is
    [github.com/prysmaticlabs/prysm/crypto/bls], a parameter. *)

From Stdlib Require Import Strings.Byte.
From S2P Require Import Prelude Fastssz Hasher SszObject FixedContainers.
#[local] Open Scope Z_scope.
#[local] Open Scope go_scope.

(** The functions of the BLS package the program calls. *)
Class BLS := {
  bls_signature : Type;
  bls_public_key : Type;
  bls_secret_key : Type;
  SignatureFromBytes : bytes → res bls_signature;
  PublicKeyFromBytes : bytes → res bls_public_key;
  sig_Verify : bls_signature → bls_public_key → bytes → bool;
  sig_Marshal : bls_signature → bytes;
  sk_Sign : bls_secret_key → bytes → bls_signature;
  sk_PublicKey : bls_secret_key → bls_public_key;
  pk_Marshal : bls_public_key → bytes;
  SecretKeyFromBytes : bytes → res bls_secret_key;
}.

(** What the program relies on: a signature verifies under its signer's public
    key, and keys and signatures survive their 48- and 96-byte encodings. *)
Class BLSLaws `{!BLS} : Prop := {
  bls_sign_verify sk m : sig_Verify (sk_Sign sk m) (sk_PublicKey sk) m = true;
  bls_sig_roundtrip s : SignatureFromBytes (sig_Marshal s) = Ok s;
  bls_pk_roundtrip p : PublicKeyFromBytes (pk_Marshal p) = Ok p;
  bls_sig_len s : len (sig_Marshal s) = 96;
  bls_pk_len p : len (pk_Marshal p) = 48;
  bls_parse_no_panic b : SignatureFromBytes b ≠ Panic ∧ PublicKeyFromBytes b ≠ Panic;
}.

Definition DomainTypeBeaconProposer : bytes := [x00; x00; x00; x00].
Definition DomainTypeAppBuilder : bytes := [x00; x00; x00; x01].

Section signing.
Context `{!Hasher}.

(** A failed hash leaves the zero root, which the code goes on with. *)
Definition ComputeDomain (dt : bytes) (forkVersion : Z) (genesisValidatorsRoot : option bytes)
    : res bytes :=
  let genesisValidatorsRoot := default (zeros 32) genesisValidatorsRoot in
  match HashTreeRoot (forkData.mk forkVersion genesisValidatorsRoot) with
  | Panic => Panic
  | r =>
      let forkDataRoot := match r with Ok root => root | _ => zeros 32 end in
      let domain := zeros 32 in
      b ← slice forkDataRoot 0 28;
      let domain := copy (take 4 domain) dt ++ drop 4 domain in
      let domain := take 4 domain ++ copy (drop 4 domain) b in
      Ok domain
  end.

Definition ComputeApplicationDomain (dt : bytes) : res bytes := ComputeDomain dt 0 None.

(** The package variable [DomainBuilder], set by [init]. *)
Definition DomainBuilder : res bytes := ComputeApplicationDomain DomainTypeAppBuilder.

Definition ComputeSigningRoot {T} `{!Hashable T} (obj : T) (d : bytes) : res bytes :=
  root ← HashTreeRoot obj;
  let signingData := SigningData.mk root d in
  msg ← HashTreeRoot signingData;
  Ok msg.

Context `{!BLS}.

Definition VerifySignature {T} `{!Hashable T} (obj : T) (d pk s : bytes) : res bool :=
  msg ← ComputeSigningRoot obj d;
  sig ← SignatureFromBytes s;
  pubkey ← PublicKeyFromBytes pk;
  Ok (sig_Verify sig pubkey msg).
End signing.

(** ** Domains *)
#[local] Transparent forkData.spec forkData.hash_spec.
Section domain.
Context `{!SSZ, !SSZLaws, !Hasher, !HasherModel}.

(** The root of the fork data a domain is derived from. *)
Definition fork_root (forkVersion : Z) (gvr : option bytes) : bytes :=
  root (forkData.mk forkVersion (default (zeros 32) gvr)).

Lemma ComputeDomain_eq dt v gvr :
  u32 v → len (default (zeros 32) gvr) = 32 → len dt = 4 →
  ComputeDomain dt v gvr = Ok (dt ++ take 28 (fork_root v gvr)).
Proof.
  intros Hv Hg Hd. unfold ComputeDomain.
  assert (wf (forkData.mk v (default (zeros 32) gvr))) as Hw.
  { by split. }
  rewrite (HashTreeRoot_root _ Hw).
  fold (fork_root v gvr). pose proof (root_len (forkData.mk v (default (zeros 32) gvr))) as Hr.
  fold (fork_root v gvr) in Hr. rewrite slice_ok by lia. cbn [mbind res_bind].
  change (Z.to_nat 0) with 0%nat. rewrite drop_0. change (Z.to_nat (28 - 0)) with 28%nat.
  assert (length dt = 4%nat) as Hdl by (unfold len in Hd; lia).
  f_equal. rewrite (copy_same _ dt) by done. f_equal.
  - by apply take_app_length'.
  - apply copy_same. unfold len in *. rewrite length_take, length_drop, length_app.
    change (length (drop 4 (zeros 32))) with 28%nat. rewrite Hdl. lia.
Qed.
End domain.

(** ** Signatures *)
Section verify.
Context `{!SSZ, !SSZLaws, !Hasher, !HasherModel}.
Context {T : Type} `{!CodecSpec T, !Hashable T, !HashableSpec T, !HashableLaws T}.
#[local] Transparent SigningData.spec SigningData.hash_spec.

(** The root that is signed: the object's root and the domain, merkleized. *)
Definition signing_root (obj : T) (d : bytes) : bytes :=
  container_root [bytes_chunks (root obj); bytes_chunks d].

Lemma ComputeSigningRoot_eq obj d :
  wf obj → len d = 32 → ComputeSigningRoot obj d = Ok (signing_root obj d).
Proof.
  intros Hx Hd. unfold ComputeSigningRoot. rewrite HashTreeRoot_root by done.
  cbn [mbind res_bind]. assert (wf (SigningData.mk (root obj) d)) as Hw.
  { split; [apply root_len|done]. }
  by rewrite (HashTreeRoot_root _ Hw).
Qed.

Lemma VerifySignature_eq `{!BLS} obj d pk s :
  wf obj → len d = 32 →
  VerifySignature obj d pk s
  = (sig ← SignatureFromBytes s;
     pubkey ← PublicKeyFromBytes pk;
     Ok (sig_Verify sig pubkey (signing_root obj d))).
Proof. intros. unfold VerifySignature. by rewrite ComputeSigningRoot_eq. Qed.

Lemma VerifySignature_total `{!BLS, !BLSLaws} obj d pk s :
  wf obj → len d = 32 →
  VerifySignature obj d pk s = Ok true ∨
  (VerifySignature obj d pk s = Ok false ∨ ∃ e, VerifySignature obj d pk s = Err e).
Proof.
  intros Hx Hd. rewrite VerifySignature_eq by done.
  pose proof (bls_parse_no_panic s) as [Hs _]. pose proof (bls_parse_no_panic pk) as [_ Hp].
  destruct (SignatureFromBytes s) as [sg|e|]; cbn [mbind res_bind]; [|by eauto|done].
  destruct (PublicKeyFromBytes pk) as [p|e|]; cbn [mbind res_bind]; [|by eauto|done].
  destruct (sig_Verify sg p _); by eauto.
Qed.

Lemma VerifySignature_sign `{!BLS, !BLSLaws} obj d sk :
  wf obj → len d = 32 →
  VerifySignature obj d (pk_Marshal (sk_PublicKey sk))
    (sig_Marshal (sk_Sign sk (signing_root obj d))) = Ok true.
Proof.
  intros Hx Hd. rewrite VerifySignature_eq by done.
  rewrite bls_sig_roundtrip, bls_pk_roundtrip. cbn [mbind res_bind]. by rewrite bls_sign_verify.
Qed.
End verify.

(** ** Properties *)
Section properties.
Context `{!SSZ, !SSZLaws, !Hasher, !HasherModel}.

(** C32: a domain is the four bytes of its type followed by the first 28 bytes of the
    root of the fork data, a missing genesis root standing for zeros; so domains of
    different types differ whatever the forks, and a signature made for a builder
    message is never over the root of a beacon block. *)
Theorem domain_spec dt1 v1 g1 :
  u32 v1 → len (default (zeros 32) g1) = 32 → len dt1 = 4 →
  ∃ d1, ComputeDomain dt1 v1 g1 = Ok d1 ∧ len d1 = 32 ∧
    d1 = dt1 ++ take 28 (container_root
           [uint32_chunk v1; bytes_chunks (default (zeros 32) g1)]) ∧
    ∀ dt2 v2 g2 d2,
      u32 v2 → len (default (zeros 32) g2) = 32 → len dt2 = 4 → dt1 ≠ dt2 →
      ComputeDomain dt2 v2 g2 = Ok d2 → d1 ≠ d2.
Proof.
  intros Hv Hg Hd. eexists. split; [by rewrite ComputeDomain_eq|].
  pose proof (root_len (forkData.mk v1 (default (zeros 32) g1))) as Hr.
  fold (fork_root v1 g1) in Hr. split.
  { unfold len in *. rewrite length_app, length_take. lia. }
  split; [done|]. intros dt2 v2 g2 d2 Hv2 Hg2 Hd2 Hne E2 Heq.
  rewrite ComputeDomain_eq in E2 by done. injection E2 as <-.
  apply app_inj_1 in Heq as [? _]; [done|]. unfold len in *. lia.
Qed.

Context `{!BLS, !BLSLaws}.
Context {T : Type} `{!CodecSpec T, !Hashable T, !HashableSpec T, !HashableLaws T}.

(** C30: verification of a well-formed object never panics; it accepts exactly the
    byte strings that parse as a signature and a public key such that the signature
    verifies over the signing root of the object in the domain.  The signature a key
    makes over the root that [ComputeSigningRoot] returns is accepted, through the
    byte encodings. *)
Theorem signature_spec (obj : T) d :
  wf obj → len d = 32 →
  (∀ pk s,
     VerifySignature obj d pk s ≠ Panic ∧
     (VerifySignature obj d pk s = Ok true ↔
      ∃ sg p, SignatureFromBytes s = Ok sg ∧ PublicKeyFromBytes pk = Ok p ∧
              sig_Verify sg p (container_root [bytes_chunks (root obj); bytes_chunks d]) = true)) ∧
  (∀ sk, ∃ msg, ComputeSigningRoot obj d = Ok msg ∧
     VerifySignature obj d (pk_Marshal (sk_PublicKey sk)) (sig_Marshal (sk_Sign sk msg)) = Ok true).
Proof.
  intros Hx Hd. split; [intros pk s|intros sk].
  - rewrite VerifySignature_eq by done.
    pose proof (bls_parse_no_panic s) as [Hs _]. pose proof (bls_parse_no_panic pk) as [_ Hp].
    destruct (SignatureFromBytes s) as [sg|e|]; cbn [mbind res_bind];
      [|by split; [|split; [|intros (? & ? & ? & _)]]|done].
    destruct (PublicKeyFromBytes pk) as [p|e|]; cbn [mbind res_bind];
      [|by split; [|split; [|intros (? & ? & _ & ? & _)]]|done].
    split; [done|]. split.
    + intros [= Hv]. by exists sg, p.
    + intros (sg' & p' & [= <-] & [= <-] & Hv). unfold signing_root. by rewrite Hv.
  - exists (signing_root obj d). rewrite ComputeSigningRoot_eq by done.
    split; [done|]. by apply VerifySignature_sign.
Qed.

End properties.
