(* ===== verification/BLSRef.v ===== *)
(** * A signature scheme that fulfils the BLS contract

    An executable instance of [BLS]: a signature is the first byte of the message
    it signs.  It provides no security; it shows that the contract the program
    relies on can be met and lets the signing theorems be evaluated. *)

From Stdlib Require Import Strings.Byte.
From S2P Require Import Prelude Signing.
#[local] Open Scope Z_scope.
#[local] Open Scope go_scope.

Definition parse_padded (n : nat) (b : bytes) : res byte :=
  match b with
  | x :: rest => if bool_decide (rest = zeros n) then Ok x else Err (Lib "bad encoding")
  | [] => Err (Lib "empty")
  end.

#[export] Instance ref_bls : BLS := {
  bls_signature := byte;
  bls_public_key := byte;
  bls_secret_key := byte;
  SignatureFromBytes := parse_padded 95;
  PublicKeyFromBytes := parse_padded 47;
  sig_Verify s p m := bool_decide (s = hd x00 m);
  sig_Marshal s := s :: zeros 95;
  sk_Sign sk m := hd x00 m;
  sk_PublicKey sk := sk;
  pk_Marshal p := p :: zeros 47;
  SecretKeyFromBytes := parse_padded 31;
}.

#[export] Instance ref_bls_laws : BLSLaws.
Proof.
  split; cbn.
  - intros _ m. by apply bool_decide_true.
  - intros s. by rewrite bool_decide_true.
  - intros s. by rewrite bool_decide_true.
  - done.
  - done.
  - intros b. unfold parse_padded. split; by repeat case_match.
Qed.
