(* ===== verification/Geth.v ===== *)
(** * The interface of go-ethereum

    The parts of [github.com/ethereum/go-ethereum] that [mock.go], [engine.go],
    [api/engine.go], [types/engine.go] and [types/builder.go] use: hashes,
    headers, blocks, transactions, the state database and the block chain.  They
    are a parameter of the development. *)

From S2P Require Import Prelude.
#[local] Open Scope Z_scope.
#[local] Open Scope go_scope.

(** The fields of [types.Header] the program sets or reads. *)
Module Header.
Record t := mk {
  ParentHash : bytes;
  UncleHash : bytes;
  Coinbase : bytes;
  Root : bytes;
  TxHash : bytes;
  ReceiptHash : bytes;
  Bloom : bytes;
  Difficulty : Z;
  Number : Z;
  GasLimit : Z;
  GasUsed : Z;
  Time : Z;
  Extra : bytes;
  MixDigest : bytes;
  Nonce : bytes;
  BaseFee : option Z;
}.
End Header.

(** The transaction the program creates ([types.DynamicFeeTx]). *)
Module DynamicFeeTx.
Record t := mk {
  ChainID : Z;
  Nonce : Z;
  To : bytes;
  Gas : Z;
  GasFeeCap : Z;
  GasTipCap : Z;
  Data : bytes;
}.
End DynamicFeeTx.

Class Geth := {
  (** values the program only passes on *)
  Transaction : Type;
  Receipt : Type;
  Block : Type;
  StateDB : Type;
  Database : Type;
  ChainConfig : Type;
  BlockChain : Type;
  PrivateKey : Type;
  (** package common and package hexutil *)
  BytesToHash : bytes → bytes;
  HexToHash : bytes → bytes;
  (** package core/types *)
  header_Hash : Header.t → bytes;
  block_Header : Block → Header.t;
  block_Transactions : Block → list Transaction;
  block_Hash : Block → bytes;
  NewBlock : Header.t → list Transaction → list Header.t → list Receipt → Block;
  EmptyUncleHash : bytes;
  DeriveSha : list Transaction → bytes;
  tx_UnmarshalBinary : bytes → res Transaction;
  tx_MarshalBinary : Transaction → res bytes;
  block_Uncles : Block → list Header.t;
  block_WithSeal : Block → Header.t → Block;
  NewTx : DynamicFeeTx.t → Transaction;
  (** [SignTx] with the London signer of a chain id: both results *)
  SignTx : Transaction → Z → PrivateKey → Transaction * option error;
  (** package crypto *)
  HexToECDSA : bytes → res PrivateKey;
  PubkeyToAddress : PrivateKey → bytes;
  (** packages params, core and consensus/misc *)
  TerminalTotalDifficulty : ChainConfig → option Z;
  IsLondon : ChainConfig → Z → bool;
  IsEIP158 : ChainConfig → Z → bool;
  ChainID : ChainConfig → Z;
  ElasticityMultiplier : Z;
  CalcBaseFee : ChainConfig → Header.t → Z;
  (** package core/state; the tracing configuration is left out *)
  GetNonce : StateDB → bytes → Z;
  state_New : bytes → Database → res StateDB;
  IntermediateRoot : StateDB → bool → bytes * StateDB;
  state_Commit : StateDB → bool → res (bytes * StateDB);
  trie_Commit : StateDB → bytes → Database → Database * option error;
  (** [core.ApplyTransaction]: receipt, state, gas pool and gas used *)
  ApplyTransaction : ChainConfig → BlockChain → Z → StateDB → Header.t → Transaction → Z →
    res (Receipt * StateDB * Z * Z);
  (** package core *)
  GetHeaderByHash : BlockChain → bytes → option Header.t;
  GetHeader : BlockChain → bytes → Z → option Header.t;
  GetHeaderByNumber : BlockChain → Z → option Header.t;
  CurrentHeader : BlockChain → Header.t;
  CurrentBlock : BlockChain → Block;
  GetTd : BlockChain → bytes → Z → option Z;
  InsertChain : BlockChain → Database → Block → BlockChain * Database * option error;
}.

(** What the development relies on: [BytesToHash] pads on the left and crops from
    the left and hashes have 32 bytes; a block hash is its header's; [NewBlock] keeps the fields of the
    header it does not derive from the body; [GetHeaderByHash] finds a block
    that [InsertChain] accepted. *)
Class GethLaws `{!Geth} : Prop := {
  BytesToHash_eq b :
    BytesToHash b = zeros (32 - length b) ++ drop (length b - 32) b;
  HexToHash_len t : len (HexToHash t) = 32;
  block_Hash_eq b : block_Hash b = header_Hash (block_Header b);
  NewBlock_header h txs uncles rs :
    ∃ uh th rh bl, block_Header (NewBlock h txs uncles rs) =
      Header.mk (Header.ParentHash h) uh (Header.Coinbase h) (Header.Root h) th rh bl
        (Header.Difficulty h) (Header.Number h) (Header.GasLimit h) (Header.GasUsed h)
        (Header.Time h) (Header.Extra h) (Header.MixDigest h) (Header.Nonce h)
        (Header.BaseFee h);
  NewBlock_txs h txs uncles rs : block_Transactions (NewBlock h txs uncles rs) = txs;
  InsertChain_found bc db b bc' db' :
    InsertChain bc db b = (bc', db', None) →
    GetHeaderByHash bc' (block_Hash b) = Some (block_Header b);
}.

(** What the slot loop and the prologue rely on of the chain, for the chains that
    [core.NewBlockChain] opens and [InsertChain] grows ([valid_chain]): known
    blocks stay known; the head, and the canonical block of every number up to the
    head's and of no other, are known; a block of positive difficulty on top of the head becomes
    the head and adds its difficulty to the total. *)
Class ChainLaws `{!Geth} := {
  valid_chain : BlockChain → Prop;
  InsertChain_valid bc db b : valid_chain bc → valid_chain (InsertChain bc db b).1.1;
  InsertChain_keeps bc db b h hd :
    valid_chain bc → GetHeaderByHash bc h = Some hd →
    GetHeaderByHash (InsertChain bc db b).1.1 h = Some hd;
  CurrentHeader_found bc :
    valid_chain bc → GetHeaderByHash bc (header_Hash (CurrentHeader bc)) = Some (CurrentHeader bc);
  CurrentBlock_header bc :
    valid_chain bc → block_Hash (CurrentBlock bc) = header_Hash (CurrentHeader bc);
  CurrentHeader_number bc : valid_chain bc → 0 ≤ Header.Number (CurrentHeader bc);
  GetHeaderByNumber_inv bc n h :
    valid_chain bc → GetHeaderByNumber bc n = Some h →
    Header.Number h = n ∧ GetHeaderByHash bc (header_Hash h) = Some h;
  GetHeaderByNumber_canonical bc n :
    valid_chain bc → 0 ≤ n ≤ Header.Number (CurrentHeader bc) →
    is_Some (GetHeaderByNumber bc n);
  GetHeaderByNumber_above bc n :
    valid_chain bc → Header.Number (CurrentHeader bc) < n → GetHeaderByNumber bc n = None;
  GetTd_current bc :
    valid_chain bc →
    is_Some (GetTd bc (header_Hash (CurrentHeader bc)) (wrap64 (Header.Number (CurrentHeader bc))));
  InsertChain_extends bc db b bc' db' td :
    valid_chain bc → InsertChain bc db b = (bc', db', None) →
    Header.ParentHash (block_Header b) = header_Hash (CurrentHeader bc) →
    0 < Header.Difficulty (block_Header b) →
    GetTd bc (header_Hash (CurrentHeader bc)) (wrap64 (Header.Number (CurrentHeader bc))) = Some td →
    CurrentHeader bc' = block_Header b ∧
    GetTd bc' (block_Hash b) (wrap64 (Header.Number (block_Header b)))
    = Some (td + Header.Difficulty (block_Header b));
}.
