(* ===== verification/GethRef.v ===== *)
(** * A chain that fulfils the go-ethereum contract

    An executable instance of [Geth] with a toy chain: transactions are their own
    encodings, a state is its root, and the chain is the list of inserted blocks
    above a genesis header.  It shows that the contract can be met and lets the
    chain and engine theorems be evaluated. *)

From Stdlib Require Import Strings.Byte.
From S2P Require Import Prelude Numeral BigInt Common HexutilRef Geth.
#[local] Open Scope Z_scope.
#[local] Open Scope go_scope.

Definition pad_hash (b : bytes) : bytes := zeros (32 - length b) ++ drop (length b - 32) b.

Lemma pad_hash_len b : len (pad_hash b) = 32.
Proof.
  unfold pad_hash, len, zeros. rewrite length_app, length_replicate, length_drop. lia.
Qed.

(** The hash of a header: its number, time and state root, cut to 32 bytes. *)
Definition toy_hash (h : Header.t) : bytes :=
  take 32 (le_encode 8 (Header.Number h) ++ le_encode 8 (Header.Time h)
           ++ take 8 (Header.Root h) ++ take 8 (Header.ParentHash h) ++ zeros 32).

Record toy_block := mk_toy { toy_header : Header.t; toy_txs : list bytes }.
Record toy_config := mk_config { toy_ttd : Z; toy_london : Z }.

(** The genesis block every toy chain has. *)
Definition toy_genesis : toy_block :=
  mk_toy (Header.mk (zeros 32) (zeros 32) (zeros 20) (replicate 32 x0f) (zeros 32) (zeros 32)
    (zeros 256) 1 0 30000000 0 1000 [] (zeros 32) (zeros 8) (Some 7)) [].

Definition toy_block_hash (b : toy_block) : bytes := toy_hash (toy_header b).

(** Every block inserted, and the canonical ones above the genesis block, newest
    first. *)
Record toy_chain := mk_toy_chain { toy_store : list toy_block; toy_canon : list toy_block }.
Definition toy_start : toy_chain := mk_toy_chain [] [].

Fixpoint toy_find (bs : list toy_block) (h : bytes) : option Header.t :=
  match bs with
  | [] => if bool_decide (toy_block_hash toy_genesis = h) then Some (toy_header toy_genesis) else None
  | b :: bs => if bool_decide (toy_block_hash b = h) then Some (toy_header b) else toy_find bs h
  end.

Fixpoint find_number (bs : list toy_block) (n : Z) : option Header.t :=
  match bs with
  | [] => if n =? 0 then Some (toy_header toy_genesis) else None
  | b :: bs => if Header.Number (toy_header b) =? n then Some (toy_header b) else find_number bs n
  end.

(** The canonical blocks up to the one with a given hash. *)
Fixpoint drop_to (bs : list toy_block) (h : bytes) : option (list toy_block) :=
  match bs with
  | [] => if bool_decide (toy_block_hash toy_genesis = h) then Some [] else None
  | b :: bs' => if bool_decide (toy_block_hash b = h) then Some bs else drop_to bs' h
  end.

Definition toy_current (bc : toy_chain) : toy_block := default toy_genesis (head (toy_canon bc)).

Fixpoint toy_td (bs : list toy_block) : Z :=
  match bs with
  | [] => Header.Difficulty (toy_header toy_genesis)
  | b :: bs => Header.Difficulty (toy_header b) + toy_td bs
  end.

(** A new block on a canonical block becomes the head. *)
Definition toy_insert (bc : toy_chain) (b : toy_block) : toy_chain * option error :=
  match toy_find (toy_store bc) (toy_block_hash b) with
  | Some _ => (bc, Some (Lib "known block"))
  | None =>
  match drop_to (toy_canon bc) (Header.ParentHash (toy_header b)) with
  | Some bs =>
      if Header.Number (toy_header b) =? 1 + len bs
      then (mk_toy_chain (b :: toy_store bc) (b :: bs), None)
      else (bc, Some (Lib "invalid number"))
  | None => (bc, Some (Lib "unknown ancestor"))
  end end.

Definition toy_assemble (h : Header.t) (txs : list bytes) (rs : list unit) : toy_block :=
  mk_toy (Header.mk (Header.ParentHash h) (zeros 32) (Header.Coinbase h) (Header.Root h)
    (pad_hash (concat txs)) (pad_hash (le_encode 8 (len rs))) (zeros 256) (Header.Difficulty h)
    (Header.Number h) (Header.GasLimit h) (Header.GasUsed h) (Header.Time h) (Header.Extra h)
    (Header.MixDigest h) (Header.Nonce h) (Header.BaseFee h)) txs.

Definition toy_apply (gasPool : Z) (statedb tx : bytes) (used : Z)
    : res (unit * bytes * Z * Z) :=
  if gasPool <? 21000 then Err (Lib "gas limit reached")
  else Ok (tt, le_encode 32 (le_decode statedb + 1), gasPool - 21000, used + 21000).

#[export] Instance ref_geth : Geth := {
  Transaction := bytes;
  Receipt := unit;
  Block := toy_block;
  StateDB := bytes;
  Database := unit;
  ChainConfig := toy_config;
  BlockChain := toy_chain;
  PrivateKey := bytes;
  BytesToHash := pad_hash;
  HexToHash text := pad_hash (Bytes_UnmarshalText [] text).1;
  header_Hash := toy_hash;
  block_Header := toy_header;
  block_Transactions := toy_txs;
  block_Hash := toy_block_hash;
  NewBlock h txs _ rs := toy_assemble h txs rs;
  EmptyUncleHash := zeros 32;
  DeriveSha txs := pad_hash (concat txs);
  tx_UnmarshalBinary b := if len b =? 0 then Err (Lib "empty typed transaction bytes") else Ok b;
  tx_MarshalBinary := @Ok bytes;
  block_Uncles _ := [];
  block_WithSeal b h := mk_toy h (toy_txs b);
  NewTx t := be_encode 8 (DynamicFeeTx.Nonce t) ++ DynamicFeeTx.To t;
  SignTx tx id k := (tx ++ k, None);
  HexToECDSA text :=
    if len text =? 64 then Ok text else Err (Lib "invalid length, need 256 bits");
  PubkeyToAddress k := copy (zeros 20) k;
  TerminalTotalDifficulty c := Some (toy_ttd c);
  IsLondon c n := toy_london c <=? n;
  IsEIP158 _ _ := true;
  ChainID _ := 1;
  ElasticityMultiplier := 2;
  CalcBaseFee _ _ := 7;
  GetNonce s _ := le_decode s mod 256;
  state_New r _ := Ok r;
  IntermediateRoot s _ := (s, s);
  state_Commit s _ := Ok (s, s);
  trie_Commit _ _ db := (db, None);
  ApplyTransaction _ _ gasPool s _ tx used := toy_apply gasPool s tx used;
  GetHeaderByHash bc h := toy_find (toy_store bc) h;
  GetHeader bc h n := toy_find (toy_store bc) h;
  GetHeaderByNumber bc n := find_number (toy_canon bc) n;
  CurrentHeader bc := toy_header (toy_current bc);
  CurrentBlock := toy_current;
  GetTd bc h _ := toy_td <$> drop_to (toy_canon bc) h;
  InsertChain bc db b := let '(bc', err) := toy_insert bc b in (bc', db, err);
}.

#[export] Instance ref_geth_laws : GethLaws.
Proof.
  split.
  - done.
  - intros t. apply pad_hash_len.
  - done.
  - intros h txs uncles rs. by eexists _, _, _, _.
  - done.
  - intros bc db b bc' db'. cbn. unfold toy_insert.
    destruct (toy_find _ _); [done|].
    destruct (drop_to _ _) as [bs|]; [destruct (_ =? _)|]; intros [=]; subst.
    cbn. by rewrite bool_decide_true.
Qed.

(** ** The laws of growing chains *)
Fixpoint numbered (bs : list toy_block) : Prop :=
  match bs with
  | [] => True
  | b :: bs => Header.Number (toy_header b) = 1 + len bs ∧ numbered bs
  end.

Definition toy_found (store : list toy_block) (b : toy_block) : Prop :=
  toy_find store (toy_block_hash b) = Some (toy_header b).

Definition toy_valid (bc : toy_chain) : Prop :=
  numbered (toy_canon bc) ∧ Forall (toy_found (toy_store bc)) (toy_canon bc) ∧
  toy_found (toy_store bc) toy_genesis.

Lemma toy_find_keeps b bs h hd :
  toy_find bs (toy_block_hash b) = None → toy_find bs h = Some hd → toy_find (b :: bs) h = Some hd.
Proof. cbn. intros Hb Hh. case_bool_decide; [congruence|done]. Qed.

Lemma toy_found_new b bs : toy_found (b :: bs) b.
Proof. unfold toy_found. cbn. by rewrite bool_decide_true. Qed.

Lemma drop_to_suffix bs h bs' : drop_to bs h = Some bs' → ∃ pre, bs = pre ++ bs'.
Proof.
  induction bs as [|b bs IH]; cbn.
  - case_bool_decide; [|done]. intros [= <-]. by exists [].
  - case_bool_decide; [intros [= <-]; by exists []|].
    intros Hd. destruct (IH Hd) as [pre ->]. by exists (b :: pre).
Qed.

Lemma numbered_suffix pre bs : numbered (pre ++ bs) → numbered bs.
Proof. induction pre; cbn; tauto. Qed.

Lemma toy_insert_inv bc b bc' err :
  toy_insert bc b = (bc', err) →
  (bc' = bc ∧ err ≠ None) ∨
  (∃ bs, toy_find (toy_store bc) (toy_block_hash b) = None ∧
     drop_to (toy_canon bc) (Header.ParentHash (toy_header b)) = Some bs ∧
     Header.Number (toy_header b) = 1 + len bs ∧ err = None ∧
     bc' = mk_toy_chain (b :: toy_store bc) (b :: bs)).
Proof.
  unfold toy_insert. destruct (toy_find _ _) eqn:Hf; [intros [= <- <-]; by left|].
  destruct (drop_to _ _) as [bs|] eqn:Hd; [|intros [= <- <-]; by left].
  destruct (Z.eqb_spec (Header.Number (toy_header b)) (1 + len bs)); intros [=]; subst; [|by left].
  right. by exists bs.
Qed.

Lemma toy_insert_valid bc b : toy_valid bc → toy_valid (toy_insert bc b).1.
Proof.
  intros (Hn & HF & Hg). destruct (toy_insert bc b) as [bc' err] eqn:E.
  destruct (toy_insert_inv _ _ _ _ E) as [[-> _]|(bs & Hf & Hd & Hb & _ & ->)]; [done|].
  destruct (drop_to_suffix _ _ _ Hd) as [pre Hpre]. rewrite Hpre in Hn, HF.
  split; cbn; [split; [done|by eapply numbered_suffix]|]. split; [|by apply toy_find_keeps].
  apply Forall_cons. split; [apply toy_found_new|]. apply Forall_app in HF as [_ HF].
  eapply Forall_impl; [exact HF|]. intros x. by apply toy_find_keeps.
Qed.

Lemma toy_current_number bc :
  numbered (toy_canon bc) → Header.Number (toy_header (toy_current bc)) = len (toy_canon bc).
Proof. unfold toy_current. destruct (toy_canon bc); cbn; [done|]. rewrite len_cons. tauto. Qed.

Lemma find_number_inv bs n h store :
  toy_found store toy_genesis → Forall (toy_found store) bs → find_number bs n = Some h →
  Header.Number h = n ∧ toy_find store (toy_hash h) = Some h.
Proof.
  intros Hg. induction 1 as [|b bs Hb HF IH]; cbn.
  - destruct (Z.eqb_spec n 0) as [->|]; [|done]. by intros [= <-].
  - destruct (Z.eqb_spec (Header.Number (toy_header b)) n); [|done]. by intros [= <-].
Qed.

Lemma find_number_canonical bs n :
  numbered bs → 0 ≤ n ≤ len bs → is_Some (find_number bs n).
Proof.
  induction bs as [|b bs IH]; cbn.
  - intros _ Hn. change (len (@nil toy_block)) with 0 in Hn.
    replace (n =? 0) with true by lia. eauto.
  - intros [Hb Hbs] Hn. rewrite len_cons in Hn.
    destruct (Z.eqb_spec (Header.Number (toy_header b)) n); [eauto|]. apply IH; [done|lia].
Qed.

Lemma find_number_above bs n : numbered bs → len bs < n → find_number bs n = None.
Proof.
  induction bs as [|b bs IH]; cbn.
  - intros _ Hn. change (len (@nil toy_block)) with 0 in Hn. by replace (n =? 0) with false by lia.
  - intros [Hb Hbs] Hn. rewrite len_cons in Hn. pose proof (len_nonneg bs).
    destruct (Z.eqb_spec (Header.Number (toy_header b)) n); [lia|]. apply IH; [done|lia].
Qed.

Lemma drop_to_current bc : drop_to (toy_canon bc) (toy_block_hash (toy_current bc)) = Some (toy_canon bc).
Proof. unfold toy_current. destruct (toy_canon bc); cbn; by rewrite bool_decide_true. Qed.

#[export] Program Instance ref_chain_laws : ChainLaws := {| valid_chain := toy_valid |}.
Next Obligation.
  intros bc db b Hv. pose proof (toy_insert_valid bc b Hv). cbn.
  by destruct (toy_insert bc b).
Qed.
Next Obligation.
  intros bc db b h hd Hv Hh. cbn in *. destruct (toy_insert bc b) as [bc' err] eqn:E. cbn.
  destruct (toy_insert_inv _ _ _ _ E) as [[-> _]|(bs & Hf & _ & _ & _ & ->)]; [done|].
  by apply toy_find_keeps.
Qed.
Next Obligation.
  intros bc (_ & HF & Hg). cbn. unfold toy_current. by destruct HF as [|b bs Hb _].
Qed.
Next Obligation. done. Qed.
Next Obligation.
  intros bc [Hn _]. cbn. rewrite toy_current_number by done. apply len_nonneg.
Qed.
Next Obligation. intros bc n h (_ & HF & Hg) Hf. by eapply find_number_inv. Qed.
Next Obligation.
  intros bc n [Hn _] Hr. apply find_number_canonical; [done|].
  cbn in Hr. by rewrite toy_current_number in Hr.
Qed.
Next Obligation.
  intros bc n [Hn _] Hr. apply find_number_above; [done|].
  cbn in Hr. by rewrite toy_current_number in Hr.
Qed.
Next Obligation.
  intros bc _. cbn. fold (toy_block_hash (toy_current bc)). rewrite drop_to_current. eauto.
Qed.
Next Obligation.
  intros bc db b bc' db' td Hv. cbn. destruct (toy_insert bc b) as [bc1 err] eqn:E.
  intros [= <- <- ->] Hp Hd Htd.
  destruct (toy_insert_inv _ _ _ _ E) as [[_ H]|(bs & _ & Hdr & Hb & _ & ->)]; [done|].
  rewrite Hp in Hdr. fold (toy_block_hash (toy_current bc)) in Hdr, Htd.
  rewrite drop_to_current in Hdr, Htd. injection Hdr as <-. injection Htd as <-.
  split; [done|]. cbn. rewrite bool_decide_true by done. cbn. f_equal. lia.
Qed.

Lemma toy_start_valid : valid_chain toy_start.
Proof. by split. Qed.

Definition toy_head : bytes := toy_hash (toy_header toy_genesis).
