(* ===== verification/Payload.v ===== *)
(** * Execution payloads and their conversions

    The payload types of [types/engine.go] and the conversions of
    [types/builder.go] between the engine API's payload, its header, and the REST
    form the builder API returns. *)

From Stdlib Require Import Strings.Byte.
From S2P Require Import Prelude Numeral BigInt Fastssz Hasher SszObject.
From S2P Require Import FixedContainers VarContainers BlockContainers Geth.
#[local] Open Scope Z_scope.
#[local] Open Scope go_scope.

Module PayloadAttributesV1.
Record t := mk {
  Timestamp : Z;
  PrevRandao : bytes;
  SuggestedFeeRecipient : bytes;
}.
End PayloadAttributesV1.

Module ExecutionPayloadV1.
Record t := mk {
  ParentHash : bytes;
  FeeRecipient : bytes;
  StateRoot : bytes;
  ReceiptsRoot : bytes;
  LogsBloom : bytes;
  Random : bytes;
  Number : Z;
  GasLimit : Z;
  GasUsed : Z;
  Timestamp : Z;
  ExtraData : bytes;
  BaseFeePerGas : option Z;
  BlockHash : bytes;
  Transactions : list bytes;
}.

(** What a payload the engine API accepted looks like. *)
Definition Wf (p : t) : Prop :=
  len (ParentHash p) = 32 ∧ len (FeeRecipient p) = 20 ∧ len (StateRoot p) = 32 ∧
  len (ReceiptsRoot p) = 32 ∧ len (LogsBloom p) = 256 ∧ len (Random p) = 32 ∧
  u64 (Number p) ∧ u64 (GasLimit p) ∧ u64 (GasUsed p) ∧ u64 (Timestamp p) ∧
  len (ExtraData p) ≤ 32 ∧ ptr (λ f, 0 ≤ f < 2 ^ 256) (BaseFeePerGas p) ∧
  len (BlockHash p) = 32 ∧ transactions.Wf (transactions.mk (Transactions p)).
End ExecutionPayloadV1.

Module ExecutionPayloadREST.
Record t := mk {
  ParentHash : bytes;
  FeeRecipient : bytes;
  StateRoot : bytes;
  ReceiptsRoot : bytes;
  LogsBloom : bytes;
  Random : bytes;
  BlockNumber : Z;
  GasLimit : Z;
  GasUsed : Z;
  Timestamp : Z;
  ExtraData : bytes;
  BaseFeePerGas : bytes;
  BlockHash : bytes;
  Transactions : list bytes;
}.
End ExecutionPayloadREST.

(** [ExecutePayloadStatus], a string: the constants of the program, and any other
    text a peer may send; the empty one is the zero value. *)
Inductive ExecutePayloadStatus :=
  | ExecutionValid
  | ExecutionInvalid
  | ExecutionSyncing
  | ExecutionAccepted
  | ExecutionInvalidBlockHash
  | ExecutionInvalidTerminalBlock
  | ExecutionOther (text : string).

#[export] Instance status_eq_dec : EqDecision ExecutePayloadStatus.
Proof. solve_decision. Defined.

Module PayloadStatusV1.
Record t := mk {
  Status : ExecutePayloadStatus;
  LatestValidHash : option bytes;
  ValidationError : bytes;
}.
End PayloadStatusV1.

Module ForkchoiceStateV1.
Record t := mk {
  HeadBlockHash : bytes;
  SafeBlockHash : bytes;
  FinalizedBlockHash : bytes;
}.
End ForkchoiceStateV1.

Module ForkchoiceUpdatedResult.
Record t := mk {
  PayloadStatus : PayloadStatusV1.t;
  PayloadID : option bytes;
}.
End ForkchoiceUpdatedResult.

Section conversions.
Context `{!Geth}.

Fixpoint decodeTransactions (enc : list bytes) : res (list Transaction) :=
  match enc with
  | [] => Ok []
  | encTx :: enc =>
      match tx_UnmarshalBinary encTx with
      | Ok tx => txs ← decodeTransactions enc; Ok (tx :: txs)
      | Err _ => Err (Errorf "invalid transaction")
      | Panic => Panic
      end
  end.

Definition ValidateHash (params : ExecutionPayloadV1.t) : res bool :=
  match decodeTransactions (ExecutionPayloadV1.Transactions params) with
  | Err _ => Ok false
  | Panic => Panic
  | Ok txs =>
      let header := Header.mk
        (ExecutionPayloadV1.ParentHash params) EmptyUncleHash
        (ExecutionPayloadV1.FeeRecipient params) (ExecutionPayloadV1.StateRoot params)
        (DeriveSha txs) (ExecutionPayloadV1.ReceiptsRoot params)
        (ExecutionPayloadV1.LogsBloom params) 0 (ExecutionPayloadV1.Number params)
        (ExecutionPayloadV1.GasLimit params) (ExecutionPayloadV1.GasUsed params)
        (ExecutionPayloadV1.Timestamp params) (ExecutionPayloadV1.ExtraData params)
        (ExecutionPayloadV1.Random params) (zeros 8) (ExecutionPayloadV1.BaseFeePerGas params) in
      Ok (bool_decide (header_Hash header = ExecutionPayloadV1.BlockHash params))
  end.

(** [[32]byte(common.BytesToHash(p.BaseFeePerGas.Bytes()))]; a nil [*big.Int]
    panics. *)
Definition base_fee_bytes (fee : option Z) : res bytes :=
  fee ← deref fee;
  Ok (BytesToHash (Bytes fee)).

Definition PayloadToPayloadHeader `{!Hasher} (p : ExecutionPayloadV1.t)
    : res ExecutionPayloadHeader.t :=
  let txs := transactions.mk (ExecutionPayloadV1.Transactions p) in
  txroot ← HashTreeRoot txs;
  fee ← base_fee_bytes (ExecutionPayloadV1.BaseFeePerGas p);
  Ok (ExecutionPayloadHeader.mk
        (ExecutionPayloadV1.ParentHash p)
        (ExecutionPayloadV1.FeeRecipient p)
        (ExecutionPayloadV1.StateRoot p)
        (ExecutionPayloadV1.ReceiptsRoot p)
        (ExecutionPayloadV1.LogsBloom p)
        (ExecutionPayloadV1.Random p)
        (ExecutionPayloadV1.Number p)
        (ExecutionPayloadV1.GasLimit p)
        (ExecutionPayloadV1.GasUsed p)
        (ExecutionPayloadV1.Timestamp p)
        (ExecutionPayloadV1.ExtraData p)
        fee
        (ExecutionPayloadV1.BlockHash p)
        txroot).

Definition ELPayloadToRESTPayload (p : ExecutionPayloadV1.t) : res ExecutionPayloadREST.t :=
  let txs := ExecutionPayloadV1.Transactions p in
  fee ← base_fee_bytes (ExecutionPayloadV1.BaseFeePerGas p);
  Ok (ExecutionPayloadREST.mk
        (ExecutionPayloadV1.ParentHash p)
        (ExecutionPayloadV1.FeeRecipient p)
        (ExecutionPayloadV1.StateRoot p)
        (ExecutionPayloadV1.ReceiptsRoot p)
        (ExecutionPayloadV1.LogsBloom p)
        (ExecutionPayloadV1.Random p)
        (ExecutionPayloadV1.Number p)
        (ExecutionPayloadV1.GasLimit p)
        (ExecutionPayloadV1.GasUsed p)
        (ExecutionPayloadV1.Timestamp p)
        (ExecutionPayloadV1.ExtraData p)
        fee
        (ExecutionPayloadV1.BlockHash p)
        txs).

Definition RESTPayloadToELPayload (p : ExecutionPayloadREST.t) : res ExecutionPayloadV1.t :=
  let txs := ExecutionPayloadREST.Transactions p in
  let baseFeePerGas := SetBytes (ExecutionPayloadREST.BaseFeePerGas p) in
  Ok (ExecutionPayloadV1.mk
        (ExecutionPayloadREST.ParentHash p)
        (ExecutionPayloadREST.FeeRecipient p)
        (ExecutionPayloadREST.StateRoot p)
        (ExecutionPayloadREST.ReceiptsRoot p)
        (ExecutionPayloadREST.LogsBloom p)
        (ExecutionPayloadREST.Random p)
        (ExecutionPayloadREST.BlockNumber p)
        (ExecutionPayloadREST.GasLimit p)
        (ExecutionPayloadREST.GasUsed p)
        (ExecutionPayloadREST.Timestamp p)
        (ExecutionPayloadREST.ExtraData p)
        (Some baseFeePerGas)
        (ExecutionPayloadREST.BlockHash p)
        txs).
End conversions.

(** ** Lemmas *)
Section lemmas.
Context `{!Geth, !GethLaws}.

Lemma base_fee_bytes_eq fee :
  0 ≤ fee < 2 ^ 256 → base_fee_bytes (Some fee) = Ok (be_encode 32 fee).
Proof.
  intros Hfee. change (2 ^ 256) with (256 ^ Z.of_nat 32) in Hfee.
  unfold base_fee_bytes. cbn [deref mbind res_bind]. rewrite BytesToHash_eq. f_equal.
  pose proof (byte_len_bound fee 32 ltac:(lia)) as Hle. pose proof (byte_len_fits fee) as Hfit.
  assert (length (Bytes fee) = byte_len fee) as Hlen.
  { unfold Bytes, be_encode. by rewrite length_rev, le_encode_length. }
  rewrite Hlen. replace (byte_len fee - 32)%nat with 0%nat by lia. rewrite drop_0.
  rewrite (be_encode_pad (byte_len fee) 32) by lia. unfold Bytes. by rewrite Z.abs_eq by lia.
Qed.
End lemmas.

#[local] Transparent ExecutionPayloadHeader.spec.
Section conversion_lemmas.
Context `{!Geth, !GethLaws}.

(** The header of a payload, from the payload's fields. *)
Definition header_of `{!Hasher, !HasherModel} (p : ExecutionPayloadV1.t) (fee : Z)
    : ExecutionPayloadHeader.t :=
  ExecutionPayloadHeader.mk
    (ExecutionPayloadV1.ParentHash p) (ExecutionPayloadV1.FeeRecipient p)
    (ExecutionPayloadV1.StateRoot p) (ExecutionPayloadV1.ReceiptsRoot p)
    (ExecutionPayloadV1.LogsBloom p) (ExecutionPayloadV1.Random p)
    (ExecutionPayloadV1.Number p) (ExecutionPayloadV1.GasLimit p)
    (ExecutionPayloadV1.GasUsed p) (ExecutionPayloadV1.Timestamp p)
    (ExecutionPayloadV1.ExtraData p) (be_encode 32 fee) (ExecutionPayloadV1.BlockHash p)
    (root (transactions.mk (ExecutionPayloadV1.Transactions p))).

Lemma PayloadToPayloadHeader_ok `{!SSZ, !SSZLaws, !Hasher, !HasherModel}
    (p : ExecutionPayloadV1.t) :
  ExecutionPayloadV1.Wf p →
  ∃ fee, ExecutionPayloadV1.BaseFeePerGas p = Some fee ∧ 0 ≤ fee < 2 ^ 256 ∧
    PayloadToPayloadHeader p = Ok (header_of p fee) ∧ wf (header_of p fee).
Proof.
  intros (?&?&?&?&?&?&?&?&?&?&?&Hf&?&Htx).
  apply ptr_inv in Hf as (fee & Hfee & Hrange). exists fee. split; [done|]. split; [done|].
  unfold PayloadToPayloadHeader.
  rewrite (transactions.transactions_HashTreeRoot _ Htx). cbn [mbind res_bind].
  rewrite Hfee, base_fee_bytes_eq by done. split; [done|].
  hnf; cbn. unfold u64 in *. rewrite be_encode_len. repeat split; try tauto; try lia.
  apply merkleize_len.
Qed.

Lemma ELPayload_roundtrip (p : ExecutionPayloadV1.t) :
  ExecutionPayloadV1.Wf p →
  ∃ r, ELPayloadToRESTPayload p = Ok r ∧ RESTPayloadToELPayload r = Ok p.
Proof.
  intros (?&?&?&?&?&?&?&?&?&?&?&Hf&?&Htx).
  apply ptr_inv in Hf as (fee & Hfee & Hrange). unfold ELPayloadToRESTPayload.
  rewrite Hfee, base_fee_bytes_eq by done. cbn [mbind res_bind]. eexists. split; [done|].
  unfold RESTPayloadToELPayload, SetBytes. cbn. rewrite be_decode_encode.
  - by destruct p; cbn in *; subst.
  - change (256 ^ Z.of_nat 32) with (2 ^ 256). lia.
Qed.
End conversion_lemmas.

(** ** Properties *)
Section properties.
Context `{!Geth, !GethLaws, !SSZ, !SSZLaws, !Hasher, !HasherModel}.

(** A small base fee read in the wrong byte order. *)
Lemma base_fee_shown fee : 0 < fee < 256 → le_decode (be_encode 32 fee) = fee * 2 ^ 248.
Proof.
  intros Hs. rewrite (be_encode_pad 1 32) by (cbn; lia). rewrite le_decode_app, len_zeros.
  change (be_encode 1 fee) with [byte_of_Z fee].
  change (le_decode [byte_of_Z fee]) with (Z_of_byte (byte_of_Z fee) + 256 * 0).
  rewrite Z_of_byte_of_Z, Z.mod_small by lia.
  change (le_decode (zeros (32 - 1))) with 0. change (256 ^ Z.of_nat (32 - 1)) with (2 ^ 248). lia.
Qed.

(** C33: the conversions of a payload of the engine API.  The header is well-formed,
    with the payload's fields, the SSZ root of its transactions, and its base fee as
    32 big-endian bytes, which [U256Str] reads with the least significant byte
    first: a base fee below 256 wei is shown multiplied by 2^248.  The REST form the
    relay returns converts back to the very payload it was made from, base fee
    included. *)
Theorem payload_conversions (p : ExecutionPayloadV1.t) fee :
  ExecutionPayloadV1.Wf p → ExecutionPayloadV1.BaseFeePerGas p = Some fee →
  let h := ExecutionPayloadHeader.mk
    (ExecutionPayloadV1.ParentHash p) (ExecutionPayloadV1.FeeRecipient p)
    (ExecutionPayloadV1.StateRoot p) (ExecutionPayloadV1.ReceiptsRoot p)
    (ExecutionPayloadV1.LogsBloom p) (ExecutionPayloadV1.Random p)
    (ExecutionPayloadV1.Number p) (ExecutionPayloadV1.GasLimit p)
    (ExecutionPayloadV1.GasUsed p) (ExecutionPayloadV1.Timestamp p)
    (ExecutionPayloadV1.ExtraData p) (be_encode 32 fee) (ExecutionPayloadV1.BlockHash p)
    (root (transactions.mk (ExecutionPayloadV1.Transactions p))) in
  PayloadToPayloadHeader p = Ok h ∧ wf h ∧
  (0 < fee < 256 → le_decode (ExecutionPayloadHeader.BaseFeePerGas h) = fee * 2 ^ 248) ∧
  ∃ r, ELPayloadToRESTPayload p = Ok r ∧ RESTPayloadToELPayload r = Ok p.
Proof.
  intros Hp Hfee h. destruct (PayloadToPayloadHeader_ok p Hp) as (fee' & Hfee' & _ & Hh & Hwf).
  rewrite Hfee in Hfee'. injection Hfee' as <-. split; [done|]. split; [done|].
  split; [|by apply ELPayload_roundtrip]. intros Hs. apply base_fee_shown, Hs.
Qed.

End properties.
