(* ===== verification/MockChain.v ===== *)
(** * The mock execution chain

    [mock.go]: the header verification the mock does, and the custom block builder
    and payload processor of [MockChain] on top of go-ethereum's chain.  Tracing
    and logging do not change the result and are left out. *)

From S2P Require Import Prelude Geth Payload.
#[local] Open Scope Z_scope.
#[local] Open Scope go_scope.

(** [if err != nil { return nil, fmt.Errorf(text, err) }]. *)
Definition wrap_err {A} (text : string) (r : res A) : res A :=
  match r with Err _ => Err (Errorf text) | _ => r end.

(** [if err != nil { panic(err) }]. *)
Definition panic_err {A} (r : res A) : res A :=
  match r with Err _ => Panic | _ => r end.

Section mock.
Context `{!Geth}.

(** The chain, the database, and the genesis fields the program reads. *)
Record MockChain := mk_chain {
  chain : BlockChain;
  database : Database;
  config : ChainConfig;
  gspec_GasLimit : Z;
}.

(** ** Header verification *)
Definition ErrUnknownAncestor : error := Lib "unknown ancestor".

Definition VerifyHeader (bc : BlockChain) (header : Header.t) : res unit :=
  let number := wrap64 (Header.Number header) in
  match GetHeader bc (header_Hash header) number with
  | Some _ => Ok tt
  | None =>
      match GetHeader bc (Header.ParentHash header) (wrap64 (number - 1)) with
      | None => Err ErrUnknownAncestor
      | Some _ => Ok tt
      end
  end.

Definition Prepare (bc : BlockChain) (header : Header.t) : res Header.t :=
  match GetHeader bc (Header.ParentHash header) (wrap64 (wrap64 (Header.Number header) - 1)) with
  | None => Err ErrUnknownAncestor
  | Some _ =>
      Ok (Header.mk (Header.ParentHash header) (Header.UncleHash header) (Header.Coinbase header)
            (Header.Root header) (Header.TxHash header) (Header.ReceiptHash header)
            (Header.Bloom header) 0 (Header.Number header) (Header.GasLimit header)
            (Header.GasUsed header) (Header.Time header) (Header.Extra header)
            (Header.MixDigest header) (Header.Nonce header) (Header.BaseFee header))
  end.

(** ** Building a block *)

Definition with_gas (h : Header.t) (limit used : Z) : Header.t :=
  Header.mk (Header.ParentHash h) (Header.UncleHash h) (Header.Coinbase h) (Header.Root h)
    (Header.TxHash h) (Header.ReceiptHash h) (Header.Bloom h) (Header.Difficulty h)
    (Header.Number h) limit used (Header.Time h) (Header.Extra h) (Header.MixDigest h)
    (Header.Nonce h) (Header.BaseFee h).
Definition with_base_fee (h : Header.t) (fee : option Z) : Header.t :=
  Header.mk (Header.ParentHash h) (Header.UncleHash h) (Header.Coinbase h) (Header.Root h)
    (Header.TxHash h) (Header.ReceiptHash h) (Header.Bloom h) (Header.Difficulty h)
    (Header.Number h) (Header.GasLimit h) (Header.GasUsed h) (Header.Time h) (Header.Extra h)
    (Header.MixDigest h) (Header.Nonce h) fee.
Definition with_root (h : Header.t) (r : bytes) : Header.t :=
  Header.mk (Header.ParentHash h) (Header.UncleHash h) (Header.Coinbase h) r
    (Header.TxHash h) (Header.ReceiptHash h) (Header.Bloom h) (Header.Difficulty h)
    (Header.Number h) (Header.GasLimit h) (Header.GasUsed h) (Header.Time h) (Header.Extra h)
    (Header.MixDigest h) (Header.Nonce h) (Header.BaseFee h).

(** [if config.IsLondon(header.Number) { ... }]: the base fee, and the gas limit
    doubled at the transition. *)
Definition london_rules (cfg : ChainConfig) (parent header : Header.t) : Header.t :=
  if IsLondon cfg (Header.Number header) then
    let header := with_base_fee header (Some (CalcBaseFee cfg parent)) in
    if negb (IsLondon cfg (Header.Number parent))
    then with_gas header (wrap64 (Header.GasLimit parent * ElasticityMultiplier))
           (Header.GasUsed header)
    else header
  else header.

(** [for i, tx := range txs { receipt, err := core.ApplyTransaction(...) ... }]. *)
Fixpoint apply_txs (cfg : ChainConfig) (bc : BlockChain) (header : Header.t)
    (txs : list Transaction) (statedb : StateDB) (gasPool gasUsed : Z)
    : res (list Receipt * StateDB * Z * Z) :=
  match txs with
  | [] => Ok ([], statedb, gasPool, gasUsed)
  | tx :: txs =>
      '(receipt, statedb, gasPool, gasUsed) ←
        wrap_err "failed to apply transaction"
          (ApplyTransaction cfg bc gasPool statedb (with_gas header (Header.GasLimit header) gasUsed)
             tx gasUsed);
      '(receipts, statedb, gasPool, gasUsed) ←
        apply_txs cfg bc header txs statedb gasPool gasUsed;
      Ok (receipt :: receipts, statedb, gasPool, gasUsed)
  end.

(** The same loop over encoded transactions. *)
Fixpoint process_txs (cfg : ChainConfig) (bc : BlockChain) (header : Header.t)
    (otxs : list bytes) (statedb : StateDB) (gasPool gasUsed : Z)
    : res (list Transaction * list Receipt * StateDB * Z * Z) :=
  match otxs with
  | [] => Ok ([], [], statedb, gasPool, gasUsed)
  | otx :: otxs =>
      tx ← wrap_err "failed to decode tx" (tx_UnmarshalBinary otx);
      '(receipt, statedb, gasPool, gasUsed) ←
        wrap_err "failed to apply transaction"
          (ApplyTransaction cfg bc gasPool statedb (with_gas header (Header.GasLimit header) gasUsed)
             tx gasUsed);
      '(txs, receipts, statedb, gasPool, gasUsed) ←
        process_txs cfg bc header otxs statedb gasPool gasUsed;
      Ok (tx :: txs, receipt :: receipts, statedb, gasPool, gasUsed)
  end.

(** Writing the state of a block: [statedb.Commit] and [TrieDB().Commit]. *)
Definition write_state (statedb : StateDB) (number : Z) : M MockChain unit :=
  c ← get;
  '(root, statedb) ← lift (wrap_err "state write error"
                             (state_Commit statedb (IsEIP158 (config c) number)));
  let '(db, err) := trie_Commit statedb root (database c) in
  _ ← put (mk_chain (chain c) db (config c) (gspec_GasLimit c));
  match err with Some _ => fail (Errorf "trie write error") | None => mret tt end.

(** [c.chain.InsertChain(types.Blocks{block})]. *)
Definition insert_block (block : Block) : M MockChain unit :=
  c ← get;
  let '(bc, db, err) := InsertChain (chain c) (database c) block in
  _ ← put (mk_chain bc db (config c) (gspec_GasLimit c));
  match err with Some _ => fail (Errorf "failed to insert block into chain") | None => mret tt end.

(** [txsCreator] stands for [TransactionsCreator.Create]. *)
Definition AddNewBlock (parentHash coinbase : bytes) (timestamp gasLimit : Z)
    (txsCreator : StateDB → Header.t → list Transaction) (prevRandao extraData : bytes)
    (uncles : list Header.t) (storeBlock : bool) : M MockChain Block :=
  c ← get;
  match GetHeaderByHash (chain c) parentHash with
  | None => fail (Errorf "unknown parent")
  | Some parent =>
      statedb ← lift (state_New (Header.Root parent) (database c));
      let header := Header.mk parentHash (zeros 32) coinbase (zeros 32) (zeros 32) (zeros 32)
        (zeros 256) 0
        (Header.Number parent + 1) gasLimit 0 timestamp extraData (BytesToHash prevRandao) (zeros 8) None in
      let header := london_rules (config c) parent header in
      let gasPool := Header.GasLimit header in
      let txs := txsCreator statedb header in
      '(receipts, statedb, gasPool, _) ←
        lift (apply_txs (config c) (chain c) header txs statedb gasPool 0);
      let header := with_gas header (Header.GasLimit header)
                      (wrap64 (Header.GasLimit header - gasPool)) in
      let '(root, statedb) := IntermediateRoot statedb (IsEIP158 (config c) (Header.Number header)) in
      let header := with_root header root in
      let block := NewBlock header txs uncles receipts in
      _ ← write_state statedb (Header.Number header);
      if storeBlock then _ ← insert_block block; mret block else mret block
  end.

Definition ProcessPayload (payload : ExecutionPayloadV1.t) : M MockChain Block :=
  c ← get;
  match GetHeaderByHash (chain c) (ExecutionPayloadV1.ParentHash payload) with
  | None => fail (Errorf "unknown parent")
  | Some parent =>
      statedb ← lift (panic_err (state_New (Header.Root parent) (database c)));
      let header := Header.mk (header_Hash parent) (zeros 32)
        (ExecutionPayloadV1.FeeRecipient payload) (zeros 32) (zeros 32) (zeros 32) (zeros 256) 0 (Header.Number parent + 1) (ExecutionPayloadV1.GasLimit payload) 0
        (ExecutionPayloadV1.Timestamp payload) (ExecutionPayloadV1.ExtraData payload)
        (ExecutionPayloadV1.Random payload) (zeros 8) (ExecutionPayloadV1.BaseFeePerGas payload) in
      let header := london_rules (config c) parent header in
      let gasPool := Header.GasLimit header in
      '(txs, receipts, statedb, _, gasUsed) ←
        lift (process_txs (config c) (chain c) header
                (ExecutionPayloadV1.Transactions payload) statedb gasPool 0);
      let header := with_gas header (Header.GasLimit header) gasUsed in
      let '(stateRoot, statedb) :=
        IntermediateRoot statedb (IsEIP158 (config c) (Header.Number header)) in
      let header := with_root header stateRoot in
      let block := NewBlock header txs [] receipts in
      let h := block_Header block in
      if negb (Header.GasUsed h =? ExecutionPayloadV1.GasUsed payload)
      then fail (Errorf "gas usage difference") else
      if bool_decide (Header.ReceiptHash h ≠ ExecutionPayloadV1.ReceiptsRoot payload)
      then fail (Errorf "receipt root difference") else
      if bool_decide (Header.Bloom h ≠ ExecutionPayloadV1.LogsBloom payload)
      then fail (Errorf "logs bloom difference") else
      if bool_decide (Header.Root h ≠ ExecutionPayloadV1.StateRoot payload)
      then fail (Errorf "state root difference") else
      if bool_decide (block_Hash block ≠ ExecutionPayloadV1.BlockHash payload)
      then fail (Errorf "block hash difference") else
      _ ← write_state statedb (Header.Number header);
      _ ← insert_block block;
      mret block
  end.
End mock.

(** ** Lemmas *)
Section lemmas.
Context `{!Geth, !GethLaws}.

Lemma london_rules_fields cfg parent h :
  let h' := london_rules cfg parent h in
  Header.ParentHash h' = Header.ParentHash h ∧ Header.Coinbase h' = Header.Coinbase h ∧
  Header.Difficulty h' = Header.Difficulty h ∧ Header.Number h' = Header.Number h ∧
  Header.Time h' = Header.Time h ∧ Header.Extra h' = Header.Extra h ∧
  Header.MixDigest h' = Header.MixDigest h ∧ Header.GasUsed h' = Header.GasUsed h ∧
  Header.GasLimit h' =
    (if IsLondon cfg (Header.Number h) && negb (IsLondon cfg (Header.Number parent))
     then wrap64 (Header.GasLimit parent * ElasticityMultiplier) else Header.GasLimit h) ∧
  Header.BaseFee h' =
    (if IsLondon cfg (Header.Number h) then Some (CalcBaseFee cfg parent) else Header.BaseFee h).
Proof. unfold london_rules. repeat case_match; simplify_eq; cbn; tauto. Qed.

(** Writing state never touches the chain, the configuration or the genesis. *)
Lemma write_state_chain statedb n c c' r :
  write_state statedb n c = (c', r) →
  chain c' = chain c ∧ config c' = config c ∧ gspec_GasLimit c' = gspec_GasLimit c.
Proof.
  unfold write_state. mrun.
  destruct (wrap_err _ (state_Commit _ _)) as [[root sdb]|e|]; [|by intros [= <- <-]..].
  destruct (trie_Commit sdb root (database c)) as [db [e|]]; mrun; by intros [= <- <-].
Qed.

Lemma insert_block_config b c c' r :
  insert_block b c = (c', r) →
  config c' = config c ∧ gspec_GasLimit c' = gspec_GasLimit c ∧
  (r = Ok tt → GetHeaderByHash (chain c') (block_Hash b) = Some (block_Header b)).
Proof.
  unfold insert_block. mrun.
  destruct (InsertChain (chain c) (database c) b) as [[bc db] [e|]] eqn:E; mrun;
    intros [= <- <-]; cbn; split; try done; split; try done.
  intros _. by eapply InsertChain_found.
Qed.

(** The header the payload's fields and its parent determine. *)
Definition payload_header (cfg : ChainConfig) (parent : Header.t) (p : ExecutionPayloadV1.t)
    : Header.t :=
  london_rules cfg parent (Header.mk (header_Hash parent) (zeros 32)
    (ExecutionPayloadV1.FeeRecipient p) (zeros 32) (zeros 32) (zeros 32) (zeros 256) 0
    (Header.Number parent + 1) (ExecutionPayloadV1.GasLimit p) 0
    (ExecutionPayloadV1.Timestamp p) (ExecutionPayloadV1.ExtraData p)
    (ExecutionPayloadV1.Random p) (zeros 8) (ExecutionPayloadV1.BaseFeePerGas p)).

(** The block computed from a payload is the one the payload announces: one above
    its parent, with the gas used, roots, bloom and hash that the code compares. *)
Definition announced (p : ExecutionPayloadV1.t) (parent : Header.t) (b : Block) : Prop :=
  block_Hash b = ExecutionPayloadV1.BlockHash p ∧
  Header.Number (block_Header b) = Header.Number parent + 1 ∧
  Header.Difficulty (block_Header b) = 0 ∧
  Header.GasUsed (block_Header b) = ExecutionPayloadV1.GasUsed p ∧
  Header.ReceiptHash (block_Header b) = ExecutionPayloadV1.ReceiptsRoot p ∧
  Header.Bloom (block_Header b) = ExecutionPayloadV1.LogsBloom p ∧
  Header.Root (block_Header b) = ExecutionPayloadV1.StateRoot p.

(** The answer when go-ethereum refuses to insert the block: no other failure of
    processing a payload has this text. *)
Definition insertion_failed : error := Errorf "failed to insert block into chain".

Lemma wrap_err_text {A} text (r : res A) e : wrap_err text r = Err e → e = Errorf text.
Proof. by destruct r; intros [=]. Qed.

Lemma process_txs_error cfg bc hd txs sdb gp gu e :
  process_txs cfg bc hd txs sdb gp gu = Err e → e ≠ insertion_failed.
Proof.
  revert sdb gp gu. induction txs as [|tx txs IH]; intros sdb gp gu; [done|]. cbn.
  destruct (wrap_err _ (tx_UnmarshalBinary tx)) as [t|e'|] eqn:E; cbn; [|intros [= ->]|done];
    [|by apply wrap_err_text in E as ->].
  destruct (wrap_err _ (ApplyTransaction _ _ _ _ _ _ _)) as [[[[rc sdb'] gp'] gu']|e'|] eqn:E';
    cbn; [|intros [= ->]|done]; [|by apply wrap_err_text in E' as ->].
  destruct (process_txs _ _ _ txs _ _ _) as [[[[[ts rs] sdb''] gp''] gu'']|e'|] eqn:Er; cbn;
    [done|intros [= ->]|done]. by eapply IH.
Qed.

Lemma write_state_error sdb n c c' e :
  write_state sdb n c = (c', Err e) → e ≠ insertion_failed.
Proof.
  unfold write_state. mrun.
  destruct (wrap_err _ (state_Commit _ _)) as [[root sdb']|e'|] eqn:E;
    [|by intros [= _ <-]; apply wrap_err_text in E as ->|done].
  destruct (trie_Commit sdb' root (database c)) as [db [e'|]]; mrun; by intros [= _ <-].
Qed.

(** A branch that answers without success and leaves the chain alone. *)
Local Ltac unchanged :=
  intros [= <- <-]; split; [done|]; split; [done|];
  left; split_and!; first [done | congruence].

(** What processing a payload did: nothing to the chain, without success; or, when
    the parent is known and the block is the announced one, exactly one insertion
    of that block, whose outcome is the answer. *)
Lemma ProcessPayload_inv p c c' r :
  ProcessPayload p c = (c', r) →
  config c' = config c ∧ gspec_GasLimit c' = gspec_GasLimit c ∧
  ((chain c' = chain c ∧ (∀ b, r ≠ Ok b) ∧ r ≠ Err insertion_failed) ∨
   ∃ parent b db err,
     GetHeaderByHash (chain c) (ExecutionPayloadV1.ParentHash p) = Some parent ∧
     announced p parent b ∧
     InsertChain (chain c) db b = (chain c', database c', err) ∧
     r = match err with
         | None => Ok b
         | Some _ => Err insertion_failed
         end).
Proof.
  unfold ProcessPayload. mrun.
  destruct (GetHeaderByHash _ _) as [parent|] eqn:Hp; [mrun|unchanged].
  destruct (state_New _ _) as [sdb|e|]; cbn [panic_err]; [|unchanged..].
  fold (payload_header (config c) parent p).
  destruct (london_rules_fields (config c) parent (Header.mk (header_Hash parent) (zeros 32)
    (ExecutionPayloadV1.FeeRecipient p) (zeros 32) (zeros 32) (zeros 32) (zeros 256) 0
    (Header.Number parent + 1) (ExecutionPayloadV1.GasLimit p) 0
    (ExecutionPayloadV1.Timestamp p) (ExecutionPayloadV1.ExtraData p)
    (ExecutionPayloadV1.Random p) (zeros 8) (ExecutionPayloadV1.BaseFeePerGas p)))
    as (_ & _ & Hd & Hn & _).
  fold (payload_header (config c) parent p) in Hd, Hn.
  generalize dependent (payload_header (config c) parent p). intros hd Hd Hn.
  destruct (process_txs _ _ _ _ _ _ _) as [[[[[txs rs] sdb'] gp] gu]|e|] eqn:Htx;
    [mrun| |unchanged].
  2:{ apply process_txs_error in Htx. unchanged. }
  destruct (IntermediateRoot sdb' _) as [rt sdb''].
  repeat match goal with
  | |- (if ?c then _ else _) _ = _ → _ => destruct c eqn:?; [unchanged|]
  end.
  set (hd' := with_root (with_gas hd (Header.GasLimit hd) gu) rt) in *.
  destruct (NewBlock_header hd' txs [] rs) as (uh & th & rh & bl & Hblk).
  rewrite M_bind_eq. destruct (write_state _ _ c) as [c1 [[]|e|]] eqn:Hw;
    pose proof Hw as (Hc & Hcfg & Hgas)%write_state_chain; [| |unchanged].
  2:{ apply write_state_error in Hw. unchanged. }
  rewrite M_bind_eq. unfold insert_block. mrun.
  destruct (InsertChain _ _ _) as [[bc db] err] eqn:Hi. rewrite Hc in Hi.
  assert (announced p parent (NewBlock hd' txs [] rs)) as Ha.
  { repeat match goal with
    | H : negb _ = false |- _ => apply negb_false_iff, Z.eqb_eq in H
    | H : bool_decide (_ ≠ _) = false |- _ =>
        apply bool_decide_eq_false_1, dec_stable in H
    end.
    split; [done|]. split; [by rewrite Hblk|]. by split; [rewrite Hblk|]. }
  intros Hr. assert (config c' = config c ∧ gspec_GasLimit c' = gspec_GasLimit c ∧
    chain c' = bc ∧ database c' = db ∧ r = match err with
         | None => Ok (NewBlock hd' txs [] rs)
         | Some _ => Err insertion_failed
         end) as (-> & -> & <- & <- & ->).
  { revert Hr. destruct err as [e|]; mrun; by intros [= <- <-]. }
  split; [done|]. split; [done|]. right.
  by exists parent, (NewBlock hd' txs [] rs), (database c1), err.
Qed.

(** A payload that is processed: every comparison of the code went through, and
    the block is in the chain. *)
Lemma ProcessPayload_Ok_inv p c c' b :
  ProcessPayload p c = (c', Ok b) →
  ∃ parent,
    GetHeaderByHash (chain c) (ExecutionPayloadV1.ParentHash p) = Some parent ∧
    block_Hash b = ExecutionPayloadV1.BlockHash p ∧
    Header.GasUsed (block_Header b) = ExecutionPayloadV1.GasUsed p ∧
    Header.ReceiptHash (block_Header b) = ExecutionPayloadV1.ReceiptsRoot p ∧
    Header.Bloom (block_Header b) = ExecutionPayloadV1.LogsBloom p ∧
    Header.Root (block_Header b) = ExecutionPayloadV1.StateRoot p ∧
    Header.Number (block_Header b) = Header.Number parent + 1 ∧
    Header.Difficulty (block_Header b) = 0 ∧
    GetHeaderByHash (chain c') (ExecutionPayloadV1.BlockHash p) = Some (block_Header b) ∧
    config c' = config c ∧ gspec_GasLimit c' = gspec_GasLimit c.
Proof.
  intros Hr. apply ProcessPayload_inv in Hr as (Hcfg & Hgas & [(_ & Hno & _)|Hins]); [by destruct (Hno b)|].
  destruct Hins as (parent & b' & db & [e|] & Hp & (Hh & Hn & Hd & Hgu & Hrh & Hbl & Hrt) & Hi & [=]).
  subst b'.
  exists parent. rewrite <- Hh. rewrite (InsertChain_found _ _ _ _ _ Hi). by repeat split.
Qed.

(** A payload that is refused before its block is inserted leaves the chain
    alone. *)
Lemma ProcessPayload_chain p c c' r :
  ProcessPayload p c = (c', r) →
  (∀ b, r ≠ Ok b) → r ≠ Err (Errorf "failed to insert block into chain") →
  chain c' = chain c ∧ config c' = config c.
Proof.
  intros Hr Hno Hne. apply ProcessPayload_inv in Hr as (Hcfg & _ & [[Hc _]|Hins]); [done|].
  destruct Hins as (parent & b & db & [e|] & _ & _ & _ & ->); [done|by destruct (Hno b)].
Qed.

(** A block that is built but not stored leaves the chain alone, and has the
    parent, number and attributes it was asked for. *)
Lemma AddNewBlock_inv parentHash coinbase ts gl mk rand extra uncles c c' r :
  AddNewBlock parentHash coinbase ts gl mk rand extra uncles false c = (c', r) →
  chain c' = chain c ∧ config c' = config c ∧ gspec_GasLimit c' = gspec_GasLimit c ∧
  ∀ b, r = Ok b →
    ∃ parent, GetHeaderByHash (chain c) parentHash = Some parent ∧
      let h := block_Header b in
      Header.ParentHash h = parentHash ∧ Header.Coinbase h = coinbase ∧ Header.Time h = ts ∧
      Header.Extra h = extra ∧ Header.MixDigest h = BytesToHash rand ∧
      Header.Difficulty h = 0 ∧ Header.Number h = Header.Number parent + 1 ∧
      (IsLondon (config c) (Header.Number parent + 1) = false ∨
       IsLondon (config c) (Header.Number parent) = true → Header.GasLimit h = gl) ∧
      (IsLondon (config c) (Header.Number parent + 1) = true →
       Header.BaseFee h = Some (CalcBaseFee (config c) parent)).
Proof.
  unfold AddNewBlock. mrun.
  destruct (GetHeaderByHash _ _) as [parent|]; [mrun|by intros [= <- <-]].
  destruct (state_New _ _) as [sdb|e|]; [|by intros [= <- <-]..].
  pose proof (london_rules_fields (config c) parent (Header.mk parentHash (zeros 32) coinbase
    (zeros 32) (zeros 32) (zeros 32) (zeros 256) 0 (Header.Number parent + 1) gl 0 ts extra
    (BytesToHash rand) (zeros 8) None)) as Hf. cbv zeta in Hf. revert Hf.
  generalize (london_rules (config c) parent (Header.mk parentHash (zeros 32) coinbase
    (zeros 32) (zeros 32) (zeros 32) (zeros 256) 0 (Header.Number parent + 1) gl 0 ts extra
    (BytesToHash rand) (zeros 8) None)). intros hd. cbn.
  intros (Hph & Hcb & Hd & Hn & Ht & Hx & Hm & Hgu & Hgl & Hbf).
  destruct (apply_txs _ _ _ _ _ _ _) as [[[[rs sdb'] gp] gu]|e|]; [mrun|by intros [= <- <-]..].
  destruct (IntermediateRoot sdb' _) as [rt sdb''].
  rewrite M_bind_eq. destruct (write_state _ _ c) as [c1 [[]|e|]] eqn:Hw;
    apply write_state_chain in Hw as (Hc & Hcfg & Hgas); intros [= <- <-]; try done.
  repeat (split; [done|]). intros b [= <-]. exists parent. split; [done|].
  edestruct NewBlock_header as (uh & th & rh & bl & ->). cbn.
  repeat (split; [done|]). split.
  - rewrite Hgl. intros [->| ->]; [done|]. by rewrite andb_false_r.
  - intros HL. by rewrite Hbf, HL.
Qed.
End lemmas.

(** ** Growth of the chain *)
Section growth.
Context `{!Geth, !GethLaws, !ChainLaws}.

(** A block hash the chain knows. *)
Definition known (bc : BlockChain) (h : bytes) : Prop := is_Some (GetHeaderByHash bc h).

Lemma CurrentHeader_known bc : valid_chain bc → known bc (header_Hash (CurrentHeader bc)).
Proof. intros Hv. eexists. by apply CurrentHeader_found. Qed.

(** A chain stays in good order and keeps what it knows. *)
Definition grows (bc bc' : BlockChain) : Prop :=
  valid_chain bc → valid_chain bc' ∧ ∀ h, known bc h → known bc' h.

#[export] Instance grows_preorder : PreOrder grows.
Proof.
  split; [by intros bc Hv|]. intros bc1 bc2 bc3 H12 H23 Hv.
  destruct (H12 Hv) as [Hv2 Hk2]. destruct (H23 Hv2) as [Hv3 Hk3]. auto.
Qed.

Lemma insert_block_grows b c c' r :
  insert_block b c = (c', r) → grows (chain c) (chain c').
Proof.
  unfold insert_block. mrun. intros Hrun Hv.
  pose proof (InsertChain_valid (chain c) (database c) b Hv) as Hv'.
  assert (∀ h, known (chain c) h → known (InsertChain (chain c) (database c) b).1.1 h) as Hk.
  { intros h [hd Hh]. exists hd. by apply InsertChain_keeps. }
  destruct (InsertChain _ _ _) as [[bc db] [e|]]; revert Hrun; mrun; by intros [= <- _].
Qed.

(** Storing a block is building it and inserting it. *)
Lemma AddNewBlock_store parentHash coinbase ts gl mk rand extra uncles c :
  AddNewBlock parentHash coinbase ts gl mk rand extra uncles true c
  = (b ← AddNewBlock parentHash coinbase ts gl mk rand extra uncles false;
     _ ← insert_block b; mret b) c.
Proof.
  unfold AddNewBlock. rewrite !M_bind_eq. mrun.
  destruct (GetHeaderByHash _ _) as [parent|]; [|done]. mrun.
  destruct (state_New _ _) as [sdb|e|]; [|done..]. mrun.
  destruct (apply_txs _ _ _ _ _ _ _) as [[[[rs sdb'] gp] gu]|e|]; [|done..]. mrun.
  destruct (IntermediateRoot sdb' _) as [rt sdb'']. rewrite !M_bind_eq.
  by destruct (write_state _ _ c) as [c1 [[]|e|]].
Qed.

(** A block that is stored: where it is, and that the chain knows it. *)
Lemma AddNewBlock_stored parentHash coinbase ts gl mk rand extra uncles c c' r :
  AddNewBlock parentHash coinbase ts gl mk rand extra uncles true c = (c', r) →
  grows (chain c) (chain c') ∧ config c' = config c ∧
  ∀ b, r = Ok b → known (chain c') (block_Hash b) ∧ Header.Time (block_Header b) = ts ∧
    ∃ parent, GetHeaderByHash (chain c) parentHash = Some parent ∧
      Header.ParentHash (block_Header b) = parentHash ∧
      Header.Number (block_Header b) = Header.Number parent + 1.
Proof.
  rewrite AddNewBlock_store, M_bind_eq.
  destruct (AddNewBlock _ _ _ _ _ _ _ _ false c) as [c1 [b|e|]] eqn:E;
    destruct (AddNewBlock_inv _ _ _ _ _ _ _ _ _ _ _ E) as (Hc & Hcfg & _ & Hb);
    [|intros [= <- <-]; rewrite Hc; split; [reflexivity|by split]..].
  rewrite M_bind_eq. destruct (insert_block b c1) as [c2 r2] eqn:Hi.
  pose proof (insert_block_grows _ _ _ _ Hi) as Hg. rewrite Hc in Hg.
  destruct (insert_block_config _ _ _ _ Hi) as (Hcfg2 & _ & Hf).
  destruct r2 as [[]|e|]; intros [= <- <-]; (split; [done|]; split; [congruence|]); [|done..].
  intros b' [= <-]. split; [eexists; by apply Hf|].
  destruct (Hb b eq_refl) as (parent & Hp & Hph & _ & Hts & _ & _ & _ & Hn & _). eauto 6.
Qed.

End growth.

(** A computation on a state that holds a chain and only lets that chain grow,
    whatever its outcome. *)
Abbreviation growing bc := (evolves (along bc grows)).

Section processing.
Context `{!Geth, !GethLaws, !ChainLaws}.
Lemma growing_write_state sdb n : growing chain (write_state sdb n).
Proof. intros c c' r Hw. apply write_state_chain in Hw as [Hc _]. unfold along. by rewrite Hc. Qed.
Lemma growing_insert_block b : growing chain (insert_block b).
Proof. intros c c' r. apply insert_block_grows. Qed.
#[local] Hint Resolve growing_write_state growing_insert_block : evolves.
Lemma growing_ProcessPayload p : growing chain (ProcessPayload p).
Proof. unfold ProcessPayload. evolve. Qed.
End processing.
#[export] Hint Resolve growing_write_state growing_insert_block growing_ProcessPayload : evolves.

(** ** Properties *)
Section properties.
Context `{!Geth, !GethLaws}.

(** C15: processing a payload has one of three outcomes for the chain.  On success
    the parent was known, the block agrees with every field of the payload the code
    compares, the chain is what inserting it gives, and it is found under the
    payload's hash.  It fails with "failed to insert block into chain" when, and only
    when, go-ethereum refuses the insertion of an agreeing block, and the chain is
    then what that single refused insertion left.  Every other failure, and a panic,
    leaves the chain unchanged. *)
Theorem process_payload_outcomes p c c' r :
  ProcessPayload p c = (c', r) →
  match r with
  | Ok b => ∃ parent db,
      GetHeaderByHash (chain c) (ExecutionPayloadV1.ParentHash p) = Some parent ∧
      announced p parent b ∧
      InsertChain (chain c) db b = (chain c', database c', None) ∧
      GetHeaderByHash (chain c') (ExecutionPayloadV1.BlockHash p) = Some (block_Header b)
  | Err e =>
      if decide (e = insertion_failed)
      then ∃ parent b db refusal,
        GetHeaderByHash (chain c) (ExecutionPayloadV1.ParentHash p) = Some parent ∧
        announced p parent b ∧
        InsertChain (chain c) db b = (chain c', database c', Some refusal)
      else chain c' = chain c
  | Panic => chain c' = chain c
  end.
Proof.
  intros Hr. apply ProcessPayload_inv in Hr as (_ & _ & [(Hc & Hno & Hne)|Hins]).
  - destruct r as [b|e|]; [by destruct (Hno b)| |done].
    rewrite decide_False; [done|congruence].
  - destruct Hins as (parent & b & db & [e|] & Hp & Ha & Hi & ->).
    + rewrite decide_True by done. by exists parent, b, db, e.
    + exists parent, db. do 3 (split; [done|]). destruct Ha as [<- _].
      exact (InsertChain_found _ _ _ _ _ Hi).
Qed.
End properties.
