(* ===== verification/Mining.v ===== *)
(** * The consensus engine of the mock chain, and mining

    The rest of [mock.go]: the consensus engine interface the chain is built with,
    the mock engine [ExecutionConsensusMock] that implements it, [MineBlock], which
    mines a block with whatever engine the chain has, and [NewMockChain]. *)

From S2P Require Import Prelude Geth Payload MockChain.
#[local] Open Scope Z_scope.
#[local] Open Scope go_scope.

(** ** The interface *)

(** The methods of [consensus.Engine] that [MineBlock] calls.  [engine_Seal bc b
    waiting] sends the sealed block on the channel of results; [waiting] says that
    another goroutine is receiving from it while [Seal] runs.  The result is the
    block that is received, by that goroutine or by one that starts to wait when
    [Seal] has returned. *)
Class ConsensusEngine `{!Geth} := {
  engine_Prepare : ChainConfig → BlockChain → Header.t → res Header.t;
  engine_FinalizeAndAssemble : ChainConfig → BlockChain → Header.t → StateDB →
    list Transaction → list Header.t → list Receipt → res (Block * StateDB);
  engine_Seal : BlockChain → Block → bool → res (option Block);
}.

(** Keccak-256 of an RLP list of byte strings and integers. *)
Inductive rlp_item := RlpBytes (b : bytes) | RlpInt (z : Z).
Class Keccak := { rlp_keccak : list rlp_item → bytes }.

(** Opening a chain: the genesis file, the database and go-ethereum's chain. *)
Class ChainStore `{!Geth} := {
  Genesis : Type;
  genesis_Config : Genesis → ChainConfig;
  genesis_GasLimit : Genesis → Z;
  genesis_Commit : Genesis → Database → Database * option error;
  ReadCanonicalHash : Database → Z → bytes;
  NewBlockChain : Database → ChainConfig → res BlockChain;
  os_Open : bytes → res bytes;
  decode_genesis : bytes → res Genesis;
  NewMemoryDatabase : Database;
  NewLevelDBDatabase : bytes → res Database;
}.

Section mock_engine.
Context `{!Geth}.

(** ** The mock engine *)
Definition Author (header : Header.t) : res bytes := Ok (Header.Coinbase header).

(** The error of a call, as a value; a panic goes on. *)
Definition err_of {A} (r : res A) : res (option error) :=
  match r with Ok _ => Ok None | Err e => Ok (Some e) | Panic => Panic end.

(** The goroutine of [VerifyHeaders]: the state is what was sent on the channel of
    results, whose buffer has room for every header, so that a send never waits.
    [aborts] is what the [select] of each iteration chooses: [true] when it takes
    the signal to abort. *)
Fixpoint VerifyHeaders (bc : BlockChain) (headers : list Header.t) (seals aborts : list bool)
    : M (list (option error)) unit :=
  match headers with
  | [] => mret tt
  | h :: headers =>
      match seals with
      | [] => lift Panic
      | _ :: seals =>
          err ← lift (err_of (VerifyHeader bc h));
          if default false (head aborts) then mret tt else
          out ← get;
          _ ← put (out ++ [err]);
          VerifyHeaders bc headers seals (tail aborts)
      end
  end.

Definition VerifyUncles (bc : BlockChain) (b : Block) : res unit := Ok tt.

Definition Finalize (cfg : ChainConfig) (header : Header.t) (statedb : StateDB)
    : Header.t * StateDB :=
  let '(root, statedb) := IntermediateRoot statedb (IsEIP158 cfg (Header.Number header)) in
  (with_root header root, statedb).

Definition FinalizeAndAssemble (cfg : ChainConfig) (header : Header.t) (statedb : StateDB)
    (txs : list Transaction) (uncles : list Header.t) (receipts : list Receipt)
    : res (Block * StateDB) :=
  let '(header, statedb) := Finalize cfg header statedb in
  Ok (NewBlock header txs uncles receipts, statedb).

(** The sealed header has no nonce and no mix digest. *)
Definition sealed (h : Header.t) : Header.t :=
  Header.mk (Header.ParentHash h) (Header.UncleHash h) (Header.Coinbase h) (Header.Root h)
    (Header.TxHash h) (Header.ReceiptHash h) (Header.Bloom h) (Header.Difficulty h)
    (Header.Number h) (Header.GasLimit h) (Header.GasUsed h) (Header.Time h) (Header.Extra h)
    (zeros 32) (zeros 8) (Header.BaseFee h).

(** A send in a [select] with a default branch: nobody receives unless a receiver
    is already waiting. *)
Definition Seal (block : Block) (waiting : bool) : res (option Block) :=
  if waiting then Ok (Some (block_WithSeal block (sealed (block_Header block)))) else Ok None.

Definition SealHash `{!Keccak} (h : Header.t) : bytes :=
  let enc := [RlpBytes (Header.ParentHash h); RlpBytes (Header.UncleHash h);
    RlpBytes (Header.Coinbase h); RlpBytes (Header.Root h); RlpBytes (Header.TxHash h);
    RlpBytes (Header.ReceiptHash h); RlpBytes (Header.Bloom h); RlpInt (Header.Difficulty h);
    RlpInt (Header.Number h); RlpInt (Header.GasLimit h); RlpInt (Header.GasUsed h);
    RlpInt (Header.Time h); RlpBytes (Header.Extra h)] in
  rlp_keccak (match Header.BaseFee h with Some fee => enc ++ [RlpInt fee] | None => enc end).

#[local] Instance ExecutionConsensusMock : ConsensusEngine := {
  engine_Prepare _ bc h := Prepare bc h;
  engine_FinalizeAndAssemble cfg _ := FinalizeAndAssemble cfg;
  engine_Seal _ := Seal;
}.
End mock_engine.

(** ** Mining *)
Section mining.
Context `{!Geth, !ConsensusEngine}.

(** A receive that times out after 10000 seconds. *)
Definition MineBlock (parent : Header.t) : M MockChain Block :=
  c ← get;
  let header := Header.mk (header_Hash parent) (zeros 32) (zeros 20) (zeros 32) (zeros 32)
    (zeros 32) (zeros 256) 0 (Header.Number parent + 1) (Header.GasLimit parent) 0
    (wrap64 (Header.Time parent + 1)) [] (zeros 32) (zeros 8) None in
  let header := london_rules (config c) parent header in
  header ← lift (wrap_err "failed to prepare header for mining"
                   (engine_Prepare (config c) (chain c) header));
  statedb ← lift (panic_err (state_New (Header.Root parent) (database c)));
  '(block, statedb) ← lift (wrap_err "failed to finalize and assemble block"
                   (engine_FinalizeAndAssemble (config c) (chain c) header statedb [] [] []));
  found ← lift (panic_err (engine_Seal (chain c) block false));
  match found with
  | None => fail (Errorf "sealing result timeout")
  | Some block =>
      _ ← write_state statedb (Header.Number header);
      _ ← insert_block block;
      mret block
  end.
End mining.

(** ** Opening a chain *)
Section opening.
Context `{!Geth, !ChainStore}.

Definition NewDB (dataDir : bytes) : res Database :=
  if bool_decide (dataDir = []) then Ok NewMemoryDatabase else NewLevelDBDatabase dataDir.

Definition LoadGenesisConfig (path : bytes) : res Genesis :=
  file ← wrap_err "failed to read genesis file" (os_Open path);
  wrap_err "invalid genesis file" (decode_genesis file).

(** The state is the database. *)
Definition NewMockChain (genesisPath : bytes) : M Database MockChain :=
  genesis ← lift (LoadGenesisConfig genesisPath);
  db ← get;
  let stored := ReadCanonicalHash db 0 in
  _ ← (if bool_decide (stored = zeros 32)
       then let '(db, err) := genesis_Commit genesis db in
            _ ← put db;
            match err with Some e => fail e | None => mret tt end
       else mret tt);
  db ← get;
  bc ← lift (NewBlockChain db (genesis_Config genesis));
  mret (mk_chain bc db (genesis_Config genesis) (genesis_GasLimit genesis)).
End opening.

Section chain_reads.
Context `{!Geth}.
Definition Head (c : MockChain) : bytes := block_Hash (CurrentBlock (chain c)).
Definition CurrentTd (c : MockChain) : option Z :=
  GetTd (chain c) (Head c) (wrap64 (Header.Number (CurrentHeader (chain c)))).
End chain_reads.

(** What the prologue relies on of a proof-of-work engine: [Prepare] sets a
    positive difficulty, and assembling and sealing keep the fields that place the
    block in the chain. *)
Definition with_difficulty (h : Header.t) (d : Z) : Header.t :=
  Header.mk (Header.ParentHash h) (Header.UncleHash h) (Header.Coinbase h) (Header.Root h)
    (Header.TxHash h) (Header.ReceiptHash h) (Header.Bloom h) d (Header.Number h)
    (Header.GasLimit h) (Header.GasUsed h) (Header.Time h) (Header.Extra h)
    (Header.MixDigest h) (Header.Nonce h) (Header.BaseFee h).

Definition same_place (h h' : Header.t) : Prop :=
  Header.ParentHash h' = Header.ParentHash h ∧ Header.Number h' = Header.Number h ∧
  Header.Difficulty h' = Header.Difficulty h.

Class PoWLaws `{!Geth, !ConsensusEngine} : Prop := {
  pow_Prepare cfg bc h h' :
    engine_Prepare cfg bc h = Ok h' → ∃ d, 0 < d ∧ h' = with_difficulty h d;
  pow_Assemble cfg bc h sdb b sdb' :
    engine_FinalizeAndAssemble cfg bc h sdb [] [] [] = Ok (b, sdb') →
    same_place h (block_Header b);
  pow_Seal bc b b' :
    engine_Seal bc b false = Ok (Some b') → same_place (block_Header b) (block_Header b');
}.

(** ** Lemmas *)
Section lemmas.
Context `{!Geth}.

Lemma wrap_err_Ok {A} text (r : res A) a : wrap_err text r = Ok a → r = Ok a.
Proof. by destruct r. Qed.

Lemma panic_err_Ok {A} (r : res A) a : panic_err r = Ok a → r = Ok a.
Proof. by destruct r. Qed.

(** What the code reports for a header: nothing when it or its parent is known. *)
Definition header_result (bc : BlockChain) (h : Header.t) : option error :=
  let number := wrap64 (Header.Number h) in
  if bool_decide (is_Some (GetHeader bc (header_Hash h) number) ∨
                  is_Some (GetHeader bc (Header.ParentHash h) (wrap64 (number - 1))))
  then None else Some ErrUnknownAncestor.

Lemma VerifyHeader_result bc h : err_of (VerifyHeader bc h) = Ok (header_result bc h).
Proof.
  unfold VerifyHeader, header_result.
  destruct (GetHeader bc (header_Hash h) _) eqn:E1.
  - by rewrite bool_decide_true by (left; eauto).
  - destruct (GetHeader bc (Header.ParentHash h) _) eqn:E2.
    + by rewrite bool_decide_true by (right; eauto).
    + rewrite bool_decide_false; [done|]. by intros [[x Hx]|[x Hx]].
Qed.

(** The number of headers verified before the signal to abort is taken. *)
Fixpoint before_abort (aborts : list bool) (n : nat) : nat :=
  match n, aborts with
  | O, _ | _, true :: _ => O
  | S n, _ => S (before_abort (tail aborts) n)
  end.

Lemma VerifyHeaders_eq bc headers seals aborts out :
  length seals = length headers →
  VerifyHeaders bc headers seals aborts out
  = (out ++ take (before_abort aborts (length headers)) (header_result bc <$> headers), Ok tt).
Proof.
  revert seals aborts out. induction headers as [|h headers IH]; intros seals aborts out Hlen.
  - cbn. by rewrite app_nil_r.
  - destruct seals as [|s seals]; [done|]. cbn [VerifyHeaders]. rewrite M_bind_eq.
    unfold lift at 1. rewrite VerifyHeader_result.
    destruct aborts as [|[] aborts]; cbn [head from_option id].
    2:{ cbn. by rewrite app_nil_r. }
    all: mrun; rewrite IH by (by injection Hlen); cbn; by rewrite <- app_assoc.
Qed.
End lemmas.

(** A mined block: its place in the chain, and its insertion. *)
Lemma MineBlock_Ok_inv `{!Geth, !ConsensusEngine, !PoWLaws} parent c c' b :
  MineBlock parent c = (c', Ok b) →
  Header.ParentHash (block_Header b) = header_Hash parent ∧
  Header.Number (block_Header b) = Header.Number parent + 1 ∧
  0 < Header.Difficulty (block_Header b) ∧
  config c' = config c ∧ gspec_GasLimit c' = gspec_GasLimit c ∧
  ∃ db, InsertChain (chain c) db b = (chain c', database c', None).
Proof.
  unfold MineBlock. mrun.
  set (h0 := Header.mk _ _ _ _ _ _ _ _ _ _ _ _ _ _ _ _).
  destruct (london_rules_fields (config c) parent h0) as (Hp & _ & _ & Hn & _).
  destruct (wrap_err _ (engine_Prepare _ _ _)) as [h1|e|] eqn:Hprep; [|done..].
  apply wrap_err_Ok, pow_Prepare in Hprep as (d & Hd & ->). mrun.
  destruct (panic_err (state_New _ _)) as [sdb|e|]; [|done..]. mrun.
  destruct (wrap_err _ (engine_FinalizeAndAssemble _ _ _ _ _ _ _)) as [[b0 sdb']|e|] eqn:Ha;
    [|done..].
  apply wrap_err_Ok, pow_Assemble in Ha as (Hap & Han & Had). mrun.
  destruct (panic_err (engine_Seal _ _ _)) as [[b1|]|e|] eqn:Hs; [|done..].
  apply panic_err_Ok, pow_Seal in Hs as (Hsp & Hsn & Hsd). intros Hrun.
  apply M_bind_Ok_inv in Hrun as (c1 & [] & Hw & Hrun).
  apply write_state_chain in Hw as (Hc & Hcfg & Hgas).
  apply M_bind_Ok_inv in Hrun as (c2 & [] & Hi & Hrun). injection Hrun as -> ->.
  revert Hi. unfold insert_block. mrun.
  destruct (InsertChain (chain c1) (database c1) b) as [[bc db] [e|]] eqn:E; mrun; [done|].
  intros [= <-]. cbn [chain database config gspec_GasLimit] in *.
  split; [|split; [|split; [|split; [done|split; [done|]]]]].
  - rewrite Hsp, Hap. cbn. rewrite Hp. reflexivity.
  - rewrite Hsn, Han. cbn. rewrite Hn. reflexivity.
  - rewrite Hsd, Had. cbn. done.
  - exists (database c1). by rewrite <- Hc.
Qed.

(** ** Properties *)
Section properties.
Context `{!Geth, !GethLaws}.

(** The batch verification of headers reports, in order, nil for a header that is
    known or whose parent is, and an unknown ancestor otherwise, up to the header
    whose [select] takes the signal to abort. *)
Theorem verify_headers_spec bc headers seals aborts :
  length seals = length headers →
  VerifyHeaders bc headers seals aborts []
  = (take (before_abort aborts (length headers)) (header_result bc <$> headers), Ok tt).
Proof. apply (VerifyHeaders_eq _ _ _ _ []). Qed.

(** The mock engine seals only for a receiver that is already waiting, and the seal
    hash does not depend on what sealing clears. *)
Theorem seal_spec `{!Keccak} b waiting :
  Seal b waiting
  = Ok (if waiting then Some (block_WithSeal b (sealed (block_Header b))) else None) ∧
  SealHash (sealed (block_Header b)) = SealHash (block_Header b).
Proof. by destruct waiting. Qed.

(** Mining with the mock engine never produces a block: its [Seal] sends before
    [MineBlock] receives, so the receive times out, and the chain is untouched. *)
Theorem mock_mining_times_out parent c :
  ∃ r, @MineBlock _ ExecutionConsensusMock parent c = (c, r) ∧
    (∀ b, r ≠ Ok b) ∧
    (∀ p sdb, GetHeader (chain c) (header_Hash parent)
         (wrap64 (wrap64 (Header.Number parent + 1) - 1)) = Some p →
       state_New (Header.Root parent) (database c) = Ok sdb →
       r = Err (Errorf "sealing result timeout")).
Proof.
  unfold MineBlock. mrun. set (h0 := Header.mk _ _ _ _ _ _ _ _ _ _ _ _ _ _ _ _).
  destruct (london_rules_fields (config c) parent h0) as (Hp & _ & _ & Hn & _).
  cbn [engine_Prepare ExecutionConsensusMock]. unfold Prepare. rewrite Hp, Hn. cbn [h0 Header.ParentHash Header.Number].
  destruct (GetHeader (chain c) _ _) as [p|] eqn:Hg; [|by eexists]. cbn [wrap_err]. mrun.
  destruct (state_New _ _) as [sdb|e|] eqn:Hst; cbn [panic_err]; [|by eexists..]. mrun.
  cbn [engine_FinalizeAndAssemble engine_Seal ExecutionConsensusMock].
  unfold FinalizeAndAssemble, Finalize. destruct (IntermediateRoot _ _) as [rt sdb']. by eexists.
Qed.
End properties.
