(* ===== verification/P2p.v ===== *)
(** * The peer-to-peer connection

    [p2p/server.go]: the protocol handshake and the exchange of status messages by
    which the consensus mock peers with an execution client, to feed it the blocks
    of the proof-of-work prologue.  The encrypted transport and RLP are
    parameters. *)

From Stdlib Require Import Strings.Byte.
From S2P Require Import Prelude Geth Payload MockChain.
#[local] Open Scope Z_scope.
#[local] Open Scope go_scope.

(** ** Messages *)
Module Cap.
Record t := mk { Name : string; Version : Z }.
End Cap.

(** [Rest], the additional fields, is ignored by the code and left out. *)
Module Hello.
Record t := mk {
  Version : Z;
  Name2 : string;
  Caps : list Cap.t;
  ListenPort : Z;
  ID : bytes;
}.
End Hello.

(** [eth.StatusPacket]; an RLP integer is never nil. *)
Module StatusPacket.
Record t := mk {
  ProtocolVersion : Z;
  NetworkID : Z;
  TD : Z;
  Head : bytes;
  Genesis : bytes;
  ForkID : bytes;
}.
End StatusPacket.

(** The transport [rlpx] and the RLP codec of the messages; [conn_Read] gives the
    code and the payload of the next message.  A read or a write may fail at any
    time, also because the deadline the handshake sets has passed. *)
Class DevP2P `{!Geth} := {
  net : Type;
  net_Dial : bytes → res net;
  rlpx_Handshake : PrivateKey → net → net * option error;
  conn_Read : net → net * res (Z * bytes);
  conn_Write : Z → bytes → net → net * option error;
  SetSnappy : net → net;
  FromECDSAPub : PrivateKey → bytes;
  encode_hello : Hello.t → res bytes;
  decode_hello : bytes → res Hello.t;
  encode_status : StatusPacket.t → res bytes;
  decode_status : bytes → res StatusPacket.t;
  decode_disc_reason : bytes → res Z;
  encode_new_block : Block → option Z → res bytes;
  chain_Genesis_Hash : BlockChain → bytes;
  forkid_NewID : ChainConfig → bytes → Z → bytes;
}.

Section p2p.
Context `{!Geth, !DevP2P}.

Record Conn := mk_conn {
  wire : net;
  ourKey : PrivateKey;
  negotiatedProtoVersion : Z;
  ourHighestProtoVersion : Z;
  caps : list Cap.t;
}.

Definition with_wire (c : Conn) (n : net) : Conn :=
  mk_conn n (ourKey c) (negotiatedProtoVersion c) (ourHighestProtoVersion c) (caps c).
Definition with_negotiated (c : Conn) (v : Z) : Conn :=
  mk_conn (wire c) (ourKey c) v (ourHighestProtoVersion c) (caps c).

(** [if err != nil { return fmt.Errorf(text, err) }]. *)
Definition or_errorf {S A} (text : string) (m : M S A) : M S A := λ s,
  match m s with (s, Err _) => (s, Err (Errorf text)) | r => r end.

Definition Conn_Read : M Conn (Z * bytes) := λ c,
  let '(n, r) := conn_Read (wire c) in (with_wire c n, r).
Definition Conn_Write (code : Z) (payload : bytes) : M Conn unit := λ c,
  let '(n, err) := conn_Write code payload (wire c) in
  (with_wire c n, match err with Some e => Err e | None => Ok tt end).
Definition Conn_SetSnappy : M Conn unit := λ c, (with_wire c (SetSnappy (wire c)), Ok tt).

(** [Write] and [Write66] encode a message and send it under a code; [payload] is
    the message's encoding. *)
Definition Write66 (payload : res bytes) (code : Z) : M Conn unit :=
  payload ← lift payload;
  Conn_Write code payload.
Definition Write (payload : res bytes) (kind : Z) : M Conn unit :=
  payload ← lift payload;
  Conn_Write kind payload.

(** The key is fresh; an error of its generation is dropped. *)
Definition Dial (address : bytes) (key : PrivateKey) : res Conn :=
  fd ← net_Dial address;
  match rlpx_Handshake key fd with
  | (_, Some e) => Err e
  | (n, None) => Ok (mk_conn n key 0 66 [Cap.mk "eth" 66])
  end.

(** The loop of [negotiateEthProtocol]. *)
Fixpoint highest_version (ours : Z) (cs : list Cap.t) (highestEthVersion : Z) : Z :=
  match cs with
  | [] => highestEthVersion
  | capability :: cs =>
      if negb (String.eqb (Cap.Name capability) "eth") then highest_version ours cs highestEthVersion
      else
        highest_version ours cs
          (if (highestEthVersion <? Cap.Version capability) && (Cap.Version capability <=? ours)
           then Cap.Version capability else highestEthVersion)
  end.

Definition negotiateEthProtocol (cs : list Cap.t) : M Conn unit := λ c,
  (with_negotiated c (highest_version (ourHighestProtoVersion c) cs 0), Ok tt).

Definition handshake : M Conn unit :=
  c ← get;
  pub0 ← lift (slice_from (FromECDSAPub (ourKey c)) 1);
  let ourHandshake := Hello.mk 5 "mergemock" (caps c) 0 pub0 in
  _ ← or_errorf "write to connection failed" (Write (encode_hello ourHandshake) 0);
  '(code, raw) ← or_errorf "fail to read msg from peer" Conn_Read;
  if code =? 0 then
    msg ← or_errorf "could not rlp decode message" (lift (decode_hello raw));
    _ ← (if 5 <=? Hello.Version msg then Conn_SetSnappy else mret tt);
    _ ← negotiateEthProtocol (Hello.Caps msg);
    c ← get;
    if negotiatedProtoVersion c =? 0 then fail (Errorf "unexpected eth protocol version")
    else mret tt
  else fail (Errorf "bad handshake").

(** The status message the code builds when it is given none; [cfg] is
    [chain.Config()]. *)
Definition default_status (cfg : ChainConfig) (chain : BlockChain) (c : Conn)
    : res StatusPacket.t :=
  let head := CurrentHeader chain in
  td ← deref (GetTd chain (header_Hash head) (wrap64 (Header.Number head)));
  Ok (StatusPacket.mk (negotiatedProtoVersion c mod 2 ^ 32) (wrap64 (ChainID cfg)) td
        (header_Hash head) (chain_Genesis_Hash chain)
        (forkid_NewID cfg (chain_Genesis_Hash chain) (wrap64 (Header.Number head)))).

(** Every case of the loop's [switch] returns or breaks, so the loop reads one
    message. *)
Definition statusExchange (cfg : ChainConfig) (chain : BlockChain)
    (status : option StatusPacket.t) : M Conn (option StatusPacket.t) :=
  '(code, raw) ← or_errorf "fail to read msg from peer" Conn_Read;
  if code =? 16 then
    msg ← or_errorf "could not rlp decode message" (lift (decode_status raw));
    let head := CurrentHeader chain in
    if bool_decide (StatusPacket.Head msg ≠ header_Hash head)
    then fail (Errorf "wrong head block in status") else
    td ← lift (deref (GetTd chain (header_Hash head) (wrap64 (Header.Number head))));
    if negb (StatusPacket.TD msg =? td) then fail (Errorf "wrong TD in status") else
    c ← get;
    if negb (StatusPacket.ProtocolVersion msg =? ourHighestProtoVersion c mod 2 ^ 32)
    then fail (Errorf "wrong protocol version") else
    if negotiatedProtoVersion c =? 0
    then fail (Errorf "eth protocol version must be set in Conn") else
    status ← match status with
             | Some st => mret st
             | None => lift (default_status cfg chain c)
             end;
    _ ← or_errorf "write to connection failed" (Write66 (encode_status status) 16);
    mret (Some msg)
  else if code =? 1 then
    _ ← or_errorf "could not rlp decode message" (lift (decode_disc_reason raw));
    fail (Errorf "disconnect received")
  else if code =? 2 then
    _ ← Conn_Write 3 [];
    mret None
  else fail (Errorf "bad status message").

Definition Peer (cfg : ChainConfig) (chain : BlockChain) (status : option StatusPacket.t)
    : M Conn unit :=
  _ ← or_errorf "handshake failed" handshake;
  _ ← or_errorf "status exchange failed" (statusExchange cfg chain status);
  mret tt.

Definition Ping : M Conn unit := Conn_Write 2 [].

(** [KeepAlive] until its context is done, after a number of ticks: a failed ping
    is only logged. *)
Fixpoint KeepAlive (ticks : nat) : M Conn unit :=
  match ticks with
  | O => mret tt
  | S ticks => _ ← attempt Ping; KeepAlive ticks
  end.
End p2p.

(** ** Lemmas *)

(** The version the loop settles on, starting from [v]. *)
Lemma highest_version_spec ours cs v :
  v ≤ ours →
  let h := highest_version ours cs v in
  v ≤ h ≤ ours ∧
  (h = v ∨ Cap.mk "eth" h ∈ cs) ∧
  ∀ v', Cap.mk "eth" v' ∈ cs → v' ≤ ours → v' ≤ h.
Proof.
  revert v. induction cs as [|[name w] cs IH]; intros v Hv; cbn [highest_version].
  - split; [lia|]. split; [by left|]. intros v' Hin. by apply elem_of_nil in Hin.
  - cbn [Cap.Name Cap.Version]. destruct (String.eqb_spec name "eth") as [->|Hne]; cbn [negb].
    + set (v1 := if (v <? w) && (w <=? ours) then w else v).
      assert (v ≤ v1 ≤ ours ∧ (w ≤ ours → w ≤ v1) ∧ (v1 = v ∨ v1 = w)) as (Hr & Hw & Hor).
      { unfold v1. destruct (Z.ltb_spec v w), (Z.leb_spec w ours); cbn; lia. }
      destruct (IH v1 ltac:(lia)) as (Hb & Hin & Hmax). split; [lia|]. split.
      * destruct Hin as [Heq|Hin]; [|right; by constructor].
        destruct Hor as [Hv1|Hv1]; rewrite Hv1 in Heq at 2; [by left|].
        right. rewrite Heq. constructor.
      * intros v' Hv'. apply elem_of_cons in Hv' as [[= ->]|Hv']; [lia|by apply Hmax].
    + destruct (IH v Hv) as (Hb & Hin & Hmax). split; [done|]. split.
      * destruct Hin; [by left|right; by constructor].
      * intros v' Hv'. apply elem_of_cons in Hv' as [[= Hn _]|Hv']; [by subst|by apply Hmax].
Qed.

Lemma or_errorf_Ok_inv {S A} text (m : M S A) s s' a :
  or_errorf text m s = (s', Ok a) → m s = (s', Ok a).
Proof. unfold or_errorf. destruct (m s) as [s1 [?|?|]]; naive_solver. Qed.

Section conn.
Context `{!Geth, !DevP2P}.

Lemma Conn_Read_inv c c' a :
  Conn_Read c = (c', Ok a) → ∃ n, conn_Read (wire c) = (n, Ok a) ∧ c' = with_wire c n.
Proof. unfold Conn_Read. destruct (conn_Read (wire c)) as [n r]. naive_solver. Qed.

Lemma Conn_Write_inv code p c c' u :
  Conn_Write code p c = (c', Ok u) →
  ∃ n, conn_Write code p (wire c) = (n, None) ∧ c' = with_wire c n.
Proof.
  unfold Conn_Write. destruct (conn_Write code p (wire c)) as [n [e|]]; naive_solver.
Qed.

Lemma Write66_inv enc code c c' u :
  Write66 enc code c = (c', Ok u) →
  ∃ p n, enc = Ok p ∧ conn_Write code p (wire c) = (n, None) ∧ c' = with_wire c n.
Proof.
  unfold Write66. mrun. destruct enc as [p|e|]; [|done..]. intros Hrun.
  apply Conn_Write_inv in Hrun as (n & Hn & ->). eauto.
Qed.

(** A handshake that succeeds, step by step. *)
Lemma handshake_inv c c' u :
  handshake c = (c', Ok u) →
  ∃ hello n1 n2 raw msg,
    conn_Write 0 hello (wire c) = (n1, None) ∧
    conn_Read n1 = (n2, Ok (0, raw)) ∧ decode_hello raw = Ok msg ∧
    let v := highest_version (ourHighestProtoVersion c) (Hello.Caps msg) 0 in
    v ≠ 0 ∧
    c' = with_negotiated (with_wire c (if 5 <=? Hello.Version msg then SetSnappy n2 else n2)) v.
Proof.
  unfold handshake. intros Hrun.
  apply M_bind_Ok_inv in Hrun as (c0 & c1 & Hget & Hrun). injection Hget as <- <-.
  apply M_bind_Ok_inv in Hrun as (c0 & pub0 & Hget & Hrun). injection Hget as <- _.
  apply M_bind_Ok_inv in Hrun as (c1 & [] & Hw & Hrun). apply or_errorf_Ok_inv in Hw.
  apply Write66_inv in Hw as (hello & n1 & _ & Hw & ->).
  apply M_bind_Ok_inv in Hrun as (c2 & [code raw] & Hr & Hrun). apply or_errorf_Ok_inv in Hr.
  apply Conn_Read_inv in Hr as (n2 & Hr & ->).
  destruct (Z.eqb_spec code 0) as [->|]; [|done].
  apply M_bind_Ok_inv in Hrun as (c3 & msg & Hd & Hrun). apply or_errorf_Ok_inv in Hd.
  injection Hd as <- Hd. exists hello, n1, n2, raw, msg.
  split; [done|]. split; [done|]. split; [done|]. revert Hrun. mrun.
  set (v := highest_version (ourHighestProtoVersion c) (Hello.Caps msg) 0).
  unfold Conn_SetSnappy, negotiateEthProtocol.
  destruct (5 <=? Hello.Version msg); mrun;
    cbn [negotiatedProtoVersion with_negotiated ourHighestProtoVersion with_wire wire]; fold v;
    (destruct (Z.eqb_spec v 0); [done|]); intros [= <-]; done.
Qed.

(** An exchange of status messages that succeeds. *)
Lemma statusExchange_inv cfg chain c c' out :
  statusExchange cfg chain None c = (c', Ok out) →
  ∃ n1 code raw, conn_Read (wire c) = (n1, Ok (code, raw)) ∧
    ((code = 2 ∧ out = None ∧ ∃ n2, conn_Write 3 [] n1 = (n2, None) ∧ c' = with_wire c n2) ∨
     (∃ msg ours p n2, code = 16 ∧ decode_status raw = Ok msg ∧ out = Some msg ∧
        StatusPacket.Head msg = header_Hash (CurrentHeader chain) ∧
        GetTd chain (header_Hash (CurrentHeader chain))
          (wrap64 (Header.Number (CurrentHeader chain))) = Some (StatusPacket.TD msg) ∧
        StatusPacket.ProtocolVersion msg = ourHighestProtoVersion c mod 2 ^ 32 ∧
        default_status cfg chain c = Ok ours ∧ encode_status ours = Ok p ∧
        conn_Write 16 p n1 = (n2, None) ∧ c' = with_wire c n2)).
Proof.
  unfold statusExchange. intros Hrun.
  apply M_bind_Ok_inv in Hrun as (c1 & [code raw] & Hr & Hrun). apply or_errorf_Ok_inv in Hr.
  apply Conn_Read_inv in Hr as (n1 & Hr & ->). exists n1, code, raw. split; [done|].
  destruct (Z.eqb_spec code 16) as [->|]; [right|destruct (Z.eqb_spec code 1); [|left]].
  - apply M_bind_Ok_inv in Hrun as (c2 & msg & Hd & Hrun). apply or_errorf_Ok_inv in Hd.
    injection Hd as <- Hd. case_bool_decide as Hh; [done|]. revert Hrun. mrun.
    destruct (GetTd chain _ _) as [td|] eqn:Htd; [|done]. mrun.
    destruct (Z.eqb_spec (StatusPacket.TD msg) td) as [<-|]; [|done]. mrun.
    cbn [ourHighestProtoVersion with_wire].
    destruct (Z.eqb_spec (StatusPacket.ProtocolVersion msg) (ourHighestProtoVersion c mod 2 ^ 32))
      as [Hv|]; [|done]. mrun. destruct (_ =? 0); [done|]. mrun.
    change (default_status cfg chain (with_wire c n1)) with (default_status cfg chain c).
    destruct (default_status cfg chain c) as [ours|e|]; [|done..].
    intros Hrun. apply (M_bind_Ok_inv (or_errorf _ _)) in Hrun as (c2 & [] & Hw & Hrun).
    injection Hrun as -> <-. apply or_errorf_Ok_inv, Write66_inv in Hw as (p & n2 & Hp & Hw & ->).
    exists msg, ours, p, n2. done.
  - by apply M_bind_Ok_inv in Hrun as (c2 & ? & _ & Hrun).
  - destruct (Z.eqb_spec code 2) as [->|]; [|done]. split; [done|].
    apply M_bind_Ok_inv in Hrun as (c2 & [] & Hw & Hrun). injection Hrun as -> <-.
    split; [done|]. by apply Conn_Write_inv in Hw as (n2 & Hw & ->); exists n2.
Qed.
End conn.

(** ** Properties *)
Section properties.
Context `{!Geth, !DevP2P}.

(** The negotiated version is the highest [eth] version of the peer that is not
    above ours, and zero when there is none; it does not depend on the order in
    which the peer lists its capabilities. *)
Theorem negotiate_spec cs c :
  0 ≤ ourHighestProtoVersion c →
  ∃ v, negotiateEthProtocol cs c = (with_negotiated c v, Ok tt) ∧
    0 ≤ v ≤ ourHighestProtoVersion c ∧
    (v = 0 ∨ Cap.mk "eth" v ∈ cs) ∧
    (∀ v', Cap.mk "eth" v' ∈ cs → v' ≤ ourHighestProtoVersion c → v' ≤ v) ∧
    (∀ cs', cs ≡ₚ cs' → negotiateEthProtocol cs' c = (with_negotiated c v, Ok tt)).
Proof.
  intros Ho. exists (highest_version (ourHighestProtoVersion c) cs 0). split; [done|].
  destruct (highest_version_spec (ourHighestProtoVersion c) cs 0 Ho) as (Hb & Hin & Hmax).
  split; [done|]. split; [done|]. split; [done|]. intros cs' Hperm.
  unfold negotiateEthProtocol. do 2 f_equal.
  destruct (highest_version_spec (ourHighestProtoVersion c) cs' 0 Ho) as (Hb' & Hin' & Hmax').
  apply Z.le_antisymm.
  - destruct Hin' as [->|Hin']; [lia|]. apply Hmax; [by rewrite Hperm|lia].
  - destruct Hin as [->|Hin]; [lia|]. apply Hmax'; [by rewrite <- Hperm|lia].
Qed.

(** C27: peering succeeds only after our hello was sent and a hello with a usable
    [eth] version received, and then in one of two ways: the peer's status has
    our head, our total difficulty and our own highest version, and our status was
    sent; or the peer's next message is a ping, which is answered with a pong, and
    no status is exchanged at all. *)
Theorem peer_spec cfg chain c c' :
  Peer cfg chain None c = (c', Ok tt) →
  ∃ hello n1 n2 raw msg n4 code raw',
    conn_Write 0 hello (wire c) = (n1, None) ∧
    conn_Read n1 = (n2, Ok (0, raw)) ∧ decode_hello raw = Ok msg ∧
    conn_Read (if 5 <=? Hello.Version msg then SetSnappy n2 else n2) = (n4, Ok (code, raw')) ∧
    negotiatedProtoVersion c'
    = highest_version (ourHighestProtoVersion c) (Hello.Caps msg) 0 ∧
    negotiatedProtoVersion c' ≠ 0 ∧
    ((code = 16 ∧ ∃ st ours p, decode_status raw' = Ok st ∧
        StatusPacket.Head st = header_Hash (CurrentHeader chain) ∧
        GetTd chain (header_Hash (CurrentHeader chain))
          (wrap64 (Header.Number (CurrentHeader chain))) = Some (StatusPacket.TD st) ∧
        StatusPacket.ProtocolVersion st = ourHighestProtoVersion c mod 2 ^ 32 ∧
        StatusPacket.ProtocolVersion ours = negotiatedProtoVersion c' mod 2 ^ 32 ∧
        encode_status ours = Ok p ∧ conn_Write 16 p n4 = (wire c', None)) ∨
     (code = 2 ∧ conn_Write 3 [] n4 = (wire c', None))).
Proof.
  unfold Peer. intros Hrun. apply M_bind_Ok_inv in Hrun as (c1 & [] & Hh & Hrun).
  apply or_errorf_Ok_inv, handshake_inv in Hh as (hello & n1 & n2 & raw & msg & Hw & Hr & Hd & Hv & ->).
  apply M_bind_Ok_inv in Hrun as (c2 & out & Hs & Hrun). injection Hrun as ->.
  apply or_errorf_Ok_inv, statusExchange_inv in Hs as (n4 & code & raw' & Hr2 & Hcase).
  exists hello, n1, n2, raw, msg, n4, code, raw'.
  split; [done|]. split; [done|]. split; [done|]. split; [done|].
  destruct Hcase as [(-> & _ & n5 & Hw5 & ->)
    |(st & ours & p & n5 & -> & Hst & _ & Hhead & Htd & Hpv & Hours & Hp & Hw5 & ->)].
  - do 2 (split; [done|]). by right.
  - do 2 (split; [done|]). left. split; [done|]. exists st, ours, p.
    revert Hours. unfold default_status. rewrite Htd. cbn [deref mbind res_bind].
    by intros [= <-].
Qed.
End properties.
