(* ===== verification/Cache.v ===== *)
(** * The interface of the LRU cache

    [github.com/hashicorp/golang-lru]: the cache [EngineBackend] keeps recent
    payloads in.  Its keys are Go interface values, here the sum of the two key
    types the program uses.  A cache is described by its entries, most recently
    used first. *)

From S2P Require Import Prelude.
#[local] Open Scope Z_scope.
#[local] Open Scope go_scope.

(** A key: a payload id or a block hash.  Keys of different dynamic types are
    different keys even if their bytes agree. *)
Inductive cache_key :=
  | KId (id : bytes)
  | KHash (h : bytes).

#[export] Instance cache_key_eq_dec : EqDecision cache_key.
Proof. solve_decision. Defined.

Class LRU := {
  Cache : Type → Type;
  lru_New : ∀ {V}, Z → res (Cache V);
  lru_Add : ∀ {V}, Cache V → cache_key → V → Cache V;
  (** a lookup refreshes the entry it finds *)
  lru_Get : ∀ {V}, Cache V → cache_key → option V * Cache V;
}.

(** Lookup, removal and insertion in a list of entries. *)
Section entries.
Context {V : Type}.
Implicit Types (es : list (cache_key * V)) (k : cache_key) (v : V).

Fixpoint find_entry es k : option V :=
  match es with
  | [] => None
  | (k', v) :: es => if decide (k = k') then Some v else find_entry es k
  end.

Definition remove_entry es k : list (cache_key * V) :=
  filter (λ e, e.1 ≠ k) es.

Definition add_entry (n : nat) es k v : list (cache_key * V) :=
  take n ((k, v) :: remove_entry es k).
End entries.

Class LRULaws `{!LRU} := {
  entries : ∀ {V}, Cache V → list (cache_key * V);
  capacity : ∀ {V}, Cache V → nat;
  lru_New_ok V n : 0 < n → ∃ c : Cache V,
    lru_New n = Ok c ∧ entries c = [] ∧ capacity c = Z.to_nat n;
  lru_Add_entries V (c : Cache V) k v :
    entries (lru_Add c k v) = add_entry (capacity c) (entries c) k v ∧
    capacity (lru_Add c k v) = capacity c;
  lru_Get_result V (c : Cache V) k : (lru_Get c k).1 = find_entry (entries c) k;
  lru_Get_entries V (c : Cache V) k :
    entries (lru_Get c k).2 =
      match find_entry (entries c) k with
      | Some v => (k, v) :: remove_entry (entries c) k
      | None => entries c
      end ∧
    capacity (lru_Get c k).2 = capacity c;
}.

Section entry_lemmas.
Context {V : Type}.
Implicit Types (es : list (cache_key * V)) (k : cache_key) (v : V).

Lemma find_entry_In es k v : find_entry es k = Some v → (k, v) ∈ es.
Proof.
  induction es as [|[k' v'] es IH]; cbn; [done|]. case_decide as Hk.
  - intros [= ->]. subst. by left.
  - intros H. right. by apply IH.
Qed.

Lemma find_remove_ne es k k' : k' ≠ k → find_entry (remove_entry es k) k' = find_entry es k'.
Proof.
  intros Hne. unfold remove_entry. induction es as [|[k0 v0] es IH]; [done|].
  rewrite filter_cons. cbn [fst]. case_decide as Hk; cbn [find_entry].
  - by rewrite IH.
  - subst k0. by rewrite decide_False.
Qed.

Lemma length_remove es k : (length (remove_entry es k) ≤ length es)%nat.
Proof. apply length_filter. Qed.

Lemma length_remove_found es k v :
  find_entry es k = Some v → (length (remove_entry es k) < length es)%nat.
Proof.
  unfold remove_entry. induction es as [|[k' v'] es IH]; cbn [find_entry]; [done|].
  rewrite filter_cons. cbn [fst length].
  destruct (decide (k = k')) as [->|Hne]; intros Hf.
  - rewrite decide_False by (intros H; by apply H).
    pose proof (length_remove es k'). unfold remove_entry in *. lia.
  - rewrite decide_True by done. cbn [length]. specialize (IH Hf). lia.
Qed.

Lemma In_remove es k e : e ∈ remove_entry es k → e ∈ es.
Proof. unfold remove_entry. rewrite list_elem_of_filter. by intros []. Qed.

Lemma In_add n es k v e : e ∈ add_entry n es k v → e = (k, v) ∨ e ∈ es.
Proof.
  unfold add_entry. intros He. apply elem_of_take in He as (i & Hi & _).
  apply list_elem_of_lookup_2 in Hi. apply elem_of_cons in Hi as [->|Hi]; [by left|].
  right. by eapply In_remove.
Qed.

Lemma length_add n es k v : (length (add_entry n es k v) ≤ n)%nat.
Proof. unfold add_entry. rewrite length_take. lia. Qed.

Lemma find_add n es k v : (0 < n)%nat → find_entry (add_entry n es k v) k = Some v.
Proof. intros Hn. unfold add_entry. destruct n; [lia|]. cbn. by rewrite decide_True. Qed.
End entry_lemmas.

(** The entry one before the last added is still there. *)
Lemma find_add_add {V} n (es : list (cache_key * V)) k v k' v' :
  (1 < n)%nat → k ≠ k' →
  find_entry (add_entry n (add_entry n es k v) k' v') k = Some v.
Proof.
  intros Hn Hne. unfold add_entry at 1. destruct n as [|n]; [lia|]. cbn [take].
  cbn [find_entry]. rewrite decide_False by done.
  unfold add_entry. cbn [take]. unfold remove_entry at 1. rewrite filter_cons.
  cbn [fst]. rewrite decide_True by done. destruct n as [|n]; [lia|]. cbn [take find_entry].
  by rewrite decide_True.
Qed.
