(* ===== verification/CacheRef.v ===== *)
(** * A cache that fulfils the LRU contract

    An executable instance of [LRU]: the entries, most recently used first, and
    the capacity. *)

From S2P Require Import Prelude Cache.
#[local] Open Scope Z_scope.
#[local] Open Scope go_scope.

Record list_cache (V : Type) := mk_cache { lc_entries : list (cache_key * V); lc_size : nat }.
Arguments mk_cache {V} _ _.
Arguments lc_entries {V} _.
Arguments lc_size {V} _.

#[export] Instance ref_lru : LRU := {
  Cache := list_cache;
  lru_New V n :=
    if 0 <? n then Ok (mk_cache [] (Z.to_nat n)) else Err (Lib "must provide a positive size");
  lru_Add V c k v := mk_cache (add_entry (lc_size c) (lc_entries c) k v) (lc_size c);
  lru_Get V c k :=
    match find_entry (lc_entries c) k with
    | Some v => (Some v, mk_cache ((k, v) :: remove_entry (lc_entries c) k) (lc_size c))
    | None => (None, c)
    end;
}.

#[export, refine] Instance ref_lru_laws : LRULaws := {
  entries V c := lc_entries c;
  capacity V c := lc_size c;
}.
Proof.
  - intros V n Hn. cbn. rewrite (proj2 (Z.ltb_lt 0 n)) by done. by eexists.
  - done.
  - intros V c k. cbn. by destruct (find_entry _ _).
  - intros V c k. cbn. by destruct (find_entry _ _).
Defined.
