(* ===== verification/Engine.v ===== *)
(** * The mock execution engine

    [engine.go] and the block conversion of [api/engine.go]: the engine API the
    mock serves on top of [MockChain], with its payload counter and its cache of
    recent payloads. *)

From S2P Require Import Prelude Numeral Geth Payload MockChain Cache.
#[local] Open Scope Z_scope.
#[local] Open Scope go_scope.

(** [api.UnavailablePayload]. *)
Definition UnavailablePayload : Z := -32001.

Section engine.
Context `{!Geth, !LRU}.

(** ** Blocks as payloads *)
Fixpoint encodeTransactions (txs : list Transaction) : res (list bytes) :=
  match txs with
  | [] => Ok []
  | tx :: txs =>
      txOpaque ← wrap_err "failed to encode tx" (tx_MarshalBinary tx);
      enc ← encodeTransactions txs;
      Ok (txOpaque :: enc)
  end.

Definition BlockToPayload (b : Block) : res ExecutionPayloadV1.t :=
  let h := block_Header b in
  let extra := Header.Extra h in
  if 32 <? len extra
  then Err (Errorf "eth2 merge spec limits extra data to 32 bytes in payload") else
  txs ← encodeTransactions (block_Transactions b);
  Ok (ExecutionPayloadV1.mk
        (Header.ParentHash h) (Header.Coinbase h) (Header.Root h) (Header.ReceiptHash h)
        (Header.Bloom h) (Header.MixDigest h) (wrap64 (Header.Number h)) (Header.GasLimit h)
        (Header.GasUsed h) (Header.Time h) extra (Header.BaseFee h) (block_Hash b) txs).

(** ** The backend *)
Record EngineBackend := mk_backend {
  mockChain : MockChain;
  payloadIdCounter : Z;
  recentPayloads : Cache ExecutionPayloadV1.t;
}.

Definition NewEngineBackend (mock : MockChain) : res EngineBackend :=
  cache ← lru_New 10;
  Ok (mk_backend mock 0 cache).

(** A computation on the chain, run on the backend's chain. *)
Definition on_chain {A} (m : M MockChain A) : M EngineBackend A := λ e,
  let '(c, r) := m (mockChain e) in
  (mk_backend c (payloadIdCounter e) (recentPayloads e), r).

(** [e.recentPayloads.Get(key)] and [Add]. *)
Definition cache_get (k : cache_key) : M EngineBackend (option ExecutionPayloadV1.t) := λ e,
  let '(v, c) := lru_Get (recentPayloads e) k in
  (mk_backend (mockChain e) (payloadIdCounter e) c, Ok v).
Definition cache_add (k : cache_key) (p : ExecutionPayloadV1.t) : M EngineBackend unit := λ e,
  (mk_backend (mockChain e) (payloadIdCounter e) (lru_Add (recentPayloads e) k p), Ok tt).

(** [atomic.AddUint64(&e.payloadIdCounter, 1)]. *)
Definition next_id : M EngineBackend Z := λ e,
  let id := wrap64 (payloadIdCounter e + 1) in
  (mk_backend (mockChain e) id (recentPayloads e), Ok id).

Definition GetPayloadV1 (id : bytes) : M EngineBackend ExecutionPayloadV1.t :=
  payload ← cache_get (KId id);
  match payload with
  | None => fail (Rpc UnavailablePayload "unknown payload")
  | Some payload => mret payload
  end.

Definition status (s : ExecutePayloadStatus) (h : option bytes) : PayloadStatusV1.t :=
  PayloadStatusV1.mk s h [].

Definition NewPayloadV1 (payload : option ExecutionPayloadV1.t)
    : M EngineBackend PayloadStatusV1.t :=
  payload ← lift (deref payload);
  ok ← lift (ValidateHash payload);
  if negb ok then mret (status ExecutionInvalidBlockHash None) else
  e ← get;
  match GetHeaderByHash (chain (mockChain e)) (ExecutionPayloadV1.ParentHash payload) with
  | None => mret (status ExecutionSyncing None)
  | Some parent =>
      ttd ← lift (deref (TerminalTotalDifficulty (config (mockChain e))));
      if Header.Difficulty parent <? ttd
      then mret (status ExecutionInvalidTerminalBlock None) else
      _ ← on_chain (ProcessPayload payload);
      mret (status ExecutionValid None)
  end.

Definition ForkchoiceUpdatedV1 (heads : option ForkchoiceStateV1.t)
    (attributes : option PayloadAttributesV1.t) : M EngineBackend ForkchoiceUpdatedResult.t :=
  heads ← lift (deref heads);
  let head := ForkchoiceStateV1.HeadBlockHash heads in
  match attributes with
  | None =>
      mret (ForkchoiceUpdatedResult.mk (status ExecutionValid (Some head)) None)
  | Some attributes =>
      idU64 ← next_id;
      let id := be_encode 8 idU64 in
      e ← get;
      let gasLimit := gspec_GasLimit (mockChain e) in
      let txsCreator := λ (_ : StateDB) (_ : Header.t), @nil Transaction in
      let extraData := [] in
      bl ← on_chain (AddNewBlock (BytesToHash head)
             (PayloadAttributesV1.SuggestedFeeRecipient attributes)
             (PayloadAttributesV1.Timestamp attributes) gasLimit txsCreator
             (PayloadAttributesV1.PrevRandao attributes) extraData [] false);
      payload ← lift (BlockToPayload bl);
      _ ← cache_add (KId id) payload;
      _ ← cache_add (KHash (ExecutionPayloadV1.ParentHash payload)) payload;
      mret (ForkchoiceUpdatedResult.mk (status ExecutionValid (Some head)) (Some id))
  end.
End engine.

(** ** Lemmas *)
Section lemmas.
Context `{!Geth, !GethLaws, !LRU, !LRULaws}.

Lemma on_chain_eq {A} (m : M MockChain A) e c r :
  m (mockChain e) = (c, r) →
  on_chain m e = (mk_backend c (payloadIdCounter e) (recentPayloads e), r).
Proof. unfold on_chain. by intros ->. Qed.

Lemma BlockToPayload_Ok b p :
  BlockToPayload b = Ok p →
  len (Header.Extra (block_Header b)) ≤ 32 ∧
  ExecutionPayloadV1.ParentHash p = Header.ParentHash (block_Header b) ∧
  ExecutionPayloadV1.FeeRecipient p = Header.Coinbase (block_Header b) ∧
  ExecutionPayloadV1.Random p = Header.MixDigest (block_Header b) ∧
  ExecutionPayloadV1.Timestamp p = Header.Time (block_Header b) ∧
  ExecutionPayloadV1.Number p = wrap64 (Header.Number (block_Header b)) ∧
  ExecutionPayloadV1.ExtraData p = Header.Extra (block_Header b) ∧
  ExecutionPayloadV1.BlockHash p = block_Hash b.
Proof.
  unfold BlockToPayload. destruct (Z.ltb_spec 32 (len (Header.Extra (block_Header b)))); [done|].
  destruct (encodeTransactions _); cbn; [intros [= <-]; cbn; tauto|done..].
Qed.

(** What a forkchoice update with attributes does: it draws the next id, builds
    a block, and, when that succeeds, files the payload under both keys. *)
Lemma ForkchoiceUpdatedV1_build heads attr e :
  let id := wrap64 (payloadIdCounter e + 1) in
  let head := ForkchoiceStateV1.HeadBlockHash heads in
  let build := AddNewBlock (BytesToHash head) (PayloadAttributesV1.SuggestedFeeRecipient attr)
    (PayloadAttributesV1.Timestamp attr) (gspec_GasLimit (mockChain e))
    (λ _ _, @nil Transaction) (PayloadAttributesV1.PrevRandao attr) [] [] false (mockChain e) in
  ForkchoiceUpdatedV1 (Some heads) (Some attr) e =
  match build with
  | (c, Ok bl) =>
      match BlockToPayload bl with
      | Ok p =>
          (mk_backend c id
             (lru_Add (lru_Add (recentPayloads e) (KId (be_encode 8 id)) p)
                (KHash (ExecutionPayloadV1.ParentHash p)) p),
           Ok (ForkchoiceUpdatedResult.mk (status ExecutionValid (Some head))
                 (Some (be_encode 8 id))))
      | Err err => (mk_backend c id (recentPayloads e), Err err)
      | Panic => (mk_backend c id (recentPayloads e), Panic)
      end
  | (c, Err err) => (mk_backend c id (recentPayloads e), Err err)
  | (c, Panic) => (mk_backend c id (recentPayloads e), Panic)
  end.
Proof.
  intros id head build. unfold ForkchoiceUpdatedV1. mrun.
  unfold next_id. mrun. fold id.
  destruct build as [c r] eqn:Hb. unfold build in Hb.
  erewrite on_chain_eq by exact Hb. destruct r as [bl|err|]; [|done..]. mrun.
  destruct (BlockToPayload bl) as [p|err|]; [|done..]. mrun. unfold cache_add. mrun.
  reflexivity.
Qed.
End lemmas.

(** ** Runs of the engine *)
Section runs.
Context `{!Geth, !GethLaws, !LRU, !LRULaws}.

(** One call, on a backend that has drawn [n] payload ids so far: the handlers of
    the engine API, and the relay's lookup by parent hash. *)
Inductive engine_step (n : Z) (e : EngineBackend) : Z → EngineBackend → Prop :=
  | step_get id : engine_step n e n (GetPayloadV1 id e).1
  | step_lookup k : engine_step n e n (cache_get k e).1
  | step_new p : engine_step n e n (NewPayloadV1 p e).1
  | step_forkchoice heads : engine_step n e n (ForkchoiceUpdatedV1 heads None e).1
  | step_build heads attr :
      engine_step n e (n + 1) (ForkchoiceUpdatedV1 (Some heads) (Some attr) e).1.

(** The states the engine reaches from its creation. *)
Inductive engine_run (mock : MockChain) : Z → EngineBackend → Prop :=
  | run_start e : NewEngineBackend mock = Ok e → engine_run mock 0 e
  | run_step n e n' e' : engine_run mock n e → engine_step n e n' e' → engine_run mock n' e'.

(** What an entry of the cache says about its payload, when [n] ids were drawn. *)
Definition entry_ok (n : Z) (kv : cache_key * ExecutionPayloadV1.t) : Prop :=
  match kv.1 with
  | KHash h => ExecutionPayloadV1.ParentHash kv.2 = h
  | KId id => ∃ m, 0 < m ≤ n ∧ id = be_encode 8 (wrap64 m)
  end ∧ len (ExecutionPayloadV1.ExtraData kv.2) ≤ 32.

Definition engine_inv (n : Z) (e : EngineBackend) : Prop :=
  0 ≤ n ∧ payloadIdCounter e = wrap64 n ∧
  capacity (recentPayloads e) = 10%nat ∧
  (length (entries (recentPayloads e)) ≤ 10)%nat ∧
  Forall (entry_ok n) (entries (recentPayloads e)).

Lemma engine_inv_frame n e e' :
  payloadIdCounter e' = payloadIdCounter e → recentPayloads e' = recentPayloads e →
  engine_inv n e → engine_inv n e'.
Proof. unfold engine_inv. by intros -> ->. Qed.

Lemma engine_inv_get n e k :
  engine_inv n e → engine_inv n (cache_get k e).1.
Proof.
  intros (Hn & Hc & Hcap & Hlen & HF). unfold cache_get.
  destruct (lru_Get (recentPayloads e) k) as [v c] eqn:E. cbn.
  destruct (lru_Get_entries _ (recentPayloads e) k) as [He Hcap']. rewrite E in He, Hcap'.
  cbn in He, Hcap'. unfold engine_inv. cbn. rewrite Hcap', He.
  destruct (find_entry _ k) as [p|] eqn:Hf; [|done].
  repeat (split; [done|]). split.
  - pose proof (length_remove_found _ _ _ Hf). cbn. lia.
  - apply Forall_cons. split.
    + by eapply Forall_forall; [|apply find_entry_In].
    + apply Forall_forall. intros kv Hkv. eapply Forall_forall; [exact HF|].
      by eapply In_remove.
Qed.

Lemma engine_inv_add n e k p :
  engine_inv n e → entry_ok n (k, p) → engine_inv n (cache_add k p e).1.
Proof.
  intros (Hn & Hc & Hcap & Hlen & HF) Hp. unfold cache_add, engine_inv. cbn.
  destruct (lru_Add_entries _ (recentPayloads e) k p) as [-> ->]. rewrite Hcap.
  repeat (split; [done|]). split; [apply length_add|].
  apply Forall_forall. intros kv Hkv. apply In_add in Hkv as [->|Hkv]; [done|].
  by eapply Forall_forall.
Qed.

Lemma wrap64_succ n : wrap64 (wrap64 n + 1) = wrap64 (n + 1).
Proof. unfold wrap64. by rewrite Z.add_mod_idemp_l. Qed.

Lemma engine_inv_next n e :
  engine_inv n e →
  engine_inv (n + 1) (mk_backend (mockChain e) (wrap64 (payloadIdCounter e + 1)) (recentPayloads e)).
Proof.
  intros (Hn & Hc & Hcap & Hlen & HF). unfold engine_inv. cbn. rewrite Hc, wrap64_succ.
  split; [lia|]. repeat (split; [done|]). eapply Forall_impl; [exact HF|].
  intros [[id|h] p] [Hk Hx]; (split; [|done]); cbn in *; [|done].
  destruct Hk as (m & Hm & ->). exists m. split; [lia|done].
Qed.

Lemma NewPayloadV1_frame p e :
  payloadIdCounter (NewPayloadV1 p e).1 = payloadIdCounter e ∧
  recentPayloads (NewPayloadV1 p e).1 = recentPayloads e.
Proof.
  unfold NewPayloadV1. mrun. destruct (deref p) as [q|err|]; [mrun|done..].
  destruct (ValidateHash q) as [[]|err|]; mrun; [|done..]. destruct (GetHeaderByHash _ _) as [parent|]; [mrun|done].
  destruct (deref _) as [ttd|err|]; [|done..].
  destruct (Header.Difficulty parent <? ttd); [done|]. mrun. unfold on_chain.
  by destruct (ProcessPayload q (mockChain e)) as [c [b|err|]].
Qed.

Lemma engine_step_inv n e n' e' : engine_inv n e → engine_step n e n' e' → engine_inv n' e'.
Proof.
  intros Hinv [id|k|p|heads|heads attr].
  - unfold GetPayloadV1. rewrite M_bind_eq.
    pose proof (engine_inv_get n e (KId id) Hinv) as Hg.
    destruct (cache_get (KId id) e) as [e1 [[q|]|err|]]; exact Hg.
  - by apply engine_inv_get.
  - destruct (NewPayloadV1_frame p e). by eapply engine_inv_frame.
  - by destruct heads.
  - rewrite ForkchoiceUpdatedV1_build. pose proof (engine_inv_next n e Hinv) as Hnext.
    destruct (AddNewBlock _ _ _ _ _ _ _ _ _ _) as [c [bl|err|]];
      [|by eapply engine_inv_frame; [| |exact Hnext]..].
    destruct (BlockToPayload bl) as [p|err|] eqn:Hp;
      [|by eapply engine_inv_frame; [| |exact Hnext]..].
    apply BlockToPayload_Ok in Hp as (Hx & Hph & _ & _ & _ & _ & Hex & _). cbn [fst].
    set (id := wrap64 (payloadIdCounter e + 1)) in *.
    pose (e1 := mk_backend c id (recentPayloads e)).
    assert (engine_inv (n + 1) e1) as Hi1 by (by eapply engine_inv_frame; [| |exact Hnext]).
    apply (engine_inv_add _ e1 (KId (be_encode 8 id)) p) in Hi1.
    + apply (engine_inv_add _ _ (KHash (ExecutionPayloadV1.ParentHash p)) p) in Hi1; [exact Hi1|].
      split; [done|]. cbn. by rewrite Hex.
    + destruct Hinv as (Hn & Hc & _). split; [|cbn; by rewrite Hex].
      exists (n + 1). split; [lia|]. unfold id. by rewrite Hc, wrap64_succ.
Qed.

Lemma engine_new_inv mock e : NewEngineBackend mock = Ok e → engine_inv 0 e.
Proof.
  unfold NewEngineBackend.
  destruct (lru_New_ok ExecutionPayloadV1.t 10) as (c & -> & Hes & Hcap); [done|].
  intros [= <-]. unfold engine_inv. cbn. rewrite Hes, Hcap.
  split; [lia|]. split; [done|]. split; [done|]. split; [cbn; lia|constructor].
Qed.
End runs.

(** ** Properties *)
Section properties.
Context `{!Geth, !GethLaws, !LRU, !LRULaws}.

(** C10: the status [NewPayloadV1] returns, branch by branch: a wrong block hash,
    an unknown parent and a parent below the terminal difficulty are answered
    without touching anything; otherwise the answer is VALID exactly when the
    payload was processed, and then the chain holds a header with the payload's
    hash, roots, gas and bloom, one above its parent. *)
Theorem new_payload_status e p vh ttd :
  ValidateHash p = Ok vh →
  TerminalTotalDifficulty (config (mockChain e)) = Some ttd →
  match vh, GetHeaderByHash (chain (mockChain e)) (ExecutionPayloadV1.ParentHash p) with
  | false, _ => NewPayloadV1 (Some p) e = (e, Ok (status ExecutionInvalidBlockHash None))
  | true, None => NewPayloadV1 (Some p) e = (e, Ok (status ExecutionSyncing None))
  | true, Some parent =>
      if Header.Difficulty parent <? ttd
      then NewPayloadV1 (Some p) e = (e, Ok (status ExecutionInvalidTerminalBlock None))
      else ∀ e' st, NewPayloadV1 (Some p) e = (e', Ok st) →
        st = status ExecutionValid None ∧
        recentPayloads e' = recentPayloads e ∧ payloadIdCounter e' = payloadIdCounter e ∧
        ∃ h, GetHeaderByHash (chain (mockChain e')) (ExecutionPayloadV1.BlockHash p) = Some h ∧
          Header.Number h = Header.Number parent + 1 ∧
          Header.Root h = ExecutionPayloadV1.StateRoot p ∧
          Header.ReceiptHash h = ExecutionPayloadV1.ReceiptsRoot p ∧
          Header.Bloom h = ExecutionPayloadV1.LogsBloom p ∧
          Header.GasUsed h = ExecutionPayloadV1.GasUsed p
  end.
Proof.
  intros Hvh Httd. destruct vh.
  - destruct (GetHeaderByHash (chain (mockChain e)) _) as [parent|] eqn:Hp.
    + destruct (Header.Difficulty parent <? ttd) eqn:Hd.
      * unfold NewPayloadV1. mrun. rewrite Hvh. mrun.
        rewrite Hp. mrun. rewrite Httd. mrun. by rewrite Hd.
      * intros e' st. unfold NewPayloadV1. mrun. rewrite Hvh. mrun.
        rewrite Hp. mrun. rewrite Httd. mrun. rewrite Hd. mrun. unfold on_chain.
        destruct (ProcessPayload p (mockChain e)) as [c [b|err|]] eqn:Hpp; intros [= <- <-].
        apply ProcessPayload_Ok_inv in Hpp as (pa & Hpa & _ & Hgu & Hrh & Hbl & Hrt & Hn & _ & Hf & _).
        rewrite Hp in Hpa. injection Hpa as ->. repeat (split; [done|]). by exists (block_Header b).
    + unfold NewPayloadV1. mrun. rewrite Hvh. mrun. by rewrite Hp.
  - unfold NewPayloadV1. mrun. by rewrite Hvh.
Qed.

(** C29: the check against the terminal difficulty reads the difficulty of the
    parent alone, and processed payloads have difficulty zero: with a positive
    terminal difficulty no payload is accepted on top of an accepted payload. *)
Theorem payload_on_payload_rejected e e1 st p q ttd :
  TerminalTotalDifficulty (config (mockChain e)) = Some ttd → 0 < ttd →
  NewPayloadV1 (Some p) e = (e1, Ok st) → PayloadStatusV1.Status st = ExecutionValid →
  ExecutionPayloadV1.ParentHash q = ExecutionPayloadV1.BlockHash p →
  ValidateHash q = Ok true →
  NewPayloadV1 (Some q) e1 = (e1, Ok (status ExecutionInvalidTerminalBlock None)).
Proof.
  intros Httd Hpos Hp Hst Hpar Hq.
  assert (∃ h, GetHeaderByHash (chain (mockChain e1)) (ExecutionPayloadV1.BlockHash p) = Some h ∧
    Header.Difficulty h = 0 ∧ config (mockChain e1) = config (mockChain e)) as (h & Hf & Hd & Hcfg).
  { revert Hp. unfold NewPayloadV1. mrun.
    destruct (ValidateHash p) as [[]|err|]; [mrun|by intros [= <- <-]|done..].
    destruct (GetHeaderByHash _ _) as [parent|]; [mrun|by intros [= <- <-]].
    destruct (deref _) as [t|err|]; [|done..].
    destruct (Header.Difficulty parent <? t); [by intros [= <- <-]|]. mrun. unfold on_chain.
    destruct (ProcessPayload p (mockChain e)) as [c [b|err|]] eqn:Hpp; intros [= <- <-].
    apply ProcessPayload_Ok_inv in Hpp as (pa & _ & _ & _ & _ & _ & _ & _ & Hd & Hf & Hcfg & _).
    by exists (block_Header b). }
  unfold NewPayloadV1. mrun. rewrite Hq. mrun.
  rewrite Hpar, Hf. mrun. rewrite Hcfg, Httd. mrun. by rewrite Hd, (proj2 (Z.ltb_lt 0 ttd)).
Qed.

(** C11: a forkchoice update that asks for a payload and succeeds names a fresh
    id; the chain is unchanged; the payload built extends the head with the
    requested attributes; [GetPayloadV1] returns it for that id, and it is filed
    under the head's hash for the relay. *)
Theorem forkchoice_builds_payload e e' heads attr r :
  len (ForkchoiceStateV1.HeadBlockHash heads) = 32 →
  (1 < capacity (recentPayloads e))%nat →
  ForkchoiceUpdatedV1 (Some heads) (Some attr) e = (e', Ok r) →
  ∃ id p parent,
    ForkchoiceUpdatedResult.PayloadID r = Some id ∧
    id = be_encode 8 (wrap64 (payloadIdCounter e + 1)) ∧
    GetHeaderByHash (chain (mockChain e)) (ForkchoiceStateV1.HeadBlockHash heads) = Some parent ∧
    chain (mockChain e') = chain (mockChain e) ∧
    ExecutionPayloadV1.ParentHash p = ForkchoiceStateV1.HeadBlockHash heads ∧
    ExecutionPayloadV1.FeeRecipient p = PayloadAttributesV1.SuggestedFeeRecipient attr ∧
    ExecutionPayloadV1.Timestamp p = PayloadAttributesV1.Timestamp attr ∧
    ExecutionPayloadV1.Number p = wrap64 (Header.Number parent + 1) ∧
    (GetPayloadV1 id e').2 = Ok p ∧
    (lru_Get (recentPayloads e') (KHash (ForkchoiceStateV1.HeadBlockHash heads))).1 = Some p.
Proof.
  intros Hlen Hcap. rewrite ForkchoiceUpdatedV1_build.
  set (head := ForkchoiceStateV1.HeadBlockHash heads) in *.
  assert (BytesToHash head = head) as ->.
  { rewrite BytesToHash_eq. unfold len in Hlen.
    replace (length head) with 32%nat by lia. done. }
  destruct (AddNewBlock _ _ _ _ _ _ _ _ _ _) as [c [bl|err|]] eqn:Hb; [|done..].
  apply AddNewBlock_inv in Hb as (Hc & _ & _ & Hbl).
  destruct (Hbl bl eq_refl) as (parent & Hpar & Hph & Hcb & Ht & _ & _ & _ & Hn & _).
  destruct (BlockToPayload bl) as [p|err|] eqn:Hp; [|done..].
  apply BlockToPayload_Ok in Hp as (_ & Hph' & Hfr & _ & Hts & Hnum & _ & _).
  intros [= <- <-]. set (id := wrap64 (payloadIdCounter e + 1)).
  exists (be_encode 8 id), p, parent. cbn [mockChain recentPayloads ForkchoiceUpdatedResult.PayloadID].
  assert (ExecutionPayloadV1.ParentHash p = head) as Hh by congruence. rewrite Hh.
  repeat (split; [first [done | congruence]|]).
  unfold GetPayloadV1. rewrite M_bind_eq. unfold cache_get. cbn [recentPayloads].
  assert (∀ k, find_entry (entries (lru_Add (lru_Add (recentPayloads e) (KId (be_encode 8 id)) p)
      (KHash head) p)) k = find_entry (add_entry (capacity (recentPayloads e))
      (add_entry (capacity (recentPayloads e)) (entries (recentPayloads e))
        (KId (be_encode 8 id)) p) (KHash head) p) k) as He.
  { intros k. destruct (lru_Add_entries _ (lru_Add (recentPayloads e) (KId (be_encode 8 id)) p)
      (KHash head) p) as [-> _].
    by destruct (lru_Add_entries _ (recentPayloads e) (KId (be_encode 8 id)) p) as [-> ->]. }
  split.
  - destruct (lru_Get _ (KId (be_encode 8 id))) as [v c'] eqn:Hg.
    pose proof (f_equal fst Hg) as Hv. rewrite lru_Get_result, He, find_add_add in Hv by done.
    cbn in Hv. by subst v.
  - rewrite lru_Get_result, He. apply find_add. lia.
Qed.

(** C12: in every state the engine reaches, whatever calls were made and however
    they ended, the cache holds at most ten payloads, each within the extra-data
    limit, filed under its own parent hash or under an id that was issued; the
    counter is the number of ids drawn, modulo 2^64. *)
Theorem engine_run_invariant mock n e : engine_run mock n e → engine_inv n e.
Proof.
  induction 1 as [e He|n e n' e' _ IH Hstep]; [|by eapply engine_step_inv].
  by eapply engine_new_inv.
Qed.
End properties.
