(* ===== verification/Http.v ===== *)
(** * HTTP responses and the logging middleware

    The part of [net/http] the relay's handlers use, and [utils.go]: the response
    writer that records the status code, and the middleware that logs a request
    and recovers a panic. *)

From S2P Require Import Prelude.
#[local] Open Scope Z_scope.
#[local] Open Scope go_scope.

Definition StatusOK : Z := 200.
Definition StatusBadRequest : Z := 400.
Definition StatusInternalServerError : Z := 500.

(** ** [http.ResponseWriter]

    The status line once it is sent, the content type sent with it, the body. *)
Record Response := mk_response {
  sent : option Z;
  content_type : option string;
  body : bytes;
}.
Definition empty_response : Response := mk_response None None [].

(** The first [WriteHeader] sends the status; later ones are ignored. *)
Definition WriteHeader (code : Z) (w : Response) : Response :=
  match sent w with
  | None => mk_response (Some code) (content_type w) (body w)
  | Some _ => w
  end.

(** [Write] sends status 200 if none was sent. *)
Definition Write (b : bytes) (w : Response) : Response :=
  let w := WriteHeader StatusOK w in
  mk_response (sent w) (content_type w) (body w ++ b).

(** Headers set after the status was sent are lost. *)
Definition SetContentType (t : string) (w : Response) : Response :=
  match sent w with
  | None => mk_response None (Some t) (body w)
  | Some _ => w
  end.

(** ** [responseWriter] *)
Record responseWriter := mk_writer {
  inner : Response;
  rw_status : Z;
  rw_wroteHeader : bool;
}.

Definition wrapResponseWriter (w : Response) : responseWriter := mk_writer w 0 false.

Definition Status (rw : responseWriter) : Z := rw_status rw.

Definition rw_WriteHeader (code : Z) (rw : responseWriter) : responseWriter :=
  if rw_wroteHeader rw then rw
  else mk_writer (WriteHeader code (inner rw)) code true.

(** The embedded writer's [Write] and [Header]. *)
Definition rw_Write (b : bytes) (rw : responseWriter) : responseWriter :=
  mk_writer (Write b (inner rw)) (rw_status rw) (rw_wroteHeader rw).
Definition rw_SetContentType (t : string) (rw : responseWriter) : responseWriter :=
  mk_writer (SetContentType t (inner rw)) (rw_status rw) (rw_wroteHeader rw).

(** The bytes of a message; [http.Error] ends it with a newline. *)
Definition text_bytes (s : string) : bytes := String.list_byte_of_string s.
Definition newline : bytes := [Byte.x0a].

Definition http_Error (msg : bytes) (code : Z) (rw : responseWriter) : responseWriter :=
  let rw := rw_SetContentType "text/plain; charset=utf-8" rw in
  let rw := rw_WriteHeader code rw in
  rw_Write (msg ++ newline) rw.

(** ** [LoggingMiddleware] *)

(** The line the middleware logs: the status it recorded, or the panic. *)
Inductive log_line :=
  | log_request (status : Z)
  | log_panic.

(** A handler runs on the server's state and the wrapped writer.  A panic is
    recovered: status 500 goes to the original writer, which shares what the
    handler sent, and the state stays as the handler left it. *)
Definition LoggingMiddleware {S} (next : M (S * responseWriter) unit) (s : S) (w : Response)
    : S * Response * log_line :=
  let wrapped := wrapResponseWriter w in
  match next (s, wrapped) with
  | ((s, rw), Panic) => (s, WriteHeader StatusInternalServerError (inner rw), log_panic)
  | ((s, rw), _) => (s, inner rw, log_request (Status rw))
  end.

(** ** Lemmas *)

(** A fresh request answered by [http.Error]. *)
Lemma http_Error_fresh msg code :
  http_Error msg code (wrapResponseWriter empty_response)
  = mk_writer (mk_response (Some code) (Some "text/plain; charset=utf-8"%string) (msg ++ newline))
      code true.
Proof. reflexivity. Qed.
