(* ===== verification/Relay.v ===== *)
(** * The mock builder relay

    [relay.go]: the HTTP handlers of the builder API on top of the engine's cache
    of recent payloads.  The JSON codec of the requests and responses is a
    parameter; the scalar types' own text methods are those of [Common]. *)

From Stdlib Require Import Strings.Byte.
From S2P Require Import Prelude Numeral BigInt Common Fastssz Hasher SszObject.
From S2P Require Import FixedContainers VarContainers BlockContainers Signing.
From S2P Require Import Geth Payload MockChain Cache Engine Http.
#[local] Open Scope Z_scope.
#[local] Open Scope go_scope.

(** ** Requests and responses *)
Module SignedValidatorRegistration.
Record t := mk {
  Message : option RegisterValidatorRequestMessage.t;
  Signature : bytes;
}.
End SignedValidatorRegistration.

Module SignedBlindedBeaconBlock.
Record t := mk {
  Message : option BlindedBeaconBlock.t;
  Signature : bytes;
}.
End SignedBlindedBeaconBlock.

Module GetHeaderResponse.
Record t := mk {
  Version : bytes;
  Data : option SignedBuilderBid.t;
}.
End GetHeaderResponse.

Module GetPayloadResponse.
Record t := mk {
  Version : bytes;
  Data : option ExecutionPayloadREST.t;
}.
End GetPayloadResponse.

(** [encoding/json] on the relay's requests and responses; [null] decodes to a nil
    block.  [version_Bellatrix] is prysm's constant of that name, [error_text]
    the [Error] method of an error value. *)
Class RelayCodec := {
  decode_registrations : bytes → res (list SignedValidatorRegistration.t);
  decode_block : bytes → res (option SignedBlindedBeaconBlock.t);
  encode_header_response : GetHeaderResponse.t → res bytes;
  encode_payload_response : GetPayloadResponse.t → res bytes;
  version_Bellatrix : Z;
  error_text : error → bytes;
}.

Definition errInvalidSlot : bytes := text_bytes "invalid slot".
Definition errInvalidHash : bytes := text_bytes "invalid hash".
Definition errInvalidPubkey : bytes := text_bytes "invalid pubkey".
Definition errInvalidSignature : bytes := text_bytes "invalid signature".
Definition errInvalidTimestamp : bytes := text_bytes "invalid timestamp".

(** [strconv.ParseInt(s, 10, 64)], of which only success is used. *)
Definition ParseInt_ok (s : bytes) : bool :=
  let '(neg, ds) :=
    match s with x2d :: ds => (true, ds) | x2b :: ds => (false, ds) | _ => (false, s) end in
  let v := foldl (λ v c, v * 10 + digit_value c) 0 ds in
  negb (len ds =? 0) && forallb (λ c, digit_value c <? 10) ds &&
  (if (neg : bool) then v <=? 2 ^ 63 else v <? 2 ^ 63).

Section relay.
Context `{!SSZ, !Hasher, !Hexutil, !BLS, !Geth, !LRU, !RelayCodec}.

Record RelayBackend := mk_relay {
  engine : EngineBackend;
  pk : bytes;
  sk : bls_secret_key;
  genesisValidatorsRoot : bytes;
  registrations : gmap bytes RegisterValidatorRequestMessage.t;
  latestPubkey : bytes;
}.

(** [engine] is the backend the engine's command creates when the relay runs it;
    the listen addresses are configuration of its servers. *)
Definition NewRelayBackend (engine : EngineBackend) (genesisValidatorsRoot secretKey : bytes)
    : res RelayBackend :=
  skBytes ← hex_DecodeString secretKey;
  sk ← SecretKeyFromBytes skBytes;
  let pk := copy (zeros 48) (pk_Marshal (sk_PublicKey sk)) in
  let registrations := ∅ in
  Ok (mk_relay engine pk sk (HexToHash genesisValidatorsRoot) registrations (zeros 48)).

(** ** Effects of the handlers *)
#[local] Notation Handler := (M (RelayBackend * responseWriter)).

Definition respond (f : responseWriter → responseWriter) : Handler unit := λ '(r, w), ((r, f w), Ok tt).
Definition bad_request (msg : bytes) : Handler unit := respond (http_Error msg StatusBadRequest).
Definition get_relay : Handler RelayBackend := λ s, (s, Ok s.1).

Definition set_registration (k : bytes) (m : RegisterValidatorRequestMessage.t) : Handler unit :=
  λ '(r, w),
  ((mk_relay (engine r) (pk r) (sk r) (genesisValidatorsRoot r)
      (<[k := m]> (registrations r)) (latestPubkey r), w), Ok tt).

Definition set_latestPubkey (p : bytes) : Handler unit := λ '(r, w),
  ((mk_relay (engine r) (pk r) (sk r) (genesisValidatorsRoot r) (registrations r) p, w), Ok tt).

(** [r.engine.backend.recentPayloads.Get(hash)]. *)
Definition recent_payload (h : bytes) : Handler (option ExecutionPayloadV1.t) := λ '(r, w),
  let '(e, v) := cache_get (KHash h) (engine r) in
  ((mk_relay e (pk r) (sk r) (genesisValidatorsRoot r) (registrations r) (latestPubkey r), w), v).

Definition ok_empty : Handler unit :=
  _ ← respond (rw_SetContentType "application/json");
  _ ← respond (rw_WriteHeader StatusOK);
  respond (rw_Write (text_bytes "{}")).

(** ** The handlers *)
Definition handleStatus : Handler unit := ok_empty.

(** One registration of the batch: [None] goes on, [Some msg] answers
    [http.Error(w, msg, 400)] and returns. *)
Definition register_one (reg : SignedValidatorRegistration.t) : Handler (option bytes) :=
  (* [len] of an array is a constant: neither guard looks at the value *)
  if negb (48 =? 48) then mret (Some errInvalidPubkey) else
  if negb (96 =? 96) then mret (Some errInvalidSignature) else
  m ← lift (deref (SignedValidatorRegistration.Message reg));
  domain ← lift DomainBuilder;
  match VerifySignature m domain (RegisterValidatorRequestMessage.Pubkey m)
          (SignedValidatorRegistration.Signature reg) with
  | Panic => lift Panic
  | Ok true =>
      r ← get_relay;
      match registrations r !! RegisterValidatorRequestMessage.Pubkey m with
      | Some prefs =>
          if RegisterValidatorRequestMessage.Timestamp prefs
             <=? RegisterValidatorRequestMessage.Timestamp m
          then mret (Some errInvalidTimestamp)
          else _ ← set_registration (RegisterValidatorRequestMessage.Pubkey m) m; mret None
      | None => _ ← set_registration (RegisterValidatorRequestMessage.Pubkey m) m; mret None
      end
  | _ => mret (Some errInvalidSignature)
  end.

Fixpoint register_all (payload : list SignedValidatorRegistration.t) : Handler (option bytes) :=
  match payload with
  | [] => mret None
  | reg :: payload =>
      r ← register_one reg;
      match r with Some msg => mret (Some msg) | None => register_all payload end
  end.

Definition handleRegisterValidator (req : bytes) : Handler unit :=
  match decode_registrations req with
  | Panic => lift Panic
  | Err e => bad_request (error_text e)
  | Ok payload =>
      r ← register_all payload;
      match r with
      | Some msg => bad_request msg
      | None => ok_empty
      end
  end.

(** [slot], [parentHashHex] and [pubkey] are the variables of the route. *)
Definition handleGetHeader (slot parentHashHex pubkey : bytes) : Handler unit :=
  if negb (ParseInt_ok slot) then bad_request errInvalidSlot else
  if negb (len pubkey =? 98) then bad_request errInvalidPubkey else
  if negb (len parentHashHex =? 66) then bad_request errInvalidHash else
  payload ← recent_payload (HexToHash parentHashHex);
  match payload with
  | None => bad_request (text_bytes "Cannot get unknown payload")
  | Some payload =>
  match PayloadToPayloadHeader payload with
  | Panic => lift Panic
  | Err _ => bad_request (text_bytes "cannot convert payload to header")
  | Ok payloadHeader =>
  r ← get_relay;
  let bid := BuilderBid.mk (Some payloadHeader) (x01 :: zeros 31) (pk r) in
  domain ← lift DomainBuilder;
  match ComputeSigningRoot bid domain with
  | Panic => lift Panic
  | Err _ => bad_request (text_bytes "cannot compute signing root")
  | Ok msg =>
  let tmp := sk_Sign (sk r) msg in
  let sig := copy (zeros 96) (sig_Marshal tmp) in
  let response := GetHeaderResponse.mk (text_bytes "bellatrix")
                    (Some (SignedBuilderBid.mk (Some bid) sig)) in
  let '(latest, err) := PublicKey.UnmarshalText (latestPubkey r) pubkey in
  _ ← set_latestPubkey latest;
  match err with
  | Some _ => bad_request (text_bytes "cannot unmarshal pubkey")
  | None =>
  _ ← respond (rw_SetContentType "application/json");
  match encode_header_response response with
  | Panic => lift Panic
  | Err e => respond (http_Error (error_text e) StatusInternalServerError)
  | Ok out =>
      _ ← respond (rw_Write out);
      respond (rw_WriteHeader StatusOK)
  end end end end end.

Definition handleGetPayload (req : bytes) : Handler unit :=
  match decode_block req with
  | Panic => lift Panic
  | Err e => bad_request (error_text e)
  | Ok payload =>
  (* [len] of an array is a constant *)
  if negb (96 =? 96) then bad_request errInvalidSignature else
  r ← get_relay;
  domain ← lift (ComputeDomain DomainTypeBeaconProposer version_Bellatrix
                   (Some (genesisValidatorsRoot r)));
  payload ← lift (deref payload);
  message ← lift (deref (SignedBlindedBeaconBlock.Message payload));
  match VerifySignature message domain (latestPubkey r)
          (SignedBlindedBeaconBlock.Signature payload) with
  | Panic => lift Panic
  | Ok true =>
  body ← lift (deref (BlindedBeaconBlock.Body message));
  header ← lift (deref (BlindedBeaconBlockBody.ExecutionPayloadHeader body));
  let parentHashHex := Hash.String (ExecutionPayloadHeader.ParentHash header) in
  execPayloadEL ← recent_payload (HexToHash parentHashHex);
  match execPayloadEL with
  | None => bad_request (text_bytes "Cannot get unknown payload")
  | Some execPayloadEL =>
  match ELPayloadToRESTPayload execPayloadEL with
  | Panic => lift Panic
  | Err _ => bad_request (text_bytes "cannot convert payload to payloadREST")
  | Ok execPayload =>
  let response := GetPayloadResponse.mk (text_bytes "bellatrix") (Some execPayload) in
  _ ← respond (rw_SetContentType "application/json");
  match encode_payload_response response with
  | Panic => lift Panic
  | Err e => respond (http_Error (error_text e) StatusInternalServerError)
  | Ok out => respond (rw_Write out)
  end end end
  | _ => bad_request errInvalidSignature
  end end.
End relay.

(** What the development relies on of the relay's codecs: responses can be
    encoded, prysm's version constant fits a [uint32], and the text of a hash
    converts back to it. *)
Class RelayCodecLaws `{!Hexutil, !Geth, !RelayCodec} : Prop := {
  encode_header_ok x : ∃ out, encode_header_response x = Ok out;
  encode_payload_ok x : ∃ out, encode_payload_response x = Ok out;
  version_range : u32 version_Bellatrix;
  HexToHash_text h : len h = 32 → HexToHash (Bytes_MarshalText h) = h;
}.

(** ** Lemmas *)
Section lemmas.
Context `{!SSZ, !SSZLaws, !Hasher, !HasherModel, !Hexutil, !BLS, !Geth, !LRU, !RelayCodec}.

(** The value of the package variable [DomainBuilder]. *)
Definition builder_domain : bytes := DomainTypeAppBuilder ++ take 28 (fork_root 0 None).

Lemma DomainBuilder_eq : DomainBuilder = Ok builder_domain.
Proof. by apply ComputeDomain_eq. Qed.

Lemma fork_root_len v g : len (fork_root v g) = 32.
Proof. apply (root_len (forkData.mk v (default (zeros 32) g))). Qed.

Lemma domain_len dt v g : len dt = 4 → len (dt ++ take 28 (fork_root v g)) = 32.
Proof.
  intros Hd. pose proof (fork_root_len v g). unfold len in *.
  rewrite length_app, length_take. lia.
Qed.

(** ** Registrations *)
Definition with_registrations (r : RelayBackend)
    (regs : gmap bytes RegisterValidatorRequestMessage.t) : RelayBackend :=
  mk_relay (engine r) (pk r) (sk r) (genesisValidatorsRoot r) regs (latestPubkey r).

(** A registration the code stores: its signature verifies, and it is strictly
    older than the registration its key has, if any. *)
Definition acceptable (regs : gmap bytes RegisterValidatorRequestMessage.t)
    (reg : SignedValidatorRegistration.t) (m : RegisterValidatorRequestMessage.t) : Prop :=
  SignedValidatorRegistration.Message reg = Some m ∧
  VerifySignature m builder_domain (RegisterValidatorRequestMessage.Pubkey m)
    (SignedValidatorRegistration.Signature reg) = Ok true ∧
  ∀ prefs, regs !! RegisterValidatorRequestMessage.Pubkey m = Some prefs →
    RegisterValidatorRequestMessage.Timestamp m < RegisterValidatorRequestMessage.Timestamp prefs.

(** The specification of a batch: registrations are stored in order up to the
    first one that is not acceptable; [rest] is what was not looked at. *)
Inductive batch_run : gmap bytes RegisterValidatorRequestMessage.t →
    list SignedValidatorRegistration.t → gmap bytes RegisterValidatorRequestMessage.t →
    list SignedValidatorRegistration.t → Prop :=
  | batch_done regs : batch_run regs [] regs []
  | batch_stop regs reg l :
      (∀ m, ¬ acceptable regs reg m) → batch_run regs (reg :: l) regs (reg :: l)
  | batch_step regs reg m l regs' rest :
      acceptable regs reg m →
      batch_run (<[RegisterValidatorRequestMessage.Pubkey m := m]> regs) l regs' rest →
      batch_run regs (reg :: l) regs' rest.

Context `{!BLSLaws}.

Lemma register_one_spec reg m r w :
  SignedValidatorRegistration.Message reg = Some m → wf m →
  (acceptable (registrations r) reg m ∧
   register_one reg (r, w)
   = ((with_registrations r
         (<[RegisterValidatorRequestMessage.Pubkey m := m]> (registrations r)), w), Ok None)) ∨
  (∃ msg, (∀ m', ¬ acceptable (registrations r) reg m') ∧
     register_one reg (r, w) = ((r, w), Ok (Some msg)) ∧
     (msg = errInvalidSignature ∨ msg = errInvalidTimestamp)).
Proof.
  intros Hm Hw. unfold register_one. change (48 =? 48) with true. change (96 =? 96) with true.
  rewrite Hm. mrun. rewrite DomainBuilder_eq. mrun.
  assert (len builder_domain = 32) as Hd by by apply domain_len.
  destruct (VerifySignature_total m builder_domain (RegisterValidatorRequestMessage.Pubkey m)
    (SignedValidatorRegistration.Signature reg) Hw Hd) as [Hv|Hv].
  - rewrite Hv. unfold get_relay, set_registration. mrun.
    destruct (registrations r !! RegisterValidatorRequestMessage.Pubkey m) as [prefs|] eqn:Hp.
    + destruct (Z.leb_spec (RegisterValidatorRequestMessage.Timestamp prefs)
        (RegisterValidatorRequestMessage.Timestamp m)) as [Hle|Hlt]; mrun.
      * right. exists errInvalidTimestamp. split; [|by auto].
        intros m' (Hm' & _ & Hts). simplify_eq. specialize (Hts prefs Hp). lia.
      * left. split; [|done]. split; [done|]. split; [done|]. intros q Hq. by simplify_eq.
    + left. split; [|done]. split; [done|]. split; [done|]. intros q Hq. congruence.
  - right. exists errInvalidSignature. split.
    + intros m' (Hm' & Hv' & _). simplify_eq. destruct Hv as [Hv|[e Hv]]; congruence.
    + destruct Hv as [Hv|[e Hv]]; rewrite Hv; mrun; auto.
Qed.

(** The loop of [handleRegisterValidator] runs the specification. *)
Lemma register_all_spec l r w :
  Forall (λ reg, ptr wf (SignedValidatorRegistration.Message reg)) l →
  ∃ regs' rest out,
    batch_run (registrations r) l regs' rest ∧
    register_all l (r, w) = ((with_registrations r regs', w), Ok out) ∧
    (out = None ↔ rest = []) ∧
    (∀ msg, out = Some msg → msg = errInvalidSignature ∨ msg = errInvalidTimestamp).
Proof.
  intros Hl. revert r. induction Hl as [|reg l Hreg Hl IH]; intros r.
  - exists (registrations r), [], None. split; [constructor|].
    split; [by destruct r|]. split; [done|by intros].
  - apply ptr_inv in Hreg as (m & Hm & Hw). cbn [register_all].
    destruct (register_one_spec reg m r w Hm Hw) as [[Hacc Hrun]|(msg & Hno & Hrun & Hmsg)].
    + destruct (IH (with_registrations r (<[RegisterValidatorRequestMessage.Pubkey m := m]>
        (registrations r)))) as (regs' & rest & out & Hb & Hr & Hout & Hmsg).
      exists regs', rest, out. split; [by apply (batch_step _ _ m)|]. split; [|done].
      rewrite M_bind_eq, Hrun. exact Hr.
    + exists (registrations r), (reg :: l), (Some msg). split; [by constructor|].
      split; [|split; [done|by intros ? [= <-]]]. rewrite M_bind_eq, Hrun. by destruct r.
Qed.
End lemmas.

(** A fresh request's writer. *)
Definition fresh : responseWriter := wrapResponseWriter empty_response.

(** The writer after a handler answered with a status and a JSON body, or with an
    error; the status logged is the one recorded by [WriteHeader]. *)
Definition json_answer (logged : Z) (wrote : bool) (out : bytes) : responseWriter :=
  mk_writer (mk_response (Some StatusOK) (Some "application/json"%string) out) logged wrote.
Definition error_answer (msg : bytes) : responseWriter :=
  mk_writer (mk_response (Some StatusBadRequest) (Some "text/plain; charset=utf-8"%string)
               (msg ++ newline)) StatusBadRequest true.

(** ** Properties of registration *)
Section registration.
Context `{!SSZ, !SSZLaws, !Hasher, !HasherModel, !Hexutil, !BLS, !BLSLaws, !Geth, !LRU,
  !RelayCodec}.

(** C7: a batch of registrations is processed in order up to the first one that
    is not acceptable; what was stored before stays stored.  The answer is 200
    with an empty object when the whole batch was accepted, and 400 otherwise. *)
Theorem register_batch_spec req l r :
  decode_registrations req = Ok l →
  Forall (λ reg, ptr wf (SignedValidatorRegistration.Message reg)) l →
  ∃ regs' rest,
    batch_run (registrations r) l regs' rest ∧
    ((rest = [] ∧ handleRegisterValidator req (r, fresh)
        = ((with_registrations r regs', json_answer StatusOK true (text_bytes "{}")), Ok tt)) ∨
     (∃ msg, rest ≠ [] ∧ (msg = errInvalidSignature ∨ msg = errInvalidTimestamp) ∧
        handleRegisterValidator req (r, fresh)
        = ((with_registrations r regs', error_answer msg), Ok tt))).
Proof.
  intros Hreq Hl. destruct (register_all_spec l r fresh Hl)
    as (regs' & rest & out & Hb & Hr & Hout & Hmsg).
  exists regs', rest. split; [done|]. unfold handleRegisterValidator. rewrite Hreq.
  rewrite M_bind_eq, Hr. destruct out as [msg|].
  - right. exists msg. split; [|split; [by apply Hmsg|reflexivity]].
    intros Hrest. by apply Hout in Hrest.
  - left. split; [by apply Hout|reflexivity].
Qed.

(** C28: for a key that is registered, a correctly signed registration with the
    same or a newer timestamp is refused and changes nothing, while a strictly
    older one is accepted and replaces the stored one. *)
Theorem newer_registration_refused req reg m prefs r :
  decode_registrations req = Ok [reg] →
  SignedValidatorRegistration.Message reg = Some m → wf m →
  VerifySignature m builder_domain (RegisterValidatorRequestMessage.Pubkey m)
    (SignedValidatorRegistration.Signature reg) = Ok true →
  registrations r !! RegisterValidatorRequestMessage.Pubkey m = Some prefs →
  handleRegisterValidator req (r, fresh)
  = if RegisterValidatorRequestMessage.Timestamp prefs
       <=? RegisterValidatorRequestMessage.Timestamp m
    then ((r, error_answer errInvalidTimestamp), Ok tt)
    else ((with_registrations r
             (<[RegisterValidatorRequestMessage.Pubkey m := m]> (registrations r)),
           json_answer StatusOK true (text_bytes "{}")), Ok tt).
Proof.
  intros Hreq Hm Hw Hv Hp. unfold handleRegisterValidator. rewrite Hreq. cbn [register_all].
  unfold register_one. change (48 =? 48) with true. change (96 =? 96) with true.
  rewrite Hm. mrun. rewrite DomainBuilder_eq. mrun. rewrite Hv.
  unfold get_relay, set_registration. mrun. rewrite Hp.
  by destruct (_ <=? _).
Qed.

(** A registration without a message panics; the middleware answers 500 and
    keeps every registration of the batch stored before it. *)
Theorem register_nil_message req l regs1 reg l2 r :
  decode_registrations req = Ok (l ++ reg :: l2) →
  Forall (λ reg, ptr wf (SignedValidatorRegistration.Message reg)) l →
  SignedValidatorRegistration.Message reg = None →
  batch_run (registrations r) l regs1 [] →
  LoggingMiddleware (handleRegisterValidator req) r empty_response
  = (with_registrations r regs1,
     mk_response (Some StatusInternalServerError) None [], log_panic).
Proof.
  intros Hreq Hl Hnil Hrun. unfold LoggingMiddleware, handleRegisterValidator. rewrite Hreq.
  rewrite M_bind_eq. fold fresh.
  assert (register_all (l ++ reg :: l2) (r, fresh)
          = ((with_registrations r regs1, fresh), Panic)) as ->; [|reflexivity].
  clear Hreq. remember [] as rest eqn:Hrest.
  remember (registrations r) as regs eqn:Hregs.
  revert r Hregs. induction Hrun as [regs|regs reg1 l Hno|regs reg1 m l regs' rest Hacc Hrun IH];
    intros r Hregs; [| |].
  - cbn [app register_all]. rewrite M_bind_eq. unfold register_one.
    change (48 =? 48) with true. change (96 =? 96) with true. rewrite Hnil. mrun.
    subst. by destruct r.
  - done.
  - apply Forall_cons in Hl as [H1' Hl]. destruct Hacc as (Hm & Hv & Hts).
    rewrite Hm in H1'. cbn [app register_all]. rewrite M_bind_eq.
    destruct (register_one_spec reg1 m r fresh Hm H1') as [[_ ->]|(msg & Hno & _)].
    + apply (IH Hl Hrest (with_registrations r _)). by rewrite Hregs.
    + destruct (Hno m). by rewrite <- Hregs.
Qed.
End registration.
