(* ===== verification/RelayServing.v ===== *)
(** * Serving headers and payloads

    The theorems about [handleGetHeader] and [handleGetPayload] of [Relay], alone
    and in sequence, and the invariant of a running relay. *)

From Stdlib Require Import Strings.Byte.
From S2P Require Import Prelude Numeral BigInt Common Fastssz Hasher SszObject.
From S2P Require Import FixedContainers VarContainers BlockContainers Signing.
From S2P Require Import Geth Payload MockChain Cache Engine Http Relay.
#[local] Open Scope Z_scope.
#[local] Open Scope go_scope.

(** ** The relay's state *)
Section state.
Context `{!SSZ, !SSZLaws, !Hasher, !HasherModel, !Hexutil, !BLS, !Geth, !LRU, !RelayCodec}.

Definition with_engine (r : RelayBackend) (e : EngineBackend) : RelayBackend :=
  mk_relay e (pk r) (sk r) (genesisValidatorsRoot r) (registrations r) (latestPubkey r).
Definition with_pubkey (r : RelayBackend) (p : bytes) : RelayBackend :=
  mk_relay (engine r) (pk r) (sk r) (genesisValidatorsRoot r) (registrations r) p.

(** The payload the engine has for a parent hash, and the relay after asking for
    it: a lookup refreshes the entry it finds. *)
Definition cached (r : RelayBackend) (h : bytes) : option ExecutionPayloadV1.t :=
  (lru_Get (recentPayloads (engine r)) (KHash h)).1.
Definition after_lookup (r : RelayBackend) (h : bytes) : RelayBackend :=
  with_engine r (cache_get (KHash h) (engine r)).1.

Lemma recent_payload_eq h r w :
  recent_payload h (r, w) = ((after_lookup r h, w), Ok (cached r h)).
Proof. unfold recent_payload, after_lookup, cached, cache_get. by destruct (lru_Get _ _). Qed.

Lemma cached_after_lookup `{!LRULaws} r h h' p :
  cached r h = Some p → cached (after_lookup r h') h = Some p.
Proof.
  unfold cached, after_lookup, with_engine, cache_get. intros Hp.
  destruct (lru_Get (recentPayloads (engine r)) (KHash h')) as [v c] eqn:E. cbn.
  rewrite lru_Get_result in *.
  destruct (lru_Get_entries _ (recentPayloads (engine r)) (KHash h')) as [He _].
  rewrite E in He. cbn in He. rewrite He.
  destruct (find_entry (entries (recentPayloads (engine r))) (KHash h')) as [q|] eqn:Hq; [|done].
  cbn [find_entry]. case_decide as Heq.
  - injection Heq as ->. congruence.
  - by rewrite find_remove_ne.
Qed.

(** The relay's key pair matches and its fixed-size fields have their sizes. *)
Definition keys_ok (r : RelayBackend) : Prop :=
  pk r = pk_Marshal (sk_PublicKey (sk r)) ∧ len (latestPubkey r) = 48 ∧
  len (genesisValidatorsRoot r) = 32.

(** The bid the relay makes on a header, and its signature. *)
Definition relay_bid (r : RelayBackend) (h : ExecutionPayloadHeader.t) : BuilderBid.t :=
  BuilderBid.mk (Some h) (x01 :: zeros 31) (pk r).
Definition bid_signature (r : RelayBackend) (h : ExecutionPayloadHeader.t) : bytes :=
  sig_Marshal (sk_Sign (sk r) (signing_root (relay_bid r h) builder_domain)).
Definition header_response (r : RelayBackend) (h : ExecutionPayloadHeader.t)
    : GetHeaderResponse.t :=
  GetHeaderResponse.mk (text_bytes "bellatrix")
    (Some (SignedBuilderBid.mk (Some (relay_bid r h)) (bid_signature r h))).

(** The domain of a proposer's signature. *)
Definition proposer_domain (r : RelayBackend) : bytes :=
  DomainTypeBeaconProposer ++ take 28 (fork_root version_Bellatrix (Some (genesisValidatorsRoot r))).
End state.
#[local] Transparent BuilderBid.spec.

(** ** The handlers on their success paths *)
Section lemmas.
Context `{!SSZ, !SSZLaws, !Hasher, !HasherModel, !Hexutil, !HexutilLaws, !BLS, !BLSLaws,
  !Geth, !GethLaws, !LRU, !LRULaws, !RelayCodec, !RelayCodecLaws}.

Lemma builder_domain_len : len builder_domain = 32.
Proof. by apply domain_len. Qed.

Lemma proposer_domain_eq r :
  keys_ok r →
  ComputeDomain DomainTypeBeaconProposer version_Bellatrix (Some (genesisValidatorsRoot r))
  = Ok (proposer_domain r) ∧ len (proposer_domain r) = 32.
Proof.
  intros (_ & _ & Hg). split; [|by apply domain_len].
  apply ComputeDomain_eq; [apply version_range|done|done].
Qed.

Lemma relay_bid_wf r h : keys_ok r → wf h → wf (relay_bid r h).
Proof. intros (Hpk & _) Hh. split; [done|]. split; [done|]. cbn. rewrite Hpk. apply bls_pk_len. Qed.

Lemma bid_signature_ok r h :
  keys_ok r → wf h → VerifySignature (relay_bid r h) builder_domain (pk r) (bid_signature r h) = Ok true.
Proof.
  intros Hk Hh. destruct (Hk) as (-> & _).
  by apply VerifySignature_sign; [apply relay_bid_wf|apply builder_domain_len].
Qed.

(** A request for a header the relay can answer. *)
Lemma handleGetHeader_run slot h P p fee r :
  ParseInt_ok slot = true → len h = 32 → len P = 48 → keys_ok r →
  cached r h = Some p →
  PayloadToPayloadHeader p = Ok (header_of p fee) → wf (header_of p fee) →
  ∃ out, encode_header_response (header_response r (header_of p fee)) = Ok out ∧
    handleGetHeader slot (Bytes_MarshalText h) (Bytes_MarshalText P) (r, fresh)
    = ((with_pubkey (after_lookup r h) P, json_answer StatusOK true out), Ok tt).
Proof.
  intros Hslot Hh HP Hk Hc Hconv Hwf.
  destruct (encode_header_ok (header_response r (header_of p fee))) as [out Hout].
  exists out. split; [done|]. unfold handleGetHeader. rewrite Hslot, !hex_len, HP, Hh.
  change (2 + 2 * 48 =? 98) with true. change (2 + 2 * 32 =? 66) with true. cbn [negb]. mrun.
  rewrite HexToHash_text by done. rewrite recent_payload_eq, Hc, Hconv.
  unfold get_relay. mrun. rewrite DomainBuilder_eq. mrun.
  change (BuilderBid.mk _ _ _) with (relay_bid r (header_of p fee)).
  rewrite ComputeSigningRoot_eq by (by apply relay_bid_wf || apply builder_domain_len).
  change (sk (after_lookup r h)) with (sk r). fold (bid_signature r (header_of p fee)).
  rewrite copy_same by apply bls_sig_len.
  change (latestPubkey (after_lookup r h)) with (latestPubkey r).
  rewrite PublicKey_text by (done || apply Hk). unfold set_latestPubkey, respond. mrun.
  change (GetHeaderResponse.mk _ _) with (header_response r (header_of p fee)). rewrite Hout.
  reflexivity.
Qed.

(** A signed block whose signature verifies. *)
Lemma handleGetPayload_run req b m body hd r :
  decode_block req = Ok (Some b) → SignedBlindedBeaconBlock.Message b = Some m →
  BlindedBeaconBlock.Body m = Some body →
  BlindedBeaconBlockBody.ExecutionPayloadHeader body = Some hd →
  len (ExecutionPayloadHeader.ParentHash hd) = 32 → keys_ok r →
  VerifySignature m (proposer_domain r) (latestPubkey r)
    (SignedBlindedBeaconBlock.Signature b) = Ok true →
  let h := ExecutionPayloadHeader.ParentHash hd in
  match cached r h with
  | None => handleGetPayload req (r, fresh)
      = ((after_lookup r h, error_answer (text_bytes "Cannot get unknown payload")), Ok tt)
  | Some p => ∀ rest, ELPayloadToRESTPayload p = Ok rest →
      ∃ out, encode_payload_response (GetPayloadResponse.mk (text_bytes "bellatrix") (Some rest))
             = Ok out ∧
        handleGetPayload req (r, fresh) = ((after_lookup r h, json_answer 0 false out), Ok tt)
  end.
Proof.
  intros Hreq Hm Hb Hhd Hlen Hk Hv h.
  assert (handleGetPayload req (r, fresh) = match cached r h with
    | None => ((after_lookup r h, error_answer (text_bytes "Cannot get unknown payload")), Ok tt)
    | Some p =>
      match ELPayloadToRESTPayload p with
      | Panic => ((after_lookup r h, fresh), Panic)
      | Err _ => ((after_lookup r h,
                   error_answer (text_bytes "cannot convert payload to payloadREST")), Ok tt)
      | Ok rest =>
        let w := rw_SetContentType "application/json" fresh in
        match encode_payload_response (GetPayloadResponse.mk (text_bytes "bellatrix") (Some rest)) with
        | Panic => ((after_lookup r h, w), Panic)
        | Err e => ((after_lookup r h,
                     http_Error (error_text e) StatusInternalServerError w), Ok tt)
        | Ok out => ((after_lookup r h, rw_Write out w), Ok tt)
        end
      end
    end) as Hrun.
  { unfold handleGetPayload. rewrite Hreq. change (96 =? 96) with true.
    unfold get_relay. mrun. destruct (proposer_domain_eq r Hk) as [-> _]. mrun. rewrite Hm. mrun.
    rewrite Hv. mrun. rewrite Hb. mrun. rewrite Hhd. mrun.
    unfold Hash.String. rewrite hex_string, HexToHash_text by done. fold h.
    rewrite recent_payload_eq. destruct (cached r h) as [p|]; [|reflexivity].
    destruct (ELPayloadToRESTPayload p); [|reflexivity..]. unfold respond. mrun.
    by destruct (encode_payload_response _). }
  destruct (cached r h) as [p|]; [|done]. intros rest Hrest. rewrite Hrun, Hrest.
  destruct (encode_payload_ok (GetPayloadResponse.mk (text_bytes "bellatrix") (Some rest)))
    as [out Hout]. exists out. by rewrite Hout.
Qed.
End lemmas.

(** ** Where the handlers leave the relay *)
Section handler_states.
Context `{!SSZ, !SSZLaws, !Hasher, !HasherModel, !Hexutil, !BLS, !Geth, !LRU, !RelayCodec}.

Lemma PublicKey_UnmarshalText_len p i : len (PublicKey.UnmarshalText p i).1 = len p.
Proof.
  unfold PublicKey.UnmarshalText. destruct (Bytes_UnmarshalText p i) as [b e].
  destruct (negb (len b =? 48)); [done|]. apply len_copy.
Qed.

Lemma handleGetHeader_state slot ph pub r w :
  let r' := (handleGetHeader slot ph pub (r, w)).1.1 in
  r' = r ∨ ∃ h, r' = after_lookup r h ∨
    ∃ P, len P = len (latestPubkey r) ∧ r' = with_pubkey (after_lookup r h) P.
Proof.
  intros r'. unfold r', handleGetHeader, bad_request, respond.
  destruct (negb (ParseInt_ok slot)); [by left|].
  destruct (negb (len pub =? 98)); [by left|]. destruct (negb (len ph =? 66)); [by left|].
  right. exists (HexToHash ph). rewrite M_bind_eq, recent_payload_eq.
  destruct (cached r (HexToHash ph)) as [p|]; [|by left].
  destruct (PayloadToPayloadHeader p) as [hd|e|]; [|by left..].
  unfold get_relay. mrun. rewrite DomainBuilder_eq. mrun.
  destruct (ComputeSigningRoot _ _) as [msg|e|]; [|by left..].
  pose proof (PublicKey_UnmarshalText_len (latestPubkey r) pub) as HP.
  change (latestPubkey (after_lookup r _)) with (latestPubkey r).
  destruct (PublicKey.UnmarshalText (latestPubkey r) pub) as [latest err].
  right. exists latest. split; [done|]. unfold set_latestPubkey. mrun.
  destruct err as [e|]; [done|]. mrun. by destruct (encode_header_response _).
Qed.

Lemma handleGetPayload_state req r w :
  let r' := (handleGetPayload req (r, w)).1.1 in
  r' = r ∨ ∃ h, r' = after_lookup r h.
Proof.
  intros r'. unfold r', handleGetPayload, bad_request, respond.
  destruct (decode_block req) as [b|e|]; [|by left..].
  change (96 =? 96) with true. unfold get_relay. mrun.
  destruct (ComputeDomain _ _ _) as [d|e|]; mrun; [|by left..].
  destruct (deref b) as [b'|e|]; mrun; [|by left..].
  destruct (deref (SignedBlindedBeaconBlock.Message b')) as [m|e|]; mrun; [|by left..].
  destruct (VerifySignature _ _ _ _) as [[]|e|]; [|by left..].
  destruct (BlindedBeaconBlock.Body m) as [body|]; mrun; [|by left].
  destruct (BlindedBeaconBlockBody.ExecutionPayloadHeader body) as [hd|]; mrun; [|by left].
  rewrite recent_payload_eq. right. eexists.
  destruct (cached r _) as [p|]; [|done].
  destruct (ELPayloadToRESTPayload p); [|done..]. mrun.
  by destruct (encode_payload_response _).
Qed.

(** A registration the relay holds is filed under its key and correctly signed. *)
Definition registered_ok (regs : gmap bytes RegisterValidatorRequestMessage.t) : Prop :=
  ∀ k m, regs !! k = Some m →
    RegisterValidatorRequestMessage.Pubkey m = k ∧
    ∃ sg, VerifySignature m builder_domain k sg = Ok true.

Lemma register_all_state l r w :
  registered_ok (registrations r) →
  ∃ regs, (register_all l (r, w)).1 = (with_registrations r regs, w) ∧ registered_ok regs.
Proof.
  revert r. induction l as [|reg l IH]; intros r Hok.
  { exists (registrations r). split; [by destruct r|done]. }
  assert (∃ out regs, register_one reg (r, w) = ((with_registrations r regs, w), out)
          ∧ registered_ok regs) as (out & regs & Hone & Hregs).
  { assert (with_registrations r (registrations r) = r) as Hr by (by destruct r).
    unfold register_one. change (48 =? 48) with true. change (96 =? 96) with true. cbn [negb].
    mrun. destruct (SignedValidatorRegistration.Message reg) as [m|]; mrun; [|exists Panic, (registrations r); by rewrite Hr].
    rewrite DomainBuilder_eq. mrun.
    destruct (VerifySignature m _ _ _) as [[]|e|] eqn:Hv.
    2-4: by eexists _, (registrations r); rewrite Hr.
    unfold get_relay. mrun.
    assert (registered_ok (<[RegisterValidatorRequestMessage.Pubkey m := m]> (registrations r))) as Hins.
    { intros k m' Hk. apply lookup_insert_Some in Hk as [[<- <-]|[_ Hk]]; [by eauto|by apply Hok]. }
    destruct (registrations r !! _) as [prefs|]; [case_match|].
    1: by eexists _, (registrations r); rewrite Hr.
    all: by eexists _, _. }
  cbn [register_all]. rewrite M_bind_eq, Hone. destruct out as [[msg|]|e|].
  2: destruct (IH (with_registrations r regs) Hregs) as (regs' & Hl & Hok'); exists regs'; by rewrite Hl.
  all: by exists regs.
Qed.

Lemma handleRegisterValidator_state req r w :
  registered_ok (registrations r) →
  ∃ regs, (handleRegisterValidator req (r, w)).1.1 = with_registrations r regs ∧ registered_ok regs.
Proof.
  intros Hok. unfold handleRegisterValidator, bad_request, respond.
  destruct (decode_registrations req) as [l|e|].
  2-3: exists (registrations r); split; [by destruct r|done].
  rewrite M_bind_eq. destruct (register_all_state l r w Hok) as (regs & Hl & Hregs).
  exists regs. split; [|done].
  destruct (register_all l (r, w)) as [s out]. cbn in Hl. subst s. by destruct out as [[msg|]|e|].
Qed.
End handler_states.

(** ** Runs of the relay *)
Section runs.
Context `{!SSZ, !SSZLaws, !Hasher, !HasherModel, !Hexutil, !BLS, !Geth, !GethLaws, !LRU,
  !LRULaws, !RelayCodec}.

(** One event, when the engine has drawn [n] payload ids: a request to one of the
    handlers, or a call to the engine behind the relay. *)
Inductive relay_step (n : Z) (r : RelayBackend) : Z → RelayBackend → Prop :=
  | relay_status w : relay_step n r n (handleStatus (r, w)).1.1
  | relay_register req w : relay_step n r n (handleRegisterValidator req (r, w)).1.1
  | relay_get_header slot ph pub w : relay_step n r n (handleGetHeader slot ph pub (r, w)).1.1
  | relay_get_payload req w : relay_step n r n (handleGetPayload req (r, w)).1.1
  | relay_engine n' e : engine_step n (engine r) n' e → relay_step n r n' (with_engine r e).

Inductive relay_run (mock : MockChain) (gvr key : bytes) : Z → RelayBackend → Prop :=
  | relay_start e r :
      NewEngineBackend mock = Ok e → NewRelayBackend e gvr key = Ok r →
      relay_run mock gvr key 0 r
  | relay_next n r n' r' :
      relay_run mock gvr key n r → relay_step n r n' r' → relay_run mock gvr key n' r'.

Definition relay_inv (n : Z) (sk0 : bls_secret_key) (r : RelayBackend) : Prop :=
  engine_inv n (engine r) ∧ keys_ok r ∧ sk r = sk0 ∧ registered_ok (registrations r).

Lemma relay_inv_lookup n sk0 r h : relay_inv n sk0 r → relay_inv n sk0 (after_lookup r h).
Proof. intros (He & Hk). split; [by apply engine_inv_get|exact Hk]. Qed.

Lemma relay_step_inv n sk0 r n' r' :
  relay_inv n sk0 r → relay_step n r n' r' → relay_inv n' sk0 r'.
Proof.
  intros Hinv [w|req w|slot ph pub w|req w|n'' e Hstep].
  - exact Hinv.
  - destruct Hinv as (He & Hk & Hsk & Hreg).
    destruct (handleRegisterValidator_state req r w Hreg) as (regs & -> & Hregs).
    by split; [|split; [|split]].
  - destruct (handleGetHeader_state slot ph pub r w) as [->|(h & [->|(P & HP & ->)])]; [done|..].
    + by apply relay_inv_lookup.
    + destruct (relay_inv_lookup _ _ _ h Hinv) as (He & (Hpk & Hl & Hg) & Hsk & Hreg).
      split; [done|]. split; [|done]. split; [done|]. split; [|done]. cbn. by rewrite HP.
  - destruct (handleGetPayload_state req r w) as [->|(h & ->)]; [done|].
    by apply relay_inv_lookup.
  - destruct Hinv as (He & Hk). split; [by eapply engine_step_inv|exact Hk].
Qed.
End runs.

(** ** Properties *)
Section properties.
Context `{!SSZ, !SSZLaws, !Hasher, !HasherModel, !Hexutil, !HexutilLaws, !BLS, !BLSLaws,
  !Geth, !GethLaws, !LRU, !LRULaws, !RelayCodec, !RelayCodecLaws}.

(** C8: asked for a header whose parent the engine built on, the relay answers
    200 with a bid on the header of the cached payload, signed in the builder
    domain with a signature that verifies under the key in the bid; it remembers
    the public key of the request and nothing else changes but the cache order. *)
Theorem get_header_spec slot h P p r :
  ParseInt_ok slot = true → len h = 32 → len P = 48 → keys_ok r →
  cached r h = Some p → ExecutionPayloadV1.Wf p →
  ∃ hd sg out,
    let bid := BuilderBid.mk (Some hd) (x01 :: zeros 31) (pk r) in
    PayloadToPayloadHeader p = Ok hd ∧ wf bid ∧
    VerifySignature bid builder_domain (pk r) sg = Ok true ∧
    encode_header_response (GetHeaderResponse.mk (text_bytes "bellatrix")
      (Some (SignedBuilderBid.mk (Some bid) sg))) = Ok out ∧
    handleGetHeader slot (Bytes_MarshalText h) (Bytes_MarshalText P) (r, fresh)
    = ((with_pubkey (after_lookup r h) P, json_answer StatusOK true out), Ok tt).
Proof.
  intros Hslot Hh HP Hk Hc Hp.
  destruct (PayloadToPayloadHeader_ok p Hp) as (fee & _ & _ & Hconv & Hwf).
  destruct (handleGetHeader_run slot h P p fee r) as (out & Hout & Hrun); [done..|].
  exists (header_of p fee), (bid_signature r (header_of p fee)), out.
  split; [done|]. split; [by apply relay_bid_wf|]. split; [by apply bid_signature_ok|done].
Qed.

(** The requests for a header the relay refuses, in the order it checks: a
    slot that is no 64-bit integer, a public key or a hash whose text has the
    wrong length, and a parent no payload was built on; nothing but the cache is
    looked at, and the remembered public key stays. *)
Theorem get_header_rejects slot ph pub r :
  let run := handleGetHeader slot ph pub (r, fresh) in
  if negb (ParseInt_ok slot) then run = ((r, error_answer errInvalidSlot), Ok tt)
  else if negb (len pub =? 98) then run = ((r, error_answer errInvalidPubkey), Ok tt)
  else if negb (len ph =? 66) then run = ((r, error_answer errInvalidHash), Ok tt)
  else cached r (HexToHash ph) = None →
    run = ((after_lookup r (HexToHash ph),
            error_answer (text_bytes "Cannot get unknown payload")), Ok tt) ∧
    entries (recentPayloads (engine (after_lookup r (HexToHash ph))))
    = entries (recentPayloads (engine r)).
Proof.
  intros run. unfold run, handleGetHeader. destruct (negb (ParseInt_ok slot)); [done|].
  destruct (negb (len pub =? 98)); [done|]. destruct (negb (len ph =? 66)); [done|].
  intros Hc. rewrite M_bind_eq, recent_payload_eq, Hc. split; [done|].
  revert Hc. unfold cached, after_lookup, cache_get.
  pose proof (lru_Get_entries _ (recentPayloads (engine r)) (KHash (HexToHash ph))) as [He _].
  destruct (lru_Get _ _) as [v c] eqn:E. cbn in *. rewrite He. intros ->.
  pose proof (lru_Get_result _ (recentPayloads (engine r)) (KHash (HexToHash ph))) as Hres.
  rewrite E in Hres. cbn in Hres. by rewrite <- Hres.
Qed.

(** C9: a signed block is answered with the payload the engine has under the
    block's parent hash, whatever else its header says, provided the signature
    verifies in the proposer domain under the public key of the last header
    request; the client gets status 200, the middleware logs status 0.  A wrong
    signature and an unknown parent are answered 400. *)
Theorem get_payload_spec req b m body hd r :
  decode_block req = Ok (Some b) → SignedBlindedBeaconBlock.Message b = Some m → wf m →
  BlindedBeaconBlock.Body m = Some body →
  BlindedBeaconBlockBody.ExecutionPayloadHeader body = Some hd →
  len (ExecutionPayloadHeader.ParentHash hd) = 32 → keys_ok r →
  let run := handleGetPayload req (r, fresh) in
  let h := ExecutionPayloadHeader.ParentHash hd in
  if bool_decide (VerifySignature m (proposer_domain r) (latestPubkey r)
                    (SignedBlindedBeaconBlock.Signature b) = Ok true)
  then match cached r h with
       | None => run = ((after_lookup r h,
                         error_answer (text_bytes "Cannot get unknown payload")), Ok tt)
       | Some p => ExecutionPayloadV1.Wf p →
           ∃ rest out, ELPayloadToRESTPayload p = Ok rest ∧
             encode_payload_response (GetPayloadResponse.mk (text_bytes "bellatrix") (Some rest))
             = Ok out ∧
             run = ((after_lookup r h,
                     mk_writer (mk_response (Some StatusOK) (Some "application/json"%string) out)
                       0 false), Ok tt)
       end
  else run = ((r, error_answer errInvalidSignature), Ok tt).
Proof.
  intros Hreq Hm Hwf Hb Hhd Hlen Hk run h. case_bool_decide as Hv.
  - pose proof (handleGetPayload_run req b m body hd r Hreq Hm Hb Hhd Hlen Hk Hv) as Hrun.
    fold h run in Hrun. cbv zeta in Hrun. destruct (cached r h) as [p|]; [|done].
    intros Hp. destruct (ELPayload_roundtrip p Hp) as (rest & Hrest & _).
    destruct (Hrun rest Hrest) as (out & Hout & Heq). by exists rest, out.
  - destruct (proposer_domain_eq r Hk) as [Hd Hdl].
    destruct (VerifySignature_total m (proposer_domain r) (latestPubkey r)
      (SignedBlindedBeaconBlock.Signature b) Hwf Hdl) as [Ht|Hf]; [done|].
    unfold run, handleGetPayload. rewrite Hreq. change (96 =? 96) with true.
    unfold get_relay. mrun. rewrite Hd. mrun. rewrite Hm. mrun.
    by destruct Hf as [->|[e ->]].
Qed.

(** C6: the builder flow end to end: a validator that asks for a header, signs a
    block that carries it and sends the block back receives the very payload the
    header was made from, base fee included. *)
Theorem header_then_payload slot h vsk p r :
  let P := pk_Marshal (sk_PublicKey vsk) in
  ParseInt_ok slot = true → keys_ok r →
  cached r h = Some p → ExecutionPayloadV1.Wf p → ExecutionPayloadV1.ParentHash p = h →
  ∃ hd sg out1 r1,
    PayloadToPayloadHeader p = Ok hd ∧
    handleGetHeader slot (Bytes_MarshalText h) (Bytes_MarshalText P) (r, fresh)
    = ((r1, json_answer StatusOK true out1), Ok tt) ∧
    encode_header_response (GetHeaderResponse.mk (text_bytes "bellatrix")
      (Some (SignedBuilderBid.mk (Some (BuilderBid.mk (Some hd) (x01 :: zeros 31) (pk r))) sg)))
    = Ok out1 ∧
    ∀ req m body,
      wf m → BlindedBeaconBlock.Body m = Some body →
      BlindedBeaconBlockBody.ExecutionPayloadHeader body = Some hd →
      decode_block req = Ok (Some (SignedBlindedBeaconBlock.mk (Some m)
        (sig_Marshal (sk_Sign vsk (signing_root m (proposer_domain r)))))) →
      ∃ rest out2 r2,
        handleGetPayload req (r1, fresh) = ((r2, json_answer 0 false out2), Ok tt) ∧
        encode_payload_response (GetPayloadResponse.mk (text_bytes "bellatrix") (Some rest))
        = Ok out2 ∧
        RESTPayloadToELPayload rest = Ok p.
Proof.
  intros P Hslot Hk Hc Hp Hpar. assert (len h = 32) as Hh by (rewrite <- Hpar; apply Hp).
  destruct (PayloadToPayloadHeader_ok p Hp) as (fee & _ & _ & Hconv & Hwf).
  destruct (handleGetHeader_run slot h P p fee r) as (out & Hout & Hrun);
    [done..|apply bls_pk_len|done|done|done|done|].
  exists (header_of p fee), (bid_signature r (header_of p fee)), out, (with_pubkey (after_lookup r h) P).
  split; [done|]. split; [done|]. split; [done|]. intros req m body Hm Hb Hhd Hreq.
  set (r1 := with_pubkey (after_lookup r h) P) in *.
  assert (keys_ok r1) as Hk1.
  { destruct Hk as (Hpk & Hl & Hg). split; [done|]. split; [apply bls_pk_len|done]. }
  destruct (proposer_domain_eq r Hk) as [_ Hdl].
  pose proof (VerifySignature_sign m (proposer_domain r) vsk Hm Hdl) as Hv.
  pose proof (handleGetPayload_run req _ m body _ r1 Hreq eq_refl Hb Hhd) as Hget.
  cbn [header_of ExecutionPayloadHeader.ParentHash] in Hget. rewrite Hpar in Hget.
  specialize (Hget Hh Hk1 Hv). cbv zeta in Hget.
  change (cached r1 h) with (cached (after_lookup r h) h) in Hget.
  rewrite (cached_after_lookup r h h p Hc) in Hget.
  destruct (ELPayload_roundtrip p Hp) as (rest & Hrest & Hback).
  destruct (Hget rest Hrest) as (out2 & Hout2 & Hrun2).
  by exists rest, out2, (after_lookup r1 h).
Qed.

(** C4: in every state the relay reaches, whatever requests it served and
    whatever the engine did in between, every registration is filed under its
    own key with a signature that verifies in the builder domain; the relay's
    public key is that of the secret key it was started with, the remembered key
    has 48 bytes, and the engine's cache keeps its invariant. *)
Theorem relay_run_invariant mock gvr key n r :
  relay_run mock gvr key n r →
  ∃ b sk0, hex_DecodeString key = Ok b ∧ SecretKeyFromBytes b = Ok sk0 ∧ relay_inv n sk0 r.
Proof.
  induction 1 as [e r He Hr|n r n' r' _ (b & sk0 & Hb & Hsk & IH) Hstep];
    [|exists b, sk0; split; [done|split; [done|by eapply relay_step_inv]]].
  apply bind_Ok_inv in Hr as (b & Hb & Hr). apply bind_Ok_inv in Hr as (sk0 & Hsk & [= <-]).
  exists b, sk0. split; [done|]. split; [done|]. split; [|split; [|split; [done|]]].
  - by apply (engine_new_inv mock).
  - split; [|split; [done|apply HexToHash_len]].
    cbn. rewrite copy_same; [done|]. apply bls_pk_len.
  - intros k m Hk. cbn in Hk. by rewrite lookup_empty in Hk.
Qed.
End properties.
