(* ===== verification/Float64.v ===== *)
(** * [float64] and [int64]

    The machine arithmetic of the slot clock and of the mock's random behaviour:
    [float64] operations are those of the Standard Library's executable IEEE 754
    specification, with the functions of package [math] the program uses, and the
    rounding lemmas the bounds on reorg targets need. *)

From Stdlib Require Import Floats.SpecFloat.
From S2P Require Import Prelude.
#[local] Open Scope Z_scope.
#[local] Open Scope go_scope.

(** ** [int64] and [float64] *)
Definition wrap_int64 (z : Z) : Z := (z + 2 ^ 63) mod 2 ^ 64 - 2 ^ 63.

Definition float64_of_int (z : Z) : spec_float := binary_normalize 53 1024 z 0 false.
Definition float64_add : spec_float → spec_float → spec_float := SFadd 53 1024.
Definition float64_div : spec_float → spec_float → spec_float := SFdiv 53 1024.

Definition float64_sub : spec_float → spec_float → spec_float := SFsub 53 1024.
Definition float64_mul : spec_float → spec_float → spec_float := SFmul 53 1024.
Definition float64_lt : spec_float → spec_float → bool := SFltb.

Definition is_zero (f : spec_float) : bool := match f with S754_zero _ => true | _ => false end.
Definition is_nan (f : spec_float) : bool := match f with S754_nan => true | _ => false end.
Definition is_pos_inf (f : spec_float) : bool :=
  match f with S754_infinity s => negb s | _ => false end.

(** [math.Max]. *)
Definition math_Max (x y : spec_float) : spec_float :=
  if is_pos_inf x || is_pos_inf y then S754_infinity false
  else if is_nan x || is_nan y then S754_nan
  else if is_zero x && is_zero y then
    match x with S754_zero true => y | _ => x end
  else if float64_lt y x then x else y.

(** [math.Round], half away from zero, as the integer it gives. *)
Definition math_Round (f : spec_float) : option Z :=
  match f with
  | S754_zero _ => Some 0
  | S754_finite s m e =>
      let v := if 0 <=? e then Z.pos m * 2 ^ e
               else (Z.pos m + 2 ^ (- e - 1)) / 2 ^ (- e) in
      Some (if s then - v else v)
  | _ => None
  end.

(** The value of a float with its fraction discarded. *)
Definition truncate (f : spec_float) : option Z :=
  match f with
  | S754_zero _ => Some 0
  | S754_finite s m e =>
      let v := if 0 <=? e then Z.pos m * 2 ^ e else Z.pos m / 2 ^ (- e) in
      Some (if s then - v else v)
  | _ => None
  end.

(** What [uint64(f)] and [int64(f)] give when the truncated value is out of range:
    Go leaves it to the implementation. *)
Class Platform := {
  uint64_out_of_range : spec_float → Z;
  int64_out_of_range : spec_float → Z;
}.

Definition uint64_of_float64 `{!Platform} (f : spec_float) : Z :=
  match truncate f with
  | Some v => if (0 <=? v) && (v <? 2 ^ 64) then v else uint64_out_of_range f
  | None => uint64_out_of_range f
  end.

(** [int64(math.Round(f))]. *)
Definition int64_of_round `{!Platform} (f : spec_float) : Z :=
  match math_Round f with
  | Some v => if (- 2 ^ 63 <=? v) && (v <? 2 ^ 63) then v else int64_out_of_range f
  | None => int64_out_of_range f
  end.

(** ** Lemmas *)

(** The number of binary digits of a positive number. *)
Lemma digits2_pos_spec p :
  2 ^ (Z.pos (digits2_pos p) - 1) ≤ Z.pos p < 2 ^ Z.pos (digits2_pos p).
Proof.
  induction p as [p IH|p IH|]; cbn [digits2_pos]; [| |lia].
  all: rewrite Pos2Z.inj_succ; unfold Z.succ.
  all: replace (Z.pos (digits2_pos p) + 1 - 1) with (Z.pos (digits2_pos p)) by lia.
  all: rewrite Z.pow_add_r by lia; change (2 ^ 1) with 2.
  all: replace (2 ^ Z.pos (digits2_pos p)) with (2 * 2 ^ (Z.pos (digits2_pos p) - 1)) in *
    by (rewrite <- Z.pow_succ_r by lia; f_equal; lia).
  all: rewrite ?Pos2Z.pos_xI, ?(Pos2Z.pos_xO p); lia.
Qed.

Lemma digits2_pos_unique p d :
  0 < d → 2 ^ (d - 1) ≤ Z.pos p < 2 ^ d → Z.pos (digits2_pos p) = d.
Proof.
  intros Hd Hp. pose proof (digits2_pos_spec p) as Hs.
  destruct (Z.lt_trichotomy (Z.pos (digits2_pos p)) d) as [H|[H|H]]; [|done|].
  - assert (2 ^ Z.pos (digits2_pos p) ≤ 2 ^ (d - 1)) by (apply Z.pow_le_mono_r; lia). lia.
  - assert (2 ^ d ≤ 2 ^ (Z.pos (digits2_pos p) - 1)) by (apply Z.pow_le_mono_r; lia). lia.
Qed.

(** A positive integer below 2^53 is a float, exactly. *)
Lemma float64_of_pos p :
  Z.pos p < 2 ^ 53 →
  ∃ m e, float64_of_int (Z.pos p) = S754_finite false m (- e) ∧ 0 ≤ e ∧
    Z.pos m = Z.pos p * 2 ^ e ∧ Z.pos (digits2_pos m) = 53.
Proof.
  intros Hp. pose proof (digits2_pos_spec p) as Hs.
  set (d := Z.pos (digits2_pos p)) in *. set (e := 53 - d).
  assert (0 < d) as Hd0 by lia.
  assert (d ≤ 53) as Hd.
  { destruct (Z.le_gt_cases d 53) as [|Hgt]; [done|].
    assert (2 ^ 53 ≤ 2 ^ (d - 1)) by (apply Z.pow_le_mono_r; lia). lia. }
  assert (∃ m, Z.pos m = Z.pos p * 2 ^ e ∧
    shl_align p 0 (fexp 53 1024 (Z.pos (digits2_pos p) + 0)) = (m, - e)) as (m & Hm & Hal).
  { fold d. unfold fexp, emin. rewrite Z.max_l by lia.
    unfold shl_align. replace (d + 0 - 53 - 0) with (- e) by lia.
    destruct (Z.eq_dec e 0) as [He|He].
    - exists p. rewrite He. split; [by rewrite Z.mul_1_r|done].
    - destruct e as [|e'|e'] eqn:Ee; [done| |lia]. exists (Pos.iter xO p e').
      split; [|cbn; f_equal; lia].
      clear. induction e' as [|e' IH] using Pos.peano_ind; [cbn; lia|].
      rewrite Pos.iter_succ, Pos2Z.inj_succ, Z.pow_succ_r by lia.
      rewrite (Pos2Z.pos_xO (Pos.iter _ _ _)), IH. ring. }
  exists m, e.
  assert (Z.pos (digits2_pos m) = 53) as Hdm.
  { apply digits2_pos_unique; [done|]. rewrite Hm.
    assert (2 ^ (53 - 1) = 2 ^ (d - 1) * 2 ^ e) as -> by (rewrite <- Z.pow_add_r by lia; f_equal; lia).
    assert (2 ^ 53 = 2 ^ d * 2 ^ e) as -> by (rewrite <- Z.pow_add_r by lia; f_equal; lia).
    assert (0 < 2 ^ e) by (apply Z.pow_pos_nonneg; lia). nia. }
  split; [|split; [lia|done]].
  assert (shr_fexp 53 1024 (Z.pos m) (- e) loc_Exact
          = ({| shr_m := Z.pos m; shr_r := false; shr_s := false |}, - e)) as Hshr.
  { unfold shr_fexp. cbn [Zdigits2 shr_record_of_loc]. rewrite Hdm. unfold fexp, emin.
    rewrite Z.max_l by lia. replace (53 + - e - 53 - - e) with 0 by lia. done. }
  unfold float64_of_int, binary_normalize, binary_round. rewrite Hal.
  unfold binary_round_aux. rewrite Hshr. cbn [shr_m loc_of_shr_record round_nearest_even].
  rewrite Hshr. cbn [shr_m]. by rewrite (proj2 (Z.leb_le _ _)) by lia.
Qed.

Lemma wrap_int64_id z : - 2 ^ 63 ≤ z < 2 ^ 63 → wrap_int64 z = z.
Proof. intros Hz. unfold wrap_int64. rewrite Z.mod_small by lia. lia. Qed.

(** ** Rounding *)

(** The record [mrs] holds [x] shifted right by [n] bits: the quotient, and whether
    the remainder is zero. *)
Definition shifted (x n : Z) (mrs : shr_record) : Prop :=
  ∃ rest, x = shr_m mrs * 2 ^ n + rest ∧ 0 ≤ rest < 2 ^ n ∧ 0 ≤ shr_m mrs ∧
    (shr_r mrs || shr_s mrs = true → rest ≠ 0).

Lemma shr_1_shifted x n mrs : 0 ≤ n → shifted x n mrs → shifted x (n + 1) (shr_1 mrs).
Proof.
  intros Hn (rest & Hx & Hr & Hm & Hi). destruct mrs as [m r s]. cbn [shr_m shr_r shr_s] in *.
  assert (0 < 2 ^ n) as Hp by (apply Z.pow_pos_nonneg; lia).
  unfold shifted. rewrite Z.pow_add_r, Z.pow_1_r by lia.
  destruct m as [|[p|p|]|]; [..|lia]; cbn [shr_1 shr_m shr_r shr_s orb].
  - exists rest. repeat split; try lia. intros H. by apply Hi.
  - exists (2 ^ n + rest). rewrite Pos2Z.pos_xI in Hx. repeat split; lia.
  - exists rest. rewrite (Pos2Z.pos_xO p) in Hx. repeat split; try lia. intros H. by apply Hi.
  - exists (2 ^ n + rest). repeat split; lia.
Qed.

Lemma iter_pos_shifted p x n mrs :
  0 ≤ n → shifted x n mrs → shifted x (n + Z.pos p) (SpecFloat.iter_pos shr_1 p mrs).
Proof.
  revert n mrs. induction p as [p IH|p IH|]; intros n mrs Hn H; cbn [SpecFloat.iter_pos].
  - apply (shr_1_shifted _ _ _ Hn) in H. apply IH in H; [|lia]. apply IH in H; [|lia].
    by replace (n + Z.pos p~1) with (n + 1 + Z.pos p + Z.pos p) by lia.
  - apply IH in H; [|lia]. apply IH in H; [|lia].
    by replace (n + Z.pos p~0) with (n + Z.pos p + Z.pos p) by lia.
  - by apply shr_1_shifted.
Qed.

(** Rounding to nearest adds at most one, and nothing to an exact value. *)
Lemma round_nearest_even_bound x n mrs :
  shifted x n mrs →
  let q := round_nearest_even (shr_m mrs) (loc_of_shr_record mrs) in
  shr_m mrs ≤ q ≤ shr_m mrs + 1 ∧ (shr_m mrs * 2 ^ n = x → q = shr_m mrs).
Proof.
  intros (rest & Hx & Hr & Hm & Hi). destruct mrs as [m [] []]; cbn in *.
  all: try (specialize (Hi eq_refl)). all: repeat case_match; lia.
Qed.

Lemma shr_fexp_eq x e :
  let n := Z.max 0 (fexp 53 1024 (Zdigits2 x + e) - e) in
  0 ≤ x → ∃ mrs, shr_fexp 53 1024 x e loc_Exact = (mrs, e + n) ∧ shifted x n mrs ∧
    (n = 0 → shr_m mrs = x ∧ loc_of_shr_record mrs = loc_Exact).
Proof.
  intros n Hx. unfold shr_fexp. cbn [shr_record_of_loc].
  assert (shifted x 0 {| shr_m := x; shr_r := false; shr_s := false |}) as H0.
  { exists 0. cbn. repeat split; lia. }
  unfold n, shr. destruct (fexp 53 1024 (Zdigits2 x + e) - e) as [|p|p].
  - rewrite Z.max_id, Z.add_0_r. by eexists.
  - rewrite Z.max_r by lia. eexists. split; [done|]. split; [|lia].
    apply (iter_pos_shifted p x 0); [lia|done].
  - rewrite Z.max_l, Z.add_0_r by lia. by eexists.
Qed.

Lemma Zdigits2_pos_bound x d : 0 < x → x < 2 ^ d → 0 ≤ d → Zdigits2 x ≤ d.
Proof.
  intros Hx Hd Hd0. destruct x as [|p|p]; [lia| |lia]. cbn [Zdigits2].
  pose proof (digits2_pos_spec p) as [Hs _].
  destruct (Z.le_gt_cases (Z.pos (digits2_pos p)) d) as [|Hgt]; [done|].
  assert (2 ^ d ≤ 2 ^ (Z.pos (digits2_pos p) - 1)) by (apply Z.pow_le_mono_r; lia). lia.
Qed.

(** Rounding a positive [x * 2^f] whose mantissa has at most 53 bits at the target
    exponent: the outcome, its bound and its form. *)
Lemma binary_round_aux_spec m e :
  let f := Z.max e (fexp 53 1024 (Z.pos (digits2_pos m) + e)) in
  f ≤ 900 →
  binary_round_aux 53 1024 false (Z.pos m) e loc_Exact = S754_zero false ∨
  ∃ m' f', binary_round_aux 53 1024 false (Z.pos m) e loc_Exact = S754_finite false m' f' ∧
    (f' = f ∨ f' = f + 1 ∧ Z.pos m' = 2 ^ 52) ∧
    (e ≤ f → f = fexp 53 1024 (Z.pos (digits2_pos m) + e) → f' = -1074 ∨ Z.pos (digits2_pos m') = 53) ∧
    ∀ B, Z.pos m ≤ B * 2 ^ (f - e) → Z.pos m' * 2 ^ (f' - f) ≤ B.
Proof.
  intros f Hf. unfold binary_round_aux.
  destruct (shr_fexp_eq (Z.pos m) e ltac:(lia)) as (mrs & -> & Hsh & Hex).
  cbn [Zdigits2] in *. set (n := Z.max 0 _) in *. assert (f = e + n) as Hfn by lia.
  rewrite <- Hfn. destruct (round_nearest_even_bound _ _ _ Hsh) as [Hq Hqe].
  set (q' := round_nearest_even _ _) in *.
  destruct Hsh as (rest & Hm & Hrest & Hq0 & _). set (q := shr_m mrs) in *.
  assert (0 < 2 ^ n) as Hn by (apply Z.pow_pos_nonneg; lia).
  pose proof (digits2_pos_spec m) as Hdig. set (d := Z.pos (digits2_pos m)) in *.
  assert (0 < d) as Hd by lia.
  assert (∀ B, Z.pos m ≤ B * 2 ^ (f - e) → q' ≤ B) as HB.
  { intros B HB. replace (f - e) with n in HB by lia. destruct (Z.eq_dec rest 0) as [->|Hr0].
    - rewrite Hqe by lia. nia.
    - assert (q < B) by nia. lia. }
  assert (-1074 ≤ f) as Hfmin by (unfold f, fexp, emin; lia).
  assert (d - 53 ≤ n) as Hdn by (unfold n, fexp, emin; lia).
  assert (q < 2 ^ 53) as Hq53.
  { assert (2 ^ d ≤ 2 ^ n * 2 ^ 53) by (rewrite <- Z.pow_add_r by lia; apply Z.pow_le_mono_r; lia).
    nia. }
  destruct (shr_fexp_eq q' f ltac:(lia)) as (mrs2 & -> & Hsh2 & Hex2).
  assert (fexp 53 1024 (Zdigits2 q' + f) - f = Z.max (Zdigits2 q' - 53) (-1074 - f)) as Hfe
    by (unfold fexp, emin; lia).
  rewrite Hfe in *. change (1024 - 53) with 971.
  destruct (Z.eq_dec q' (2 ^ 53)) as [Hc|Hc].
  - right. assert (Zdigits2 q' = 54) as Hd2 by (rewrite Hc; reflexivity).
    rewrite Hd2 in *. replace (Z.max 0 (Z.max (54 - 53) (-1074 - f))) with 1 in * by lia.
    destruct Hsh2 as (rest2 & Hx2 & Hr2 & _ & _). change (2 ^ 1) with 2 in *.
    assert (shr_m mrs2 = 2 ^ 52) as -> by lia. change (2 ^ 52) with (Z.pos (2 ^ 52)).
    rewrite (proj2 (Z.leb_le (f + 1) 971)) by lia. eexists _, _. split; [done|].
    split; [by right|]. split; [by right|]. intros B HB'. apply HB in HB'.
    replace (f + 1 - f) with 1 by lia. lia.
  - assert (Zdigits2 q' ≤ 53) as Hd2.
    { destruct (Z.eq_dec q' 0) as [->|]; [done|]. apply Zdigits2_pos_bound; lia. }
    replace (Z.max 0 (Z.max (Zdigits2 q' - 53) (-1074 - f))) with 0 in * by lia.
    destruct (Hex2 eq_refl) as [-> _]. rewrite Z.add_0_r. destruct q' as [|m'|m']; [by left| |lia].
    right. rewrite (proj2 (Z.leb_le f 971)) by lia. exists m', f. split; [done|].
    split; [by left|]. split; [|intros B HB'; rewrite Z.sub_diag, Z.mul_1_r; by apply HB].
    intros Hef Hfeq. destruct (Z.eq_dec f (-1074)); [by left|]. right.
    assert (n = d - 53) as Hnd by (unfold n, fexp, emin in *; lia).
    apply digits2_pos_unique; [lia|]. split; [|lia].
    assert (2 ^ (d - 1) = 2 ^ n * 2 ^ (53 - 1)) as Hp
      by (rewrite <- Z.pow_add_r by lia; f_equal; lia).
    nia.
Qed.

Lemma shl_align_spec m e e' :
  ∃ m', shl_align m e e' = (m', Z.min e e') ∧ Z.pos m' = Z.pos m * 2 ^ (e - Z.min e e').
Proof.
  unfold shl_align. destruct (e' - e) as [|p|p] eqn:E.
  - exists m. replace (Z.min e e') with e by lia. by rewrite Z.sub_diag, Z.mul_1_r.
  - exists m. replace (Z.min e e') with e by lia. by rewrite Z.sub_diag, Z.mul_1_r.
  - replace (Z.min e e') with e' by lia. replace (e - e') with (Z.pos p) by lia.
    exists (Pos.iter xO m p). split; [done|]. clear.
    induction p as [|p IH] using Pos.peano_ind; [cbn; lia|].
    rewrite Pos.iter_succ, Pos2Z.inj_succ, Z.pow_succ_r by lia.
    rewrite (Pos2Z.pos_xO (Pos.iter _ _ _)), IH. ring.
Qed.

(** Rounding a value that is at most an integer below 2^53. *)
Lemma binary_round_upper m e P :
  e ≤ 0 → P < 2 ^ 53 → Z.pos m ≤ P * 2 ^ (- e) →
  binary_round 53 1024 false m e = S754_zero false ∨
  ∃ m' k, binary_round 53 1024 false m e = S754_finite false m' (- k) ∧ 0 ≤ k ∧
    Z.pos m' ≤ P * 2 ^ k ∧ (k = 1074 ∨ Z.pos (digits2_pos m') = 53).
Proof.
  intros He HP Hm. unfold binary_round. pose proof (digits2_pos_spec m) as Hdig.
  set (d := Z.pos (digits2_pos m)) in *. set (f := fexp 53 1024 (d + e)).
  assert (d + e ≤ 53) as Hde.
  { destruct (Z.le_gt_cases (d + e) 53) as [|Hgt]; [done|].
    assert (2 ^ 53 * 2 ^ (- e) ≤ 2 ^ (d - 1)) by
      (rewrite <- Z.pow_add_r by lia; apply Z.pow_le_mono_r; lia).
    assert (0 < 2 ^ (- e)) by (apply Z.pow_pos_nonneg; lia). nia. }
  assert (-1074 ≤ f ≤ 0) as Hf by (unfold f, fexp, emin; lia).
  destruct (shl_align_spec m e f) as (mz & -> & Hmz). set (ez := Z.min e f) in *.
  assert (0 < 2 ^ (e - ez)) as Hp by (apply Z.pow_pos_nonneg; lia).
  assert (Z.pos (digits2_pos mz) = d + (e - ez)) as Hdz.
  { apply digits2_pos_unique; [lia|]. rewrite Hmz.
    replace (d + (e - ez) - 1) with ((d - 1) + (e - ez)) by lia.
    rewrite !Z.pow_add_r by lia. nia. }
  pose proof (binary_round_aux_spec mz ez) as Haux. cbv zeta in Haux. rewrite Hdz in Haux.
  replace (d + (e - ez) + ez) with (d + e) in Haux by lia. fold f in Haux.
  replace (Z.max ez f) with f in Haux by lia.
  destruct (Haux ltac:(lia)) as [->|(m' & f' & -> & Hf' & Hcan & HB)]; [by left|right].
  assert (Z.pos m' * 2 ^ (f' - f) ≤ P * 2 ^ (- f)) as Hb.
  { apply HB. rewrite Hmz, <- Z.mul_assoc, <- Z.pow_add_r by lia.
    replace (- f + (f - ez)) with (- e + (e - ez)) by lia. rewrite Z.pow_add_r by lia. nia. }
  assert (f' ≤ 0 ∧ Z.pos m' ≤ P * 2 ^ (- f')) as [Hf0 Hm'].
  { destruct Hf' as [->|[-> Hm']]; [rewrite Z.sub_diag in Hb; lia|].
    replace (f + 1 - f) with 1 in Hb by lia. rewrite Hm' in *.
    assert (f < 0) by (destruct (Z.eq_dec f 0) as [->|]; [cbn in Hb|]; lia).
    split; [lia|]. replace (- f) with (1 + - (f + 1)) in Hb by lia.
    rewrite Z.pow_add_r in Hb by lia. lia. }
  exists m', (- f'). rewrite Z.opp_involutive. split; [done|]. split; [lia|]. split; [done|].
  destruct (Hcan ltac:(lia) eq_refl); [left; lia|by right].
Qed.

(** A draw below one. *)
Definition unit_float (x : spec_float) : Prop :=
  x = S754_zero false ∨
  ∃ m e, x = S754_finite false m e ∧ Z.pos (digits2_pos m) + e ≤ 0.

Lemma digits2_mul m1 m2 :
  Z.pos (digits2_pos (m1 * m2)) ≤ Z.pos (digits2_pos m1) + Z.pos (digits2_pos m2).
Proof.
  apply (Zdigits2_pos_bound (Z.pos (m1 * m2))); [lia| |lia].
  pose proof (digits2_pos_spec m1). pose proof (digits2_pos_spec m2).
  rewrite Pos2Z.inj_mul, Z.pow_add_r by lia. nia.
Qed.

(** A fraction of a depth is a number without a sign. *)
Lemma depth_float x D :
  unit_float x → 0 ≤ D < 2 ^ 53 →
  let y := float64_mul x (float64_of_int D) in
  y = S754_zero false ∨ ∃ m e, y = S754_finite false m e.
Proof.
  intros Hx HD. unfold float64_mul. destruct D as [|D|]; [| |lia].
  { change (float64_of_int 0) with (S754_zero false).
    destruct Hx as [->|(m & e & -> & _)]; by left. }
  destruct (float64_of_pos D ltac:(lia)) as (mD & eD & -> & HeD & HmD & HdD).
  destruct Hx as [->|(m & e & -> & He)]; [by left|]. cbn [SFmul xorb].
  pose proof (digits2_mul m mD) as Hd. rewrite HdD in Hd.
  destruct (binary_round_aux_spec (m * mD) (e + - eD)) as [->|(m' & f' & -> & _)];
    [unfold fexp, emin; lia|by left|right; eauto].
Qed.

Lemma binary_round_aux_sign s m e :
  binary_round_aux 53 1024 s (Z.pos m) e loc_Exact = S754_zero s ∨
  binary_round_aux 53 1024 s (Z.pos m) e loc_Exact = S754_infinity s ∨
  ∃ m' e', binary_round_aux 53 1024 s (Z.pos m) e loc_Exact = S754_finite s m' e'.
Proof.
  unfold binary_round_aux. destruct (shr_fexp_eq (Z.pos m) e ltac:(lia)) as (mrs & -> & Hsh & _).
  destruct (round_nearest_even_bound _ _ _ Hsh) as [Hq _]. destruct Hsh as (_ & _ & _ & Hq0 & _).
  set (q' := round_nearest_even _ _) in *.
  destruct (shr_fexp_eq q' (e + Z.max 0 (fexp 53 1024 (Zdigits2 (Z.pos m) + e) - e)) ltac:(lia))
    as (mrs2 & -> & (_ & _ & _ & H2 & _) & _).
  destruct (shr_m mrs2) as [|p|p]; [by left| |lia]. destruct (_ <=? _); eauto.
Qed.

(** A number that is at most [P], with its rounding to 53 bits. *)
Definition below (P : Z) (x : spec_float) : Prop :=
  (∃ s, x = S754_zero s) ∨
  (∃ m k, x = S754_finite false m (- k) ∧ 0 ≤ k ∧ Z.pos m ≤ P * 2 ^ k ∧
     (k = 1074 ∨ Z.pos (digits2_pos m) = 53)) ∨
  (∃ m e, x = S754_finite true m e) ∨ x = S754_infinity true.

Lemma sub_below P y :
  0 ≤ P < 2 ^ 53 → (y = S754_zero false ∨ ∃ m e, y = S754_finite false m e) →
  below P (float64_sub (float64_of_int P) y).
Proof.
  intros HP Hy. unfold float64_sub, below. destruct P as [|P|]; [| |lia].
  { change (float64_of_int 0) with (S754_zero false). destruct Hy as [->|(m & e & ->)]; cbn; eauto 6. }
  destruct (float64_of_pos P ltac:(lia)) as (mP & k & -> & Hk & HmP & Hd).
  destruct Hy as [->|(m & e & ->)]; [right; left; exists mP, k; repeat split; [done..|lia|by right]|].
  cbn [SFsub cond_Zopp]. set (ez := Z.min (- k) e).
  destruct (shl_align_spec mP (- k) ez) as (m1 & -> & Hm1).
  destruct (shl_align_spec m e ez) as (m2 & -> & _). cbn [fst].
  unfold binary_normalize. destruct (Z.pos m1 - Z.pos m2) as [|p|p] eqn:Hdiff; [by eauto| |].
  - destruct (binary_round_upper p ez (Z.pos P)) as [->|Hr]; [lia|lia| |by eauto|by eauto].
    replace (Z.min (- k) ez) with ez in Hm1 by lia. rewrite HmP in Hm1.
    rewrite <- Z.mul_assoc, <- Z.pow_add_r in Hm1 by lia.
    replace (k + (- k - ez)) with (- ez) in Hm1 by lia. lia.
  - unfold binary_round.
    destruct (shl_align_spec p ez (fexp 53 1024 (Z.pos (digits2_pos p) + ez))) as (mz & -> & _).
    destruct (binary_round_aux_sign true mz (Z.min ez (fexp 53 1024 (Z.pos (digits2_pos p) + ez))))
      as [->|[->|(m' & e' & ->)]]; eauto 7.
Qed.

(** The larger of an integer and a number below another integer, truncated. *)
Lemma max_between x mn P :
  0 ≤ mn < 2 ^ 53 → P < 2 ^ 53 → below P x →
  ∃ t, truncate (math_Max x (float64_of_int mn)) = Some t ∧ mn ≤ t ≤ Z.max mn P.
Proof.
  intros Hmn HP Hx.
  assert (truncate (float64_of_int mn) = Some mn ∧ is_pos_inf (float64_of_int mn) = false ∧
    is_nan (float64_of_int mn) = false ∧
    (mn = 0 ∧ float64_of_int mn = S754_zero false ∨
     ∃ m k, float64_of_int mn = S754_finite false m (- k) ∧ 0 ≤ k < 53 ∧
       Z.pos m = mn * 2 ^ k ∧ Z.pos m < 2 ^ 53)) as (Ht & Hi & Hn & Hy).
  { destruct mn as [|mn|]; [by (do 3 (split; [done|]); left)| |lia].
    destruct (float64_of_pos mn ltac:(lia)) as (m & k & -> & Hk & Hm & Hd).
    pose proof (digits2_pos_spec m) as Hdm. rewrite Hd in Hdm.
    assert (k < 53) as Hk53.
    { destruct (Z.lt_ge_cases k 53) as [|Hge]; [done|].
      assert (2 ^ 53 ≤ 2 ^ k) by (apply Z.pow_le_mono_r; lia). nia. }
    split; [|split; [done|split; [done|right; exists m, k; by destruct Hdm]]]. unfold truncate.
    assert (0 < 2 ^ k) by (apply Z.pow_pos_nonneg; lia).
    destruct (Z.leb_spec 0 (- k)).
    - replace k with 0 in * by lia. cbn. f_equal. lia.
    - rewrite Z.opp_involutive, Hm, Z.div_mul by lia. done. }
  unfold math_Max. rewrite Hi, Hn, !orb_false_r.
  destruct Hx as [[s ->]|[(m & k & -> & Hk & Hm & Hcan)|[(m & e & ->)| ->]]]; cbn [is_pos_inf is_nan is_zero].
  - destruct Hy as [[-> ->]|(my & ky & Hy & _)].
    + exists 0. split; [by destruct s|lia].
    + rewrite Hy in *. exists mn. split; [exact Ht|lia].
  - cbn [andb]. destruct (float64_lt (float64_of_int mn) _) eqn:Hlt; [|exists mn; split; [done|lia]].
    assert (0 < 2 ^ k) as Hpk by (apply Z.pow_pos_nonneg; lia).
    assert (mn * 2 ^ k ≤ Z.pos m) as Hle.
    { destruct Hy as [[-> _]|(my & ky & Hy & Hky & Hmy & Hmy53)]; [lia|].
      rewrite Hy in Hlt. unfold float64_lt, SFltb in Hlt. cbn [SFcompare] in Hlt.
      destruct (Z.compare_spec (- ky) (- k)) as [He|He|He]; [| |done].
      - assert (ky = k) as -> by lia. fold (Pos.compare my m) in Hlt.
        destruct (Pos.compare_spec my m); [done| |done]. lia.
      - destruct Hcan as [->|Hd]; [lia|]. pose proof (digits2_pos_spec m) as Hdm.
        rewrite Hd in Hdm. assert (2 ^ ky = 2 ^ k * 2 ^ (ky - k)) as Hp
          by (rewrite <- Z.pow_add_r by lia; f_equal; lia).
        assert (2 ^ 1 ≤ 2 ^ (ky - k)) by (apply Z.pow_le_mono_r; lia). nia. }
    unfold truncate. destruct (Z.leb_spec 0 (- k)).
    + replace k with 0 in * by lia. cbn [Z.opp Z.pow] in *. eexists. split; [done|]. lia.
    + rewrite Z.opp_involutive. eexists. split; [done|]. split.
      * apply Z.div_le_lower_bound; lia.
      * transitivity P; [apply Z.div_le_upper_bound|]; lia.
  - exists mn. split; [|lia]. destruct Hy as [[-> Hy]|(my & ky & Hy & _)]; rewrite Hy in *; exact Ht.
  - exists mn. split; [|lia]. destruct Hy as [[-> Hy]|(my & ky & Hy & _)]; rewrite Hy in *; exact Ht.
Qed.
