(* ===== verification/Clock.v ===== *)
(** * Slots and timestamps

    [SlotTimestamp] and [ValidateTimestamp] of [consensus.go]: the timestamp of a
    slot, computed with [time.Duration] and its [Seconds] method in [float64].
    Floats are the Standard Library's executable IEEE 754 specification. *)

From Stdlib Require Import Floats.SpecFloat.
From S2P Require Import Prelude Float64.
#[local] Open Scope Z_scope.
#[local] Open Scope go_scope.

(** ** Durations, in nanoseconds *)
Definition Second : Z := 1000000000.

(** [time.Duration.Seconds]. *)
Definition Seconds (d : Z) : spec_float :=
  let sec := Z.quot d Second in
  let nsec := Z.rem d Second in
  float64_add (float64_of_int sec) (float64_div (float64_of_int nsec) (float64_of_int Second)).

Section clock.
Context `{!Platform}.

(** [BeaconGenesisTime] and [SlotTime] are fields of the command. *)
Definition SlotTimestamp (BeaconGenesisTime SlotTime slot : Z) : Z :=
  wrap64 (BeaconGenesisTime
          + uint64_of_float64 (Seconds (wrap_int64 (wrap_int64 slot * SlotTime)))).

Definition ValidateTimestamp (BeaconGenesisTime SlotTime timestamp slot : Z) : res unit :=
  let expectedTimestamp :=
    wrap64 (BeaconGenesisTime
            + uint64_of_float64 (Seconds (wrap_int64 (wrap_int64 slot * SlotTime)))) in
  if negb (timestamp =? expectedTimestamp) then Err (Errorf "wrong timestamp") else Ok tt.
End clock.

(** ** Lemmas *)

(** The seconds of a duration of whole seconds. *)
Lemma Seconds_whole `{!Platform} n :
  0 ≤ n < 2 ^ 53 → uint64_of_float64 (Seconds (n * Second)) = n.
Proof.
  intros Hn. unfold Seconds. rewrite Z.quot_mul, Z.rem_mul by done.
  destruct n as [|p|p]; [by vm_compute| |lia].
  destruct (float64_of_pos p) as (m & e & -> & He & Hm & _); [lia|].
  change (float64_div (float64_of_int 0) (float64_of_int Second)) with (S754_zero false).
  unfold float64_add, SFadd, uint64_of_float64, truncate.
  assert (0 < 2 ^ e) as Hpow by (apply Z.pow_pos_nonneg; lia).
  destruct (Z.leb_spec 0 (- e)) as [Hle|Hgt].
  - assert (e = 0) as -> by lia. rewrite Z.mul_1_r in *.
    by replace ((0 <=? Z.pos m) && (Z.pos m <? 2 ^ 64)) with true by lia.
  - rewrite Z.opp_involutive, Hm, Z.div_mul by lia.
    by replace ((0 <=? Z.pos p) && (Z.pos p <? 2 ^ 64)) with true by lia.
Qed.

Lemma SlotTimestamp_eq `{!Platform} genesis k slot :
  0 ≤ slot → 0 < k → slot * (k * Second) < 2 ^ 63 →
  SlotTimestamp genesis (k * Second) slot = wrap64 (genesis + slot * k).
Proof.
  intros Hs Hk Hb. unfold SlotTimestamp, Second in *.
  rewrite (wrap_int64_id slot) by nia. rewrite (wrap_int64_id (slot * _)) by nia.
  rewrite Z.mul_assoc. fold Second. rewrite Seconds_whole; [done|]. nia.
Qed.

(** Timestamps of different slots differ. *)
Lemma SlotTimestamp_inj `{!Platform} genesis k slot1 slot2 :
  0 < k → 0 ≤ slot1 → slot1 * (k * Second) < 2 ^ 63 →
  0 ≤ slot2 → slot2 * (k * Second) < 2 ^ 63 →
  SlotTimestamp genesis (k * Second) slot1 = SlotTimestamp genesis (k * Second) slot2 →
  slot1 = slot2.
Proof.
  intros Hk Hs1 Hb1 Hs2 Hb2. rewrite !SlotTimestamp_eq by done.
  unfold wrap64, Second in *. intros Heq.
  assert (slot1 * k = slot2 * k) as Hmul; [|nia].
  assert ((slot1 * k - slot2 * k) mod 2 ^ 64 = 0) as Hz.
  { replace (slot1 * k - slot2 * k) with ((genesis + slot1 * k) - (genesis + slot2 * k)) by lia.
    rewrite Zminus_mod, Heq, Z.sub_diag. done. }
  apply Z.mod_divide in Hz as [q Hq]; [|done]. nia.
Qed.

(** The timestamp of another slot is refused. *)
Lemma wrong_slot_refused `{!Platform} genesis k slot1 slot2 :
  0 < k → 0 ≤ slot1 → slot1 * (k * Second) < 2 ^ 63 →
  0 ≤ slot2 → slot2 * (k * Second) < 2 ^ 63 → slot1 ≠ slot2 →
  ValidateTimestamp genesis (k * Second) (SlotTimestamp genesis (k * Second) slot2) slot1
  = Err (Errorf "wrong timestamp").
Proof.
  intros Hk Hs1 Hb1 Hs2 Hb2 Hne. unfold ValidateTimestamp.
  fold (SlotTimestamp genesis (k * Second) slot1).
  destruct (Z.eqb_spec (SlotTimestamp genesis (k * Second) slot2)
    (SlotTimestamp genesis (k * Second) slot1)) as [Heq|]; [|done].
  by apply SlotTimestamp_inj in Heq.
Qed.

(** ** Properties *)

(** C31: with a slot time of whole seconds, and as long as the time since genesis
    fits a duration, the float arithmetic is exact: the timestamp of a slot is
    the genesis time plus the slots elapsed (modulo 2^64), different slots have
    different timestamps, and the validation accepts exactly that timestamp. *)
Theorem slot_timestamp_spec `{!Platform} genesis k slot1 slot2 t :
  0 < k → 0 ≤ slot1 → slot1 * (k * Second) < 2 ^ 63 →
  0 ≤ slot2 → slot2 * (k * Second) < 2 ^ 63 →
  SlotTimestamp genesis (k * Second) slot1 = wrap64 (genesis + slot1 * k) ∧
  (ValidateTimestamp genesis (k * Second) t slot1 = Ok tt ↔ t = wrap64 (genesis + slot1 * k)) ∧
  (SlotTimestamp genesis (k * Second) slot1 = SlotTimestamp genesis (k * Second) slot2 →
   slot1 = slot2).
Proof.
  intros Hk Hs1 Hb1 Hs2 Hb2. split; [by apply SlotTimestamp_eq|].
  split; [|by apply SlotTimestamp_inj].
  unfold ValidateTimestamp. fold (SlotTimestamp genesis (k * Second) slot1).
  rewrite SlotTimestamp_eq by done. by destruct (Z.eqb_spec t (wrap64 (genesis + slot1 * k))).
Qed.
