(* ===== verification/Behavior.v ===== *)
(** * The random behaviour of the consensus mock

    [behavior.go], and the functions of [consensus.go] that only depend on it: the
    frequencies of the mocked events, the accounts that send test transactions,
    the choice of a reorg target and the transactions of a mocked block. *)

From Stdlib Require Import Strings.Byte Floats.SpecFloat.
From S2P Require Import Prelude Geth Float64.
#[local] Open Scope Z_scope.
#[local] Open Scope go_scope.

(** [math/rand]: [Int63n] panics unless its bound is positive; [Read] fills a
    buffer of the given length; [Float64] draws from [0, 1). *)
Class Rand := {
  rng : Type;
  Int63n : rng → Z → rng * Z;
  Read : rng → nat → rng * bytes;
  Float64 : rng → rng * spec_float;
}.
Class RandLaws `{!Rand} : Prop := {
  Int63n_range r n : 0 < n → 0 ≤ (Int63n r n).2 < n;
  Float64_unit r : unit_float (Float64 r).2;
}.

Section behavior.
Context `{!Geth}.

Record TestAccount := mk_account { account_pk : PrivateKey; account_addr : bytes }.

Record Frequencies := mk_freq {
  GapSlot : spec_float;
  ProposalFreq : spec_float;
  FailedProposalFreq : spec_float;
  Finality : spec_float;
  ReorgFreq : spec_float;
  InvalidHashFreq : spec_float;
}.

(** The random numbers themselves are part of what changes during a run. *)
Record ConsensusBehavior := mk_behavior {
  accounts : list TestAccount;
  Freq : Frequencies;
  ReorgMaxDepth : Z;
}.

(** [strings.Split(s, ",")]. *)
Fixpoint split_comma (s : bytes) : list bytes :=
  match s with
  | [] => [[]]
  | x2c :: s => [] :: split_comma s
  | c :: s =>
      match split_comma s with
      | [] => [[c]]
      | w :: ws => (c :: w) :: ws
      end
  end.

(** The loop of [TestAccounts.Set]; the state is the accounts read so far. *)
Fixpoint set_accounts (keys : list bytes) : M (list TestAccount) unit :=
  match keys with
  | [] => mret tt
  | hex :: keys =>
      match HexToECDSA hex with
      | Panic => lift Panic
      | Err _ => fail (Errorf "failed interpret hex private key")
      | Ok pk =>
          accounts ← get;
          _ ← put (accounts ++ [mk_account pk (PubkeyToAddress pk)]);
          set_accounts keys
      end
  end.

Definition TestAccounts_Set (s : bytes) : M (list TestAccount) unit :=
  _ ← put [];
  set_accounts (split_comma s).

Definition GWei : Z := 1000000000.

(** The error of signing is dropped; the transaction is what [SignTx] returned. *)
Definition dummyTxCreator (config : ChainConfig) (statedb : StateDB) (header : Header.t)
    (accounts : list TestAccount) : list Transaction :=
  match accounts with
  | account :: _ =>
      let txdata := DynamicFeeTx.mk (ChainID config) (GetNonce statedb (account_addr account))
        (account_addr account) 30000 (5 * GWei) 2 [] in
      let '(tx, _) := SignTx (NewTx txdata) (ChainID config) (account_pk account) in
      [tx]
  | [] => []
  end.

Context `{!Platform, !Rand}.

Definition calcReorgTarget (b : ConsensusBehavior) (chain : BlockChain) (parent min : Z)
    (g : rng) : rng * option Header.t :=
  let '(g, f) := Float64 g in
  let depth := float64_mul f (float64_of_int (ReorgMaxDepth b)) in
  let target := uint64_of_float64
    (math_Max (float64_sub (float64_of_int parent) depth) (float64_of_int min)) in
  (g, GetHeaderByNumber chain target).
End behavior.

(** ** Properties *)

(** Splitting a text at its commas gives pieces without commas that join back. *)
Fixpoint join_comma (l : list bytes) : bytes :=
  match l with
  | [] => []
  | [w] => w
  | w :: l => w ++ x2c :: join_comma l
  end.

Lemma split_comma_cons s : split_comma s ≠ [].
Proof. destruct s as [|[]s]; cbn; try done; by destruct (split_comma s). Qed.

Lemma split_comma_join s : join_comma (split_comma s) = s.
Proof.
  induction s as [|c s IH]; [done|].
  pose proof (split_comma_cons s) as Hne. cbn [split_comma].
  destruct (split_comma s) as [|w ws] eqn:E; [done|].
  destruct c; cbn; try (f_equal; exact IH); destruct ws; cbn in *; congruence.
Qed.

Section properties.
Context `{!Geth}.

(** The accounts of a list of keys: one per key, in order, when every key parses;
    otherwise those before the first key that does not. *)
Lemma set_accounts_spec keys acc :
  (∀ k, HexToECDSA k ≠ Panic) →
  ∃ pks, Forall2 (λ k pk, HexToECDSA k = Ok pk) (take (length pks) keys) pks ∧
    (set_accounts keys acc).1 = acc ++ ((λ pk, mk_account pk (PubkeyToAddress pk)) <$> pks) ∧
    match (set_accounts keys acc).2 with
    | Ok _ => length pks = length keys
    | Err e => e = Errorf "failed interpret hex private key" ∧
        ∃ k e', keys !! length pks = Some k ∧ HexToECDSA k = Err e'
    | Panic => False
    end.
Proof.
  intros Hnp. revert acc. induction keys as [|k keys IH]; intros acc.
  - exists []. cbn. rewrite app_nil_r. repeat constructor.
  - cbn [set_accounts]. specialize (Hnp k) as Hk. destruct (HexToECDSA k) as [pk|e|] eqn:E; [| |done].
    + mrun. destruct (IH (acc ++ [mk_account pk (PubkeyToAddress pk)])) as (pks & HF & Ha & Hr).
      exists (pk :: pks). cbn [length take fmap list_fmap]. split; [by constructor|]. split.
      * rewrite Ha, <- app_assoc. done.
      * destruct (set_accounts keys _).2; [by rewrite Hr|exact Hr|done].
    + exists []. cbn. rewrite app_nil_r. split; [constructor|]. split; [done|].
      split; [done|]. eauto.
Qed.

(** The number of a reorg target, whatever fraction is drawn. *)
Lemma calcReorgTarget_number `{!Platform, !Rand, !RandLaws} b bc parent mn g :
  0 ≤ ReorgMaxDepth b < 2 ^ 53 → 0 ≤ mn < 2 ^ 53 → 0 ≤ parent < 2 ^ 53 →
  ∃ g' t, calcReorgTarget b bc parent mn g = (g', GetHeaderByNumber bc t) ∧
    mn ≤ t ≤ Z.max mn parent.
Proof.
  intros HD Hmn HP. unfold calcReorgTarget.
  pose proof (Float64_unit g) as Hf. destruct (Float64 g) as [g' f]. cbn in Hf.
  pose proof (sub_below parent _ HP (depth_float f _ Hf HD)) as Hb.
  destruct (max_between _ mn parent Hmn ltac:(lia) Hb) as (t & Ht & Hrange).
  unfold uint64_of_float64. rewrite Ht.
  replace ((0 <=? t) && (t <? 2 ^ 64)) with true by lia. by exists g', t.
Qed.

(** A reorg target lies between its bounds: for chains of less than 2^53 blocks
    and depths below 2^53, whatever fraction is drawn, the float arithmetic never
    picks a block below [min] nor above the current one, and the canonical block
    it names exists.  When [min] is above the current block there is no target. *)
Lemma reorg_target_bounds `{!ChainLaws, !Platform, !Rand, !RandLaws} b bc mn g :
  let parent := Header.Number (CurrentHeader bc) in
  valid_chain bc → 0 ≤ ReorgMaxDepth b < 2 ^ 53 → 0 ≤ mn < 2 ^ 53 → parent < 2 ^ 53 →
  ∃ g' target, calcReorgTarget b bc parent mn g = (g', target) ∧
    if mn <=? parent
    then ∃ h, target = Some h ∧ mn ≤ Header.Number h ≤ parent ∧
         GetHeaderByHash bc (header_Hash h) = Some h
    else target = None.
Proof.
  intros parent Hv HD Hmn HP. pose proof (CurrentHeader_number bc Hv) as Hp. fold parent in Hp.
  destruct (calcReorgTarget_number b bc parent mn g HD Hmn ltac:(lia)) as (g' & t & -> & Ht).
  exists g', (GetHeaderByNumber bc t). split; [done|]. destruct (Z.leb_spec mn parent).
  - destruct (GetHeaderByNumber_canonical bc t Hv) as [h Hh]; [fold parent; lia|].
    exists h. destruct (GetHeaderByNumber_inv bc t h Hv Hh) as [-> Hk].
    split; [done|]. split; [lia|done].
  - apply GetHeaderByNumber_above; [done|]. fold parent. lia.
Qed.
End properties.
