(* ===== verification/Prologue.v ===== *)
(** * The proof-of-work prologue

    [proofOfWorkPrelogue] of [consensus.go]: before the merge, the consensus mock
    mines blocks with a proof-of-work engine and announces them to its peer until
    the chain reaches the terminal total difficulty. *)

From Stdlib Require Import Floats.SpecFloat.
From S2P Require Import Prelude Geth Payload MockChain Mining P2p Float64 Behavior.
#[local] Open Scope Z_scope.
#[local] Open Scope go_scope.

(** [enode.Parse]: the address of a node. *)
Class Enode := { enode_Parse : bytes → res bytes }.

Section prologue.
Context `{!Geth, !ConsensusEngine, !ChainStore, !DevP2P, !Platform, !Rand, !Enode}.

(** The temporary chain, the random numbers and the connection to the peer. *)
Record Prologue := mk_prologue {
  mc : MockChain;
  pow_rng : rng;
  peer : Conn;
}.

Definition on_mc {A} (m : M MockChain A) : M Prologue A := λ s,
  let '(c, r) := m (mc s) in (mk_prologue c (pow_rng s) (peer s), r).
Definition on_peer {A} (m : M Conn A) : M Prologue A := λ s,
  let '(c, r) := m (peer s) in (mk_prologue (mc s) (pow_rng s) c, r).
Definition on_rng {A} (f : rng → rng * A) : M Prologue A := λ s,
  let '(g, a) := f (pow_rng s) in (mk_prologue (mc s) g (peer s), Ok a).

Section run.
Variable b : ConsensusBehavior.

(** One iteration of the loop: [Some n] returns [n]. *)
Definition prologue_step : M Prologue (option Z) :=
  s ← get;
  let parent := CurrentHeader (chain (mc s)) in
  x ← on_rng Float64;
  parent ← (if float64_lt x (ReorgFreq (Freq b))
            then on_rng (calcReorgTarget b (chain (mc s)) (wrap64 (Header.Number parent)) 0)
            else mret (Some parent));
  parent ← lift (deref parent);
  block ← or_errorf "failed to mine block" (on_mc (MineBlock parent));
  s ← get;
  _ ← or_errorf "failed to msg peer"
        (on_peer (Write66 (encode_new_block block (CurrentTd (mc s))) 23));
  ttd ← lift (deref (TerminalTotalDifficulty (config (mc s))));
  td ← lift (deref (CurrentTd (mc s)));
  if ttd <=? td then mret (Some (wrap64 (Header.Number (CurrentHeader (chain (mc s))))))
  else mret None.

(** The loop, for at most [fuel] iterations; [None] when they do not suffice. *)
Fixpoint prologue_loop (fuel : nat) : M Prologue (option Z) :=
  match fuel with
  | O => mret None
  | S fuel =>
      r ← prologue_step;
      match r with Some n => mret (Some n) | None => prologue_loop fuel end
  end.

(** The state is the database, which outlives the temporary chain, and the random
    numbers; [enode] and [genesisPath] are options of the command, [key] the
    connection's fresh key. *)
Definition proofOfWorkPrelogue (genesisPath enode : bytes) (key : PrivateKey) (fuel : nat)
    : M (Database * rng) (option Z) := λ '(db, g),
  match NewMockChain genesisPath db with
  | (db, Panic) => ((db, g), Panic)
  | (db, Err _) => ((db, g), Err (Errorf "unable to initialize mock chain"))
  | (db, Ok c) =>
      let stop r := ((db, g), r) in
      match TerminalTotalDifficulty (config c) with
      | None => stop Panic
      | Some ttd =>
      if ttd <=? 0 then stop (Ok (Some 0)) else
      match enode_Parse enode with
      | Panic => stop Panic
      | Err _ => stop (Err (Errorf "malformatted enode address"))
      | Ok n =>
      match Dial n key with
      | Panic => stop Panic
      | Err _ => stop (Err (Errorf "unable to connect to client"))
      | Ok conn =>
      match Peer (config c) (chain c) None conn with
      | (_, Panic) => stop Panic
      | (_, Err _) => stop (Err (Errorf "unable to peer with client"))
      | (conn, Ok _) =>
      let '(s, r) := prologue_loop fuel (mk_prologue c g conn) in
      ((database (mc s), pow_rng s), r)
      end end end end
  end.
End run.
End prologue.

(** A chain that [core.NewBlockChain] opens is a chain in good order. *)
Class ChainStoreLaws `{!Geth, !ChainLaws, !ChainStore} : Prop := {
  NewBlockChain_valid db cfg bc : NewBlockChain db cfg = Ok bc → valid_chain bc;
}.

(** ** Lemmas *)
Section lemmas.
Context `{!Geth, !GethLaws, !ChainLaws, !ConsensusEngine, !PoWLaws, !ChainStore,
  !ChainStoreLaws, !DevP2P, !Platform, !Rand, !RandLaws, !Enode}.

(** No draw is below a frequency of zero. *)
Lemma never x s : unit_float x → float64_lt x (S754_zero s) = false.
Proof. by intros [->|(m & e & -> & _)]. Qed.

Lemma NewMockChain_valid path db db' c :
  NewMockChain path db = (db', Ok c) → valid_chain (chain c).
Proof.
  unfold NewMockChain. intros Hrun.
  apply M_bind_Ok_inv in Hrun as (? & gen & _ & Hrun).
  apply M_bind_Ok_inv in Hrun as (? & ? & _ & Hrun).
  apply M_bind_Ok_inv in Hrun as (? & ? & _ & Hrun).
  apply M_bind_Ok_inv in Hrun as (? & ? & _ & Hrun).
  apply M_bind_Ok_inv in Hrun as (? & bc & Hbc & Hrun).
  injection Hbc as _ Hbc. injection Hrun as _ <-. by eapply NewBlockChain_valid.
Qed.

(** The total difficulty of the head. *)
Definition head_td (s : Prologue) (td : Z) : Prop :=
  valid_chain (chain (mc s)) ∧ CurrentTd (mc s) = Some td.

Lemma head_td_exists c : valid_chain (chain c) → ∃ td, CurrentTd c = Some td.
Proof.
  intros Hv. unfold CurrentTd, Head. rewrite CurrentBlock_header by done.
  by destruct (GetTd_current (chain c) Hv) as [td Htd]; exists td.
Qed.

(** A block mined on the head becomes the head and adds to its total difficulty. *)
Lemma mine_on_head c c' b td :
  valid_chain (chain c) → CurrentTd c = Some td →
  MineBlock (CurrentHeader (chain c)) c = (c', Ok b) →
  valid_chain (chain c') ∧ config c' = config c ∧ CurrentHeader (chain c') = block_Header b ∧
  Header.Number (CurrentHeader (chain c')) = Header.Number (CurrentHeader (chain c)) + 1 ∧
  ∃ td', td < td' ∧ CurrentTd c' = Some td'.
Proof.
  intros Hv Htd Hm. destruct (MineBlock_Ok_inv _ _ _ _ Hm) as (Hp & Hn & Hd & Hcfg & _ & db & Hi).
  pose proof (InsertChain_valid (chain c) db b Hv) as Hv'. rewrite Hi in Hv'. cbn in Hv'.
  revert Htd. unfold CurrentTd, Head. rewrite !CurrentBlock_header by done. intros Htd.
  destruct (InsertChain_extends _ _ _ _ _ td Hv Hi Hp Hd Htd) as [Hc Htd'].
  rewrite Hc. split; [done|]. split; [done|]. split; [done|]. split; [done|].
  rewrite block_Hash_eq in Htd'. eexists. split; [|exact Htd']. lia.
Qed.

Lemma on_rng_eq {A} (f : rng → rng * A) s :
  ∃ g, on_rng f s = (mk_prologue (mc s) g (peer s), Ok (f (pow_rng s)).2).
Proof. unfold on_rng. destruct (f (pow_rng s)) as [g a]. by exists g. Qed.

Lemma on_peer_mc {A} (m : M Conn A) s s' r : on_peer m s = (s', r) → mc s' = mc s.
Proof. unfold on_peer. destruct (m (peer s)). by intros [= <- _]. Qed.

Lemma or_errorf_state {S A} text (m : M S A) s : (or_errorf text m s).1 = (m s).1.
Proof. unfold or_errorf. by destruct (m s) as [s' [a|e|]]. Qed.

(** An iteration without a reorg raises the total difficulty, and ends the loop
    exactly when it reaches the terminal one. *)
Lemma prologue_step_progress b z s s' r td ttd :
  ReorgFreq (Freq b) = S754_zero z → head_td s td →
  TerminalTotalDifficulty (config (mc s)) = Some ttd →
  prologue_step b s = (s', Ok r) →
  ∃ td', td < td' ∧ head_td s' td' ∧ config (mc s') = config (mc s) ∧
    Header.Number (CurrentHeader (chain (mc s')))
    = Header.Number (CurrentHeader (chain (mc s))) + 1 ∧
    r = (if ttd <=? td' then Some (wrap64 (Header.Number (CurrentHeader (chain (mc s'))))) else None).
Proof.
  intros Hz [Hv Htd] Httd. unfold prologue_step. mrun.
  destruct (on_rng_eq Float64 s) as [g ->]. rewrite Hz, never by apply Float64_unit. mrun.
  destruct (or_errorf (A:=Block) _ (on_mc (A:=Block) _) _) as [s1 [block|e|]] eqn:Hm; [|done..].
  apply or_errorf_Ok_inv in Hm. unfold on_mc in Hm. cbn [mc pow_rng peer] in Hm.
  destruct (MineBlock _ (mc s)) as [c1 r1] eqn:Hmine. injection Hm as <- ->.
  destruct (mine_on_head _ _ _ _ Hv Htd Hmine) as (Hv1 & Hcfg & _ & Hnum & td' & Hlt & Htd').
  mrun. cbn [mc]. destruct (or_errorf (A:=unit) _ (on_peer (A:=unit) _) _) as [s2 [[]|e|]] eqn:Hw; [|done..].
  apply or_errorf_Ok_inv, on_peer_mc in Hw. cbn [mc] in Hw. rewrite Hcfg, Httd, Htd'. mrun.
  intros Hrun. exists td'. assert (s2 = s' ∧ r = if ttd <=? td' then
    Some (wrap64 (Header.Number (CurrentHeader (chain c1)))) else None) as [<- ->].
  { destruct (ttd <=? td'); by injection Hrun as <- <-. }
  unfold head_td. rewrite Hw. done.
Qed.

(** What any iteration and the whole loop do, reorgs or not: the chain stays in good
    order, and the number returned is that of the head at which the total difficulty
    has reached the terminal one. *)
Definition reached (s : Prologue) (cfg : ChainConfig) (n : Z) : Prop :=
  n = wrap64 (Header.Number (CurrentHeader (chain (mc s)))) ∧
  ∃ td ttd, CurrentTd (mc s) = Some td ∧ TerminalTotalDifficulty cfg = Some ttd ∧ ttd ≤ td.

Lemma prologue_step_reached b s s' r :
  valid_chain (chain (mc s)) → prologue_step b s = (s', Ok r) →
  valid_chain (chain (mc s')) ∧ config (mc s') = config (mc s) ∧
  ∀ n, r = Some n → reached s' (config (mc s)) n.
Proof.
  intros Hv. unfold prologue_step. mrun. destruct (on_rng_eq Float64 s) as [g ->]. mrun.
  set (s0 := mk_prologue (mc s) g (peer s)).
  set (choose := if float64_lt _ _ then _ else _).
  assert (∃ g' p, choose s0 = (mk_prologue (mc s) g' (peer s), Ok p)) as (g' & p & ->).
  { unfold choose. destruct (float64_lt _ _); [|by eexists _, _].
    match goal with |- context [on_rng ?f s0] => destruct (on_rng_eq f s0) as [g' ->] end.
    by eexists _, _. }
  destruct p as [p|]; [|done]. cbn [deref lift]. mrun.
  destruct (or_errorf (A:=Block) _ (on_mc (A:=Block) _) _) as [s1 [block|e|]] eqn:Hm; [|done..].
  apply or_errorf_Ok_inv in Hm. unfold on_mc in Hm. cbn [mc pow_rng peer] in Hm.
  destruct (MineBlock p (mc s)) as [c1 r1] eqn:Hmine. injection Hm as <- ->.
  destruct (MineBlock_Ok_inv _ _ _ _ Hmine) as (_ & _ & _ & Hcfg & _ & db & Hi).
  pose proof (InsertChain_valid (chain (mc s)) db block Hv) as Hv1. rewrite Hi in Hv1. cbn in Hv1.
  mrun. cbn [mc]. destruct (or_errorf (A:=unit) _ (on_peer (A:=unit) _) _) as [s2 [[]|e|]] eqn:Hw; [|done..].
  apply or_errorf_Ok_inv, on_peer_mc in Hw. cbn [mc] in Hw. rewrite Hcfg.
  destruct (TerminalTotalDifficulty (config (mc s))) as [ttd|] eqn:Httd; [|done].
  cbn [deref lift]. mrun. destruct (CurrentTd c1) as [td|] eqn:Htd; [|done]. mrun. intros Hrun.
  assert (s2 = s' ∧ r = if ttd <=? td then
    Some (wrap64 (Header.Number (CurrentHeader (chain c1)))) else None) as [<- ->].
  { destruct (ttd <=? td); by injection Hrun as <- <-. }
  rewrite Hw. split; [done|]. split; [done|]. intros n. destruct (Z.leb_spec ttd td); [|done].
  intros [= <-]. unfold reached. rewrite Hw. by eauto 6.
Qed.

Lemma prologue_loop_reached b fuel s s' n :
  valid_chain (chain (mc s)) → prologue_loop b fuel s = (s', Ok (Some n)) →
  valid_chain (chain (mc s')) ∧ reached s' (config (mc s)) n.
Proof.
  revert s. induction fuel as [|fuel IH]; intros s Hv; [done|]. cbn [prologue_loop].
  rewrite M_bind_eq. destruct (prologue_step b s) as [s1 [r|e|]] eqn:Hs; [|done..].
  destruct (prologue_step_reached _ _ _ _ Hv Hs) as (Hv1 & Hcfg & Hn).
  destruct r as [m|]; [intros [= <- <-]; by auto|]. intros Hrun. rewrite <- Hcfg. by apply IH.
Qed.

(** The loop without reorgs. *)
Lemma prologue_loop_ends b z fuel s td ttd :
  ReorgFreq (Freq b) = S754_zero z → head_td s td →
  TerminalTotalDifficulty (config (mc s)) = Some ttd →
  ttd - td ≤ Z.of_nat fuel → (0 < fuel)%nat →
  match prologue_loop b fuel s with
  | (s', Ok (Some n)) => ∃ td', head_td s' td' ∧ ttd ≤ td' ∧
      n = wrap64 (Header.Number (CurrentHeader (chain (mc s'))))
  | (_, Ok None) => False
  | _ => True
  end.
Proof.
  intros Hz. revert s td. induction fuel as [|fuel IH]; intros s td Htd Httd Hf Hpos; [lia|].
  cbn [prologue_loop]. rewrite M_bind_eq.
  destruct (prologue_step b s) as [s1 [r|e|]] eqn:Hs; [|done..].
  destruct (prologue_step_progress b z s s1 r td ttd Hz Htd Httd Hs)
    as (td' & Hlt & Htd' & Hcfg & _ & ->).
  destruct (Z.leb_spec ttd td') as [Hle|Hgt]; [by exists td'|].
  apply (IH s1 td'); [done|by rewrite Hcfg|lia|lia].
Qed.
End lemmas.

(** ** Properties *)
Section properties.
Context `{!Geth, !GethLaws, !ChainLaws, !ConsensusEngine, !PoWLaws, !ChainStore,
  !ChainStoreLaws, !DevP2P, !Platform, !Rand, !RandLaws, !Enode}.

End properties.
