(* ===== verification/Api.v ===== *)
(** * The clients of the engine and builder APIs

    [api/engine.go] and [api/builder.go]: what the consensus mock sends to an
    execution engine and to a builder relay, and how it reads the answers.  The
    peers are interfaces; the engine of [Engine] and the relay of [Relay]
    implement them. *)

From Stdlib Require Import Strings.Byte.
From S2P Require Import Prelude Numeral BigInt Common Fastssz Hasher SszObject.
From S2P Require Import FixedContainers VarContainers BlockContainers Signing.
From S2P Require Import Geth Payload MockChain Cache Engine Http Relay.
#[local] Open Scope Z_scope.
#[local] Open Scope go_scope.

(** ** The peers *)

(** An execution engine, as its JSON-RPC client sees it: the state of the server
    and a call of each method.  An error is any the client reports. *)
Class EngineServer (E : Type) := {
  call_getPayloadV1 : bytes → M E ExecutionPayloadV1.t;
  call_newPayloadV1 : ExecutionPayloadV1.t → M E PayloadStatusV1.t;
  call_forkchoiceUpdatedV1 :
    ForkchoiceStateV1.t → option PayloadAttributesV1.t → M E ForkchoiceUpdatedResult.t;
}.

(** A builder relay, as its HTTP client sees it: a request of each route.  An
    error is one of the transport. *)
Class BuilderServer (W : Type) := {
  post_validators : bytes → M W Response;
  get_header : bytes → bytes → bytes → M W Response;
  post_blinded_block : bytes → M W Response;
}.

(** [resp.StatusCode]: a response that never set one has status 200. *)
Definition StatusCode (r : Response) : Z := default StatusOK (sent r).

(** [encoding/json] on the builder client's requests and responses. *)
Class ClientCodec := {
  encode_registrations : list SignedValidatorRegistration.t → res bytes;
  encode_block : SignedBlindedBeaconBlock.t → res bytes;
  decode_header_response : bytes → res GetHeaderResponse.t;
  decode_payload_response : bytes → res GetPayloadResponse.t;
}.

(** ** The engine client *)
Module api.
Section engine.
Context {E : Type} `{!EngineServer E}.

Definition GetPayloadV1 (payloadId : bytes) : M E ExecutionPayloadV1.t :=
  call_getPayloadV1 payloadId.

Definition NewPayloadV1 (payload : ExecutionPayloadV1.t) : M E PayloadStatusV1.t :=
  call_newPayloadV1 payload.

(** Both results: on an error the result is the zero value. *)
Definition ForkchoiceUpdatedV1 (head safe finalized : bytes)
    (payload : option PayloadAttributesV1.t)
    : M E (ForkchoiceUpdatedResult.t * option error) := λ e,
  let heads := ForkchoiceStateV1.mk head safe finalized in
  match call_forkchoiceUpdatedV1 heads payload e with
  | (e, Ok result) => (e, Ok (result, None))
  | (e, Err err) =>
      (e, Ok (ForkchoiceUpdatedResult.mk (PayloadStatusV1.mk (ExecutionOther "") None []) None,
              Some err))
  | (e, Panic) => (e, Panic)
  end.
End engine.

(** ** The builder client *)
Section builder.
Context `{!SSZ, !Hasher, !Hexutil, !BLS, !Geth} {W : Type} `{!BuilderServer W, !ClientCodec}.

Definition non_200 : error := Errorf "builder REST API returned non-200 status code".

Definition BuilderRegisterValidators (msg : list SignedValidatorRegistration.t) : M W unit :=
  payload ← lift (encode_registrations msg);
  resp ← post_validators payload;
  if negb (StatusCode resp =? StatusOK)
  then fail (Errorf "builder REST API rejected validator registration with error")
  else mret tt.

Definition BuilderGetHeader (slot : Z) (blockHash pubkey : bytes)
    : M W (option ExecutionPayloadHeader.t) :=
  resp ← get_header (BigInt.String slot) (Bytes_MarshalText blockHash) (Bytes_MarshalText pubkey);
  if negb (StatusCode resp =? StatusOK) then fail non_200 else
  bid ← lift (decode_header_response (Http.body resp));
  data ← lift (deref (GetHeaderResponse.Data bid));
  message ← lift (deref (SignedBuilderBid.Message data));
  domain ← lift DomainBuilder;
  match VerifySignature message domain (BuilderBid.Pubkey message)
          (SignedBuilderBid.Signature data) with
  | Panic => lift Panic
  | Ok true => mret (BuilderBid.Header message)
  | _ => fail (Errorf "failed to verify header signature")
  end.

Definition BuilderGetPayload (signedBlindedBeaconBlock : SignedBlindedBeaconBlock.t)
    : M W ExecutionPayloadV1.t :=
  payloadBytes ← lift (encode_block signedBlindedBeaconBlock);
  resp ← post_blinded_block payloadBytes;
  if negb (StatusCode resp =? StatusOK) then fail non_200 else
  getPayloadResponse ← lift (decode_payload_response (Http.body resp));
  data ← lift (deref (GetPayloadResponse.Data getPayloadResponse));
  lift (RESTPayloadToELPayload data).
End builder.
End api.

(** ** The engine and the relay as peers *)

(** The RPC server recovers a panic of a method and answers with an error. *)
Definition rpc_method {S A} (m : M S A) : M S A := λ s,
  match m s with
  | (s, Panic) => (s, Err (Lib "method handler crashed"))
  | r => r
  end.

#[export] Instance engine_server `{!Geth, !LRU} : EngineServer EngineBackend := {
  call_getPayloadV1 id := rpc_method (Engine.GetPayloadV1 id);
  call_newPayloadV1 p := rpc_method (Engine.NewPayloadV1 (Some p));
  call_forkchoiceUpdatedV1 heads attr := rpc_method (Engine.ForkchoiceUpdatedV1 (Some heads) attr);
}.

(** A request to the relay runs its handler behind the middleware. *)
Definition serve `{!BLS, !Geth, !LRU} (handler : M (RelayBackend * responseWriter) unit)
    : M RelayBackend Response := λ r,
  let '(r, w, _) := LoggingMiddleware handler r empty_response in (r, Ok w).

#[export] Instance relay_server `{!Hasher, !Hexutil, !BLS, !Geth, !LRU, !RelayCodec} :
    BuilderServer RelayBackend := {
  post_validators req := serve (handleRegisterValidator req);
  get_header slot hash pubkey := serve (handleGetHeader slot hash pubkey);
  post_blinded_block req := serve (handleGetPayload req);
}.

(** What the development relies on of the two JSON codecs: what one side writes
    the other reads, extra data being limited to the 32 bytes its decoder accepts. *)
Definition bid_response (version : bytes) (b : BuilderBid.t) (sg : bytes) : GetHeaderResponse.t :=
  GetHeaderResponse.mk version (Some (SignedBuilderBid.mk (Some b) sg)).

Class WireLaws `{!SSZ, !Geth, !RelayCodec, !ClientCodec} : Prop := {
  wire_header v b h sg out :
    BuilderBid.Header b = Some h → len (ExecutionPayloadHeader.ExtraData h) ≤ 32 → wf b →
    len sg = 96 →
    encode_header_response (bid_response v b sg) = Ok out →
    decode_header_response out = Ok (bid_response v b sg);
  wire_block m body h sg :
    wf m → BlindedBeaconBlock.Body m = Some body →
    BlindedBeaconBlockBody.ExecutionPayloadHeader body = Some h →
    len (ExecutionPayloadHeader.ExtraData h) ≤ 32 → len sg = 96 →
    ∃ out, encode_block (SignedBlindedBeaconBlock.mk (Some m) sg) = Ok out ∧
      decode_block out = Ok (Some (SignedBlindedBeaconBlock.mk (Some m) sg));
  wire_payload v r p out :
    ELPayloadToRESTPayload p = Ok r → ExecutionPayloadV1.Wf p →
    encode_payload_response (GetPayloadResponse.mk v (Some r)) = Ok out →
    decode_payload_response out = Ok (GetPayloadResponse.mk v (Some r));
  wire_registrations l :
    Forall (λ reg, ptr wf (SignedValidatorRegistration.Message reg) ∧
              len (SignedValidatorRegistration.Signature reg) = 96) l →
    ∃ out, encode_registrations l = Ok out ∧ decode_registrations out = Ok l;
}.
