(* ===== verification/Router.v ===== *)
(** * The relay's routes

    [getRouter] of [relay.go]: the relay behind its HTTP router, and the requests
    the client of [api/builder.go] sends to it.  Matching a request against the
    routes is the business of [github.com/gorilla/mux], a parameter. *)

From Stdlib Require Import Strings.Byte.
From S2P Require Import Prelude Numeral BigInt Common Fastssz Hasher SszObject.
From S2P Require Import FixedContainers VarContainers BlockContainers Signing.
From S2P Require Import Geth Payload MockChain Cache Engine Http Relay RelayServing Api.
#[local] Open Scope Z_scope.
#[local] Open Scope go_scope.

(** ** The router *)

(** A route is a path template and a method.  [mux_match] is the route that a
    request matches, with the variables of its path; [mux_answer] what the router
    answers itself when there is none: an error, or a redirection to a cleaner
    path. *)
Class Mux := {
  mux_match : list (string * string) → string → bytes → option (nat * gmap string bytes);
  mux_answer : list (string * string) → string → bytes → responseWriter → responseWriter;
}.

Definition pathStatus : string := "/eth/v1/builder/status".
Definition pathRegisterValidator : string := "/eth/v1/builder/validators".
Definition pathGetHeader : string :=
  "/eth/v1/builder/header/{slot:[0-9]+}/{parent_hash:0x[a-fA-F0-9]+}/{pubkey:0x[a-fA-F0-9]+}".
Definition pathGetPayload : string := "/eth/v1/builder/blinded_blocks".

Section router.
Context `{!SSZ, !Hasher, !Hexutil, !BLS, !Geth, !LRU, !RelayCodec, !Mux}.
#[local] Notation Handler := (M (RelayBackend * responseWriter)).

(** [mux.Vars(req)[name]]. *)
Definition Vars (vars : gmap string bytes) (name : string) : bytes := default [] (vars !! name).

(** A handler with the path variables and the body of its request. *)
Definition routes : list (string * string * (gmap string bytes → bytes → Handler unit)) :=
  [(pathStatus, "GET"%string, λ _ _, handleStatus);
   (pathRegisterValidator, "POST"%string, λ _ req, handleRegisterValidator req);
   (pathGetHeader, "GET"%string, λ vars _,
      handleGetHeader (Vars vars "slot") (Vars vars "parent_hash") (Vars vars "pubkey"));
   (pathGetPayload, "POST"%string, λ _ req, handleGetPayload req)].

Definition route (method : string) (path req : bytes) : Handler unit :=
  let templates := fst <$> routes in
  match mux_match templates method path ≫= (λ '(i, vars), (., vars) <$> routes !! i) with
  | Some ((_, handler), vars) => handler vars req
  | None => respond (mux_answer templates method path)
  end.

(** The handler of the relay's server, and the response a client gets. *)
Definition getRouter (method : string) (path req : bytes) (r : RelayBackend) (w : Response)
    : RelayBackend * Response * log_line := LoggingMiddleware (route method path req) r w.

Definition relay_http (method : string) (path req : bytes) : M RelayBackend Response := λ r,
  let '(r, w, _) := getRouter method path req r empty_response in (r, Ok w).

(** The paths of the client's requests. *)
Definition header_path (slot hash pubkey : bytes) : bytes :=
  text_bytes "/eth/v1/builder/header/" ++ slot ++ text_bytes "/" ++ hash ++ text_bytes "/" ++ pubkey.

(** The relay as its client reaches it over HTTP. *)
Definition http_relay : BuilderServer RelayBackend := {|
  post_validators req := relay_http "POST" (text_bytes "/eth/v1/builder/validators") req;
  get_header slot hash pubkey := relay_http "GET" (header_path slot hash pubkey) [];
  post_blinded_block req := relay_http "POST" (text_bytes "/eth/v1/builder/blinded_blocks") req;
|}.
End router.

(** ** What the router does with plain paths

    A template whose segments are literal or one of the two patterns matches a path
    segment by segment; the first route that matches in path and method is taken. *)
Inductive segment :=
  | Literal (text : string)
  | Decimal (name : string)
  | HexText (name : string).

Definition segment_template (s : segment) : string :=
  match s with
  | Literal text => text
  | Decimal name => "{" +:+ name +:+ ":[0-9]+}"
  | HexText name => "{" +:+ name +:+ ":0x[a-fA-F0-9]+}"
  end%string.
Fixpoint template (l : list segment) : string :=
  match l with
  | [] => ""
  | s :: l => "/" +:+ segment_template s +:+ template l
  end%string.

(** Literal text, or a name, without characters of a meaning of their own. *)
Definition plain_char (c : byte) : bool :=
  negb (existsb (Byte.eqb c) [x2e; x2f; x3a; x7b; x7d; x25; x3f; x23]).
Definition plain (s : segment) : bool :=
  let text := match s with Literal text | Decimal text | HexText text => text end in
  negb (len (text_bytes text) =? 0) && forallb plain_char (text_bytes text).

(** The segments of a path that starts with a slash. *)
Fixpoint split_slash (b : bytes) : list bytes :=
  match b with
  | [] => [[]]
  | c :: b =>
      if bool_decide (c = x2f) then [] :: split_slash b else
      match split_slash b with
      | [] => [[c]]
      | part :: parts => (c :: part) :: parts
      end
  end.
Definition path_segments (path : bytes) : list bytes :=
  match path with
  | [] => []
  | c :: path => if bool_decide (c = x2f) then split_slash path else []
  end.

Definition is_digits (base : Z) (text : bytes) : bool :=
  negb (len text =? 0) && forallb (λ c, digit_value c <? base) text.
Definition match_segment (s : segment) (part : bytes) : option (gmap string bytes) :=
  match s with
  | Literal text => if bool_decide (part = text_bytes text) then Some ∅ else None
  | Decimal name => if is_digits 10 part then Some {[name := part]} else None
  | HexText name =>
      match part with
      | x30 :: x78 :: digits => if is_digits 16 digits then Some {[name := part]} else None
      | _ => None
      end
  end.
Fixpoint match_segments (l : list segment) (parts : list bytes) : option (gmap string bytes) :=
  match l, parts with
  | [], [] => Some ∅
  | s :: l, part :: parts =>
      vars ← match_segment s part;
      rest ← match_segments l parts;
      Some (vars ∪ rest)
  | _, _ => None
  end.

Definition no_match (path : bytes) (method : string) (t : string * string) : Prop :=
  t.2 ≠ method ∨
  ∃ l, t.1 = template l ∧ forallb plain l = true ∧ match_segments l (path_segments path) = None.

(** The names of a template's variables; the router refuses a name given twice. *)
Definition variables (l : list segment) : list string :=
  l ≫= (λ s, match s with Literal _ => [] | Decimal name | HexText name => [name] end).

Class MuxLaws `{!Mux} : Prop := {
  mux_first routes i l method path vars :
    routes !! i = Some (template l, method) → forallb plain l = true → NoDup (variables l) →
    match_segments l (path_segments path) = Some vars →
    Forall (no_match path method) (take i routes) →
    mux_match routes method path = Some (i, vars);
}.

(** ** Lemmas *)
Definition no_slash (part : bytes) : Prop := x2f ∉ part.
Definition join_path (parts : list bytes) : bytes := parts ≫= (x2f ::.).

Lemma no_slash_dec part :
  forallb (λ c, negb (bool_decide (c = x2f))) part = true → no_slash part.
Proof.
  intros Hp Hin. rewrite forallb_forall in Hp. apply list_elem_of_In, Hp in Hin.
  by rewrite bool_decide_true in Hin.
Qed.

Lemma split_slash_part part : no_slash part → split_slash part = [part].
Proof.
  induction part as [|c part IH]; [done|]. intros Hc. apply not_elem_of_cons in Hc as [Hne Hp].
  cbn [split_slash]. rewrite bool_decide_false by congruence. by rewrite IH.
Qed.

Lemma split_slash_app part rest :
  no_slash part → split_slash (part ++ x2f :: rest) = part :: split_slash rest.
Proof.
  induction part as [|c part IH]; [done|]. intros Hc. apply not_elem_of_cons in Hc as [Hne Hp].
  cbn [app split_slash]. rewrite bool_decide_false by congruence. by rewrite IH.
Qed.

Lemma path_segments_join part parts :
  no_slash part → Forall no_slash parts → path_segments (join_path (part :: parts)) = part :: parts.
Proof.
  intros Hp HF. change (split_slash (part ++ join_path parts) = part :: parts).
  revert part Hp. induction HF as [|q parts Hq HF IH]; intros part Hp.
  - change (join_path []) with (@nil byte). rewrite app_nil_r. by apply split_slash_part.
  - change (join_path (q :: parts)) with (x2f :: (q ++ join_path parts)).
    rewrite split_slash_app by done. by rewrite IH.
Qed.

Lemma is_digits_no_slash base text : base ≤ 16 → is_digits base text = true → no_slash text.
Proof.
  intros Hb Hd Hin. apply andb_true_iff in Hd as [_ Hd]. rewrite forallb_forall in Hd.
  apply list_elem_of_In in Hin. specialize (Hd _ Hin). change (digit_value x2f) with 63 in Hd. lia.
Qed.

(** The texts the client writes into a path match their patterns. *)
Lemma String_digits v : 0 ≤ v → is_digits 10 (BigInt.String v) = true.
Proof.
  intros Hv. destruct (decide (v = 0)) as [->|Hne]; [by vm_compute|]. unfold BigInt.String.
  rewrite (proj2 (Z.eqb_neq v 0)), (proj2 (Z.ltb_ge v 0)), Z.abs_eq by lia.
  destruct (dec_digits_head v ltac:(lia)) as (d & ds & Hd & _).
  pose proof (dec_digits_range v) as HF. unfold is_digits. rewrite Hd in HF |- *.
  apply andb_true_iff. split.
  - rewrite fmap_cons, len_cons. pose proof (len_nonneg (digit_char <$> ds)). lia.
  - apply forallb_forall. intros c Hc. apply list_elem_of_In, list_elem_of_fmap in Hc as (x & -> & Hx).
    rewrite Forall_forall in HF. destruct (digit_value_char x (HF x Hx)) as [-> _].
    specialize (HF x Hx). lia.
Qed.

Lemma hex_decode_digits ds b : hex_decode ds = Some b → b ≠ [] → is_digits 16 ds = true.
Proof.
  intros Hd Hb. unfold is_digits. apply andb_true_iff. split.
  { destruct ds; [by injection Hd as <-|]. rewrite len_cons. pose proof (len_nonneg ds). lia. }
  clear Hb. revert ds Hd. induction b as [|x b IH]; intros ds Hd.
  - destruct ds as [|c1 [|c2 ds]]; [done..|]. cbn in Hd. repeat case_match; try done.
    destruct (hex_decode ds); discriminate Hd.
  - destruct ds as [|c1 [|c2 ds]]; [done..|]. cbn [hex_decode] in Hd.
    destruct ((digit_value c1 <? 16) && (digit_value c2 <? 16)) eqn:Hc; [|done].
    destruct (hex_decode ds) as [b'|] eqn:Hb'; [|done]. injection Hd as _ <-.
    apply andb_true_iff in Hc as [H1 H2]. cbn [forallb]. rewrite H1, H2. by apply IH.
Qed.

Section routing.
Context `{!SSZ, !SSZLaws, !Hasher, !HasherModel, !Hexutil, !HexutilLaws, !BLS, !BLSLaws,
  !Geth, !GethLaws, !LRU, !LRULaws, !RelayCodec, !RelayCodecLaws, !ClientCodec, !Mux, !MuxLaws}.

Lemma route_first i l method handler path vars req :
  routes !! i = Some (template l, method, handler) → forallb plain l = true →
  NoDup (variables l) → match_segments l (path_segments path) = Some vars →
  Forall (no_match path method) (take i (fst <$> routes)) →
  route method path req = handler vars req.
Proof.
  intros Hi Hp Hnd Hm HF. unfold route. rewrite (mux_first _ i l _ _ vars); [|try done..].
  - cbn [mbind option_bind]. by rewrite Hi.
  - by rewrite list_lookup_fmap, Hi.
Qed.

(** The segments of the four templates. *)
Definition builder_path (l : list segment) : list segment :=
  Literal "eth" :: Literal "v1" :: Literal "builder" :: l.
Definition builder_parts (l : list bytes) : list bytes :=
  text_bytes "eth" :: text_bytes "v1" :: text_bytes "builder" :: l.

Lemma plain_builder_path l : forallb plain (builder_path l) = forallb plain l.
Proof. reflexivity. Qed.

Lemma match_builder_path l parts :
  match_segments (builder_path l) (builder_parts parts) = match_segments l parts.
Proof.
  change (match_segments (builder_path l) (builder_parts parts))
    with (v ← (v ← (v ← match_segments l parts; Some (∅ ∪ v)); Some (∅ ∪ v)); Some (∅ ∪ v)).
  destruct (match_segments l parts) as [v|]; [|done].
  cbn. by rewrite !(left_id_L ∅ (∪)).
Qed.

(** A client's header request reaches the handler with the texts the client sent. *)
Lemma route_header slot ds1 ds2 req :
  is_digits 10 slot = true → is_digits 16 ds1 = true → is_digits 16 ds2 = true →
  route "GET" (header_path slot (x30 :: x78 :: ds1) (x30 :: x78 :: ds2)) req
  = handleGetHeader slot (x30 :: x78 :: ds1) (x30 :: x78 :: ds2).
Proof.
  intros Hs Hd1 Hd2.
  assert (path_segments (header_path slot (x30 :: x78 :: ds1) (x30 :: x78 :: ds2))
    = builder_parts [text_bytes "header"; slot; x30 :: x78 :: ds1; x30 :: x78 :: ds2]) as Hpath.
  { etrans; [|apply (path_segments_join (text_bytes "eth"))].
    - f_equal. unfold header_path, join_path. cbn. by rewrite app_nil_r.
    - by apply no_slash_dec.
    - apply is_digits_no_slash in Hs; [|lia]. apply is_digits_no_slash in Hd1; [|lia].
      apply is_digits_no_slash in Hd2; [|lia].
      repeat (apply Forall_cons; split; [(by apply no_slash_dec) || (unfold no_slash in *; set_solver)|]).
      constructor. }
  set (vars := ({["slot" := slot]} ∪ ({["parent_hash" := x30 :: x78 :: ds1]}
    ∪ ({["pubkey" := x30 :: x78 :: ds2]} ∪ ∅))) : gmap string bytes).
  rewrite (route_first 2 (builder_path [Literal "header"; Decimal "slot"; HexText "parent_hash";
    HexText "pubkey"]) "GET" _ _ vars req eq_refl eq_refl); [done|..].
  - by vm_compute; repeat constructor; set_solver.
  - rewrite Hpath, match_builder_path. cbn [match_segments match_segment].
    rewrite Hs, Hd1, Hd2, bool_decide_true by done. cbn [mbind option_bind].
    by rewrite (left_id_L ∅ (∪)).
  - apply Forall_cons. split; [right|apply Forall_singleton; by left].
    exists (builder_path [Literal "status"]). split; [done|]. split; [done|].
    by rewrite Hpath, match_builder_path.
Qed.

(** The two requests with a body. *)
Lemma route_fixed i l method handler req :
  routes !! i = Some (template (builder_path [Literal l]), method, λ _, handler) →
  plain (Literal l) = true → no_slash (text_bytes l) →
  Forall (no_match (join_path (builder_parts [text_bytes l])) method) (take i (fst <$> routes)) →
  route method (join_path (builder_parts [text_bytes l])) req = handler req.
Proof.
  intros Hi Hl Hns HF. rewrite (route_first i _ method _ _ ∅ req Hi); [done|..|done].
  - by rewrite plain_builder_path; cbn [forallb]; rewrite Hl.
  - constructor.
  - unfold builder_parts. rewrite path_segments_join.
    + fold (builder_parts [text_bytes l]). rewrite match_builder_path. cbn [match_segments match_segment].
      rewrite bool_decide_true by done. cbn. by rewrite (left_id_L ∅ (∪)).
    + by apply no_slash_dec.
    + repeat (apply Forall_cons; split; [assumption || (by apply no_slash_dec)|]). constructor.
Qed.

Lemma route_validators req :
  route "POST" (text_bytes "/eth/v1/builder/validators") req = handleRegisterValidator req.
Proof.
  apply (route_fixed 1 "validators"); [done|done|by apply no_slash_dec|].
  apply Forall_singleton. by left.
Qed.

Lemma route_blinded_blocks req :
  route "POST" (text_bytes "/eth/v1/builder/blinded_blocks") req = handleGetPayload req.
Proof.
  apply (route_fixed 3 "blinded_blocks"); [done|done|by apply no_slash_dec|].
  do 2 (apply Forall_cons; split; [(by left) || right|]); [|apply Forall_singleton; by left].
  exists (builder_path [Literal "validators"]). split; [done|]. split; [done|].
  by vm_compute.
Qed.

Lemma relay_http_serve method path req handler :
  route method path req = handler → relay_http method path req = serve handler.
Proof. by intros <-. Qed.

(** Whatever the request, the relay takes a step of one of its handlers. *)
Lemma route_step method path req n r w :
  relay_step n r n (route method path req (r, w)).1.1.
Proof.
  unfold route. destruct (mux_match _ method path) as [[i vars]|]; [|apply (relay_status n r w)].
  cbn [mbind option_bind]. destruct i as [|[|[|[|i]]]]; cbn; constructor || apply (relay_status n r w).
Qed.
End routing.

(** ** Properties *)
Section properties.
Context `{!SSZ, !SSZLaws, !Hasher, !HasherModel, !Hexutil, !HexutilLaws, !BLS, !BLSLaws,
  !Geth, !GethLaws, !LRU, !LRULaws, !RelayCodec, !RelayCodecLaws, !ClientCodec, !Mux, !MuxLaws}.

(** The calls of the builder client to a given server. *)
Definition client_register (s : BuilderServer RelayBackend) := api.BuilderRegisterValidators.
Definition client_header (s : BuilderServer RelayBackend) := api.BuilderGetHeader.
Definition client_payload (s : BuilderServer RelayBackend) := api.BuilderGetPayload.

(** C40: every call of the builder client reaches the relay's handler through the
    paths it formats and the relay's routes, with the very texts it sent: the
    relay over HTTP and the handlers called directly answer each call alike and
    leave the same relay. *)
Theorem relay_over_http slot h P l b r :
  0 ≤ slot → h ≠ [] → P ≠ [] →
  client_register http_relay l r = client_register relay_server l r ∧
  client_header http_relay slot h P r = client_header relay_server slot h P r ∧
  client_payload http_relay b r = client_payload relay_server b r.
Proof.
  intros Hs Hh HP.
  destruct (hex_digits h) as (ds1 & Eh & Hd1). destruct (hex_digits P) as (ds2 & EP & Hd2).
  unfold client_register, client_header, client_payload, api.BuilderRegisterValidators,
    api.BuilderGetHeader, api.BuilderGetPayload.
  split; [|split].
  - rewrite !M_bind_eq. destruct (lift (encode_registrations l) r) as [r' [req|e|]]; [|done..].
    rewrite !M_bind_eq. cbn [post_validators http_relay relay_server].
    by rewrite (relay_http_serve _ _ _ _ (route_validators req)).
  - rewrite !M_bind_eq. cbn [get_header http_relay relay_server]. rewrite Eh, EP.
    by rewrite (relay_http_serve _ _ _ _ (route_header _ _ _ []
      (String_digits slot Hs) (hex_decode_digits _ _ Hd1 Hh) (hex_decode_digits _ _ Hd2 HP))).
  - rewrite !M_bind_eq. destruct (lift (encode_block b) r) as [r' [req|e|]]; [|done..].
    rewrite !M_bind_eq. cbn [post_blinded_block http_relay relay_server].
    by rewrite (relay_http_serve _ _ _ _ (route_blinded_blocks req)).
Qed.
End properties.
