(* ===== verification/RouterRef.v ===== *)
(** * A router that fulfils the contract of the relay's

    An executable instance of [Mux]: it reads the templates back into segments and
    takes the first route that matches. *)

From Stdlib Require Import Strings.Byte.
From S2P Require Import Prelude Numeral BigInt Common Http Router.
#[local] Open Scope Z_scope.
#[local] Open Scope go_scope.

(** ** Reading templates *)
Definition bytes_text : bytes → string := String.string_of_list_byte.

Fixpoint split_colon (b : bytes) : bytes * bytes :=
  match b with
  | [] => ([], [])
  | x3a :: b => ([], b)
  | c :: b => let '(name, pattern) := split_colon b in (c :: name, pattern)
  end.

Definition parse_segment (part : bytes) : segment :=
  match part with
  | x7b :: part =>
      let '(name, pattern) := split_colon part in
      if bool_decide (pattern = text_bytes "[0-9]+}") then Decimal (bytes_text name)
      else HexText (bytes_text name)
  | _ => Literal (bytes_text part)
  end.
Definition parse_template (t : string) : list segment :=
  parse_segment <$> path_segments (text_bytes t).

(** ** Matching *)
Fixpoint first_match (i : nat) (routes : list (string * string)) (method : string) (path : bytes)
    : option (nat * gmap string bytes) :=
  match routes with
  | [] => None
  | (t, m) :: routes =>
      match (if bool_decide (m = method)
             then match_segments (parse_template t) (path_segments path) else None) with
      | Some vars => Some (i, vars)
      | None => first_match (S i) routes method path
      end
  end.

#[export] Instance ref_mux : Mux := {|
  mux_match := first_match 0;
  mux_answer _ _ _ := http_Error (text_bytes "404 page not found") 404;
|}.

(** ** Templates are read back *)
Lemma text_bytes_app s1 s2 : text_bytes (s1 +:+ s2) = text_bytes s1 ++ text_bytes s2.
Proof. unfold text_bytes. induction s1 as [|c s1 IH]; [done|].
  change (Ascii.byte_of_ascii c :: String.list_byte_of_string (s1 +:+ s2)
    = Ascii.byte_of_ascii c :: (String.list_byte_of_string s1 ++ String.list_byte_of_string s2)).
  by rewrite IH.
Qed.

Lemma bytes_text_bytes s : bytes_text (text_bytes s) = s.
Proof. apply String.string_of_list_byte_of_string. Qed.

Lemma plain_char_ne c d : plain_char c = true → plain_char d = false → c ≠ d.
Proof. by intros Hc Hd ->; rewrite Hd in Hc. Qed.

Lemma plain_no c text : forallb plain_char text = true → plain_char c = false → c ∉ text.
Proof.
  intros Hp Hc Hin. rewrite forallb_forall in Hp. apply list_elem_of_In, Hp in Hin. congruence.
Qed.

Lemma split_colon_app name pattern : x3a ∉ name → split_colon (name ++ x3a :: pattern) = (name, pattern).
Proof.
  induction name as [|c name IH]; [done|]. intros Hc. apply not_elem_of_cons in Hc as [Hne Hn].
  destruct c; try done; cbn; by rewrite (IH Hn).
Qed.

Lemma no_slash_name pre name suf :
  no_slash (text_bytes pre) → forallb plain_char (text_bytes name) = true →
  no_slash (text_bytes suf) → no_slash (text_bytes (pre +:+ name +:+ suf)).
Proof.
  intros Hpre Hn Hsuf. pose proof (plain_no x2f _ Hn eq_refl). unfold no_slash in *.
  by rewrite !text_bytes_app, !not_elem_of_app.
Qed.

Lemma parse_segment_template s :
  plain s = true →
  parse_segment (text_bytes (segment_template s)) = s ∧ no_slash (text_bytes (segment_template s)).
Proof.
  intros Hp. assert (∀ name pattern, forallb plain_char (text_bytes name) = true →
    split_colon (text_bytes (name +:+ ":" +:+ pattern)) = (text_bytes name, text_bytes pattern))
    as Hsplit.
  { intros name pattern Hn. rewrite !text_bytes_app. apply split_colon_app. by eapply plain_no. }
  destruct s as [text|name|name]; apply andb_true_iff in Hp as [Hl Hp]; cbn [segment_template].
  - split; [|by eapply plain_no]. destruct (text_bytes text) as [|c b] eqn:Et; [done|].
    cbn [forallb] in Hp. apply andb_true_iff in Hp as [Hc _]. rewrite <- (bytes_text_bytes text), Et.
    by destruct c.
  - split.
    + change (parse_segment (x7b :: text_bytes (name +:+ ":" +:+ "[0-9]+}")) = Decimal name).
      unfold parse_segment. rewrite (Hsplit _ _ Hp). cbn. by rewrite bytes_text_bytes.
    + by apply no_slash_name; [apply no_slash_dec| |apply no_slash_dec].
  - split.
    + change (parse_segment (x7b :: text_bytes (name +:+ ":" +:+ "0x[a-fA-F0-9]+}")) = HexText name).
      unfold parse_segment. rewrite (Hsplit _ _ Hp). cbn. by rewrite bytes_text_bytes.
    + by apply no_slash_name; [apply no_slash_dec| |apply no_slash_dec].
Qed.

Lemma template_join l : text_bytes (template l) = join_path (text_bytes ∘ segment_template <$> l).
Proof. induction l as [|s l IH]; [done|]. cbn [template]. by rewrite !text_bytes_app, IH. Qed.

Lemma parse_template_eq l : forallb plain l = true → parse_template (template l) = l.
Proof.
  intros Hl. unfold parse_template. rewrite template_join. destruct l as [|s l]; [done|].
  assert (Forall (λ s, plain s = true) (s :: l)) as HF by 
    (by rewrite forallb_forall in Hl; apply Forall_forall; intros x Hx; apply Hl, list_elem_of_In).
  rewrite fmap_cons. rewrite path_segments_join.
  - rewrite <- fmap_cons, <- list_fmap_compose. rewrite <- (list_fmap_id (s :: l)) at 2.
    apply Forall_fmap_ext_1. eapply Forall_impl; [exact HF|]. intros x Hx.
    by apply parse_segment_template.
  - apply Forall_cons in HF as [Hs _]. by apply parse_segment_template.
  - apply Forall_cons in HF as [_ HF]. apply Forall_fmap. eapply Forall_impl; [exact HF|].
    intros x Hx. by apply parse_segment_template.
Qed.

#[export] Instance ref_mux_laws : MuxLaws.
Proof.
  split. intros routes i l method path vars Hi Hp _ Hm HF.
  change (first_match 0 routes method path = Some (i, vars)).
  assert (∀ k, first_match k routes method path = Some ((k + i)%nat, vars)) as Hk; [|apply (Hk 0%nat)].
  revert i Hi HF. induction routes as [|[t m] routes IH]; intros i Hi HF k; [done|].
  destruct i as [|i]; cbn [lookup list_lookup] in Hi.
  - injection Hi as -> ->. cbn [first_match]. rewrite bool_decide_true by done.
    by rewrite parse_template_eq, Hm, Nat.add_0_r.
  - cbn [take] in HF. apply Forall_cons in HF as [Hno HF]. cbn [first_match].
    assert ((if bool_decide (m = method)
             then match_segments (parse_template t) (path_segments path) else None) = None) as ->.
    { case_bool_decide as Hd; [|done]. destruct Hno as [Hno|(l' & Ht & Hp' & Hno)]; [done|].
      cbn in Ht. subst t. by rewrite parse_template_eq. }
    rewrite (IH i Hi HF). f_equal. f_equal. lia.
Qed.
