(* ===== verification/RelayRef.v ===== *)
(** * Codecs that fulfil the contracts of the relay and its client

    Executable instances of [RelayCodec] and [ClientCodec] that agree with each
    other: a message is the list of its fields, containers being serialized by
    their SSZ codec, and the list is written in stdpp's countable encoding, a bit
    a byte.  They stand for the JSON codecs of both sides. *)

From Stdlib Require Import Strings.Byte.
From S2P Require Import Prelude Numeral Fastssz FastsszRef SszObject.
From S2P Require Import FixedContainers VarContainers BlockContainers.
From S2P Require Import Common HexutilRef Signing Geth GethRef Payload Http Relay Api.
#[local] Open Scope Z_scope.
#[local] Open Scope go_scope.

(** ** Lists of byte strings as bytes *)
Fixpoint pos_bytes (p : positive) : bytes :=
  match p with
  | xH => []
  | xO p => x00 :: pos_bytes p
  | xI p => x01 :: pos_bytes p
  end.
Fixpoint bytes_pos (b : bytes) : positive :=
  match b with
  | [] => xH
  | x00 :: b => xO (bytes_pos b)
  | _ :: b => xI (bytes_pos b)
  end.

Definition pack (l : list bytes) : bytes := pos_bytes (encode l).
Definition malformed {A} : res A := Err (Lib "malformed message").
Definition unpack (b : bytes) : res (list bytes) :=
  match decode (bytes_pos b) with Some l => Ok l | None => malformed end.

Lemma unpack_pack l : unpack (pack l) = Ok l.
Proof.
  assert (∀ p, bytes_pos (pos_bytes p) = p) as Hp.
  { induction p as [p IH|p IH|]; cbn; [by rewrite IH..|done]. }
  unfold unpack, pack. by rewrite Hp, decode_encode.
Qed.

(** A pointer to a container: nil is the empty string. *)
Definition write_ptr {T} `{!Codec T} (p : option T) : bytes :=
  match p with
  | Some x => match marshalSSZTo x [] with Ok (_, out) => out | _ => [] end
  | None => []
  end.
Definition read_ptr {T} `{!Codec T} (b : bytes) : res (option T) :=
  match b with
  | [] => Ok None
  | _ => x ← unmarshalSSZ new b; Ok (Some x)
  end.

Lemma read_write_ptr {T} `{!Codec T, !CodecSpec T, !CodecLaws T} (x : T) :
  wf x → 0 < len (enc x) → read_ptr (write_ptr (Some x)) = Ok (Some x).
Proof.
  intros Hx Hl. unfold write_ptr. rewrite marshal_enc by done. rewrite app_nil_l.
  unfold read_ptr. pose proof (unmarshal_enc x Hx) as Hu.
  destruct (enc x) as [|b l]; [unfold len in Hl; cbn in Hl; lia|]. by rewrite Hu.
Qed.

(** ** The messages *)
Definition write_registration (reg : SignedValidatorRegistration.t) : list bytes :=
  [write_ptr (SignedValidatorRegistration.Message reg); SignedValidatorRegistration.Signature reg].
Fixpoint read_registrations (l : list bytes) : res (list SignedValidatorRegistration.t) :=
  match l with
  | [] => Ok []
  | m :: sg :: l =>
      m ← read_ptr m;
      regs ← read_registrations l;
      Ok (SignedValidatorRegistration.mk m sg :: regs)
  | _ => malformed
  end.

Definition write_payload (p : ExecutionPayloadREST.t) : list bytes :=
  [ExecutionPayloadREST.ParentHash p; ExecutionPayloadREST.FeeRecipient p;
   ExecutionPayloadREST.StateRoot p; ExecutionPayloadREST.ReceiptsRoot p;
   ExecutionPayloadREST.LogsBloom p; ExecutionPayloadREST.Random p;
   le_encode 8 (ExecutionPayloadREST.BlockNumber p); le_encode 8 (ExecutionPayloadREST.GasLimit p);
   le_encode 8 (ExecutionPayloadREST.GasUsed p); le_encode 8 (ExecutionPayloadREST.Timestamp p);
   ExecutionPayloadREST.ExtraData p; ExecutionPayloadREST.BaseFeePerGas p;
   ExecutionPayloadREST.BlockHash p] ++ ExecutionPayloadREST.Transactions p.
Definition read_payload (l : list bytes) : option ExecutionPayloadREST.t :=
  match l with
  | ph :: fr :: sr :: rr :: lb :: rd :: n :: gl :: gu :: ts :: ex :: bf :: bh :: txs =>
      Some (ExecutionPayloadREST.mk ph fr sr rr lb rd (le_decode n) (le_decode gl) (le_decode gu)
              (le_decode ts) ex bf bh txs)
  | _ => None
  end.

#[export] Instance ref_codec : RelayCodec := {
  decode_registrations b := l ← unpack b; read_registrations l;
  decode_block b :=
    l ← unpack b;
    match l with
    | [] => Ok None
    | [m; sg] => m ← read_ptr m; Ok (Some (SignedBlindedBeaconBlock.mk m sg))
    | _ => malformed
    end;
  encode_header_response x :=
    Ok (pack (GetHeaderResponse.Version x ::
      match GetHeaderResponse.Data x with
      | Some s => [write_ptr (SignedBuilderBid.Message s); SignedBuilderBid.Signature s]
      | None => []
      end));
  encode_payload_response x :=
    Ok (pack (GetPayloadResponse.Version x ::
      match GetPayloadResponse.Data x with Some p => write_payload p | None => [] end));
  version_Bellatrix := 2;
  error_text _ := text_bytes "error";
}.

#[export] Instance ref_client : ClientCodec := {
  encode_registrations regs := Ok (pack (concat (write_registration <$> regs)));
  encode_block b :=
    Ok (pack [write_ptr (SignedBlindedBeaconBlock.Message b);
              SignedBlindedBeaconBlock.Signature b]);
  decode_header_response b :=
    l ← unpack b;
    match l with
    | [v] => Ok (GetHeaderResponse.mk v None)
    | [v; m; sg] => m ← read_ptr m; Ok (GetHeaderResponse.mk v (Some (SignedBuilderBid.mk m sg)))
    | _ => malformed
    end;
  decode_payload_response b :=
    l ← unpack b;
    match l with
    | v :: l => Ok (GetPayloadResponse.mk v (read_payload l))
    | [] => malformed
    end;
}.

#[export] Instance ref_codec_laws : RelayCodecLaws.
Proof.
  split.
  - intros x. by eexists.
  - intros x. by eexists.
  - done.
  - intros h Hh.
    change (HexToHash (Bytes_MarshalText h)) with (pad_hash (Bytes_UnmarshalText [] (Bytes_MarshalText h)).1).
    rewrite hex_text. cbn [fst]. unfold pad_hash.
    assert (length h = 32%nat) as -> by (unfold len in Hh; lia). done.
Qed.

(** ** Reading what was written *)
#[local] Transparent BuilderBid.spec RegisterValidatorRequestMessage.spec BlindedBeaconBlock.spec.

Lemma bid_nonempty (b : BuilderBid.t) : wf b → 0 < len (enc b).
Proof.
  intros Hb. rewrite BuilderBid.BuilderBid_len by done. pose proof (len_nonneg (enc_ptr (BuilderBid.Header b))). lia.
Qed.

Lemma read_write_registrations l :
  Forall (λ reg, ptr wf (SignedValidatorRegistration.Message reg) ∧
            len (SignedValidatorRegistration.Signature reg) = 96) l →
  read_registrations (concat (write_registration <$> l)) = Ok l.
Proof.
  induction 1 as [|[m sg] l [Hm _] Hl IH]; [done|]. apply ptr_inv in Hm as (m' & Hm & Hw).
  cbn in Hm. subst m. rewrite fmap_cons. cbn [concat write_registration app read_registrations
    SignedValidatorRegistration.Message SignedValidatorRegistration.Signature].
  rewrite read_write_ptr; [|done|by rewrite (enc_len (T:=RegisterValidatorRequestMessage.t))].
  cbn [mbind res_bind]. by rewrite IH.
Qed.

Lemma block_nonempty (m : BlindedBeaconBlock.t) : wf m → 0 < len (enc m).
Proof.
  intros Hm. rewrite BlindedBeaconBlock.block_len by done.
  pose proof (len_nonneg (enc_ptr (BlindedBeaconBlock.Body m))). lia.
Qed.

Lemma read_write_payload p r :
  ELPayloadToRESTPayload p = Ok r → ExecutionPayloadV1.Wf p →
  read_payload (write_payload r) = Some r.
Proof.
  intros Hr (_ & _ & _ & _ & _ & _ & Hn & Hgl & Hgu & Hts & _).
  apply bind_Ok_inv in Hr as (fee & _ & [= <-]). unfold write_payload, read_payload, u64 in *. cbn.
  by rewrite !le_decode_encode by (change (256 ^ Z.of_nat 8) with (2 ^ 64); lia).
Qed.

#[export] Instance ref_wire_laws : WireLaws.
Proof.
  split.
  - intros v b h sg out _ _ Hb _ [= <-]. cbn [decode_header_response ref_client bid_response
      GetHeaderResponse.Version GetHeaderResponse.Data SignedBuilderBid.Message
      SignedBuilderBid.Signature]. rewrite unpack_pack. cbn [mbind res_bind].
    pose proof (read_write_ptr b Hb (bid_nonempty b Hb)) as Hrw. unfold write_ptr in Hrw.
    by rewrite Hrw.
  - intros m body h sg Hm _ _ _ _. eexists. split; [reflexivity|].
    cbn [decode_block ref_codec SignedBlindedBeaconBlock.Message SignedBlindedBeaconBlock.Signature].
    rewrite unpack_pack. cbn [mbind res_bind].
    by rewrite read_write_ptr by (done || by apply block_nonempty).
  - intros v r p out Hr Hp [= <-]. cbn [decode_payload_response ref_client
      GetPayloadResponse.Version GetPayloadResponse.Data]. rewrite unpack_pack.
    cbn [mbind res_bind]. by rewrite (read_write_payload p r).
  - intros l Hl. eexists. split; [reflexivity|]. cbn [decode_registrations ref_codec].
    rewrite unpack_pack. cbn [mbind res_bind]. by apply read_write_registrations.
Qed.
