(* ===== verification/Consensus.v ===== *)
(** * The consensus mock: proposals

    [consensus.go]: the mock consensus client's side of a proposal.  It obtains a
    payload from its engine or from a builder relay, checks it, processes it on
    its own chain, and sends it to the engine.  The engine and the relay are the
    interfaces of [Api]; the random numbers are a parameter. *)

From Stdlib Require Import Strings.Byte.
From S2P Require Import Prelude Numeral BigInt Common Fastssz Hasher SszObject.
From S2P Require Import FixedContainers VarContainers BlockContainers Signing.
From S2P Require Import Geth Payload MockChain Cache Engine Http Relay RelayServing.
From S2P Require Import Float64 Clock Behavior Api.
#[local] Open Scope Z_scope.
#[local] Open Scope go_scope.

Section consensus.
Context `{!SSZ, !Hasher, !Hexutil, !BLS, !Geth, !RelayCodec, !ClientCodec, !Platform, !Rand}.
Context {W E : Type} `{!BuilderServer W, !EngineServer E}.

Record validator := mk_validator { v_pk : bytes; v_sk : bls_secret_key }.

(** The configuration of a run. *)
Record ConsensusCmd := mk_cmd {
  BeaconGenesisTime : Z;
  SlotTime : Z;
  SlotsPerEpoch : Z;
  SlotBound : Z;
  BuilderAddr : bytes;
  cmd_genesisValidatorsRoot : bytes;
  behavior : ConsensusBehavior;
  validators : list validator;
}.

(** What changes during a run: the client's own chain, its random numbers, and
    the two peers. *)
Record World := mk_world {
  own_chain : MockChain;
  RNG : rng;
  builder_peer : W;
  engine_peer : E;
}.

Definition on_own_chain {A} (m : M MockChain A) : M World A := λ w,
  let '(c, r) := m (own_chain w) in (mk_world c (RNG w) (builder_peer w) (engine_peer w), r).
Definition on_builder {A} (m : M W A) : M World A := λ w,
  let '(b, r) := m (builder_peer w) in (mk_world (own_chain w) (RNG w) b (engine_peer w), r).
Definition on_engine {A} (m : M E A) : M World A := λ w,
  let '(e, r) := m (engine_peer w) in (mk_world (own_chain w) (RNG w) (builder_peer w) e, r).

Definition random_index (n : Z) : M World Z := λ w,
  if n <=? 0 then (w, Panic) else
  let '(g, v) := Int63n (RNG w) n in
  (mk_world (own_chain w) g (builder_peer w) (engine_peer w), Ok v).
Definition random_bytes (n : nat) : M World bytes := λ w,
  let '(g, b) := Read (RNG w) n in
  (mk_world (own_chain w) g (builder_peer w) (engine_peer w), Ok b).

(** The block the client proposes on a header. *)
Definition proposal_block (slot : Z) (header : option ExecutionPayloadHeader.t)
    : BlindedBeaconBlock.t :=
  BlindedBeaconBlock.mk slot 1 (zeros 32) (zeros 32)
    (Some (BlindedBeaconBlockBody.mk (zeros 96) (Some Eth1Data.zero) (zeros 32) [] [] [] [] []
             (Some SyncAggregate.zero) header)).

Section proposal.
Variable c : ConsensusCmd.

Definition getMockProposal (payloadId : bytes) (slot : Z) : M World ExecutionPayloadV1.t :=
  if bool_decide (BuilderAddr c ≠ []) then
    idx ← random_index (len (validators c));
    v ← lift (get_index (validators c) idx);
    w ← get;
    header ← on_builder (api.BuilderGetHeader slot
               (header_Hash (CurrentHeader (chain (own_chain w))))
               (pk_Marshal (sk_PublicKey (v_sk v))));
    let message := proposal_block slot header in
    domain ← lift (ComputeDomain DomainTypeBeaconProposer version_Bellatrix
                     (Some (cmd_genesisValidatorsRoot c)));
    root ← lift (ComputeSigningRoot message domain);
    let sig := sig_Marshal (sk_Sign (v_sk v) root) in
    let signature := Signature.FromSlice (zeros 96) sig in
    on_builder (api.BuilderGetPayload (SignedBlindedBeaconBlock.mk (Some message) signature))
  else on_engine (api.GetPayloadV1 payloadId).

(** [maybeExit(c.SlotBound)]: whether the process exits with status 1. *)
Inductive outcome := Continues | Exits.
Definition maybeExit (val : Z) : outcome := if negb (val =? 0) then Exits else Continues.

Definition mockProposal (payloadId : bytes) (slot : Z) (consensusFail : bool)
    : M World outcome :=
  payload ← attempt (getMockProposal payloadId slot);
  match payload with
  | inr _ => mret (maybeExit (SlotBound c))
  | inl payload =>
  match ValidateTimestamp (BeaconGenesisTime c) (SlotTime c)
          (ExecutionPayloadV1.Timestamp payload) slot with
  | Panic => lift Panic
  | Err _ => mret (maybeExit (SlotBound c))
  | Ok _ =>
  if consensusFail : bool then mret Continues else
  block ← attempt (on_own_chain (ProcessPayload payload));
  match block with
  | inr _ => mret (maybeExit (SlotBound c))
  | inl block =>
  res ← attempt (on_engine (api.NewPayloadV1 payload));
  match res with
  | inl st =>
      if decide (PayloadStatusV1.Status st = ExecutionValid) then mret Continues
      else mret (maybeExit (SlotBound c))
  | inr _ => mret (maybeExit (SlotBound c))
  end end end end.

(** The status of the call is only logged. *)
Definition mockExecution (block : Block) : M World unit :=
  match BlockToPayload block with
  | Panic => lift Panic
  | Err _ => mret tt
  | Ok payload => _ ← attempt (on_engine (api.NewPayloadV1 payload)); mret tt
  end.

Definition sendForkchoiceUpdated (latest safe final : bytes)
    (attributes : option PayloadAttributesV1.t) : M World (option bytes) :=
  '(result, _) ← on_engine (api.ForkchoiceUpdatedV1 latest safe final attributes);
  if decide (PayloadStatusV1.Status (ForkchoiceUpdatedResult.PayloadStatus result)
             ≠ ExecutionValid)
  then fail (Errorf "update not considered valid")
  else mret (ForkchoiceUpdatedResult.PayloadID result).

Definition makePayloadAttributes (slot : Z) : M World PayloadAttributesV1.t :=
  prevRandao ← random_bytes 32;
  mret (PayloadAttributesV1.mk (SlotTimestamp (BeaconGenesisTime c) (SlotTime c) slot)
          prevRandao (copy (zeros 20) [x13; x37])).
End proposal.
End consensus.

(** ** The text of a slot *)

(** Folding over decimal characters is folding over their digits. *)
Lemma fold_digit_chars ds a :
  Forall (λ d, 0 ≤ d < 10) ds →
  foldl (λ v c, v * 10 + digit_value c) a (digit_char <$> ds)
  = foldl (λ v d, v * 10 + d) a ds ∧
  forallb (λ c, digit_value c <? 10) (digit_char <$> ds) = true.
Proof.
  intros Hds. revert a. induction Hds as [|d ds Hd Hds IH]; intros a; [done|].
  destruct (digit_value_char d Hd) as [Hv _]. rewrite fmap_cons. cbn [foldl forallb].
  rewrite Hv. destruct (IH (a * 10 + d)) as [-> ->]. split; [done|].
  by rewrite (proj2 (Z.ltb_lt d 10)) by lia.
Qed.

(** A text that starts with a digit has no sign. *)
Lemma ParseInt_ok_unsigned ch s :
  digit_value ch < 10 →
  ParseInt_ok (ch :: s)
  = (foldl (λ v c, v * 10 + digit_value c) 0 (ch :: s) <? 2 ^ 63)
    && forallb (λ c, digit_value c <? 10) (ch :: s).
Proof.
  intros Hch. unfold ParseInt_ok.
  assert (match ch with x2d => (true, s) | x2b => (false, s) | _ => (false, ch :: s) end
          = (false, ch :: s)) as -> by (by destruct ch).
  rewrite (proj2 (Z.eqb_neq (len (ch :: s)) 0)).
  - cbn [negb andb]. apply andb_comm.
  - rewrite len_cons. pose proof (len_nonneg s). lia.
Qed.

(** The decimal text of an [int64] is accepted. *)
Lemma ParseInt_ok_String v : 0 ≤ v < 2 ^ 63 → ParseInt_ok (BigInt.String v) = true.
Proof.
  intros Hv. destruct (decide (v = 0)) as [->|Hne]; [by vm_compute|].
  unfold BigInt.String. rewrite (proj2 (Z.eqb_neq v 0)), (proj2 (Z.ltb_ge v 0)) by lia.
  rewrite Z.abs_eq by lia. destruct (dec_digits_head v ltac:(lia)) as (d & ds & Hd & Hr).
  pose proof (dec_digits_range v) as HF. pose proof (dec_digits_value v ltac:(lia)) as Hval.
  destruct (fold_digit_chars (dec_digits v) 0 HF) as [Hf Ha]. rewrite Hval in Hf.
  rewrite Hd in Hf, Ha |- *. rewrite fmap_cons in *.
  rewrite ParseInt_ok_unsigned by (rewrite (proj1 (digit_value_char d ltac:(lia))); lia).
  rewrite Hf, Ha, andb_true_r. apply Z.ltb_lt. lia.
Qed.

(** ** The builder client and the relay *)
#[local] Transparent BlindedBeaconBlock.spec BlindedBeaconBlockBody.spec Eth1Data.spec
  SyncAggregate.spec.
Section builder_flow.
Context `{!SSZ, !SSZLaws, !Hasher, !HasherModel, !Hexutil, !HexutilLaws, !BLS, !BLSLaws,
  !Geth, !GethLaws, !LRU, !LRULaws, !RelayCodec, !RelayCodecLaws, !ClientCodec, !WireLaws}.

Lemma proposal_block_wf slot h : u64 slot → wf h → wf (proposal_block slot (Some h)).
Proof.
  intros Hs Hh. repeat split; try apply Hs; try apply Hh; try apply Forall_nil_2; done.
Qed.

Lemma StatusCode_json logged wrote out :
  (StatusCode (inner (json_answer logged wrote out)) =? StatusOK) = true.
Proof. done. Qed.

Lemma BuilderGetHeader_relay slot h P p fee r :
  0 ≤ slot < 2 ^ 63 → len h = 32 → len P = 48 → keys_ok r → cached r h = Some p →
  len (ExecutionPayloadV1.ExtraData p) ≤ 32 →
  PayloadToPayloadHeader p = Ok (header_of p fee) → wf (header_of p fee) →
  api.BuilderGetHeader slot h P r
  = (with_pubkey (after_lookup r h) P, Ok (Some (header_of p fee))).
Proof.
  intros Hslot Hh HP Hk Hc Hx Hconv Hwf.
  destruct (handleGetHeader_run (BigInt.String slot) h P p fee r) as (out & Hout & Hrun);
    [by apply ParseInt_ok_String|done..|].
  unfold api.BuilderGetHeader. rewrite M_bind_eq.
  cbn [get_header relay_server]. unfold serve, LoggingMiddleware. fold fresh. rewrite Hrun.
  rewrite StatusCode_json. change (body _) with out. cbn [negb].
  assert (decode_header_response out = Ok (header_response r (header_of p fee))) as Hdec.
  { apply (wire_header _ _ (header_of p fee)); [done|done|by apply relay_bid_wf|apply bls_sig_len|done]. }
  unfold header_response in Hdec. mrun. rewrite Hdec. mrun.
  cbn [SignedBuilderBid.Message SignedBuilderBid.Signature GetHeaderResponse.Data deref].
  mrun. rewrite DomainBuilder_eq. mrun.
  cbn [SignedBuilderBid.Message SignedBuilderBid.Signature GetHeaderResponse.Data deref].
  pose proof (bid_signature_ok r (header_of p fee) Hk Hwf) as Hv.
  change (BuilderBid.Pubkey (relay_bid r (header_of p fee))) with (pk r).
  by rewrite Hv.
Qed.

Lemma BuilderGetPayload_relay slot vsk h p fee r :
  0 ≤ slot < 2 ^ 63 → keys_ok r → cached r h = Some p → ExecutionPayloadV1.Wf p →
  ExecutionPayloadV1.ParentHash p = h → wf (header_of p fee) →
  latestPubkey r = pk_Marshal (sk_PublicKey vsk) →
  let m := proposal_block slot (Some (header_of p fee)) in
  api.BuilderGetPayload (SignedBlindedBeaconBlock.mk (Some m)
    (sig_Marshal (sk_Sign vsk (signing_root m (proposer_domain r))))) r
  = (after_lookup r h, Ok p).
Proof.
  intros Hslot Hk Hc Hp Hpar Hwf Hlatest m.
  assert (wf m) as Hm by (apply proposal_block_wf; [unfold u64; lia|done]).
  set (sg := sig_Marshal _). destruct (ELPayload_roundtrip p Hp) as (rest & Hrest & Hback).
  destruct (wire_block m _ (header_of p fee) sg Hm eq_refl eq_refl) as (req & Hreq & Hdec);
    [apply Hp|apply bls_sig_len|].
  assert (VerifySignature m (proposer_domain r) (latestPubkey r) sg = Ok true) as Hv.
  { rewrite Hlatest. apply VerifySignature_sign; [done|]. by apply proposer_domain_eq. }
  pose proof (handleGetPayload_run req _ m _ (header_of p fee) r Hdec eq_refl eq_refl eq_refl) as Hrun.
  cbn [header_of ExecutionPayloadHeader.ParentHash SignedBlindedBeaconBlock.Signature] in Hrun.
  rewrite Hpar in Hrun. specialize (Hrun ltac:(rewrite <- Hpar; apply Hp) Hk Hv).
  cbv zeta in Hrun. rewrite Hc in Hrun. destruct (Hrun rest Hrest) as (out & Hout & Heq).
  unfold api.BuilderGetPayload. rewrite M_bind_eq. unfold lift at 1. rewrite Hreq, M_bind_eq.
  cbn [post_blinded_block relay_server]. unfold serve, LoggingMiddleware. fold fresh. rewrite Heq.
  rewrite StatusCode_json. change (body _) with out. cbn [negb]. mrun.
  rewrite (wire_payload _ rest p out Hrest Hp Hout). mrun.
  cbn [GetPayloadResponse.Data deref]. mrun. by rewrite Hback.
Qed.
End builder_flow.

(** ** Properties *)
Section gate.
Context `{!SSZ, !SSZLaws, !Hasher, !HasherModel, !Hexutil, !BLS, !Geth, !GethLaws, !RelayCodec,
  !ClientCodec, !Platform, !Rand}.
Context {W E : Type} `{!BuilderServer W, !EngineServer E}.

(** Whatever the builder answers, a header the client accepts from it came in
    a bid whose signature verifies in the builder domain under the key it names. *)
Theorem builder_header_verified slot h P (s s' : W) hd :
  api.BuilderGetHeader slot h P s = (s', Ok hd) →
  ∃ resp bid sg v,
    get_header (BigInt.String slot) (Bytes_MarshalText h) (Bytes_MarshalText P) s = (s', Ok resp) ∧
    StatusCode resp = StatusOK ∧
    decode_header_response (body resp)
    = Ok (GetHeaderResponse.mk v (Some (SignedBuilderBid.mk (Some bid) sg))) ∧
    VerifySignature bid builder_domain (BuilderBid.Pubkey bid) sg = Ok true ∧
    BuilderBid.Header bid = hd.
Proof.
  unfold api.BuilderGetHeader. rewrite M_bind_eq.
  destruct (get_header _ _ _ s) as [s1 [resp|e|]]; [|done..].
  destruct (StatusCode resp =? StatusOK) eqn:Hst; [|done]. cbn [negb]. mrun.
  destruct (decode_header_response (body resp)) as [[v [[[bid|] sg]|]]|e|] eqn:Hdec; try done.
  mrun. cbn [GetHeaderResponse.Data SignedBuilderBid.Message SignedBuilderBid.Signature deref].
  mrun. rewrite DomainBuilder_eq. mrun.
  cbn [SignedBuilderBid.Message SignedBuilderBid.Signature deref].
  destruct (VerifySignature bid builder_domain _ sg) as [[]|e|] eqn:Hv; [|done..].
  intros [= <- <-]. exists resp, bid, sg, v. apply Z.eqb_eq in Hst. done.
Qed.

(** C14: what reaches the engine in a proposal was checked first.  Either the
    engine is left as obtaining the payload left it, and so is the client's chain,
    or it is as [ProcessPayload] left it with an error; or the payload has the
    timestamp of its slot, the client's chain processed it to a block with the
    payload's hash, and the engine received exactly that payload. *)
Theorem proposal_gate c id slot failing (w w' : World (W:=W) (E:=E)) out :
  mockProposal c id slot failing w = (w', Ok out) →
  ∃ w1 r, getMockProposal c id slot w = (w1, r) ∧
    (w' = w1 ∨
     ∃ p, r = Ok p ∧ failing = false ∧
       ValidateTimestamp (BeaconGenesisTime c) (SlotTime c) (ExecutionPayloadV1.Timestamp p) slot
       = Ok tt ∧
       ((∃ e, ProcessPayload p (own_chain w1) = (own_chain w', Err e) ∧
          engine_peer w' = engine_peer w1 ∧ out = maybeExit (SlotBound c)) ∨
        (∃ b, ProcessPayload p (own_chain w1) = (own_chain w', Ok b) ∧
          block_Hash b = ExecutionPayloadV1.BlockHash p ∧
          engine_peer w' = (call_newPayloadV1 p (engine_peer w1)).1))).
Proof.
  unfold mockProposal. rewrite M_bind_eq. unfold attempt at 1.
  destruct (getMockProposal c id slot w) as [w1 r] eqn:Hget. intros Hrun.
  exists w1, r. split; [done|]. destruct r as [p|e|]; [|by injection Hrun as <- _; left|done].
  revert Hrun. destruct (ValidateTimestamp _ _ _ _) as [[]|e|] eqn:Hts;
    [|by intros [= <- _]; left|done].
  destruct failing; [by intros [= <- _]; left|]. rewrite M_bind_eq.
  unfold attempt at 1, on_own_chain.
  destruct (ProcessPayload p (own_chain w1)) as [ch [b|e|]] eqn:Hpp; [| |done].
  - rewrite M_bind_eq. unfold attempt, on_engine. cbn [engine_peer].
    change (api.NewPayloadV1 p) with (call_newPayloadV1 p).
    destruct (ProcessPayload_Ok_inv p _ _ b Hpp) as (_ & _ & Hbh & _).
    destruct (call_newPayloadV1 p (engine_peer w1)) as [e' [st|e|]] eqn:Hcall; [| |done].
    + intros Hrun. right. exists p. split; [done|]. split; [done|]. split; [done|].
      right. exists b. destruct (decide _); injection Hrun as <- _; by rewrite Hcall.
    + intros [= <- _]. right. exists p. split; [done|]. split; [done|]. split; [done|].
      right. exists b. by rewrite Hcall.
  - intros [= <- <-]. right. exists p. split; [done|]. split; [done|]. split; [done|].
    left. by exists e.
Qed.
End gate.

Section proposals.
Context `{!SSZ, !SSZLaws, !Hasher, !HasherModel, !Hexutil, !HexutilLaws, !BLS, !BLSLaws,
  !Geth, !GethLaws, !LRU, !LRULaws, !RelayCodec, !RelayCodecLaws, !ClientCodec, !WireLaws,
  !Platform, !Rand, !RandLaws}.
Context {E : Type} `{!EngineServer E}.

(** C13: with a relay whose engine built a payload on the client's head, obtaining
    a proposal through the relay returns that payload, whichever validator the
    random index picks: the header, the signed block and the payload pass
    through both HTTP exchanges, the client's chain and engine are untouched. *)
Theorem builder_proposal c id slot p (w : World (W:=RelayBackend) (E:=E)) :
  let head := header_Hash (CurrentHeader (chain (own_chain w))) in
  BuilderAddr c ≠ [] → validators c ≠ [] → 0 ≤ slot < 2 ^ 63 →
  keys_ok (builder_peer w) →
  cmd_genesisValidatorsRoot c = genesisValidatorsRoot (builder_peer w) →
  cached (builder_peer w) head = Some p → ExecutionPayloadV1.Wf p →
  ExecutionPayloadV1.ParentHash p = head →
  ∃ w', getMockProposal c id slot w = (w', Ok p) ∧
    own_chain w' = own_chain w ∧ engine_peer w' = engine_peer w.
Proof.
  intros head Haddr Hvals Hslot Hk Hgvr Hc Hp Hpar.
  destruct (PayloadToPayloadHeader_ok p Hp) as (fee & _ & _ & Hconv & Hwf).
  assert (len head = 32) as Hlen by (rewrite <- Hpar; apply Hp).
  unfold getMockProposal. rewrite bool_decide_true by done. rewrite M_bind_eq.
  unfold random_index. pose proof (len_nonneg (validators c)) as Hnn.
  assert (0 < len (validators c)) as Hpos.
  { destruct (validators c); [done|]. rewrite len_cons in *. pose proof (len_nonneg l). lia. }
  rewrite (proj2 (Z.leb_gt _ _)) by lia.
  pose proof (Int63n_range (RNG w) (len (validators c)) Hpos) as Hidx.
  destruct (Int63n (RNG w) (len (validators c))) as [g idx]. cbn in Hidx.
  destruct (lookup_lt_is_Some_2 (validators c) (Z.to_nat idx)) as [v Hv].
  { unfold len in *. lia. }
  unfold get_index. rewrite (proj2 (Z.leb_le 0 idx)), Hv by lia. mrun.
  cbn [own_chain]. fold head. unfold on_builder at 1. cbn [builder_peer].
  set (r := builder_peer w) in *. set (P := pk_Marshal (sk_PublicKey (v_sk v))).
  assert (len P = 48) as HP by apply bls_pk_len.
  rewrite (BuilderGetHeader_relay slot head P p fee r) by (done || apply Hp).
  set (r1 := with_pubkey (after_lookup r head) P).
  assert (keys_ok r1) as Hk1 by (destruct Hk as (? & _ & ?); done).
  destruct (proposer_domain_eq r Hk) as [Hd Hdl]. rewrite Hgvr, Hd. mrun.
  set (m := proposal_block slot (Some (header_of p fee))).
  assert (wf m) as Hm by (apply proposal_block_wf; [unfold u64; lia|done]).
  rewrite ComputeSigningRoot_eq by done. mrun. unfold on_builder. cbn [builder_peer].
  unfold Signature.FromSlice. rewrite copy_same by apply bls_sig_len.
  change (proposer_domain r) with (proposer_domain r1).
  pose proof (BuilderGetPayload_relay slot (v_sk v) head p fee r1 Hslot Hk1
    (cached_after_lookup r head head p Hc) Hp Hpar Hwf eq_refl) as Hpay.
  cbv zeta in Hpay. fold m in Hpay. rewrite Hpay. by eexists.
Qed.
End proposals.

Section stale.
Context `{!SSZ, !Hasher, !Hexutil, !BLS, !Geth, !RelayCodec, !ClientCodec, !Platform, !Rand}.
Context {W E : Type} `{!BuilderServer W, !EngineServer E}.

(** A payload requested for one slot cannot be proposed in another: when the
    payload id of an earlier slot is still pending, the proposal is dropped
    before the client's chain and the engine see it, and a bounded run exits
    with a failure. *)
Theorem stale_proposal_refused c id slot slot0 k p (w w1 : World (W:=W) (E:=E)) :
  SlotTime c = k * Second → 0 < k →
  0 ≤ slot → slot * (k * Second) < 2 ^ 63 → 0 ≤ slot0 → slot0 * (k * Second) < 2 ^ 63 →
  slot ≠ slot0 →
  getMockProposal c id slot w = (w1, Ok p) →
  ExecutionPayloadV1.Timestamp p = SlotTimestamp (BeaconGenesisTime c) (SlotTime c) slot0 →
  mockProposal c id slot false w = (w1, Ok (maybeExit (SlotBound c))).
Proof.
  intros Hst Hk Hs Hb Hs0 Hb0 Hne Hget Hts. unfold mockProposal.
  rewrite M_bind_eq. unfold attempt at 1. rewrite Hget.
  assert (ValidateTimestamp (BeaconGenesisTime c) (SlotTime c) (ExecutionPayloadV1.Timestamp p) slot
          = Err (Errorf "wrong timestamp")) as ->; [|done].
  rewrite Hts, Hst. by apply wrong_slot_refused.
Qed.
End stale.
