(* ===== verification/Startup.v ===== *)
(** * Starting the consensus mock

    [Run] of [consensus.go], up to the slot loop: the checks of the options, the
    identities of the validators, and their registration with the builder relay;
    the JWT secret both commands load ([loadJwtSecret] of [engine.go]), and the start
    of the engine ([EngineCmd.Run]).  The entropy and the clock are parameters. *)

From Stdlib Require Import Strings.Byte.
From S2P Require Import Prelude Numeral BigInt Common Fastssz Hasher SszObject.
From S2P Require Import FixedContainers VarContainers BlockContainers Signing.
From S2P Require Import Geth Payload MockChain Mining Cache Engine Http Relay RelayServing.
From S2P Require Import Float64 Clock Behavior Api Consensus.
#[local] Open Scope Z_scope.
#[local] Open Scope go_scope.

(** ** The JWT secret *)

(** [common.Hex2Bytes]: the bytes decoded before the first error. *)
Fixpoint Hex2Bytes (text : bytes) : bytes :=
  match text with
  | a :: b :: text =>
      if (digit_value a <? 16) && (digit_value b <? 16)
      then byte_of_Z (16 * digit_value a + digit_value b) :: Hex2Bytes text
      else []
  | _ => []
  end.

(** The secret in the contents of the file. *)
Definition loadJwtSecret (file : res bytes) : res bytes :=
  raw ← file;
  let jwt := Hex2Bytes raw in
  if negb (len jwt =? 32) then Err (Errorf "invalid length, expected 32-byte value") else Ok jwt.

(** ** Starting the engine *)
Section engine_start.
Context `{!Geth, !ChainStore, !LRU}.

Definition makeMockChain (dataDir genesisPath : bytes) : res MockChain :=
  db ← wrap_err "unable to open db" (NewDB dataDir);
  (NewMockChain genesisPath db).2.

(** [Run] of [EngineCmd], up to the servers: the secret they check tokens with and
    the backend they serve.  An error ends the process. *)
Definition EngineCmd_Run (jwtFile : res bytes) (dataDir genesisPath : bytes)
    : res (bytes * EngineBackend) :=
  jwt ← wrap_err "Unable to read JWT secret" (loadJwtSecret jwtFile);
  chain ← wrap_err "Unable to initialize mock chain" (makeMockChain dataDir genesisPath);
  backend ← wrap_err "Unable to initialize backend" (NewEngineBackend chain);
  Ok (jwt, backend).
End engine_start.

(** ** Validators *)

(** [blst.RandKey] and [time.Now().Unix()]: the outcome of the n-th call. *)
Class Entropy `{!BLS} := { RandKey : nat → res bls_secret_key; Now : nat → Z }.

Section startup.
Context `{!SSZ, !Hasher, !Hexutil, !BLS, !Geth, !RelayCodec, !ClientCodec, !ChainStore, !Entropy}.
Context {W : Type} `{!BuilderServer W}.

Definition registration_message (pk : bytes) (now : Z) : RegisterValidatorRequestMessage.t :=
  RegisterValidatorRequestMessage.mk (copy (zeros 20) [x42]) 30000000 (wrap64 now) pk.

(** The loop over the validators from the [i]-th on. *)
Fixpoint make_validators (i count : nat)
    : res (list SignedValidatorRegistration.t * list validator) :=
  match count with
  | O => Ok ([], [])
  | S count =>
      match RandKey i with
      | Panic => Panic
      | Err _ => Err (Errorf "unable to generate bls key pair")
      | Ok sk =>
          let pk := PublicKey.FromSlice (zeros 48) (pk_Marshal (sk_PublicKey sk)) in
          let msg := registration_message pk (Now i) in
          domain ← DomainBuilder;
          root ← ComputeSigningRoot msg domain;
          let sig := Signature.FromSlice (zeros 96) (sig_Marshal (sk_Sign sk root)) in
          '(registrations, validators) ← make_validators (S i) count;
          Ok (SignedValidatorRegistration.mk (Some msg) sig :: registrations,
              mk_validator pk sk :: validators)
      end
  end.

Definition Millisecond : Z := 1000000.

(** [Run]: [c] has the options; [validatorCount], [root] and [dataDir] are those it
    has no field for, [jwtFile] the contents of the secret's file, and [dial] the
    outcome of dialing the engine.  An unreadable secret ends the process, as an
    error does.  The result is the command the slot loop runs with, the secret and
    the database. *)
Definition Run (c : ConsensusCmd) (validatorCount : Z) (root dataDir : bytes)
    (jwtFile : res bytes) (dial : bytes → res unit) : M W (ConsensusCmd * bytes * Database) :=
  if SlotTime c <? 50 * Millisecond then fail (Errorf "slot time is too small") else
  jwtSecret ← lift (wrap_err "Unable to read JWT secret" (loadJwtSecret jwtFile));
  let genesisValidatorsRoot := HexToHash root in
  _ ← lift (dial jwtSecret);
  validators ← (if bool_decide (BuilderAddr c ≠ [])
                then '(registrations, validators) ←
                       lift (make_validators 0 (Z.to_nat (wrap_int64 validatorCount)));
                     _ ← api.BuilderRegisterValidators registrations;
                     mret validators
                else mret []);
  db ← lift (wrap_err "failed to open new db" (NewDB dataDir));
  mret (mk_cmd (BeaconGenesisTime c) (SlotTime c) (SlotsPerEpoch c) (SlotBound c) (BuilderAddr c)
          genesisValidatorsRoot (behavior c) validators, jwtSecret, db).
End startup.

(** ** Lemmas *)

Lemma Hex2Bytes_app text b rest :
  hex_decode text = Some b → Hex2Bytes (text ++ rest) = b ++ Hex2Bytes rest.
Proof.
  revert text. induction b as [|x b IH]; intros text Ht.
  - destruct text as [|c1 [|c2 text]]; [done..|]. cbn in Ht. repeat case_match; try done.
    destruct (hex_decode text); discriminate Ht.
  - destruct text as [|c1 [|c2 text]]; [done..|]. cbn [hex_decode] in Ht. cbn [app Hex2Bytes].
    destruct (_ && _); [|done]. destruct (hex_decode text) as [b'|] eqn:Hb; [|done].
    injection Ht as <- ->. by rewrite (IH text Hb).
Qed.

Section registration.
Context `{!SSZ, !SSZLaws, !Hasher, !HasherModel, !Hexutil, !BLS, !BLSLaws, !Geth, !LRU,
  !RelayCodec, !ClientCodec, !WireLaws, !Entropy}.

(** The keys the entropy yields from the [i]-th call on. *)
Fixpoint drawn_keys (i count : nat) : option (list bls_secret_key) :=
  match count with
  | O => Some []
  | S count =>
      match RandKey i, drawn_keys (S i) count with
      | Ok sk, Some sks => Some (sk :: sks)
      | _, _ => None
      end
  end.

Definition validator_of (sk : bls_secret_key) : validator :=
  mk_validator (pk_Marshal (sk_PublicKey sk)) sk.

(** The registration of a key, signed with it. *)
Definition registration_of (now : Z) (sk : bls_secret_key) : SignedValidatorRegistration.t :=
  let msg := registration_message (pk_Marshal (sk_PublicKey sk)) now in
  SignedValidatorRegistration.mk (Some msg)
    (sig_Marshal (sk_Sign sk (signing_root msg builder_domain))).

Lemma registration_message_wf sk now :
  wf (registration_message (pk_Marshal (sk_PublicKey sk)) now).
Proof.
  pose proof (bls_pk_len (sk_PublicKey sk)).
  assert (u64 (wrap64 now)) as Hts by (unfold u64, wrap64; apply Z.mod_pos_bound; lia).
  repeat split; try done; apply Hts.
Qed.

Lemma make_validators_eq i count sks :
  drawn_keys i count = Some sks →
  make_validators i count
  = Ok (imap (λ j sk, registration_of (Now (i + j)) sk) sks, validator_of <$> sks).
Proof.
  revert i sks. induction count as [|count IH]; intros i sks; cbn [drawn_keys make_validators].
  - by intros [= <-].
  - destruct (RandKey i) as [sk|e|]; [|done..].
    destruct (drawn_keys (S i) count) as [sks'|] eqn:Hd; [|done]. intros [= <-].
    rewrite DomainBuilder_eq. cbn [mbind res_bind].
    unfold PublicKey.FromSlice. rewrite copy_same by apply bls_pk_len.
    rewrite ComputeSigningRoot_eq by apply registration_message_wf || apply builder_domain_len.
    cbn [mbind res_bind]. rewrite (IH _ _ Hd). cbn [mbind res_bind].
    unfold Signature.FromSlice. rewrite copy_same by apply bls_sig_len.
    cbn [imap]. rewrite Nat.add_0_r. do 3 f_equal. apply imap_ext. intros j x _. cbn.
    by rewrite Nat.add_succ_r.
Qed.

(** A batch of registrations of distinct new keys is accepted as a whole. *)
Fixpoint register (regs : gmap bytes RegisterValidatorRequestMessage.t)
    (msgs : list RegisterValidatorRequestMessage.t) : gmap bytes RegisterValidatorRequestMessage.t :=
  match msgs with
  | [] => regs
  | m :: msgs => register (<[RegisterValidatorRequestMessage.Pubkey m := m]> regs) msgs
  end.

Definition signed (reg : SignedValidatorRegistration.t) (m : RegisterValidatorRequestMessage.t)
    : Prop :=
  SignedValidatorRegistration.Message reg = Some m ∧
  VerifySignature m builder_domain (RegisterValidatorRequestMessage.Pubkey m)
    (SignedValidatorRegistration.Signature reg) = Ok true.

Lemma batch_run_accepts regs l regs' rest msgs :
  batch_run regs l regs' rest → Forall2 signed l msgs →
  NoDup (RegisterValidatorRequestMessage.Pubkey <$> msgs) →
  (∀ m, m ∈ msgs → regs !! RegisterValidatorRequestMessage.Pubkey m = None) →
  rest = [] ∧ regs' = register regs msgs.
Proof.
  intros Hrun. revert msgs. induction Hrun as [regs|regs reg l Hno|regs reg m l regs' rest Hacc Hrun IH];
    intros msgs HF Hnd Hnew.
  - by apply Forall2_nil_inv_l in HF as ->.
  - apply Forall2_cons_inv_l in HF as (m & msgs' & [Hm Hv] & _ & ->). destruct (Hno m).
    split; [done|]. split; [done|]. intros prefs Hp. rewrite Hnew in Hp by constructor. done.
  - apply Forall2_cons_inv_l in HF as (m' & msgs' & [Hm Hv] & HF & ->).
    destruct Hacc as (Hm' & _). rewrite Hm in Hm'. injection Hm' as ->.
    rewrite fmap_cons in Hnd. apply NoDup_cons in Hnd as [Hni Hnd].
    apply (IH msgs'); [done|done|]. intros m'' Hin. rewrite lookup_insert_ne.
    + apply Hnew. by constructor.
    + intros Heq. apply Hni. rewrite Heq. by apply list_elem_of_fmap_2.
Qed.

Lemma register_other regs msgs k :
  k ∉ RegisterValidatorRequestMessage.Pubkey <$> msgs → register regs msgs !! k = regs !! k.
Proof.
  revert regs. induction msgs as [|m msgs IH]; intros regs Hk; [done|]. cbn [register].
  rewrite fmap_cons in Hk. apply not_elem_of_cons in Hk as [Hne Hk].
  rewrite IH by done. by apply lookup_insert_ne.
Qed.

Lemma register_lookup regs msgs m :
  NoDup (RegisterValidatorRequestMessage.Pubkey <$> msgs) → m ∈ msgs →
  register regs msgs !! RegisterValidatorRequestMessage.Pubkey m = Some m.
Proof.
  revert regs. induction msgs as [|m' msgs IH]; intros regs Hnd Hin; [by apply elem_of_nil in Hin|].
  rewrite fmap_cons in Hnd. apply NoDup_cons in Hnd as [Hni Hnd]. cbn [register].
  apply elem_of_cons in Hin as [->|Hin]; [|by apply IH].
  rewrite register_other by done. apply lookup_insert_eq.
Qed.

(** The relay's answer to such a batch. *)
Lemma BuilderRegisterValidators_relay l msgs r :
  Forall2 signed l msgs → Forall wf msgs →
  Forall (λ reg, len (SignedValidatorRegistration.Signature reg) = 96) l →
  NoDup (RegisterValidatorRequestMessage.Pubkey <$> msgs) →
  (∀ m, m ∈ msgs → registrations r !! RegisterValidatorRequestMessage.Pubkey m = None) →
  api.BuilderRegisterValidators l r
  = (with_registrations r (register (registrations r) msgs), Ok tt).
Proof.
  intros HF Hwf Hlen Hnd Hnew.
  assert (Forall (λ reg, ptr wf (SignedValidatorRegistration.Message reg)) l) as Hl.
  { clear Hlen Hnd Hnew. induction HF as [|reg m l msgs [Hm _] HF IH]; [constructor|].
    apply Forall_cons in Hwf as [Hw Hwf]. constructor; [by rewrite Hm|by apply IH]. }
  destruct (wire_registrations l) as (req & Hreq & Hdec).
  { apply Forall_forall. intros reg Hin.
    by split; [eapply Forall_forall in Hl|eapply Forall_forall in Hlen]. }
  destruct (register_all_spec l r fresh Hl) as (regs' & rest & out & Hb & Hrun & Hout & _).
  destruct (batch_run_accepts _ _ _ _ _ Hb HF Hnd Hnew) as [-> ->].
  destruct out as [msg|]; [discriminate (proj2 Hout eq_refl)|].
  unfold api.BuilderRegisterValidators. rewrite M_bind_eq. unfold lift at 1. rewrite Hreq, M_bind_eq.
  cbn [post_validators relay_server]. unfold serve, LoggingMiddleware. fold fresh.
  unfold handleRegisterValidator. rewrite Hdec, M_bind_eq, Hrun. done.
Qed.
End registration.

(** ** Properties *)

(** The secret must be 64 hex digits; what follows them is ignored when it is
    a single character, such as a newline, and a prefix such as [0x] is refused. *)
Theorem jwt_secret_spec text b rest :
  hex_decode text = Some b →
  loadJwtSecret (Ok (text ++ rest))
  = (if len b + len (Hex2Bytes rest) =? 32 then Ok (b ++ Hex2Bytes rest)
     else Err (Errorf "invalid length, expected 32-byte value")) ∧
  (len b = 32 → ∀ c, loadJwtSecret (Ok (text ++ [c])) = Ok b) ∧
  loadJwtSecret (Ok (x30 :: x78 :: text)) = Err (Errorf "invalid length, expected 32-byte value").
Proof.
  intros Ht. unfold loadJwtSecret. cbn [mbind res_bind]. split; [|split].
  - rewrite (Hex2Bytes_app _ _ rest Ht), len_app. by destruct (_ =? 32).
  - intros Hlen c. rewrite (Hex2Bytes_app _ _ [c] Ht), len_app, Hlen. cbn [Hex2Bytes].
    rewrite app_nil_r. done.
  - done.
Qed.

(** A command that starts: the secret, the chain it opened and the backend on it. *)
Lemma EngineCmd_Run_inv `{!Geth, !ChainStore, !LRU} jwtFile dataDir genesisPath jwt e :
  EngineCmd_Run jwtFile dataDir genesisPath = Ok (jwt, e) →
  loadJwtSecret jwtFile = Ok jwt ∧ NewEngineBackend (mockChain e) = Ok e ∧
  ∃ db, NewDB dataDir = Ok db ∧ (NewMockChain genesisPath db).2 = Ok (mockChain e).
Proof.
  unfold EngineCmd_Run. intros Hrun.
  destruct (loadJwtSecret jwtFile) as [j|?|] eqn:Hj; [|done..]. cbn in Hrun.
  unfold makeMockChain in Hrun. destruct (NewDB dataDir) as [db|?|]; [|done..]. cbn in Hrun.
  destruct (NewMockChain genesisPath db) as [db' [c|?|]] eqn:Hc; [|done..]. cbn in Hrun.
  destruct (NewEngineBackend c) as [b|?|] eqn:Hb; [|done..]. injection Hrun as -> ->.
  assert (mockChain e = c) as Hm.
  { revert Hb. unfold NewEngineBackend. destruct (lru_New 10) as [ca|?|]; [|done..].
    by intros [= <-]. }
  rewrite Hm. split; [done|]. split; [done|]. exists db. by rewrite Hc.
Qed.

(** The engine that the command starts has a 32-byte secret and is at the start of a
    run on the chain it opened. *)
Theorem engine_starts `{!Geth, !ChainStore, !LRU, !LRULaws} jwtFile dataDir genesisPath jwt e :
  EngineCmd_Run jwtFile dataDir genesisPath = Ok (jwt, e) →
  len jwt = 32 ∧ engine_run (mockChain e) 0 e ∧ engine_inv 0 e ∧
  ∃ db, NewDB dataDir = Ok db ∧ (NewMockChain genesisPath db).2 = Ok (mockChain e).
Proof.
  intros Hrun. destruct (EngineCmd_Run_inv _ _ _ _ _ Hrun) as (Hj & Hb & Hdb). split.
  { revert Hj. unfold loadJwtSecret. destruct jwtFile as [raw|?|]; [|done..]. cbn.
    destruct (Z.eqb_spec (len (Hex2Bytes raw)) 32); [|done]. by intros [= <-]. }
  split; [by apply run_start|]. split; [by eapply engine_new_inv|done].
Qed.

Section run.
Context `{!SSZ, !SSZLaws, !Hasher, !HasherModel, !Hexutil, !BLS, !BLSLaws, !Geth, !LRU,
  !RelayCodec, !ClientCodec, !WireLaws, !ChainStore, !Entropy}.

(** C24: a consensus mock that starts with a relay as its builder ends up with one
    validator per key drawn, all of them registered with the relay under their
    keys with the message they signed, and every other registration untouched,
    provided the keys are distinct and new to the relay. *)
Theorem run_registers_validators c count root dataDir file dial jwt db sks (r : RelayBackend) :
  50 * Millisecond ≤ SlotTime c → BuilderAddr c ≠ [] →
  loadJwtSecret file = Ok jwt → dial jwt = Ok tt → NewDB dataDir = Ok db →
  drawn_keys 0 (Z.to_nat (wrap_int64 count)) = Some sks →
  NoDup ((λ sk, pk_Marshal (sk_PublicKey sk)) <$> sks) →
  (∀ sk, sk ∈ sks → registrations r !! pk_Marshal (sk_PublicKey sk) = None) →
  ∃ regs' c', Run c count root dataDir file dial r
    = (with_registrations r regs', Ok (c', jwt, db)) ∧
    validators c' = validator_of <$> sks ∧ cmd_genesisValidatorsRoot c' = HexToHash root ∧
    (∀ i sk, sks !! i = Some sk →
       regs' !! pk_Marshal (sk_PublicKey sk)
       = Some (registration_message (pk_Marshal (sk_PublicKey sk)) (Now i))) ∧
    (∀ k, k ∉ (λ sk, pk_Marshal (sk_PublicKey sk)) <$> sks → regs' !! k = registrations r !! k).
Proof.
  intros Hst Haddr Hjwt Hdial Hdb Hkeys Hnd Hnew.
  set (msgs := imap (λ i sk, registration_message (pk_Marshal (sk_PublicKey sk)) (Now i)) sks).
  assert (RegisterValidatorRequestMessage.Pubkey <$> msgs
          = (λ sk, pk_Marshal (sk_PublicKey sk)) <$> sks) as Hpub.
  { unfold msgs. rewrite fmap_imap. apply imap_const. }
  exists (register (registrations r) msgs). eexists. split; [|split; [|split; [|split]]].
  - unfold Run. rewrite (proj2 (Z.ltb_ge _ _)) by done. mrun. rewrite Hjwt. cbn [wrap_err]. mrun.
    rewrite Hdial, bool_decide_true by done. mrun.
    rewrite (make_validators_eq _ _ _ Hkeys). mrun.
    rewrite (BuilderRegisterValidators_relay _ msgs r).
    + mrun. rewrite Hdb. cbn [wrap_err]. mrun. reflexivity.
    + unfold msgs. apply Forall2_same_length_lookup. rewrite !length_imap. split; [done|].
      intros i reg m. rewrite !list_lookup_imap. destruct (sks !! i) as [sk|]; [|done].
      intros [= <-] [= <-]. split; [done|]. apply VerifySignature_sign;
        [apply registration_message_wf|apply builder_domain_len].
    + apply Forall_lookup. intros i m. unfold msgs. rewrite list_lookup_imap.
      destruct (sks !! i) as [sk|]; [|done]. intros [= <-]. apply registration_message_wf.
    + apply Forall_lookup. intros i reg. rewrite list_lookup_imap.
      destruct (sks !! i) as [sk|]; [|done]. intros [= <-]. apply bls_sig_len.
    + by rewrite Hpub.
    + intros m Hin. apply (list_elem_of_fmap_2 RegisterValidatorRequestMessage.Pubkey) in Hin.
      rewrite Hpub in Hin. apply list_elem_of_fmap in Hin as (sk & -> & Hin). by apply Hnew.
  - done.
  - done.
  - intros i sk Hi. set (m := registration_message _ _).
    change (pk_Marshal (sk_PublicKey sk)) with (RegisterValidatorRequestMessage.Pubkey m).
    apply register_lookup; [by rewrite Hpub|]. apply list_elem_of_lookup. exists i.
    unfold msgs. by rewrite list_lookup_imap, Hi.
  - intros k Hk. apply register_other. by rewrite Hpub.
Qed.
End run.
