(* ===== verification/SlotLoop.v ===== *)
(** * The consensus mock: the slot loop

    [RunNode] of [consensus.go]: what the mock consensus client does at every tick
    of its slot clock, and the goroutines it starts.  The loop and its goroutines
    share the client's chain, its random numbers, its peers and the channel of
    pending payload ids; a run is any interleaving of ticks and of goroutine
    steps.  Shutting down is not part of a run. *)

From Stdlib Require Import Strings.Byte Floats.SpecFloat.
From S2P Require Import Prelude Numeral BigInt Common Fastssz Hasher SszObject.
From S2P Require Import FixedContainers VarContainers BlockContainers Signing.
From S2P Require Import Geth Payload MockChain Cache Engine Http Relay RelayServing.
From S2P Require Import Float64 Clock Behavior Api Consensus.
#[local] Open Scope Z_scope.
#[local] Open Scope go_scope.

Section loop.
Context `{!SSZ, !Hasher, !Hexutil, !BLS, !Geth, !RelayCodec, !ClientCodec, !Platform, !Rand}.
Context {W E : Type} `{!BuilderServer W, !EngineServer E}.

(** ** The state of a run *)

(** A goroutine the loop started, at the point where it goes on: it sends the
    payload with the invalid hash; makes a proposal; sends a mocked block to the
    engine; or, having sent it, updates the engine's forkchoice. *)
Inductive goroutine :=
  | GoInvalidHash (payload : ExecutionPayloadV1.t)
  | GoProposal (id : bytes) (slot : Z)
  | GoExecution (block : Block) (safe final : bytes) (slot : Z)
  | GoForkchoice (latest safe final : bytes) (slot : Z).

(** How the process ended: [os.Exit] or an unrecovered panic. *)
Inductive ending := Exited (code : Z) | Crashed.

(** The variables of [RunNode].  [payloadId] is an unbuffered channel: [senders]
    are the ids of the goroutines that wait to send on it, in the order in which
    they arrived.  Sending is the last thing a goroutine does, so one that waits is
    no longer among [goroutines], those that can go on. *)
Record Node := mk_node {
  world : World (W:=W) (E:=E);
  finalizedHash : bytes;
  safeHash : bytes;
  nextFinalized : bytes;
  senders : list bytes;
  goroutines : list goroutine;
  ended : option ending;
}.

Definition with_world (n : Node) (w : World) : Node :=
  mk_node w (finalizedHash n) (safeHash n) (nextFinalized n) (senders n) (goroutines n) (ended n).
Definition with_finality (n : Node) (final safe next : bytes) : Node :=
  mk_node (world n) final safe next (senders n) (goroutines n) (ended n).
Definition with_senders (n : Node) (ids : list bytes) : Node :=
  mk_node (world n) (finalizedHash n) (safeHash n) (nextFinalized n) ids (goroutines n) (ended n).
Definition with_goroutines (n : Node) (gs : list goroutine) : Node :=
  mk_node (world n) (finalizedHash n) (safeHash n) (nextFinalized n) (senders n) gs (ended n).
Definition with_ended (n : Node) (e : option ending) : Node :=
  mk_node (world n) (finalizedHash n) (safeHash n) (nextFinalized n) (senders n) (goroutines n) e.

(** [c.mockChain.CurrentHeader()] and [c.mockChain.chain]. *)
Definition node_chain (n : Node) : BlockChain := chain (own_chain (world n)).
Definition head_header (n : Node) : Header.t := CurrentHeader (node_chain n).
Definition head_hash (n : Node) : bytes := header_Hash (head_header n).

(** ** Effects *)
Definition on_world {A} (m : M (World (W:=W) (E:=E)) A) : M Node A := λ n,
  let '(w, r) := m (world n) in (with_world n w, r).
Definition random {A} (f : rng → rng * A) : M Node A := on_world (λ w : World,
  let '(g, a) := f (RNG w) in (mk_world (own_chain w) g (builder_peer w) (engine_peer w), Ok a)).
Definition exit (code : Z) : M Node unit := λ n, (with_ended n (Some (Exited code)), Ok tt).
Definition go (g : goroutine) : M Node unit := λ n,
  (with_goroutines n (goroutines n ++ [g]), Ok tt).

(** [select { case id := <-payloadId: ...; default: ... }]. *)
Definition receive_pending : M Node (option bytes) := λ n,
  match senders n with
  | [] => (n, Ok None)
  | id :: ids => (with_senders n ids, Ok (Some id))
  end.
(** [payloadId <- *id]: the goroutine waits, possibly for ever, as a sender. *)
Definition send_pending (id : bytes) : M Node unit := λ n,
  (with_senders n (senders n ++ [id]), Ok tt).

(** [c.RNG.Float64() < freq]. *)
Definition happens (freq : spec_float) : M Node bool :=
  x ← random Float64;
  mret (float64_lt x freq).

Section node.
Variable c : ConsensusCmd.
Variable transitionBlock : Z.

(** ** A tick *)

(** [tick.Sub(genesisTime)]: a [Duration], which saturates. *)
Definition since_genesis (tick : Z) : Z :=
  Z.max (- 2 ^ 63) (Z.min (2 ^ 63 - 1) (tick - wrap_int64 (BeaconGenesisTime c) * Second)).

(** [tick] is the time in nanoseconds since the Unix epoch. *)
Definition slot_of_tick (tick : Z) : Z :=
  int64_of_round (float64_div (float64_of_int (since_genesis tick)) (float64_of_int (SlotTime c))).

(** The payload of the branch that sends a bad hash; what it does not set is zero. *)
Definition invalid_hash_payload (head : Header.t) : ExecutionPayloadV1.t :=
  ExecutionPayloadV1.mk (header_Hash head) (zeros 20) (zeros 32) (zeros 32) (zeros 256) (zeros 32)
    (wrap64 (Header.Number head)) (Header.GasLimit head) 0 (wrap64 (Header.Time head + 1)) []
    (Header.BaseFee head) (HexToHash (text_bytes "0xdeadbeef")) [].

Definition finalize_epoch : M Node unit := λ n,
  (with_finality n (nextFinalized n) (nextFinalized n) (head_hash n), Ok tt).

(** The lowest block a reorg may go back to. *)
Definition reorg_min (n : Node) : Z :=
  match GetHeaderByHash (node_chain n) (finalizedHash n) with
  | Some final =>
      let num := wrap64 (Header.Number final) in
      if transitionBlock <? num then num else transitionBlock
  | None => transitionBlock
  end.

Definition choose_parent : M Node (option Header.t) :=
  n ← get;
  reorg ← happens (ReorgFreq (Freq (behavior c)));
  if reorg : bool
  then random (calcReorgTarget (behavior c) (node_chain n) (wrap64 (Header.Number (head_header n)))
                 (reorg_min n))
  else mret (Some (head_header n)).

(** Building a block without the engine.  [parent.Hash()] of a nil header is the
    hash of an empty list; [parent.GasLimit] panics. *)
Definition external_block (parent : option Header.t) (slot : Z) : M Node unit :=
  let coinbase := copy (zeros 20) [x01] in
  let timestamp := SlotTimestamp (BeaconGenesisTime c) (SlotTime c) slot in
  parent ← lift (deref parent);
  n ← get;
  let gasLimit := Header.GasLimit parent in
  let extraData := text_bytes "proto says hi" in
  let creator := λ statedb header,
    dummyTxCreator (config (own_chain (world n))) statedb header (accounts (behavior c)) in
  block ← attempt (on_world (on_own_chain (AddNewBlock (header_Hash parent) coinbase timestamp
                     gasLimit creator (zeros 32) extraData [] true)));
  match block with
  | inr _ => mret tt
  | inl block => go (GoExecution block (safeHash n) (finalizedHash n) slot)
  end.

Definition on_slot (slot : Z) : M Node unit :=
  gap ← happens (GapSlot (Freq (behavior c)));
  if gap : bool then _ ← receive_pending; mret tt else
  bad ← happens (InvalidHashFreq (Freq (behavior c)));
  if bad : bool then n ← get; go (GoInvalidHash (invalid_hash_payload (head_header n))) else
  parent ← choose_parent;
  id ← receive_pending;
  match id with
  | Some id => go (GoProposal id slot)
  | None => external_block parent slot
  end.

Definition on_tick (tick : Z) : M Node unit :=
  let signedSlot := slot_of_tick tick in
  if signedSlot <? 0 then mret tt else
  if signedSlot =? 0
  then n ← get; put (with_finality n (finalizedHash n) (head_hash n) (nextFinalized n)) else
  let slot := signedSlot in
  if (0 <? SlotBound c) && (SlotBound c <? slot) then exit 0 else
  if SlotsPerEpoch c =? 0 then lift Panic else
  _ ← (if slot mod SlotsPerEpoch c =? 0 then finalize_epoch else mret tt);
  on_slot slot.

(** ** The goroutines *)

(** From one point at which others may go on to the next.  A call to a peer is a
    single step that answers or fails. *)
Definition run_goroutine (g : goroutine) : M Node unit :=
  match g with
  | GoInvalidHash payload =>
      _ ← attempt (on_world (on_engine (api.NewPayloadV1 payload)));
      mret tt
  | GoProposal id slot =>
      out ← on_world (mockProposal c id slot false);
      match out with Exits => exit 1 | Continues => mret tt end
  | GoExecution block safe final slot =>
      _ ← on_world (mockExecution block);
      go (GoForkchoice (block_Hash block) safe final slot)
  | GoForkchoice latest safe final slot =>
      proposing ← happens (ProposalFreq (Freq (behavior c)));
      attributes ← (if proposing : bool
                    then a ← on_world (makePayloadAttributes c (wrap64 (slot + 1))); mret (Some a)
                    else mret None);
      id ← attempt (on_world (sendForkchoiceUpdated latest safe final attributes));
      match id with
      | inr _ => match maybeExit (SlotBound c) with Exits => exit 1 | Continues => mret tt end
      | inl None => mret tt
      | inl (Some id) => send_pending id
      end
  end.

(** ** Runs *)

(** A tick of the clock, or a goroutine that goes on. *)
Inductive event := Tick (tick : Z) | Resume (i : nat).

(** An unrecovered panic ends the process. *)
Definition settle (x : Node * res unit) : Node :=
  match x with
  | (n, Panic) => with_ended n (Some Crashed)
  | (n, _) => n
  end.

Definition step (e : event) (n : Node) : Node :=
  match ended n with
  | Some _ => n
  | None =>
      match e with
      | Tick tick => settle (on_tick tick n)
      | Resume i =>
          match goroutines n !! i with
          | Some g => settle (run_goroutine g (with_goroutines n (delete i (goroutines n))))
          | None => n
          end
      end
  end.

Inductive loop_run (start : Node) : list event → Node → Prop :=
  | loop_start : loop_run start [] start
  | loop_step es e n : loop_run start es n → loop_run start (es ++ [e]) (step e n).
End node.

(** The start of [RunNode], on the client's chain. *)
Definition start_node (w : World) : Node :=
  mk_node w (zeros 32) (zeros 32) (zeros 32) [] [] None.
End loop.

(** ** Lemmas: the client's chain only grows *)
Section growth.
Context `{!SSZ, !Hasher, !Hexutil, !BLS, !Geth, !GethLaws, !ChainLaws, !RelayCodec,
  !ClientCodec, !Platform, !Rand}.
Context {W E : Type} `{!BuilderServer W, !EngineServer E}.

Definition world_chain (w : World (W:=W) (E:=E)) : BlockChain := chain (own_chain w).

Lemma growing_on_own_chain {A} (m : M MockChain A) :
  growing chain m → growing world_chain (on_own_chain m).
Proof.
  intros Hm w w' r. unfold on_own_chain. destruct (m (own_chain w)) as [ch r'] eqn:E'.
  intros [= <- _]. by eapply Hm.
Qed.
Lemma growing_on_builder {A} (m : M W A) : growing world_chain (on_builder m).
Proof. intros w w' r. unfold on_builder. destruct (m (builder_peer w)). by intros [= <- _]. Qed.
Lemma growing_on_engine {A} (m : M E A) : growing world_chain (on_engine m).
Proof. intros w w' r. unfold on_engine. destruct (m (engine_peer w)). by intros [= <- _]. Qed.
Lemma growing_random_index n : growing world_chain (random_index n).
Proof.
  intros w w' r. unfold random_index. destruct (n <=? 0); [by intros [= <- _]|].
  destruct (Int63n (RNG w) n). by intros [= <- _].
Qed.
Lemma growing_random_bytes n : growing world_chain (random_bytes n).
Proof.
  intros w w' r. unfold random_bytes. destruct (Read (RNG w) n). by intros [= <- _].
Qed.
#[local] Hint Resolve growing_on_own_chain growing_on_builder growing_on_engine
  growing_random_index growing_random_bytes : evolves.

Lemma growing_getMockProposal c id slot : growing world_chain (getMockProposal c id slot).
Proof. unfold getMockProposal. evolve. Qed.
Lemma growing_mockExecution b : growing world_chain (mockExecution b).
Proof. unfold mockExecution. evolve. Qed.
Lemma growing_makePayloadAttributes c slot : growing world_chain (makePayloadAttributes c slot).
Proof. unfold makePayloadAttributes. evolve. Qed.
Lemma growing_sendForkchoiceUpdated l s f a :
  growing world_chain (sendForkchoiceUpdated l s f a).
Proof. unfold sendForkchoiceUpdated. evolve. Qed.
#[local] Hint Resolve growing_getMockProposal : evolves.
Lemma growing_mockProposal c id slot failing : growing world_chain (mockProposal c id slot failing).
Proof. unfold mockProposal. evolve. Qed.
End growth.
#[export] Hint Resolve growing_on_own_chain growing_on_builder growing_on_engine
  growing_random_index growing_random_bytes growing_getMockProposal growing_mockExecution
  growing_makePayloadAttributes growing_sendForkchoiceUpdated growing_mockProposal : evolves.

(** ** The invariant of a run *)
Section invariant.
Context `{!SSZ, !Hasher, !Hexutil, !BLS, !Geth, !GethLaws, !ChainLaws, !RelayCodec,
  !ClientCodec, !Platform, !Rand}.
Context {W E : Type} `{!BuilderServer W, !EngineServer E}.
Implicit Types n : Node (W:=W) (E:=E).

(** A hash the loop may send to the engine: none yet, or of a block the client's
    chain knows. *)
Definition sendable (bc : BlockChain) (h : bytes) : Prop := h = zeros 32 ∨ known bc h.

Definition goroutine_ok (bc : BlockChain) (g : goroutine) : Prop :=
  match g with
  | GoInvalidHash p => known bc (ExecutionPayloadV1.ParentHash p)
  | GoProposal _ _ => True
  | GoExecution b safe final _ => known bc (block_Hash b) ∧ sendable bc safe ∧ sendable bc final
  | GoForkchoice latest safe final _ => known bc latest ∧ sendable bc safe ∧ sendable bc final
  end.

Definition loop_inv n : Prop :=
  valid_chain (node_chain n) ∧
  sendable (node_chain n) (finalizedHash n) ∧ sendable (node_chain n) (safeHash n) ∧
  sendable (node_chain n) (nextFinalized n) ∧
  Forall (goroutine_ok (node_chain n)) (goroutines n).

Lemma sendable_mono bc bc' h :
  (∀ h, known bc h → known bc' h) → sendable bc h → sendable bc' h.
Proof. intros Hk [->|Hh]; [by left|right; auto]. Qed.

Lemma goroutine_ok_mono bc bc' g :
  (∀ h, known bc h → known bc' h) → goroutine_ok bc g → goroutine_ok bc' g.
Proof.
  intros Hk. destruct g; cbn; [auto|done|..]; intros (?&?&?);
    repeat split; eauto using sendable_mono.
Qed.

Lemma loop_inv_world n w :
  loop_inv n → grows (node_chain n) (world_chain w) → loop_inv (with_world n w).
Proof.
  intros (Hv & Hf & Hs & Hn & HG) Hg. destruct (Hg Hv) as [Hv' Hk].
  split; [done|]. repeat (split; [by eapply sendable_mono|]).
  eapply Forall_impl; [exact HG|]. intros g. by apply goroutine_ok_mono.
Qed.

(** A computation that keeps the invariant, whatever its outcome. *)
#[local] Notation keeps := (evolves (keeping loop_inv)).

Lemma keeps_on_world {A} (m : M World A) : growing world_chain m → keeps (on_world m).
Proof.
  intros Hm n n' r. unfold on_world. destruct (m (world n)) as [w r'] eqn:Em.
  intros [= <- _] Hn. apply loop_inv_world; [done|]. by eapply Hm.
Qed.
#[local] Hint Resolve keeps_on_world : evolves.
Lemma keeps_random {A} (f : rng → rng * A) : keeps (random f).
Proof.
  apply keeps_on_world. intros w w' r. destruct (f (RNG w)) as [g a]. by intros [= <- _] ?.
Qed.
Lemma keeps_exit code : keeps (exit code).
Proof. by intros n n' r [= <- _] ?. Qed.
Lemma keeps_receive_pending : keeps receive_pending.
Proof. intros n n' r. unfold receive_pending. destruct (senders n); by intros [= <- _] ?. Qed.
Lemma keeps_send_pending id : keeps (send_pending id).
Proof. by intros n n' r [= <- _] ?. Qed.
Lemma keeps_finalize_epoch : keeps finalize_epoch.
Proof.
  intros n n' r [= <- _] (Hv & Hf & Hs & Hn & HG). repeat (split; [done|]).
  split; [right; by apply CurrentHeader_known|done].
Qed.
#[local] Hint Resolve keeps_random keeps_exit keeps_receive_pending keeps_send_pending
  keeps_finalize_epoch : evolves.

Lemma loop_inv_go n g :
  loop_inv n → goroutine_ok (node_chain n) g →
  loop_inv (with_goroutines n (goroutines n ++ [g])).
Proof.
  intros (Hv & Hf & Hs & Hn & HG) Hg. repeat (split; [done|]).
  apply Forall_app. split; [done|]. by apply Forall_singleton.
Qed.

Lemma keeps_choose_parent c tb : keeps (choose_parent c tb).
Proof. unfold choose_parent, happens. evolve. Qed.

Lemma keeps_external_block c parent slot : keeps (external_block c parent slot).
Proof.
  intros n n' r. unfold external_block. mrun. destruct parent as [p|]; [|by intros [= <- _]].
  mrun. unfold attempt, on_world, on_own_chain.
  destruct (AddNewBlock _ _ _ _ _ _ _ _ _ _) as [ch [b|e|]] eqn:Hadd;
    destruct (AddNewBlock_stored _ _ _ _ _ _ _ _ _ _ _ Hadd) as (Hg & _ & Hb);
    intros [= <- _] Hn; [|by apply loop_inv_world..].
  pose proof (loop_inv_world n (mk_world ch (RNG (world n)) (builder_peer (world n))
    (engine_peer (world n))) Hn Hg) as Hn'.
  apply (loop_inv_go _ _ Hn'). destruct (Hb b eq_refl) as (Hk & _).
  destruct Hn' as (_ & Hf & Hs & _). done.
Qed.

Lemma keeps_genesis : keeps (n ← get;
  put (with_finality n (finalizedHash n) (head_hash n) (nextFinalized n))).
Proof.
  intros n n' r [= <- _] (Hv & Hf & Hs & Hn & HG). repeat (split; [done|]).
  split; [right; by apply CurrentHeader_known|done].
Qed.

Lemma keeps_invalid_hash : keeps (n ← get;
  go (GoInvalidHash (invalid_hash_payload (head_header n)))).
Proof.
  intros n n' r [= <- _] Hn. apply (loop_inv_go _ _ Hn), CurrentHeader_known, Hn.
Qed.

Lemma keeps_propose id slot : keeps (go (GoProposal id slot)).
Proof. intros n n' r [= <- _] Hn. by apply (loop_inv_go _ _ Hn). Qed.
#[local] Hint Resolve keeps_choose_parent keeps_external_block keeps_genesis keeps_invalid_hash
  keeps_propose : evolves.

Lemma keeps_on_tick c tb tick : keeps (on_tick c tb tick).
Proof. unfold on_tick, on_slot, happens. evolve. Qed.

Lemma keeps_run_goroutine c g n n' r :
  loop_inv n → goroutine_ok (node_chain n) g → run_goroutine c g n = (n', r) → loop_inv n'.
Proof.
  intros Hn Hg Hrun. destruct g as [p|id slot|b safe final slot|latest safe final slot].
  1,2,4: refine ((_ : keeps (run_goroutine c _)) n n' r Hrun Hn);
    unfold run_goroutine, happens; evolve.
  revert Hrun. cbn [run_goroutine]. rewrite M_bind_eq.
  destruct (on_world (mockExecution b) n) as [n1 r1] eqn:Ew.
  assert (loop_inv n1) as Hn1.
  { eapply keeps_on_world; [|exact Ew|exact Hn]. auto with evolves. }
  assert (∀ h, known (node_chain n) h → known (node_chain n1) h) as Hk.
  { revert Ew. unfold on_world. destruct (mockExecution b (world n)) as [w r2] eqn:Em.
    intros [= <- _]. apply (growing_mockExecution b _ _ _ Em). apply Hn. }
  destruct r1 as [[]|e|]; [|by intros [= <- _]..]. intros [= <- _].
  apply loop_inv_go; [done|]. destruct Hg as (?&?&?).
  repeat split; eauto using sendable_mono.
Qed.

Lemma loop_inv_settle n r : loop_inv n → loop_inv (settle (n, r)).
Proof. by destruct r. Qed.

Lemma loop_inv_step c tb e n : loop_inv n → loop_inv (step c tb e n).
Proof.
  intros Hn. unfold step. destruct (ended n); [done|]. destruct e as [tick|i].
  - destruct (on_tick c tb tick n) as [n' r] eqn:Ht. apply loop_inv_settle.
    by eapply keeps_on_tick.
  - destruct (goroutines n !! i) as [g|] eqn:Hi; [|done].
    destruct (run_goroutine c g _) as [n' r] eqn:Hr. apply loop_inv_settle.
    destruct Hn as (Hv & Hf & Hs & Hx & HG).
    eapply keeps_run_goroutine; [| |exact Hr].
    + repeat (split; [done|]). by apply Forall_delete.
    + by eapply Forall_lookup_1 in HG.
Qed.

(** From a chain in good order the invariant holds in every state a run reaches. *)
Lemma loop_inv_run c tb w es n :
  valid_chain (chain (own_chain w)) →
  loop_run c tb (start_node w) es n → loop_inv n.
Proof.
  intros Hv. induction 1 as [|es e n Hrun IH]; [|by apply loop_inv_step].
  repeat (split; [done || (by left)|]). constructor.
Qed.
End invariant.

(** ** Finality *)
Section finality.
Context `{!SSZ, !Hasher, !Hexutil, !BLS, !Geth, !RelayCodec, !ClientCodec, !Platform, !Rand}.
Context {W E : Type} `{!BuilderServer W, !EngineServer E}.
Implicit Types n : Node (W:=W) (E:=E).

(** What the loop keeps about finality. *)
Definition finality n : bytes * bytes * bytes := (finalizedHash n, safeHash n, nextFinalized n).
#[local] Notation same_finality := (evolves (along finality eq)).

Lemma same_finality_on_world {A} (m : M World A) : same_finality (on_world m).
Proof. intros n n' r. unfold on_world. destruct (m (world n)). by intros [= <- _]. Qed.
Lemma same_finality_random {A} (f : rng → rng * A) : same_finality (random f).
Proof. apply same_finality_on_world. Qed.
Lemma same_finality_exit code : same_finality (exit code).
Proof. by intros n n' r [= <- _]. Qed.
Lemma same_finality_go g : same_finality (go g).
Proof. by intros n n' r [= <- _]. Qed.
Lemma same_finality_receive : same_finality receive_pending.
Proof. intros n n' r. unfold receive_pending. destruct (senders n); by intros [= <- _]. Qed.
Lemma same_finality_send id : same_finality (send_pending id).
Proof. by intros n n' r [= <- _]. Qed.
#[local] Hint Resolve same_finality_on_world same_finality_random same_finality_exit
  same_finality_go same_finality_receive same_finality_send : evolves.

Lemma same_finality_on_slot c tb slot : same_finality (on_slot c tb slot).
Proof. unfold on_slot, choose_parent, external_block, happens. evolve. Qed.
Lemma same_finality_run_goroutine c g : same_finality (run_goroutine c g).
Proof. unfold run_goroutine, happens. evolve. Qed.

(** The slot a tick runs: none before and at genesis, and after the bound. *)
Definition running_slot (c : ConsensusCmd) (tick : Z) : option Z :=
  let slot := slot_of_tick c tick in
  if (slot <=? 0) || ((0 <? SlotBound c) && (SlotBound c <? slot)) || (SlotsPerEpoch c =? 0)
  then None else Some slot.

(** A tick that starts an epoch, and one of slot zero. *)
Definition starts_epoch (c : ConsensusCmd) n (e : event) : bool :=
  match ended n, e with
  | None, Tick tick =>
      match running_slot c tick with Some slot => slot mod SlotsPerEpoch c =? 0 | None => false end
  | _, _ => false
  end.
Definition is_genesis (c : ConsensusCmd) (e : event) : bool :=
  match e with Tick tick => slot_of_tick c tick =? 0 | Resume _ => false end.

Lemma finality_settle n r : finality (settle (n, r)) = finality n.
Proof. by destruct r. Qed.

(** A step of the loop changes finality at the start of an epoch and at slot zero. *)
Lemma finality_step c tb e n :
  finality (step c tb e n)
  = if starts_epoch c n e then (nextFinalized n, nextFinalized n, head_hash n)
    else match ended n with
         | None => if is_genesis c e then (finalizedHash n, head_hash n, nextFinalized n)
                   else finality n
         | Some _ => finality n
         end.
Proof.
  unfold step, starts_epoch, is_genesis. destruct (ended n); [done|]. destruct e as [tick|i].
  - unfold on_tick, running_slot. set (slot := slot_of_tick c tick).
    destruct (Z.ltb_spec slot 0) as [Hneg|Hpos].
    { replace (slot <=? 0) with true by lia. by replace (slot =? 0) with false by lia. }
    destruct (Z.eqb_spec slot 0) as [->|Hne]; [done|].
    replace (slot <=? 0) with false by lia. cbn [orb].
    destruct ((0 <? SlotBound c) && (SlotBound c <? slot)); [done|]. cbn [orb].
    destruct (SlotsPerEpoch c =? 0); [done|]. rewrite M_bind_eq.
    destruct (slot mod SlotsPerEpoch c =? 0); unfold finalize_epoch; cbn [mret M_ret].
    + destruct (on_slot c tb slot _) as [n' r] eqn:Hs. rewrite finality_settle.
      by apply same_finality_on_slot in Hs; unfold along in Hs; rewrite <- Hs.
    + unfold mret, M_ret. destruct (on_slot c tb slot n) as [n' r] eqn:Hs. rewrite finality_settle.
      by apply same_finality_on_slot in Hs; unfold along in Hs; rewrite <- Hs.
  - destruct (goroutines n !! i) as [g|]; [|done].
    destruct (run_goroutine c g _) as [n' r] eqn:Hr. rewrite finality_settle.
    apply same_finality_run_goroutine in Hr. unfold along in Hr. by rewrite <- Hr.
Qed.

(** A run whose ticks come in the order of time, with the heads of the client's
    chain at the starts of its epochs, the latest first. *)
Inductive epoch_run c tb (start : Node) : list bytes → Node → Prop :=
  | epoch_start : epoch_run c tb start [] start
  | epoch_step heads e n :
      epoch_run c tb start heads n → (is_genesis c e = true → heads = []) →
      epoch_run c tb start (if starts_epoch c n e then head_hash n :: heads else heads)
        (step c tb e n).

(** C17: finality lags by two epochs: in every reachable state the finalized block is
    the head of the client's chain at the start of the epoch before the current
    one, the next one to finalize is the head at the start of the current epoch,
    and from the first epoch on the safe block is the finalized one. *)
Theorem finality_lag c tb w heads n :
  epoch_run c tb (start_node w) heads n →
  finalizedHash n = nth 1 heads (zeros 32) ∧ nextFinalized n = nth 0 heads (zeros 32) ∧
  (heads ≠ [] → safeHash n = finalizedHash n).
Proof.
  induction 1 as [|heads e n _ (Hf & Hx & Hs) Hgen]; [done|].
  pose proof (finality_step c tb e n) as Hstep. unfold finality in Hstep.
  destruct (starts_epoch c n e).
  - injection Hstep as -> -> ->. rewrite Hx. by destruct heads.
  - destruct (ended n), (is_genesis c e); injection Hstep as -> -> ->; try done.
    by rewrite (Hgen eq_refl) in *.
Qed.
End finality.
