(* ===== verification/SlotProperties.v ===== *)
(** * The consensus mock: properties of the slot loop

    What a slot decides, how far a reorg goes, how many payload ids are pending, and
    what becomes of a pending payload. *)

From Stdlib Require Import Strings.Byte Floats.SpecFloat.
From S2P Require Import Prelude Numeral BigInt Common Fastssz Hasher SszObject.
From S2P Require Import FixedContainers VarContainers BlockContainers Signing.
From S2P Require Import Geth Payload MockChain Cache Engine Http Relay RelayServing.
From S2P Require Import Float64 Clock Behavior Api Consensus SlotLoop.
#[local] Open Scope Z_scope.
#[local] Open Scope go_scope.

Section decisions.
Context `{!SSZ, !Hasher, !Hexutil, !BLS, !Geth, !RelayCodec, !ClientCodec, !Platform, !Rand}.
Context {W E : Type} `{!BuilderServer W, !EngineServer E}.
Implicit Types n : Node (W:=W) (E:=E).

(** A node whose random numbers have moved on. *)
Definition with_rng n (g : rng) : Node :=
  with_world n (mk_world (own_chain (world n)) g (builder_peer (world n)) (engine_peer (world n))).
Definition rng_of n : rng := RNG (world n).

(** The source of random numbers after a number of draws, and a draw. *)
Fixpoint after (k : nat) (g : rng) : rng :=
  match k with O => g | S k => after k (Float64 g).1 end.
Definition drawn (k : nat) n : spec_float := (Float64 (after k (rng_of n))).2.

Lemma happens_eq freq n :
  happens freq n = (with_rng n (Float64 (rng_of n)).1, Ok (float64_lt (Float64 (rng_of n)).2 freq)).
Proof.
  unfold happens, random, on_world. rewrite M_bind_eq. unfold rng_of.
  by destruct (Float64 (RNG (world n))).
Qed.

Lemma choose_parent_reorg c tb n :
  choose_parent c tb n
  = if float64_lt (drawn 0 n) (ReorgFreq (Freq (behavior c)))
    then let '(g, h) := calcReorgTarget (behavior c) (node_chain n)
           (wrap64 (Header.Number (head_header n))) (reorg_min tb n) (after 1 (rng_of n)) in
         (with_rng n g, Ok h)
    else (with_rng n (after 1 (rng_of n)), Ok (Some (head_header n))).
Proof.
  unfold choose_parent. mrun. rewrite happens_eq. change (drawn 0 n) with (Float64 (rng_of n)).2.
  destruct (float64_lt _ _); [|done]. unfold random, on_world. cbn [world with_rng with_world RNG].
  change (after 1 (rng_of n)) with (Float64 (rng_of n)).1.
  by destruct (calcReorgTarget _ _ _ _ _) as [g h].
Qed.

(** What a slot decides from its draws.  A gap empties the channel of pending
    payloads by one id and does nothing else; an invalid hash starts the goroutine
    that sends the bad payload and leaves a pending id where it is; otherwise a
    pending id is taken and proposed in this slot, whatever the reorg draw, and
    without one the client builds a block itself. *)
Lemma on_slot_decisions c tb slot n :
  let f := Freq (behavior c) in
  let gap := float64_lt (drawn 0 n) (GapSlot f) in
  let bad := float64_lt (drawn 1 n) (InvalidHashFreq f) in
  let m := with_rng n (after 2 (rng_of n)) in
  (gap = true → on_slot c tb slot n
     = (with_rng (with_senders n (tail (senders n))) (after 1 (rng_of n)), Ok tt)) ∧
  (gap = false → bad = true → on_slot c tb slot n
     = (with_goroutines m (goroutines n ++ [GoInvalidHash (invalid_hash_payload (head_header n))]),
        Ok tt)) ∧
  (gap = false → bad = false → ∀ id ids, senders n = id :: ids →
     ∃ g, on_slot c tb slot n
     = (with_goroutines (with_senders (with_rng n g) ids) (goroutines n ++ [GoProposal id slot]),
        Ok tt)) ∧
  (gap = false → bad = false → senders n = [] → on_slot c tb slot n
     = (parent ← choose_parent c tb; external_block c parent slot) m).
Proof.
  intros f gap bad m. unfold on_slot. rewrite M_bind_eq, happens_eq.
  change (float64_lt (Float64 (rng_of n)).2 _) with gap.
  split; [|split; [|split]]; intros ->.
  - rewrite M_bind_eq. unfold receive_pending. by destruct n as [w ff sf nf [|id ids] gs e].
  - rewrite M_bind_eq, happens_eq. change (float64_lt (Float64 (rng_of (with_rng n _))).2 _) with bad.
    intros ->. done.
  - rewrite M_bind_eq, happens_eq. change (float64_lt (Float64 (rng_of (with_rng n _))).2 _) with bad.
    intros -> id ids Hs. rewrite M_bind_eq.
    change (with_rng (with_rng n _) _) with m. rewrite choose_parent_reorg.
    destruct (float64_lt _ _); [destruct (calcReorgTarget _ _ _ _ _) as [g h]|];
      rewrite M_bind_eq; unfold receive_pending; cbn [senders m with_rng with_world]; rewrite Hs;
      by eexists.
  - rewrite M_bind_eq, happens_eq. change (float64_lt (Float64 (rng_of (with_rng n _))).2 _) with bad.
    intros -> Hs. rewrite !M_bind_eq. change (with_rng (with_rng n _) _) with m.
    rewrite choose_parent_reorg.
    destruct (float64_lt _ _); [destruct (calcReorgTarget _ _ _ _ _) as [g h]|];
      rewrite M_bind_eq; unfold receive_pending; cbn [senders m with_rng with_world]; by rewrite Hs.
Qed.
End decisions.

(** ** A tick of a running slot *)
Section ticks.
Context `{!SSZ, !Hasher, !Hexutil, !BLS, !Geth, !RelayCodec, !ClientCodec, !Platform, !Rand}.
Context {W E : Type} `{!BuilderServer W, !EngineServer E}.
Implicit Types n : Node (W:=W) (E:=E).

Definition epoch (c : ConsensusCmd) (slot : Z) (n : Node (W:=W) (E:=E)) : Node :=
  if slot mod SlotsPerEpoch c =? 0
  then with_finality n (nextFinalized n) (nextFinalized n) (head_hash n) else n.

Lemma on_tick_running c tb tick slot n :
  running_slot c tick = Some slot → on_tick c tb tick n = on_slot c tb slot (epoch c slot n).
Proof.
  unfold running_slot, on_tick, epoch.
  destruct (Z.leb_spec (slot_of_tick c tick) 0); [done|]. cbn [orb].
  destruct ((0 <? SlotBound c) && _); [done|]. cbn [orb].
  destruct (SlotsPerEpoch c =? 0); [done|]. intros [= <-].
  replace (slot_of_tick c tick <? 0) with false by lia. replace (slot_of_tick c tick =? 0) with false by lia.
  by destruct (slot_of_tick c tick mod SlotsPerEpoch c =? 0).
Qed.

Lemma on_tick_idle c tb tick n :
  running_slot c tick = None →
  settle (on_tick c tb tick n)
  = let slot := slot_of_tick c tick in
    if slot <? 0 then n else
    if slot =? 0 then with_finality n (finalizedHash n) (head_hash n) (nextFinalized n) else
    if (0 <? SlotBound c) && (SlotBound c <? slot) then with_ended n (Some (Exited 0))
    else with_ended n (Some Crashed).
Proof.
  unfold running_slot, on_tick. cbv zeta. set (slot := slot_of_tick c tick).
  destruct (Z.ltb_spec slot 0); [done|]. destruct (Z.eqb_spec slot 0) as [Hz|]; [done|].
  replace (slot <=? 0) with false by lia. cbn [orb].
  destruct ((0 <? SlotBound c) && _); [done|]. cbn [orb]. by destruct (SlotsPerEpoch c =? 0).
Qed.

Lemma epoch_same c slot n :
  rng_of (epoch c slot n) = rng_of n ∧ senders (epoch c slot n) = senders n ∧
  goroutines (epoch c slot n) = goroutines n.
Proof. unfold epoch. by destruct (_ =? 0). Qed.

(** C20: what a tick does, completely.  Before genesis, nothing; at genesis the head
    becomes safe; after the bound of a bounded run the process exits with success.
    In between, the finality of a new epoch is set, then the draws decide: a gap
    empties the channel of pending payloads by one id and does nothing else; an
    invalid hash starts the goroutine that sends the bad payload and leaves a
    pending id where it is; otherwise a pending id is taken and proposed in this
    slot, whatever the reorg draw, and without one the client builds a block on the
    parent it chooses. *)
Theorem slot_decisions c tb tick n :
  ended n = None →
  let next := step c tb (Tick tick) n in
  match running_slot c tick with
  | None =>
      let slot := slot_of_tick c tick in
      next = if slot <? 0 then n else
        if slot =? 0 then with_finality n (finalizedHash n) (head_hash n) (nextFinalized n) else
        if (0 <? SlotBound c) && (SlotBound c <? slot) then with_ended n (Some (Exited 0))
        else with_ended n (Some Crashed)
  | Some slot =>
      let e := epoch c slot n in
      let m := with_rng e (after 2 (rng_of n)) in
      let bad := float64_lt (drawn 1 n) (InvalidHashFreq (Freq (behavior c))) in
      if float64_lt (drawn 0 n) (GapSlot (Freq (behavior c)))
      then next = with_rng (with_senders e (tail (senders n))) (after 1 (rng_of n))
      else if bad
      then next = with_goroutines m
             (goroutines n ++ [GoInvalidHash (invalid_hash_payload (head_header e))])
      else match senders n with
           | id :: ids => ∃ g,
               next = with_goroutines (with_senders (with_rng e g) ids)
                 (goroutines n ++ [GoProposal id slot])
           | [] => next = settle ((parent ← choose_parent c tb; external_block c parent slot) m)
           end
  end.
Proof.
  intros He. unfold step. rewrite He. destruct (running_slot c tick) as [slot|] eqn:Hs;
    [|by apply on_tick_idle].
  rewrite (on_tick_running c tb tick slot n Hs).
  destruct (epoch_same c slot n) as (Er & Es & Eg).
  destruct (on_slot_decisions c tb slot (epoch c slot n)) as (Hgap & Hbad & Hprop & Hbuild).
  unfold drawn in *. rewrite Er, Es, Eg in *.
  destruct (float64_lt _ (GapSlot _)); [by rewrite Hgap|].
  destruct (float64_lt _ (InvalidHashFreq _)); [by rewrite Hbad|].
  destruct (senders n) as [|id ids]; [by rewrite Hbuild|].
  destruct (Hprop eq_refl eq_refl id ids eq_refl) as [g ->]. by exists g.
Qed.
End ticks.

(** ** The goroutines of a slot *)
Section goroutines.
Context `{!SSZ, !Hasher, !Hexutil, !BLS, !Geth, !RelayCodec, !ClientCodec, !Platform, !Rand}.
Context {W E : Type} `{!BuilderServer W, !EngineServer E}.
Implicit Types n : Node (W:=W) (E:=E).

(** How many ids a goroutine may still send. *)
Definition sends (g : goroutine) : nat :=
  match g with GoExecution _ _ _ _ | GoForkchoice _ _ _ _ => 1 | _ => 0 end.

Definition total (f : goroutine → nat) (gs : list goroutine) : nat := sum_list (f <$> gs).

Lemma total_cons f g gs : total f (g :: gs) = (f g + total f gs)%nat.
Proof. done. Qed.

Lemma total_app f gs gs' : total f (gs ++ gs') = (total f gs + total f gs')%nat.
Proof.
  induction gs as [|g gs IH]; [done|]. rewrite <- app_comm_cons, !total_cons, IH. lia.
Qed.

Lemma total_delete f gs i g :
  gs !! i = Some g → total f gs = (f g + total f (delete i gs))%nat.
Proof.
  revert i. induction gs as [|g' gs IH]; intros [|i]; [done..|by intros [= ->]|].
  intros Hi. change (delete (S i) (g' :: gs)) with (g' :: delete i gs).
  rewrite !total_cons, (IH i Hi). lia.
Qed.

(** The ids that wait, and those the goroutines may still send. *)
Definition ids_to_come n : nat := (length (senders n) + total sends (goroutines n))%nat.

(** A computation that starts no goroutine and sends no id. *)
Definition channel n : list bytes * list goroutine := (senders n, goroutines n).
#[local] Notation same_channel := (evolves (along channel eq)).

Lemma same_channel_on_world {A} (m : M World A) : same_channel (on_world m).
Proof. intros n n' r. unfold on_world. destruct (m (world n)). by intros [= <- _]. Qed.
Lemma same_channel_random {A} (f : rng → rng * A) : same_channel (random f).
Proof. apply same_channel_on_world. Qed.
Lemma same_channel_exit code : same_channel (exit code).
Proof. by intros n n' r [= <- _]. Qed.
#[local] Hint Resolve same_channel_on_world same_channel_random same_channel_exit : evolves.

Lemma same_channel_happens freq : same_channel (happens freq).
Proof. unfold happens. evolve. Qed.
Lemma same_channel_attributes c slot (proposing : bool) :
  same_channel (if proposing then a ← on_world (makePayloadAttributes c (wrap64 (slot + 1)));
                mret (Some a) else mret None).
Proof. evolve. Qed.

(** A goroutine that goes on sends at most the ids it was to send. *)
Lemma run_goroutine_channel c g n n' r :
  run_goroutine c g n = (n', r) → (ids_to_come n' ≤ sends g + ids_to_come n)%nat.
Proof.
  intros Hrun. unfold ids_to_come. destruct g as [p|id slot|b safe final slot|latest safe final slot].
  1,2: assert (channel n = channel n') as [= -> ->]; [|cbn; lia];
    refine ((_ : same_channel (run_goroutine c _)) n n' r Hrun); unfold run_goroutine; evolve.
  - apply M_bind_inv in Hrun as [(n1 & u & Ew & Hrun)|(r1 & Ew)];
      apply same_channel_on_world in Ew as [= -> ->]; [|cbn; lia].
    injection Hrun as <- _. cbn [goroutines senders with_goroutines]. rewrite !total_app. cbn. lia.
  - apply M_bind_inv in Hrun as [(n1 & proposing & E1 & Hrun)|(r1 & E1)];
      apply same_channel_happens in E1 as [= -> ->]; [|cbn; lia].
    apply M_bind_inv in Hrun as [(n2 & attr & E2 & Hrun)|(r1 & E2)];
      apply (same_channel_attributes c slot) in E2 as [= -> ->]; [|cbn; lia].
    apply M_bind_inv in Hrun as [(n3 & res & E3 & Hrun)|(r1 & E3)];
      apply (evolves_attempt (along channel eq) _ (same_channel_on_world _)) in E3 as [= -> ->];
      [|cbn; lia].
    destruct res as [[id|]|e]; [| |destruct (maybeExit _)]; injection Hrun as <- _;
      cbn [goroutines senders with_senders with_ended]; rewrite ?length_app; cbn; lia.
Qed.

Lemma settle_senders n r : senders (settle (n, r)) = senders n.
Proof. by destruct r. Qed.
Lemma settle_goroutines n r : goroutines (settle (n, r)) = goroutines n.
Proof. by destruct r. Qed.

(** A goroutine that goes on in a run. *)
Lemma step_run_channel c tb n i g :
  ended n = None → goroutines n !! i = Some g →
  (ids_to_come (step c tb (Resume i) n) ≤ ids_to_come n)%nat.
Proof.
  intros He Hi. unfold step. rewrite He, Hi.
  destruct (run_goroutine c g _) as [n' r] eqn:Hr. apply run_goroutine_channel in Hr.
  unfold ids_to_come in *. rewrite settle_goroutines, settle_senders. revert Hr.
  cbn [goroutines senders with_goroutines]. rewrite (total_delete sends _ _ _ Hi). lia.
Qed.

(** What a tick does to the channel and to the goroutines. *)
Inductive tick_effect n n' : Prop :=
  | tick_nothing : channel n' = channel n → tick_effect n n'
  | tick_gap : senders n' = tail (senders n) → goroutines n' = goroutines n → tick_effect n n'
  | tick_invalid p :
      senders n' = senders n → goroutines n' = goroutines n ++ [GoInvalidHash p] → tick_effect n n'
  | tick_propose id ids slot :
      senders n = id :: ids → senders n' = ids →
      goroutines n' = goroutines n ++ [GoProposal id slot] → tick_effect n n'
  | tick_build b safe final slot :
      senders n = [] → senders n' = [] →
      goroutines n' = goroutines n ++ [GoExecution b safe final slot] → tick_effect n n'.

Lemma external_block_channel c parent slot n n' r :
  external_block c parent slot n = (n', r) →
  channel n' = channel n ∨
  ∃ b, channel n' = (senders n, goroutines n ++ [GoExecution b (safeHash n) (finalizedHash n) slot]).
Proof.
  unfold external_block. mrun. destruct parent as [p|]; [|intros [= <- _]; by left].
  mrun. unfold attempt, on_world.
  destruct (on_own_chain _ _) as [w [b|e|]]; intros [= <- _]; [right; by exists b|by left..].
Qed.

Lemma same_channel_choose_parent c tb : same_channel (choose_parent c tb).
Proof. unfold choose_parent, happens. evolve. Qed.

Lemma on_slot_effect c tb slot n n' r : on_slot c tb slot n = (n', r) → tick_effect n n'.
Proof.
  destruct (on_slot_decisions c tb slot n) as (Hgap & Hbad & Hprop & Hbuild).
  destruct (float64_lt (drawn 0 n) _) eqn:Eg.
  { rewrite Hgap by done. intros [= <- _]. by apply tick_gap. }
  destruct (float64_lt (drawn 1 n) _) eqn:Eb.
  { rewrite Hbad by done. intros [= <- _]. by eapply tick_invalid. }
  destruct (senders n) as [|id ids] eqn:Es.
  - rewrite Hbuild by done. intros Hrun.
    apply M_bind_inv in Hrun as [(n1 & parent & Ep & Hrun)|(r1 & Ep)];
      apply same_channel_choose_parent in Ep; [|by apply tick_nothing].
    injection Ep as Hs Hg. apply external_block_channel in Hrun as [Hd|[b Hd]].
    + apply tick_nothing. unfold channel in *. congruence.
    + injection Hd as Ha Hb. rewrite <- Hs in Ha. rewrite <- Hg in Hb.
      eapply tick_build; [done|congruence|exact Hb].
  - destruct (Hprop eq_refl eq_refl id ids eq_refl) as [g ->]. intros [= <- _].
    by eapply tick_propose.
Qed.

Lemma tick_effect_channel n n1 n' : channel n1 = channel n → tick_effect n1 n' → tick_effect n n'.
Proof.
  intros [= Hs Hg] Ht. destruct Ht as [Hz|Ha Hb|p Ha Hb|id ids slot Ha Hb Hc|b s f slot Ha Hb Hc].
  - apply tick_nothing. unfold channel in *. congruence.
  - apply tick_gap; congruence.
  - eapply (tick_invalid _ _ p); congruence.
  - eapply (tick_propose _ _ id ids slot); congruence.
  - eapply (tick_build _ _ b s f slot); congruence.
Qed.

Lemma on_tick_effect c tb tick n n' r : on_tick c tb tick n = (n', r) → tick_effect n n'.
Proof.
  unfold on_tick. destruct (_ <? 0); [intros [= <- _]; by apply tick_nothing|].
  destruct (_ =? 0); [intros [= <- _]; by apply tick_nothing|].
  destruct (_ && _); [intros [= <- _]; by apply tick_nothing|].
  destruct (_ =? 0); [intros [= <- _]; by apply tick_nothing|].
  rewrite M_bind_eq. destruct (_ =? 0); [unfold finalize_epoch|unfold mret, M_ret];
    intros Hs; [|by eapply on_slot_effect].
  apply on_slot_effect in Hs. by eapply tick_effect_channel; [|exact Hs].
Qed.

(** A run in which every goroutine, before the next tick, finishes or blocks on the
    channel: a blocked one is an id of [senders]. *)
Inductive synchronous_run c tb (start : Node) : list event → Node → Prop :=
  | synchronous_start : synchronous_run c tb start [] start
  | synchronous_step es e n :
      synchronous_run c tb start es n → (∀ tick, e = Tick tick → goroutines n = []) →
      synchronous_run c tb start (es ++ [e]) (step c tb e n).

(** C19: when the goroutines of a slot finish, or wait to send their id, before the
    next tick, at most one payload id is ever pending: the loop only asks for a
    payload when none is waiting, and it takes a waiting one before it asks for the
    next. *)
Theorem one_pending_payload c tb w es n :
  synchronous_run c tb (start_node w) es n → (length (senders n) ≤ 1)%nat.
Proof.
  intros Hrun. assert (ids_to_come n ≤ 1)%nat as Hids; [|unfold ids_to_come in Hids; lia].
  induction Hrun as [|es e n Hrun IH Hsync]; [unfold ids_to_come; cbn; lia|].
  destruct (ended n) eqn:He; [unfold step; by rewrite He|]. destruct e as [tick|i].
  - specialize (Hsync tick eq_refl). unfold step. rewrite He.
    destruct (on_tick c tb tick n) as [n' r] eqn:Ht. apply on_tick_effect in Ht.
    unfold ids_to_come in *. rewrite !settle_goroutines, !settle_senders. rewrite Hsync in IH.
    destruct Ht as [Hsame| -> -> |p -> ->|id ids slot Hs -> ->|b s f slot Hs -> ->];
      [injection Hsame as -> ->|..]; rewrite ?Hsync in *; try rewrite Hs in *; cbn in *; try lia.
    destruct (senders n); cbn in *; lia.
  - destruct (goroutines n !! i) as [g|] eqn:Hi; [|unfold step; by rewrite He, Hi].
    pose proof (step_run_channel c tb n i g He Hi). lia.
Qed.
End goroutines.

(** ** Reorgs and finality *)
Section reorgs.
Context `{!SSZ, !Hasher, !Hexutil, !BLS, !Geth, !GethLaws, !ChainLaws, !RelayCodec,
  !ClientCodec, !Platform, !Rand, !RandLaws}.
Context {W E : Type} `{!BuilderServer W, !EngineServer E}.
Implicit Types n : Node (W:=W) (E:=E).

(** Numbers that a float holds exactly: the depth of reorgs, their lowest block and
    the head. *)
Definition small (c : ConsensusCmd) (tb : Z) n : Prop :=
  0 ≤ ReorgMaxDepth (behavior c) < 2 ^ 53 ∧ 0 ≤ reorg_min tb n < 2 ^ 53 ∧
  Header.Number (head_header n) < 2 ^ 53.

Lemma choose_parent_spec c tb n :
  valid_chain (node_chain n) → small c tb n →
  ∃ g parent, choose_parent c tb n = (with_rng n g, Ok parent) ∧
    if reorg_min tb n <=? Header.Number (head_header n)
    then ∃ h, parent = Some h ∧ reorg_min tb n ≤ Header.Number h ≤ Header.Number (head_header n) ∧
         GetHeaderByHash (node_chain n) (header_Hash h) = Some h
    else parent = if float64_lt (drawn 0 n) (ReorgFreq (Freq (behavior c)))
                  then None else Some (head_header n).
Proof.
  intros Hv (HD & Hmin & Hhead). rewrite choose_parent_reorg.
  pose proof (CurrentHeader_number _ Hv) as Hpos. fold (head_header n) in Hpos.
  assert (wrap64 (Header.Number (head_header n)) = Header.Number (head_header n)) as Hw
    by (unfold wrap64; apply Z.mod_small; lia).
  destruct (float64_lt _ _).
  - destruct (reorg_target_bounds (behavior c) (node_chain n) (reorg_min tb n) (after 1 (rng_of n))
      Hv HD Hmin Hhead) as (g' & target & Hcalc & Ht).
    fold (head_header n) in Hcalc, Ht. rewrite Hw, Hcalc. by exists g', target.
  - eexists _, _. split; [done|]. destruct (Z.leb_spec (reorg_min tb n) (Header.Number (head_header n)));
      [|done].
    exists (head_header n). split; [done|]. split; [lia|]. by apply CurrentHeader_found.
Qed.

Lemma external_block_inv c h slot n n' r b safe final sl :
  external_block c (Some h) slot n = (n', r) →
  goroutines n' = goroutines n ++ [GoExecution b safe final sl] →
  sl = slot ∧ safe = safeHash n ∧ final = finalizedHash n ∧
  known (node_chain n') (block_Hash b) ∧
  Header.Time (block_Header b) = SlotTimestamp (BeaconGenesisTime c) (SlotTime c) slot ∧
  Header.ParentHash (block_Header b) = header_Hash h ∧
  ∃ parent, GetHeaderByHash (node_chain n) (header_Hash h) = Some parent ∧
    Header.Number (block_Header b) = Header.Number parent + 1.
Proof.
  unfold external_block. mrun. unfold attempt, on_world, on_own_chain.
  destruct (AddNewBlock _ _ _ _ _ _ _ _ _ _) as [ch [b'|e|]] eqn:Hadd;
    destruct (AddNewBlock_stored _ _ _ _ _ _ _ _ _ _ _ Hadd) as (_ & _ & Hb);
    intros [= <- _]; cbn [goroutines with_goroutines with_world].
  2,3: intros Hg; apply (f_equal length) in Hg; rewrite length_app in Hg; cbn in Hg; lia.
  intros Hg. apply app_inj_2 in Hg as [_ [= -> <- <- <-]]; [|done].
  destruct (Hb b eq_refl) as (Hk & Ht & parent & Hp & Hph & Hn). eauto 12.
Qed.

(** A slot that starts the goroutine of a mocked block. *)
Lemma on_slot_builds c tb slot n n' r b safe final sl :
  on_slot c tb slot n = (n', r) →
  goroutines n' = goroutines n ++ [GoExecution b safe final sl] →
  ∃ m, m = with_rng n (after 2 (rng_of n)) ∧
    (parent ← choose_parent c tb; external_block c parent slot) m = (n', r).
Proof.
  destruct (on_slot_decisions c tb slot n) as (Hgap & Hbad & Hprop & Hbuild). intros Hrun Hg.
  assert (∀ g', goroutines n' = goroutines n ++ [g'] → g' = GoExecution b safe final sl) as Hno.
  { intros g' Hg'. rewrite Hg in Hg'. by apply app_inj_2 in Hg' as [_ [= <-]]. }
  destruct (float64_lt (drawn 0 n) _).
  { rewrite Hgap in Hrun by done. injection Hrun as <- _. cbn in Hg.
    apply (f_equal length) in Hg. rewrite length_app in Hg. cbn in Hg. lia. }
  destruct (float64_lt (drawn 1 n) _).
  { rewrite Hbad in Hrun by done. injection Hrun as <- _. by specialize (Hno _ eq_refl). }
  destruct (senders n) as [|id ids] eqn:Hs.
  - rewrite Hbuild in Hrun by done. eauto.
  - destruct (Hprop eq_refl eq_refl id ids eq_refl) as [g Hp]. rewrite Hp in Hrun.
    injection Hrun as <- _. by specialize (Hno _ eq_refl).
Qed.

(** The limit of a reorg is the later of the transition and the finalized block. *)
Definition final_block n : option Header.t := GetHeaderByHash (node_chain n) (finalizedHash n).

Lemma reorg_min_eq tb n :
  (∀ final, final_block n = Some final → 0 ≤ Header.Number final < 2 ^ 53) →
  reorg_min tb n = match final_block n with
                   | Some final => Z.max tb (Header.Number final)
                   | None => tb
                   end.
Proof.
  intros Hf. unfold reorg_min, final_block in *. destruct (GetHeaderByHash _ _) as [final|]; [|done].
  specialize (Hf final eq_refl). unfold wrap64. rewrite Z.mod_small by lia.
  destruct (Z.ltb_spec tb (Header.Number final)); lia.
Qed.

(** C16: where the client builds.  Let the floor be the later of the transition block
    and the finalized block, by number.  While the floor is not above the head, the
    block is above the floor and at most one above the head, whatever the reorg draw.
    When the floor is above the head, as a reorg can leave the finalized block, no
    reorg was drawn and the block extends the head.  In both cases its parent is known, it
    is known under its hash, it has its slot's timestamp, and it is sent with the
    current safe and finalized hashes. *)
Theorem reorg_respects_finality c tb slot n n' r b safe final sl :
  let head := Header.Number (head_header n) in
  let floor := match final_block n with
               | Some f => Z.max tb (Header.Number f) | None => tb end in
  valid_chain (node_chain n) → 0 ≤ ReorgMaxDepth (behavior c) < 2 ^ 53 →
  head < 2 ^ 53 → 0 ≤ tb < 2 ^ 53 →
  (∀ f, final_block n = Some f → 0 ≤ Header.Number f < 2 ^ 53) →
  on_slot c tb slot n = (n', r) →
  goroutines n' = goroutines n ++ [GoExecution b safe final sl] →
  (if floor <=? head
   then floor < Header.Number (block_Header b) ≤ head + 1
   else float64_lt (drawn 2 n) (ReorgFreq (Freq (behavior c))) = false ∧
        Header.ParentHash (block_Header b) = head_hash n ∧
        Header.Number (block_Header b) = head + 1) ∧
  known (node_chain n) (Header.ParentHash (block_Header b)) ∧
  known (node_chain n') (block_Hash b) ∧
  Header.Time (block_Header b) = SlotTimestamp (BeaconGenesisTime c) (SlotTime c) slot ∧
  (sl, safe, final) = (slot, safeHash n, finalizedHash n).
Proof.
  intros head floor Hv Hdepth Hhead Htb Hfin Hrun Hg.
  assert (reorg_min tb n = floor) as Hmin by exact (reorg_min_eq tb n Hfin).
  assert (0 ≤ floor < 2 ^ 53) as Hfloor.
  { unfold floor. destruct (final_block n) as [f|]; [specialize (Hfin f eq_refl)|]; lia. }
  destruct (on_slot_builds _ _ _ _ _ _ _ _ _ _ Hrun Hg) as (m & -> & Hm).
  rewrite M_bind_eq in Hm.
  destruct (choose_parent_spec c tb (with_rng n (after 2 (rng_of n))) Hv) as (g & parent & Hc & Hp).
  { split; [done|]. split; [by rewrite <- Hmin in Hfloor|done]. }
  rewrite Hc in Hm. change (reorg_min tb (with_rng n _)) with (reorg_min tb n) in Hp.
  change (Header.Number (head_header (with_rng n _))) with head in Hp.
  change (head_header (with_rng n _)) with (head_header n) in Hp.
  change (drawn 0 (with_rng n (after 2 (rng_of n)))) with (drawn 2 n) in Hp.
  change (node_chain (with_rng n _)) with (node_chain n) in Hp. rewrite Hmin in Hp.
  destruct parent as [h|].
  2:{ injection Hm as <- _. apply (f_equal length) in Hg. rewrite length_app in Hg. cbn in Hg. lia. }
  destruct (external_block_inv _ _ _ _ _ _ _ _ _ _ Hm Hg)
    as (-> & -> & -> & Hk & Ht & Hph & parent & Hpar & Hn).
  change (node_chain (with_rng (with_rng n _) _)) with (node_chain n) in Hpar.
  rewrite Hph. split; [|split; [by exists parent|done]].
  destruct (floor <=? head).
  - destruct Hp as (h' & [= <-] & Hr & Hh). rewrite Hh in Hpar. injection Hpar as <-. lia.
  - destruct (float64_lt _ _); [done|]. injection Hp as ->. split; [done|]. split; [done|].
    pose proof (CurrentHeader_found _ Hv) as Hfound. fold (head_header n) in Hfound.
    rewrite Hfound in Hpar. injection Hpar as <-. exact Hn.
Qed.

(** C23: a finalized block above the head ends the process: a reorg then has no
    target, and without a pending payload the slot dereferences the nil header it
    found.  The finalized block is the head of an earlier epoch, which a reorg may
    have left behind. *)
Theorem reorg_below_finalized_crashes c tb tick slot final n :
  valid_chain (node_chain n) → ended n = None → senders n = [] →
  running_slot c tick = Some slot → slot mod SlotsPerEpoch c ≠ 0 →
  0 ≤ ReorgMaxDepth (behavior c) < 2 ^ 53 → 0 ≤ tb < 2 ^ 53 →
  final_block n = Some final →
  Header.Number (head_header n) < Header.Number final < 2 ^ 53 →
  float64_lt (drawn 0 n) (GapSlot (Freq (behavior c))) = false →
  float64_lt (drawn 1 n) (InvalidHashFreq (Freq (behavior c))) = false →
  float64_lt (drawn 2 n) (ReorgFreq (Freq (behavior c))) = true →
  ended (step c tb (Tick tick) n) = Some Crashed.
Proof.
  intros Hv He Hs Hslot Hep Hdepth Htb Hf Habove Hgap Hbad Hreorg.
  pose proof (CurrentHeader_number _ Hv) as Hpos. fold (head_header n) in Hpos.
  assert (reorg_min tb n = Z.max tb (Header.Number final)) as Hmin.
  { rewrite reorg_min_eq, Hf; [done|]. intros f Hf'. rewrite Hf in Hf'. injection Hf' as <-. lia. }
  assert (Header.Number (head_header n) < reorg_min tb n) as Hlt by lia.
  assert (small c tb n) as Hsm by (unfold small; lia).
  unfold step. rewrite He.
  destruct (on_slot_decisions c tb slot n) as (_ & _ & _ & Hbuild).
  rewrite (on_tick_running c tb tick slot n Hslot). unfold epoch.
  rewrite (proj2 (Z.eqb_neq _ _) Hep).
  rewrite Hbuild by done. rewrite M_bind_eq.
  destruct (choose_parent_spec c tb (with_rng n (after 2 (rng_of n))) Hv Hsm) as (g & parent & -> & Hp).
  change (reorg_min tb (with_rng n _)) with (reorg_min tb n) in Hp.
  change (head_header (with_rng n _)) with (head_header n) in Hp.
  rewrite (proj2 (Z.leb_gt _ _) Hlt) in Hp.
  change (drawn 0 (with_rng n (after 2 (rng_of n)))) with (drawn 2 n) in Hp.
  rewrite Hreorg in Hp. rewrite Hp. done.
Qed.
End reorgs.

(** ** A payload that outlives its slot *)
Section stale.
Context `{!SSZ, !Hasher, !Hexutil, !BLS, !Geth, !RelayCodec, !ClientCodec, !Platform, !Rand}.
Context {W E : Type} `{!BuilderServer W, !EngineServer E}.
Implicit Types n : Node (W:=W) (E:=E).

(** The parts of a node that obtaining a payload depends on, besides the random
    numbers. *)
Lemma world_with_rng n g n' :
  own_chain (world n') = own_chain (world n) → builder_peer (world n') = builder_peer (world n) →
  engine_peer (world n') = engine_peer (world n) → RNG (world n') = g →
  world n' = world (with_rng n g).
Proof. destruct n' as [[] ? ? ? ? ? ?]. cbn. by intros -> -> -> ->. Qed.

(** C22: the slot that sends an invalid hash does not take the pending payload id, as
    a gap does: the id built for it is proposed in the next slot, where the
    timestamp of its payload is refused, and a bounded run ends with a failure
    though engine and client did nothing wrong. *)
Theorem invalid_hash_slot_fails_run c tb t1 t2 slot k id p n :
  SlotTime c = k * Second → 0 < k → 0 ≤ slot → (slot + 1) * (k * Second) < 2 ^ 63 →
  SlotBound c ≠ 0 →
  ended n = None → senders n = [id] → goroutines n = [] →
  running_slot c t1 = Some slot → running_slot c t2 = Some (slot + 1) →
  float64_lt (drawn 0 n) (GapSlot (Freq (behavior c))) = false →
  float64_lt (drawn 1 n) (InvalidHashFreq (Freq (behavior c))) = true →
  float64_lt (drawn 2 n) (GapSlot (Freq (behavior c))) = false →
  float64_lt (drawn 3 n) (InvalidHashFreq (Freq (behavior c))) = false →
  (∀ g, (getMockProposal c id (slot + 1) (world (with_rng n g))).2 = Ok p) →
  ExecutionPayloadV1.Timestamp p = SlotTimestamp (BeaconGenesisTime c) (SlotTime c) slot →
  let n1 := step c tb (Tick t1) n in
  let n2 := step c tb (Tick t2) n1 in
  senders n1 = [id] ∧ goroutines n2 = goroutines n1 ++ [GoProposal id (slot + 1)] ∧
  ended (step c tb (Resume 1) n2) = Some (Exited 1).
Proof.
  intros Hst Hk Hs0 Hb Hbound He Hs Hg Ht1 Ht2 Hd0 Hd1 Hd2 Hd3 Hget Hts n1 n2.
  set (e1 := epoch c slot n).
  assert (∃ m, n1 = m ∧ senders m = [id] ∧ ended m = None ∧
    goroutines m = [GoInvalidHash (invalid_hash_payload (head_header e1))] ∧
    own_chain (world m) = own_chain (world n) ∧ builder_peer (world m) = builder_peer (world n) ∧
    engine_peer (world m) = engine_peer (world n) ∧ RNG (world m) = after 2 (rng_of n))
    as (m & Hn1 & Hms & Hme & Hmg & Hmc & Hmb & Hmp & Hmr).
  { destruct (on_slot_decisions c tb slot e1) as (_ & Hbad & _). unfold n1, step.
    rewrite He, (on_tick_running c tb t1 slot n Ht1). fold e1.
    assert (rng_of e1 = rng_of n ∧ senders e1 = senders n ∧ goroutines e1 = goroutines n ∧
      ended e1 = ended n ∧ world e1 = world n) as (Er & Es & Eg & Ee & Ew)
      by (unfold e1, epoch; by destruct (_ =? 0)).
    unfold drawn in Hbad. rewrite Er in Hbad. rewrite (Hbad Hd0 Hd1). eexists. split; [done|].
    cbn [settle senders ended goroutines world with_goroutines with_rng with_world own_chain
      builder_peer engine_peer RNG]. rewrite Es, Eg, Ee, Ew, Hg. done. }
  set (e2 := epoch c (slot + 1) m).
  assert (∃ g, n2 = with_goroutines (with_senders (with_rng e2 g) [])
    (goroutines m ++ [GoProposal id (slot + 1)])) as [g Hn2].
  { destruct (on_slot_decisions c tb (slot + 1) e2) as (_ & _ & Hprop & _). unfold n2, step.
    rewrite Hn1, Hme, (on_tick_running c tb t2 (slot + 1) m Ht2). fold e2.
    assert (rng_of e2 = after 2 (rng_of n) ∧ senders e2 = [id] ∧ goroutines e2 = goroutines m)
      as (Er & Es & Eg) by (unfold e2, epoch, rng_of; destruct (_ =? 0); cbn; auto).
    unfold drawn in Hprop. rewrite Er in Hprop.
    destruct (Hprop Hd2 Hd3 id [] Es) as [g Hp]. exists g. rewrite Hp, Eg. done. }
  rewrite Hn1. split; [done|]. split; [by rewrite Hn2|].
  unfold step. assert (ended n2 = None) as ->.
  { rewrite Hn2. unfold e2, epoch. by destruct (_ =? 0). }
  rewrite Hn2. cbn [goroutines with_goroutines]. rewrite Hmg. cbn [app lookup list_lookup delete list_delete].
  assert (world (with_rng e2 g) = world (with_rng n g)) as Hw.
  { apply world_with_rng; unfold e2, epoch; destruct (_ =? 0); cbn; done. }
  set (n3 := with_goroutines _ _). assert (world n3 = world (with_rng n g)) as Hw3 by exact Hw.
  cbn [run_goroutine]. rewrite M_bind_eq. unfold on_world. rewrite Hw3.
  specialize (Hget g). destruct (getMockProposal c id (slot + 1) (world (with_rng n g)))
    as [w1 r] eqn:Hgm. cbn [snd] in Hget. subst r.
  assert (mockProposal c id (slot + 1) false (world (with_rng n g))
          = (w1, Ok (maybeExit (SlotBound c)))) as ->.
  { unfold mockProposal. rewrite M_bind_eq. unfold attempt at 1. rewrite Hgm, Hts, Hst.
    rewrite wrong_slot_refused by (done || nia || lia). done. }
  unfold maybeExit. rewrite (proj2 (Z.eqb_neq _ _) Hbound). done.
Qed.
End stale.
