(* ===== verification/Exits.v ===== *)
(** * How the consensus mock ends

    When a run of the slot loop exits by itself, with which status and why. *)

From Stdlib Require Import Strings.Byte Floats.SpecFloat.
From S2P Require Import Prelude Numeral BigInt Common Fastssz Hasher SszObject.
From S2P Require Import FixedContainers VarContainers BlockContainers Signing.
From S2P Require Import Geth Payload MockChain Cache Engine Http Relay RelayServing.
From S2P Require Import Float64 Clock Behavior Api Consensus SlotLoop SlotProperties.
#[local] Open Scope Z_scope.
#[local] Open Scope go_scope.

Section exits.
Context `{!SSZ, !Hasher, !Hexutil, !BLS, !Geth, !RelayCodec, !ClientCodec, !Platform, !Rand}.
Context {W E : Type} `{!BuilderServer W, !EngineServer E}.
Implicit Types n : Node (W:=W) (E:=E).

(** A computation that does not end the process by itself. *)
Definition the_end n : option ending := ended n.
#[local] Notation goes_on := (evolves (along the_end eq)).

Lemma goes_on_on_world {A} (m : M World A) : goes_on (on_world m).
Proof. intros n n' r. unfold on_world. destruct (m (world n)). by intros [= <- _]. Qed.
Lemma goes_on_random {A} (f : rng → rng * A) : goes_on (random f).
Proof. apply goes_on_on_world. Qed.
Lemma goes_on_go g : goes_on (go g).
Proof. by intros n n' r [= <- _]. Qed.
Lemma goes_on_receive : goes_on receive_pending.
Proof. intros n n' r. unfold receive_pending. destruct (senders n); by intros [= <- _]. Qed.
Lemma goes_on_send id : goes_on (send_pending id).
Proof. by intros n n' r [= <- _]. Qed.
#[local] Hint Resolve goes_on_on_world goes_on_random goes_on_go goes_on_receive
  goes_on_send : evolves.

Lemma goes_on_on_slot c tb slot : goes_on (on_slot c tb slot).
Proof. unfold on_slot, choose_parent, external_block, happens. evolve. Qed.

(** What a computation that goes on leaves of the process: it may have crashed. *)
Lemma goes_on_settle (m : M Node unit) n :
  goes_on m → ended n = None →
  ended (settle (m n)) = None ∨ ended (settle (m n)) = Some Crashed.
Proof.
  intros Hm Hn. destruct (m n) as [n' r] eqn:Em. apply Hm in Em. unfold along, the_end in Em.
  destruct r as [[]|e|]; cbn; [left; congruence|left; congruence|by right].
Qed.

(** ** Why the process exits *)

(** A proposal that fails: no payload was obtained, it has another slot's timestamp,
    the client's own chain refused it, or the engine did, by an error or by an
    answer other than VALID. *)
Inductive proposal_refused c id slot (w : World (W:=W) (E:=E)) : Prop :=
  | refused_no_payload w1 e :
      getMockProposal c id slot w = (w1, Err e) → proposal_refused c id slot w
  | refused_timestamp w1 p e :
      getMockProposal c id slot w = (w1, Ok p) →
      ValidateTimestamp (BeaconGenesisTime c) (SlotTime c) (ExecutionPayloadV1.Timestamp p) slot
      = Err e → proposal_refused c id slot w
  | refused_by_chain w1 p ch e :
      getMockProposal c id slot w = (w1, Ok p) →
      ValidateTimestamp (BeaconGenesisTime c) (SlotTime c) (ExecutionPayloadV1.Timestamp p) slot
      = Ok tt →
      ProcessPayload p (own_chain w1) = (ch, Err e) → proposal_refused c id slot w
  | refused_by_engine w1 p ch b pe r :
      getMockProposal c id slot w = (w1, Ok p) →
      ValidateTimestamp (BeaconGenesisTime c) (SlotTime c) (ExecutionPayloadV1.Timestamp p) slot
      = Ok tt →
      ProcessPayload p (own_chain w1) = (ch, Ok b) →
      call_newPayloadV1 p (engine_peer w1) = (pe, r) → r ≠ Panic →
      (∀ st, r = Ok st → PayloadStatusV1.Status st ≠ ExecutionValid) →
      proposal_refused c id slot w.

(** The attributes the next draws give a forkchoice update: those of the next slot
    when it is to be proposed in. *)
Definition next_attributes c slot (g : rng) : option PayloadAttributesV1.t :=
  let '(g, x) := Float64 g in
  if float64_lt x (ProposalFreq (Freq (behavior c)))
  then Some (PayloadAttributesV1.mk
         (SlotTimestamp (BeaconGenesisTime c) (SlotTime c) (wrap64 (slot + 1)))
         (Read g 32).2 (copy (zeros 20) [x13; x37]))
  else None.

(** A forkchoice update that fails: the engine answers with an error, or with a
    status other than VALID. *)
Definition forkchoice_refused c latest safe final slot n : Prop :=
  let '(_, r) := call_forkchoiceUpdatedV1 (ForkchoiceStateV1.mk latest safe final)
                   (next_attributes c slot (rng_of n)) (engine_peer (world n)) in
  r ≠ Panic ∧ ∀ res, r = Ok res →
    PayloadStatusV1.Status (ForkchoiceUpdatedResult.PayloadStatus res) ≠ ExecutionValid.

Definition fails c (g : goroutine) n : Prop :=
  match g with
  | GoProposal id slot => proposal_refused c id slot (world n)
  | GoForkchoice latest safe final slot => forkchoice_refused c latest safe final slot n
  | GoInvalidHash _ | GoExecution _ _ _ _ => False
  end.

(** The reasons for an exit of a bounded run: success at a tick past the bound, a
    failure in a goroutine whose proposal or forkchoice update fails. *)
Definition exit_reason c (e : event) (code : Z) n : Prop :=
  0 < SlotBound c ∧
  match e with
  | Tick t => code = 0 ∧ SlotBound c < slot_of_tick c t
  | Resume i => code = 1 ∧ ∃ g, goroutines n !! i = Some g ∧ fails c g n
  end.

Lemma maybeExit_exits val : maybeExit val = Exits ↔ val ≠ 0.
Proof. unfold maybeExit. by destruct (Z.eqb_spec val 0). Qed.

Lemma mockProposal_exits c id slot w :
  (mockProposal c id slot false w).2 = Ok Exits ↔
  SlotBound c ≠ 0 ∧ proposal_refused c id slot w.
Proof.
  rewrite <- maybeExit_exits. unfold mockProposal. rewrite M_bind_eq. unfold attempt at 1.
  destruct (getMockProposal c id slot w) as [w1 [p|e|]] eqn:Hg; cbn [mret M_ret snd].
  2:{ split; [intros [= Hm]; split; [done|by eapply refused_no_payload]|by intros [-> _]]. }
  2:{ split; [done|]. intros [_ []]; congruence. }
  destruct (ValidateTimestamp _ _ _ _) as [[]|e|] eqn:Ht; cbn [snd].
  2:{ split; [intros [= Hm]; split; [done|by eapply refused_timestamp]|by intros [-> _]]. }
  2:{ split; [done|]. intros [_ []]; congruence. }
  rewrite M_bind_eq. unfold attempt at 1, on_own_chain.
  destruct (ProcessPayload p (own_chain w1)) as [ch [b|e|]] eqn:Hp; cbn [snd].
  2:{ split; [intros [= Hm]; split; [done|by eapply refused_by_chain]|by intros [-> _]]. }
  2:{ split; [done|]. intros [_ []]; congruence. }
  rewrite M_bind_eq. unfold attempt, on_engine. cbn [engine_peer].
  change (api.NewPayloadV1 p) with (call_newPayloadV1 p).
  destruct (call_newPayloadV1 p (engine_peer w1)) as [pe [st|e|]] eqn:Hc.
  - destruct (decide _) as [Hst|Hst]; cbn [snd mret M_ret].
    + split; [done|]. intros [_ [| | |w2 p2 ch2 b2 pe2 r2 Hg2 Ht2 Hp2 Hc2 _ Hno]]; [congruence..|].
      destruct (Hno st); congruence.
    + split; [|by intros [-> _]]. intros [= Hm]. split; [done|].
      eapply refused_by_engine; [done..|]. by intros st' [= <-].
  - cbn. split; [|by intros [-> _]]. intros [= Hm]. split; [done|]. by eapply refused_by_engine.
  - cbn. split; [done|]. intros [_ []]; congruence.
Qed.

(** The draws of a forkchoice goroutine, up to its call of the engine. *)
Lemma attributes_run {A} c slot n (K : option PayloadAttributesV1.t → M Node A) :
  ∃ n1, ended n1 = ended n ∧ engine_peer (world n1) = engine_peer (world n) ∧
    (proposing ← happens (ProposalFreq (Freq (behavior c)));
     attributes ← (if proposing : bool
                   then a ← on_world (makePayloadAttributes c (wrap64 (slot + 1))); mret (Some a)
                   else mret None);
     K attributes) n = K (next_attributes c slot (rng_of n)) n1.
Proof.
  unfold next_attributes, happens, makePayloadAttributes, random_bytes, random, on_world, rng_of.
  mrun. destruct (Float64 (RNG (world n))) as [g x]. mrun. destruct (float64_lt _ _); mrun.
  - cbn [world with_world RNG]. destruct (Read g 32) as [g' bs]. mrun.
    by eexists (with_world _ (mk_world _ _ _ _)).
  - by eexists (with_world _ (mk_world _ _ _ _)).
Qed.

Lemma run_goroutine_exits c g n code :
  ended n = None →
  ended (settle (run_goroutine c g n)) = Some (Exited code) ↔
  code = 1 ∧ SlotBound c ≠ 0 ∧ fails c g n.
Proof.
  intros Hn. destruct g as [p|id slot|b safe final slot|latest safe final slot].
  1,3: split; [intros Hend; exfalso|by intros (_ & _ & [])];
    match type of Hend with ended (settle (?m ?k)) = _ =>
      destruct (goes_on_settle m k ltac:(unfold run_goroutine; evolve) Hn) end; congruence.
  - cbn [run_goroutine fails]. rewrite <- mockProposal_exits, M_bind_eq. unfold on_world.
    destruct (mockProposal c id slot false (world n)) as [w [[]|e|]]; cbn;
      rewrite ?Hn; naive_solver.
  - cbn [fails]. unfold forkchoice_refused. rewrite <- maybeExit_exits.
    destruct (attributes_run c slot n (λ attributes,
      id ← attempt (on_world (sendForkchoiceUpdated latest safe final attributes));
      match id with
      | inr _ => match maybeExit (SlotBound c) with Exits => exit 1 | Continues => mret tt end
      | inl None => mret tt
      | inl (Some id) => send_pending id
      end)) as (n1 & He & Hp & Hrun).
    cbn [run_goroutine]. rewrite Hrun.
    rewrite M_bind_eq. unfold attempt, on_world, sendForkchoiceUpdated. rewrite M_bind_eq.
    unfold on_engine, api.ForkchoiceUpdatedV1. rewrite Hp.
    destruct (call_forkchoiceUpdatedV1 _ _ _) as [pe [res|e|]]; cbn.
    + destruct (decide _) as [Hst|Hst]; cbn.
      * destruct (maybeExit _); cbn; rewrite ?He, ?Hn; (split; [|by intros (-> & ? & _)]);
          intros [= <-]; split_and!; [done..|]. by intros res' [= <-].
      * apply dec_stable in Hst. destruct (ForkchoiceUpdatedResult.PayloadID res); cbn;
          rewrite He, Hn; (split; [done|]); intros (_ & _ & _ & Hno); by destruct (Hno res).
    + rewrite decide_True by done. destruct (maybeExit _); cbn; rewrite ?He, ?Hn;
        (split; [|by intros (-> & ? & _)]); intros [= <-]; by split_and!.
    + split; [done|]. by intros (_ & _ & [] & _).
Qed.

(** A step that ends the process by an exit is one with a reason to. *)
Lemma step_exits c tb e n code :
  ended n = None → 0 ≤ SlotBound c →
  ended (step c tb e n) = Some (Exited code) ↔ exit_reason c e code n.
Proof.
  intros Hn Hb. unfold step, exit_reason. rewrite Hn. destruct e as [t|i].
  - destruct (running_slot c t) as [slot|] eqn:Hs.
    + rewrite (on_tick_running c tb t slot n Hs).
      assert (ended (epoch c slot n) = None) as He by (unfold epoch; by destruct (_ =? 0)).
      assert (SlotBound c ≤ 0 ∨ slot_of_tick c t ≤ SlotBound c) as Hle.
      { unfold running_slot in Hs. destruct (Z.ltb_spec 0 (SlotBound c)); [|by left].
        destruct (Z.ltb_spec (SlotBound c) (slot_of_tick c t)); [|by right].
        by destruct (slot_of_tick c t <=? 0). }
      destruct (goes_on_settle _ _ (goes_on_on_slot c tb slot) He) as [-> | ->];
        (split; [done|]); intros (? & _ & ?); lia.
    + rewrite (on_tick_idle c tb t n Hs). cbv zeta.
      destruct (Z.ltb_spec (slot_of_tick c t) 0); [rewrite Hn; split; [done|lia]|].
      destruct (Z.eqb_spec (slot_of_tick c t) 0); [cbn; rewrite Hn; split; [done|lia]|].
      destruct (Z.ltb_spec 0 (SlotBound c)), (Z.ltb_spec (SlotBound c) (slot_of_tick c t)); cbn;
        (split; [|by lia || (by intros (_ & -> & _))]); try done. by intros [= <-].
  - destruct (goroutines n !! i) as [g|] eqn:Hg.
    + rewrite (run_goroutine_exits c g (with_goroutines n (delete i (goroutines n))) code Hn). split.
      * intros (-> & Hne & Hf). split; [lia|]. split; [done|]. by exists g.
      * intros (Hpos & -> & g' & [= <-] & Hf). split; [done|]. split; [lia|done].
    + rewrite Hn. split; [done|]. by intros (_ & _ & g & Hg' & _).
Qed.

Lemma loop_run_steps c tb start es n :
  loop_run c tb start es n ↔ n = foldl (λ n e, step c tb e n) start es.
Proof.
  split.
  - induction 1 as [|es e n _ ->]; [done|]. by rewrite foldl_app.
  - intros ->. induction es as [|e es IH] using rev_ind; [constructor|].
    rewrite foldl_app. by apply loop_step.
Qed.

Lemma step_ended c tb e n x : ended n = Some x → step c tb e n = n.
Proof. intros Hn. unfold step. by rewrite Hn. Qed.

(** C18: why a run exits.  The process exits by itself exactly when some step of the
    run, taken while it was running, has a reason to: the run is bounded, and the
    step is a tick past the bound, which exits with status 0, or a goroutine whose
    proposal or forkchoice update failed, which exits with status 1.  A proposal
    fails when no payload was obtained, when its timestamp is of another slot, or
    when the client's chain or the engine refused it; nothing else exits. *)
Theorem exit_codes c tb start es n code :
  ended start = None → 0 ≤ SlotBound c → loop_run c tb start es n →
  ended n = Some (Exited code) ↔
  ∃ es1 e es2 m, es = es1 ++ e :: es2 ∧ loop_run c tb start es1 m ∧ ended m = None ∧
    exit_reason c e code m.
Proof.
  intros Hstart Hb Hrun. split.
  - induction Hrun as [|es e n Hrun IH]; [congruence|]. intros Hend.
    destruct (ended n) as [x|] eqn:Hn.
    + rewrite (step_ended c tb e n x Hn), Hn in Hend.
      destruct (IH Hend) as (es1 & e1 & es2 & m & -> & Hm). exists es1, e1, (es2 ++ [e]), m.
      by rewrite <- app_assoc.
    + exists es, e, [], n. rewrite (step_exits c tb e n code Hn Hb) in Hend. done.
  - intros (es1 & e & es2 & m & -> & Hm & Hme & Hr).
    apply loop_run_steps in Hrun as ->. apply loop_run_steps in Hm.
    rewrite foldl_app, <- Hm. cbn. apply (step_exits c tb e m code Hme Hb) in Hr.
    generalize dependent (step c tb e m). induction es2 as [|e' es2 IH]; intros k Hk; [done|].
    cbn. by rewrite (step_ended c tb e' k _ Hk), IH.
Qed.
End exits.
