(* ===== verification/RunNode.v ===== *)
(** * The consensus mock from its start

    [RunNode] of [consensus.go] as a whole: the prologue when a peer is given, the
    chain reopened on the same database, and the slot loop on that chain. *)

From Stdlib Require Import Strings.Byte Floats.SpecFloat.
From S2P Require Import Prelude Numeral BigInt Common Fastssz Hasher SszObject.
From S2P Require Import FixedContainers VarContainers BlockContainers Signing.
From S2P Require Import Geth Payload MockChain Mining P2p Cache Engine Http Relay RelayServing.
From S2P Require Import Float64 Clock Behavior Prologue Api Consensus SlotLoop.
#[local] Open Scope Z_scope.
#[local] Open Scope go_scope.

Section run.
Context `{!SSZ, !Hasher, !Hexutil, !BLS, !Geth, !RelayCodec, !ClientCodec, !Platform, !Rand,
  !ConsensusEngine, !ChainStore, !DevP2P, !Enode}.
Context {W E : Type} `{!BuilderServer W, !EngineServer E}.

Definition on_database {A} (m : M Database A) : M (Database * rng) A := λ '(db, g),
  let '(db, r) := m db in ((db, g), r).

(** The part before the loop, with the fuel of the prologue: the transition block
    and the chain of the loop.  An error exits with status 1. *)
Definition RunNode_start (c : ConsensusCmd) (enode genesisPath : bytes) (key : PrivateKey)
    (fuel : nat) : M (Database * rng) (option (Z * MockChain)) :=
  nr ← (if bool_decide (enode ≠ [])
        then proofOfWorkPrelogue (behavior c) genesisPath enode key fuel
        else mret (Some 0));
  match nr with
  | None => mret None
  | Some transitionBlock =>
      mockChain ← on_database (NewMockChain genesisPath);
      mret (Some (transitionBlock, mockChain))
  end.

(** A state of the process after the events [es]: what ran before the loop left the
    chain [mockChain] and the random numbers [g] behind. *)
Inductive node_run (c : ConsensusCmd) (enode genesisPath : bytes) (key : PrivateKey)
    (start : Database * rng) (relay : W) (engine : E) (es : list event) (n : Node) : Prop :=
  | RunNode fuel transitionBlock mockChain db g :
      RunNode_start c enode genesisPath key fuel start
      = ((db, g), Ok (Some (transitionBlock, mockChain))) →
      loop_run c transitionBlock (start_node (mk_world mockChain g relay engine)) es n →
      node_run c enode genesisPath key start relay engine es n.
End run.

(** ** Lemmas *)
Section lemmas.
Context `{!SSZ, !Hasher, !Hexutil, !BLS, !Geth, !GethLaws, !ChainLaws, !RelayCodec, !ClientCodec,
  !Platform, !Rand, !ConsensusEngine, !PoWLaws, !ChainStore, !ChainStoreLaws, !DevP2P, !Enode}.

(** A prologue that returns a block number was not needed, or has reached the
    terminal total difficulty on the chain it mined. *)
Lemma proofOfWorkPrelogue_reached b path enode key fuel s s' n :
  proofOfWorkPrelogue b path enode key fuel s = (s', Ok (Some n)) →
  ∃ mc0 ttd, (NewMockChain path s.1).2 = Ok mc0 ∧ TerminalTotalDifficulty (config mc0) = Some ttd ∧
    if ttd <=? 0 then n = 0
    else ∃ p, valid_chain (chain (mc p)) ∧ reached p (config mc0) n ∧ s'.1 = database (mc p).
Proof.
  destruct s as [db g]. unfold proofOfWorkPrelogue. cbn [fst]. intros Hrun.
  destruct (NewMockChain path db) as [db1 [mc0|e|]] eqn:Hnew; [|done..].
  pose proof (NewMockChain_valid _ _ _ _ Hnew) as Hv.
  destruct (TerminalTotalDifficulty (config mc0)) as [ttd|] eqn:Httd; [|done].
  exists mc0, ttd. split; [done|]. split; [done|].
  destruct (ttd <=? 0); [by injection Hrun|].
  destruct (enode_Parse enode) as [addr|e|]; [|done..].
  destruct (Dial addr key) as [conn|e|]; [|done..].
  destruct (Peer (config mc0) (chain mc0) None conn) as [conn1 [[]|e|]]; [|done..].
  destruct (prologue_loop b fuel (mk_prologue mc0 g conn1)) as [p r] eqn:Hloop.
  injection Hrun as <- ->. exists p.
  by destruct (prologue_loop_reached b fuel (mk_prologue mc0 g conn1) p n Hv Hloop).
Qed.
End lemmas.

(** ** Properties *)
Section properties.
Context `{!SSZ, !Hasher, !Hexutil, !BLS, !Geth, !GethLaws, !ChainLaws, !RelayCodec, !ClientCodec,
  !Platform, !Rand, !ConsensusEngine, !PoWLaws, !ChainStore, !ChainStoreLaws, !DevP2P, !Enode}.
Context {W E : Type} `{!BuilderServer W, !EngineServer E}.

(** C5: in every state the process reaches from its start, whatever database it opens,
    whatever the proof-of-work peer, the ticks, the random numbers, the answers of
    the peers and the interleaving of the goroutines are: the client's chain is in
    good order, and every block named by the loop's finality or by a goroutine that
    has still to send it is one the client's chain knows; finalized and safe hashes
    may also still be zero.  The loop's transition block is zero without a peer and
    when the genesis file needs no mining, and otherwise the head on which the
    prologue reached the terminal total difficulty. *)
Theorem loop_run_invariant c enode path key start relay engine es
    (n : Node (W:=W) (E:=E)) :
  node_run c enode path key start relay engine es n →
  loop_inv n ∧
  ∃ fuel s transitionBlock mockChain,
    RunNode_start c enode path key fuel start = (s, Ok (Some (transitionBlock, mockChain))) ∧
    loop_run c transitionBlock (start_node (mk_world mockChain s.2 relay engine)) es n ∧
    (enode = [] → transitionBlock = 0) ∧
    (enode ≠ [] → ∃ mc0 ttd,
       (NewMockChain path start.1).2 = Ok mc0 ∧ TerminalTotalDifficulty (config mc0) = Some ttd ∧
       if ttd <=? 0 then transitionBlock = 0
       else ∃ p, valid_chain (chain (mc p)) ∧ reached p (config mc0) transitionBlock ∧
              (NewMockChain path (database (mc p))).2 = Ok mockChain).
Proof.
  intros [fuel tb mock db g Hstart Hrun]. pose proof Hstart as Hinv. unfold RunNode_start in Hinv.
  apply M_bind_Ok_inv in Hinv as (s1 & nr & Hpro & Hinv). destruct nr as [nr|]; [|done].
  apply M_bind_Ok_inv in Hinv as (s2 & mock' & Hnew & Hinv). injection Hinv as -> -> ->.
  destruct s1 as [db1 g1]. unfold on_database in Hnew.
  destruct (NewMockChain path db1) as [db2 r] eqn:Hmock. injection Hnew as -> -> ->.
  split.
  { eapply loop_inv_run; [|exact Hrun]. by eapply NewMockChain_valid. }
  exists fuel, (db, g), tb, mock. split; [done|]. split; [done|]. split.
  - intros ->. rewrite bool_decide_false in Hpro by auto. by injection Hpro.
  - intros He. rewrite bool_decide_true in Hpro by done.
    destruct (proofOfWorkPrelogue_reached _ _ _ _ _ _ _ _ Hpro) as (mc0 & ttd & Hc & Ht & Hn).
    exists mc0, ttd. split; [done|]. split; [done|]. destruct (ttd <=? 0); [done|].
    destruct Hn as (p & Hv & Hr & Hdb). exists p. split; [done|]. split; [done|].
    cbn in Hdb. by rewrite <- Hdb, Hmock.
Qed.
End properties.
