(* ===== verification/Eth.v ===== *)
(** * The eth namespace

    [eth.go] and [types/rpc_encoding.go]: the blocks the engine's RPC server shows
    under the [eth] namespace, as maps from field names to values. *)

From S2P Require Import Prelude Geth Payload MockChain.
#[local] Open Scope Z_scope.
#[local] Open Scope go_scope.

(** What the namespace uses of go-ethereum besides [Geth]: blocks by hash and number,
    hashes of transactions, sizes, and the special block numbers of its RPC package
    (negative numbers). *)
Class EthBlocks `{!Geth} := {
  GetBlockByHash : BlockChain → bytes → option Block;
  GetBlockByNumber : BlockChain → Z → option Block;
  tx_Hash : Transaction → bytes;
  header_Size : Header.t → Z;
  block_Size : Block → Z;
  PendingBlockNumber : Z;
  LatestBlockNumber : Z;
}.

(** A block found under a hash or a number has it, and its header is the one the
    chain knows under that hash; nothing is found under the numbers that negative
    special numbers wrap to. *)
Class EthBlocksLaws `{!Geth, !EthBlocks} : Prop := {
  GetBlockByHash_inv bc h b : GetBlockByHash bc h = Some b → block_Hash b = h;
  GetBlockByNumber_inv bc n b :
    GetBlockByNumber bc n = Some b → wrap64 (Header.Number (block_Header b)) = n;
  GetBlockByNumber_small bc n : 2 ^ 63 ≤ n → GetBlockByNumber bc n = None;
  special_distinct : PendingBlockNumber ≠ LatestBlockNumber;
  special_negative : PendingBlockNumber < 0 ∧ LatestBlockNumber < 0;
}.

(** The values of the maps, by the Go type that says how they are written. *)
Inductive rpc_value :=
  | RBig (v : option Z)
  | RFixed (b : bytes)
  | RBytes (b : bytes)
  | RUint64 (v : Z)
  | RHashes (l : list bytes)
  | RArray (l : list bytes).

Section eth.
Context `{!Geth, !EthBlocks}.

Definition RPCMarshalHeader (head : Header.t) : gmap string rpc_value :=
  let result := list_to_map [
    ("number", RBig (Some (Header.Number head)));
    ("hash", RFixed (header_Hash head));
    ("parentHash", RFixed (Header.ParentHash head));
    ("nonce", RFixed (Header.Nonce head));
    ("mixHash", RFixed (Header.MixDigest head));
    ("sha3Uncles", RFixed (Header.UncleHash head));
    ("logsBloom", RFixed (Header.Bloom head));
    ("stateRoot", RFixed (Header.Root head));
    ("miner", RFixed (Header.Coinbase head));
    ("difficulty", RBig (Some (Header.Difficulty head)));
    ("extraData", RBytes (Header.Extra head));
    ("size", RUint64 (header_Size head));
    ("gasLimit", RUint64 (Header.GasLimit head));
    ("gasUsed", RUint64 (Header.GasUsed head));
    ("timestamp", RUint64 (Header.Time head));
    ("transactionsRoot", RFixed (Header.TxHash head));
    ("receiptsRoot", RFixed (Header.ReceiptHash head))]%string in
  match Header.BaseFee head with
  | Some fee => <["baseFeePerGas"%string := RBig (Some fee)]> result
  | None => result
  end.

(** [formatTx] never fails. *)
Definition RPCMarshalBlock (block : Block) (inclTx fullTx : bool)
    : res (gmap string rpc_value) :=
  let fields := RPCMarshalHeader (block_Header block) in
  let fields := <["size"%string := RUint64 (block_Size block)]> fields in
  fields ← (if inclTx
            then if fullTx then Err (Errorf "not implemented")
                 else Ok (<["transactions"%string :=
                             RArray (tx_Hash <$> block_Transactions block)]> fields)
            else Ok fields);
  Ok (<["uncles"%string := RHashes (header_Hash <$> block_Uncles block)]> fields).

Definition rpcMarshalBlock (chain : BlockChain) (block : Block) (inclTx fullTx : bool)
    : res (gmap string rpc_value) :=
  fields ← RPCMarshalBlock block inclTx fullTx;
  if inclTx
  then Ok (<["totalDifficulty"%string :=
              RBig (GetTd chain (block_Hash block)
                      (wrap64 (Header.Number (block_Header block))))]> fields)
  else Ok fields.

Definition eth_GetBlockByHash (chain : BlockChain) (hash : bytes) (fullTx : bool)
    : res (gmap string rpc_value) :=
  match GetBlockByHash chain hash with
  | None => Err (Errorf "unknown block")
  | Some block => rpcMarshalBlock chain block true fullTx
  end.

(** The current block is never nil, so the genesis block is never needed. *)
Definition eth_GetBlockByNumber (chain : BlockChain) (number : Z) (fullTx : bool)
    : res (gmap string rpc_value) :=
  if number =? PendingBlockNumber then Err (Errorf "not implemented") else
  if number =? LatestBlockNumber then rpcMarshalBlock chain (CurrentBlock chain) true fullTx else
  match GetBlockByNumber chain (wrap64 number) with
  | None => Err (Errorf "unknown block")
  | Some block => rpcMarshalBlock chain block true fullTx
  end.
End eth.

(** ** Lemmas *)
Section lemmas.
Context `{!Geth, !GethLaws, !EthBlocks}.

(** The fields of a block that is shown. *)
Definition shows (chain : BlockChain) (block : Block) (fields : gmap string rpc_value) : Prop :=
  let h := block_Header block in
  fields !! "hash"%string = Some (RFixed (block_Hash block)) ∧
  fields !! "parentHash"%string = Some (RFixed (Header.ParentHash h)) ∧
  fields !! "number"%string = Some (RBig (Some (Header.Number h))) ∧
  fields !! "stateRoot"%string = Some (RFixed (Header.Root h)) ∧
  fields !! "size"%string = Some (RUint64 (block_Size block)) ∧
  fields !! "baseFeePerGas"%string = (λ fee, RBig (Some fee)) <$> Header.BaseFee h ∧
  fields !! "transactions"%string = Some (RArray (tx_Hash <$> block_Transactions block)) ∧
  fields !! "uncles"%string = Some (RHashes (header_Hash <$> block_Uncles block)) ∧
  fields !! "totalDifficulty"%string
  = Some (RBig (GetTd chain (block_Hash block) (wrap64 (Header.Number h)))) ∧
  size fields = if Header.BaseFee h then 21%nat else 20%nat.

Lemma rpcMarshalBlock_shows chain block :
  ∃ fields, rpcMarshalBlock chain block true false = Ok fields ∧ shows chain block fields.
Proof.
  eexists. split; [reflexivity|]. unfold shows, RPCMarshalHeader.
  rewrite block_Hash_eq. destruct (Header.BaseFee (block_Header block)); done.
Qed.
End lemmas.

(** ** Properties *)
Section properties.
Context `{!Geth, !GethLaws, !EthBlocks, !EthBlocksLaws}.

End properties.
