(* ===== verification/Transport.v ===== *)
(** * The RPC transport

    [rpc/client.go] and [rpc/server.go]: the client of the engine API with its token
    of the JWT scheme, the HTTP and WebSocket servers, and [startRPC] of
    [engine.go], which starts both on one engine.  go-ethereum's [rpc] and [node]
    packages, the JWT library and [net/url] are parameters. *)

From Stdlib Require Import Strings.Byte.
From S2P Require Import Prelude Http Clock.
#[local] Open Scope Z_scope.
#[local] Open Scope go_scope.

(** ** The client *)

(** [signed_string secret iat] is the token signed with HS256 whose only claim is the
    time of issue; [url_scheme] is the scheme [url.Parse] finds. *)
Class RpcClient := {
  inner_client : Type;
  url_scheme : bytes → res bytes;
  rpc_DialContext : bytes → res inner_client;
  signed_string : bytes → Z → res bytes;
}.

Section client.
Context `{!RpcClient}.

(** go-ethereum's client with the [Authorization] header set on it. *)
Record Client := mk_client {
  inner : inner_client;
  authorization : option bytes;
  secret : bytes;
}.

Definition DialContext (rawurl secret : bytes) : res Client :=
  scheme ← url_scheme rawurl;
  if bool_decide (scheme ≠ text_bytes "http")
  then Err (Errorf "cannot connect to engine, only http currently supported") else
  client ← rpc_DialContext rawurl;
  Ok (mk_client client None secret).

(** A token issued at the time [now], in seconds, not yet signed. *)
Definition IssueJwtToken (now : Z) : Z := now.

Definition EncodeJwtAuthorization (strToken : bytes) : bytes := text_bytes "Bearer " ++ strToken.

(** A call at the time [now]; [call] is go-ethereum's call of the method with the
    headers of the client. *)
Definition CallContext {E A} (now : Z) (call : inner_client → option bytes → M E A)
    : M (Client * E) A := λ '(c, e),
  match signed_string (secret c) (IssueJwtToken now) with
  | Panic => ((c, e), Panic)
  | Err err => ((c, e), Err err)
  | Ok token =>
      let c := mk_client (inner c) (Some (EncodeJwtAuthorization token)) (secret c) in
      let '(e, r) := call (inner c) (authorization c) e in
      ((c, e), r)
  end.
End client.

(** ** The servers *)
Record Timeout := mk_timeout { Read : Z; ReadHeader : Z; Write : Z; Idle : Z }.

Record API (service : Type) := mk_api {
  Namespace : string;
  Version : string;
  Service : service;
  Public : bool;
  Authenticated : bool;
}.
Arguments mk_api {_}.

(** [register_name], [register_apis]: the server with what was registered, and the
    error. *)
Class RpcServer := {
  service : Type;
  rpc_server : Type;
  http_handler : Type;
  new_server : rpc_server;
  register_name : rpc_server → string → service → rpc_server * option error;
  register_apis : list (API service) → list string → rpc_server → bool → rpc_server * option error;
  NewHTTPHandlerStack : rpc_server → list bytes → list bytes → bytes → http_handler;
  WebsocketHandler : rpc_server → list bytes → http_handler;
  NewWSHandlerStack : http_handler → bytes → http_handler;
}.

Section server.
Context `{!RpcServer}.

(** [http.Server], its handlers by pattern. *)
Record HttpServer := mk_http {
  Addr : bytes;
  Handler : list (string * http_handler);
  ReadTimeout : Z;
  ReadHeaderTimeout : Z;
  WriteTimeout : Z;
  IdleTimeout : Z;
}.

(** The error of the first registration is dropped. *)
Definition NewServer (namespace : string) (backend : service) (authenticated : bool)
    : res rpc_server :=
  let '(srv, _) := register_name new_server namespace backend in
  let apis := [mk_api namespace "1.0" backend true authenticated] in
  match register_apis apis [namespace] srv false with
  | (srv, None) => Ok srv
  | (_, Some _) => Err (Errorf "could not register api")
  end.

Definition NewHTTPServer (rpcSrv : rpc_server) (addr : bytes) (timeout : Timeout)
    (cors : list bytes) : HttpServer :=
  let httpRpcHandler := NewHTTPHandlerStack rpcSrv cors [] [] in
  mk_http addr [("/"%string, httpRpcHandler)]
    (Read timeout) (ReadHeader timeout) (Write timeout) (Idle timeout).

Definition NewWSServer (rpcSrv : rpc_server) (addr jwt : bytes) (timeout : Timeout)
    (cors : list bytes) : HttpServer :=
  let wsHandler := NewWSHandlerStack (WebsocketHandler rpcSrv cors) jwt in
  mk_http addr [("/"%string, wsHandler); ("/ws"%string, wsHandler)]
    (Read timeout) (ReadHeader timeout) (Write timeout) (Idle timeout).

(** The options of [EngineCmd] the servers are started with. *)
Record EngineOptions := mk_options {
  ListenAddr : bytes;
  WebsocketAddr : bytes;
  Cors : list bytes;
  EngineTimeout : Timeout;
}.

Definition EngineCmd_Default : EngineOptions :=
  mk_options (text_bytes "127.0.0.1:8551") (text_bytes "127.0.0.1:8552") [text_bytes "*"]
    (mk_timeout (30 * Second) (10 * Second) (30 * Second) (300 * Second)).

(** [Register] of [eth.go]. *)
Definition eth_Register (srv : rpc_server) (eth : service) : rpc_server * option error :=
  let '(srv, _) := register_name srv "eth" eth in
  register_apis [mk_api "eth" "1.0" eth true false] ["eth"%string] srv false.

(** [backend] is the engine, [eth] the backend of the eth namespace, whose
    registration has its error dropped; another error ends the process. *)
Definition startRPC (c : EngineOptions) (jwtSecret : bytes) (backend eth : service)
    : res (rpc_server * HttpServer * HttpServer) :=
  rpcSrv ← NewServer "engine" backend true;
  let '(rpcSrv, _) := eth_Register rpcSrv eth in
  Ok (rpcSrv, NewHTTPServer rpcSrv (ListenAddr c) (EngineTimeout c) (Cors c),
      NewWSServer rpcSrv (WebsocketAddr c) jwtSecret (EngineTimeout c) (Cors c)).
End server.

(** ** Who gets through

    [lets_pass h auth now]: a request with this [Authorization] header reaches the RPC
    server behind the handler at this time.  Without a secret the stacks check
    nothing; with one the WebSocket stack wants a bearer token signed with it, and
    accepts one issued in the same second. *)
Class Authentication `{!RpcClient, !RpcServer} := {
  lets_pass : http_handler → option bytes → Z → bool;
  http_stack_open srv cors vhosts auth now :
    lets_pass (NewHTTPHandlerStack srv cors vhosts []) auth now = true;
  ws_stack_refuses h secret now :
    secret ≠ [] → lets_pass (NewWSHandlerStack h secret) None now = false;
  ws_stack_accepts srv cors secret token now :
    signed_string secret now = Ok token →
    lets_pass (NewWSHandlerStack (WebsocketHandler srv cors) secret)
      (Some (text_bytes "Bearer " ++ token)) now = true;
}.

Section properties.
Context `{!RpcClient, !RpcServer, !Authentication}.

(** Every call carries a token issued for it, whatever header the client had before;
    a call whose token cannot be signed is not made. *)
Theorem calls_carry_fresh_token {E A} now (call : inner_client → option bytes → M E A) c e :
  match signed_string (secret c) now with
  | Ok token =>
      let auth := Some (text_bytes "Bearer " ++ token) in
      CallContext now call (c, e)
      = ((mk_client (inner c) auth (secret c), (call (inner c) auth e).1), (call (inner c) auth e).2)
  | Err err => CallContext now call (c, e) = ((c, e), Err err)
  | Panic => CallContext now call (c, e) = ((c, e), Panic)
  end.
Proof.
  unfold CallContext, IssueJwtToken. destruct (signed_string (secret c) now) as [token|err|]; [|done..].
  cbn. unfold EncodeJwtAuthorization. by destruct (call _ _ e).
Qed.

(** The engine's WebSocket server refuses a request without a token and accepts the
    client's; its HTTP server, the only one the client dials, lets every request
    pass: the secret is not given to it. *)
Theorem http_server_unauthenticated c jwtSecret backend eth srv http ws :
  startRPC c jwtSecret backend eth = Ok (srv, http, ws) → jwtSecret ≠ [] →
  (∀ p h auth now, (p, h) ∈ Handler http → lets_pass h auth now = true) ∧
  (∀ p h now, (p, h) ∈ Handler ws → lets_pass h None now = false ∧
     ∀ token, signed_string jwtSecret now = Ok token →
       lets_pass h (Some (EncodeJwtAuthorization token)) now = true).
Proof.
  unfold startRPC. intros Hs Hj. apply bind_Ok_inv in Hs as (s0 & _ & Hs).
  destruct (eth_Register s0 eth) as [s1 err]. injection Hs as -> <- <-. split.
  - intros p h auth now Hin. apply list_elem_of_singleton in Hin as [= -> ->]. apply http_stack_open.
  - intros p h now Hin.
    assert (h = NewWSHandlerStack (WebsocketHandler srv (Cors c)) jwtSecret) as ->.
    { apply elem_of_cons in Hin as [[= _ ->]|Hin]; [done|].
      by apply list_elem_of_singleton in Hin as [= _ ->]. }
    split; [by apply ws_stack_refuses|]. intros token Ht. by apply ws_stack_accepts.
Qed.

(** Only URLs of the scheme http are dialed. *)
Theorem dial_http_only rawurl sec c :
  DialContext rawurl sec = Ok c →
  url_scheme rawurl = Ok (text_bytes "http") ∧ secret c = sec ∧ authorization c = None.
Proof.
  unfold DialContext. intros Hd. apply bind_Ok_inv in Hd as (scheme & Hs & Hd).
  case_bool_decide as Hne; [done|]. apply bind_Ok_inv in Hd as (i & _ & [= <-]).
  split; [|done]. rewrite Hs. f_equal. by destruct (decide (scheme = text_bytes "http")).
Qed.
End properties.
