(* ===== verification/RelayStart.v ===== *)
(** * Starting the relay

    [RelayCmd] of [relay.go]: its default options, with a secret key drawn at random,
    and [Run] up to its server; and the default options of the consensus mock. *)

From Stdlib Require Import Strings.Byte Floats.SpecFloat.
From S2P Require Import Prelude Numeral BigInt Common Fastssz Hasher SszObject.
From S2P Require Import FixedContainers VarContainers BlockContainers Signing.
From S2P Require Import Geth Payload MockChain Mining Cache Engine Http Relay RelayServing.
From S2P Require Import Float64 Clock Behavior Api Consensus Startup Transport.
#[local] Open Scope Z_scope.
#[local] Open Scope go_scope.

(** [hex.EncodeToString] of [encoding/hex]. *)
Definition hex_char (d : Z) : byte := byte_of_Z (if d <? 10 then 48 + d else 87 + d).
Definition hex_EncodeToString (b : bytes) : bytes :=
  b ≫= (λ x, [hex_char (Z_of_byte x / 16); hex_char (Z_of_byte x mod 16)]).

(** The encoding of a secret key, which decodes to the key. *)
Class SecretKeys `{!BLS} := {
  sk_Marshal : bls_secret_key → bytes;
  sk_roundtrip sk : SecretKeyFromBytes (sk_Marshal sk) = Ok sk;
}.

Definition zero_root : bytes :=
  text_bytes "0x0000000000000000000000000000000000000000000000000000000000000000".

Section relay.
Context `{!BLS, !SecretKeys, !Geth, !ChainStore, !LRU, !RelayCodec, !Hexutil}.

(** The options of the relay's command. *)
Record RelayCmd := mk_relay_cmd {
  RelayListenAddr : bytes;
  EngineListenAddr : bytes;
  EngineListenAddrWs : bytes;
  RelayTimeout : Timeout;
  GenesisValidatorsRootText : bytes;
  SecretKeyText : bytes;
}.

(** [drawn] is the outcome of [bls.RandKey], whose error is dropped: the key is nil
    then, and encoding it panics. *)
Definition RelayCmd_Default (drawn : res bls_secret_key) : res RelayCmd :=
  match drawn with
  | Ok sk =>
      Ok (mk_relay_cmd (text_bytes "127.0.0.1:28545") (text_bytes "127.0.0.1:8551")
            (text_bytes "127.0.0.1:8552")
            (mk_timeout (30 * Second) (10 * Second) (30 * Second) (300 * Second))
            zero_root (hex_EncodeToString (sk_Marshal sk)))
  | _ => Panic
  end.

(** [unstarted] is the engine before its [Run], when it has no backend; [jwtFile] has
    the contents of the secret's file.  An error ends the process. *)
Definition RelayCmd_Run (c : RelayCmd) (unstarted : EngineBackend) (jwtFile : res bytes)
    : res (bytes * RelayBackend) :=
  backend ← wrap_err "Unable to initialize backend"
              (NewRelayBackend unstarted (GenesisValidatorsRootText c) (SecretKeyText c));
  '(jwt, started) ← EngineCmd_Run jwtFile [] (text_bytes "genesis.json");
  Ok (jwt, mk_relay started (pk backend) (sk backend) (genesisValidatorsRoot backend)
        (registrations backend) (latestPubkey backend)).
End relay.

(** ** The defaults of the consensus mock *)

(** [0.05], [0.5], [0.1] and [0.01] in [float64]. *)
Definition ConsensusBehavior_Default `{!Geth} : ConsensusBehavior :=
  mk_behavior [] (mk_freq
    (S754_finite false 7205759403792794 (-57)) (S754_finite false 4503599627370496 (-53))
    (S754_finite false 7205759403792794 (-56)) (S754_finite false 7205759403792794 (-56))
    (S754_finite false 7205759403792794 (-57)) (S754_finite false 5764607523034235 (-59))) 64.

(** [now] is [time.Now().Unix()].  The root of the genesis validators is a text until
    [Run] reads it. *)
Definition ConsensusCmd_Default `{!BLS, !Geth} (now : Z) : ConsensusCmd :=
  mk_cmd (wrap64 (wrap64 now + 5)) (Second * 12) 32 0 [] (zeros 32) ConsensusBehavior_Default [].
Definition ConsensusCmd_Default_validators : Z := 1.

(** ** Lemmas *)
Lemma hex_decode_char b text :
  hex_decode ([hex_char (Z_of_byte b / 16); hex_char (Z_of_byte b mod 16)] ++ text)
  = (b ::.) <$> hex_decode text.
Proof. by destruct b. Qed.

Lemma hex_roundtrip b : hex_DecodeString (hex_EncodeToString b) = Ok b.
Proof.
  unfold hex_DecodeString. assert (hex_decode (hex_EncodeToString b) = Some b) as ->; [|done].
  induction b as [|x b IH]; [done|]. unfold hex_EncodeToString in *. rewrite bind_cons.
  by rewrite hex_decode_char, IH.
Qed.

(** ** Properties *)
Section properties.
Context `{!SSZ, !SSZLaws, !Hasher, !HasherModel, !Hexutil, !BLS, !BLSLaws, !SecretKeys, !Geth,
  !ChainStore, !LRU, !RelayCodec}.

(** A relay with its default options starts whenever its engine does: the key it
    drew survives its way through the option's text, and the relay is at the start
    of a run without registrations. *)
Theorem default_relay_starts sk0 unstarted jwtFile jwt e :
  EngineCmd_Run jwtFile [] (text_bytes "genesis.json") = Ok (jwt, e) →
  ∃ c r, RelayCmd_Default (Ok sk0) = Ok c ∧ RelayCmd_Run c unstarted jwtFile = Ok (jwt, r) ∧
    engine r = e ∧ sk r = sk0 ∧ pk r = pk_Marshal (sk_PublicKey sk0) ∧ registrations r = ∅ ∧
    relay_run (mockChain e) zero_root (hex_EncodeToString (sk_Marshal sk0)) 0 r.
Proof.
  intros He. destruct (EngineCmd_Run_inv _ _ _ _ _ He) as (_ & Hb & _).
  eexists _, (mk_relay e (pk_Marshal (sk_PublicKey sk0)) sk0 (HexToHash zero_root) ∅ (zeros 48)).
  assert (∀ u, NewRelayBackend u zero_root (hex_EncodeToString (sk_Marshal sk0))
    = Ok (mk_relay u (pk_Marshal (sk_PublicKey sk0)) sk0 (HexToHash zero_root) ∅ (zeros 48))) as Hnew.
  { intros u. unfold NewRelayBackend. rewrite hex_roundtrip. cbn [mbind res_bind].
    rewrite sk_roundtrip. cbn [mbind res_bind]. by rewrite copy_same by apply bls_pk_len. }
  split; [reflexivity|]. split.
  { unfold RelayCmd_Run. cbn [GenesisValidatorsRootText SecretKeyText]. rewrite Hnew.
    cbn [wrap_err mbind res_bind]. by rewrite He. }
  do 4 (split; [done|]). by eapply relay_start.
Qed.
End properties.

(** ** The defaults are sane *)

(** The default frequencies lie strictly between zero and one, the default slot time
    passes the check of [Run] and the genesis time is a [uint64]. *)
Theorem default_options `{!BLS, !Geth} now :
  let f := Freq ConsensusBehavior_Default in
  Forall (λ x, float64_lt (S754_zero false) x = true ∧ float64_lt x (float64_of_int 1) = true)
    [GapSlot f; ProposalFreq f; FailedProposalFreq f; Finality f; ReorgFreq f; InvalidHashFreq f] ∧
  50 * Millisecond ≤ SlotTime (ConsensusCmd_Default now) ∧
  u64 (BeaconGenesisTime (ConsensusCmd_Default now)).
Proof.
  split; [by repeat constructor|]. split; [by vm_compute|].
  unfold u64. cbn. apply Z.mod_pos_bound. lia.
Qed.
