(* ===== verification/TransportRef.v ===== *)
(** * Reference implementations for the transport

    Executable instances of the encoding of secret keys and of the RPC transport. *)

From Stdlib Require Import Strings.Byte.
From S2P Require Import Prelude Numeral Signing BLSRef Http Transport RelayStart.
#[local] Open Scope Z_scope.
#[local] Open Scope go_scope.

#[export, refine] Instance toy_keys : @SecretKeys ref_bls := {| sk_Marshal sk := sk :: zeros 31 |}.
Proof. intros sk. cbn. by rewrite bool_decide_true. Defined.

(** ** The RPC transport *)

(** A token is the secret and the time; a handler is the secret it checks. *)
#[export] Instance toy_rpc : RpcClient := {|
  inner_client := bytes;
  url_scheme url := Ok (take 4 url);
  rpc_DialContext := @Ok bytes;
  signed_string secret iat := Ok (le_encode 8 iat ++ secret);
|}.
#[export] Instance toy_rpc_server : RpcServer := {|
  service := bytes;
  rpc_server := list (string * bytes);
  http_handler := option bytes;
  new_server := [];
  register_name srv name s := ((name, s) :: srv, None);
  register_apis _ _ srv _ := (srv, None);
  NewHTTPHandlerStack _ _ _ jwt := if bool_decide (jwt = []) then None else Some jwt;
  WebsocketHandler _ _ := None;
  NewWSHandlerStack h jwt := if bool_decide (jwt = []) then h else Some jwt;
|}.
#[export, refine] Instance toy_authentication : Authentication := {|
  lets_pass h auth now :=
    match h with
    | None => true
    | Some secret => bool_decide (auth = Some (text_bytes "Bearer " ++ le_encode 8 now ++ secret))
    end;
|}.
Proof.
  - done.
  - intros h secret now Hs. cbn. by rewrite bool_decide_false.
  - intros srv cors secret token now [= <-]. cbn. case_bool_decide; [done|].
    by apply bool_decide_true.
Defined.
