(* ===== verification/Json.v ===== *)
(** * The JSON of the engine API

    The generated [types/gen_ep.go] and [types/gen_blockparams.go]: how execution
    payloads and payload attributes become JSON objects and are read back.  The
    model starts from JSON values: the text level of [encoding/json] is left out,
    its treatment of objects (fields found by name, without regard to case when no
    name matches exactly, later occurrences over earlier ones, [null]) is not.  The
    hex forms of go-ethereum's types are a parameter. *)

From Stdlib Require Import Strings.Byte.
From S2P Require Import Prelude Numeral Common Fastssz Hasher SszObject.
From S2P Require Import FixedContainers VarContainers BlockContainers Geth Payload MockChain.
From S2P Require Import Cache Engine Http Relay RelayServing.
From S2P Require Import Float64 Clock Behavior Api Consensus SlotLoop.
#[local] Open Scope Z_scope.
#[local] Open Scope go_scope.

(** ** JSON values and [encoding/json] *)
Inductive json :=
  | JNull
  | JBool (b : bool)
  | JNumber (text : bytes)
  | JString (s : bytes)
  | JArray (l : list json)
  | JObject (fields : list (bytes * json)).

(** Names that match without regard to case have the same folding; the Kelvin sign
    and the long s fold to their letters. *)
Fixpoint fold_name (s : bytes) : bytes :=
  match s with
  | xe2 :: x84 :: xaa :: s => x6b :: fold_name s
  | xc5 :: xbf :: s => x73 :: fold_name s
  | c :: s =>
      let v := Z_of_byte c in
      (if (65 <=? v) && (v <=? 90) then byte_of_Z (v + 32) else c) :: fold_name s
  | [] => []
  end.

(** The fields of a struct [D]: the name, and what decoding a value into the field
    does.  The value's own decoder fails at once; a value of the wrong kind is
    reported when the whole object was read. *)
Definition field (D : Type) : Type := bytes * (json → D → res (D * option error)).

Fixpoint find_field {D} (same : bytes → bytes → bool) (fs : list (field D)) (key : bytes)
    : option (json → D → res (D * option error)) :=
  match fs with
  | [] => None
  | (name, set) :: fs => if same name key then Some set else find_field same fs key
  end.

Definition name_eq (a b : bytes) : bool := bool_decide (a = b).
Definition name_fold (a b : bytes) : bool := bool_decide (fold_name a = fold_name b).

Definition struct_field {D} (fs : list (field D)) (key : bytes)
    : option (json → D → res (D * option error)) :=
  match find_field name_eq fs key with
  | Some set => Some set
  | None => find_field name_fold fs key
  end.

Definition type_error : error := Lib "json: cannot unmarshal into Go value".

Fixpoint decode_object {D} (fs : list (field D)) (obj : list (bytes * json)) (dec : D)
    (saved : option error) : res D :=
  match obj with
  | [] => match saved with Some e => Err e | None => Ok dec end
  | (key, v) :: obj =>
      match struct_field fs key with
      | None => decode_object fs obj dec saved
      | Some set =>
          '(dec, err) ← set v dec;
          decode_object fs obj dec (match saved with Some e => Some e | None => err end)
      end
  end.

(** [json.Unmarshal(input, &dec)] into a struct. *)
Definition json_Unmarshal {D} (fs : list (field D)) (input : json) (dec : D) : res D :=
  match input with
  | JNull => Ok dec
  | JObject obj => decode_object fs obj dec None
  | _ => Err type_error
  end.

(** A field that is a pointer to a type with its own decoder: [null] makes it nil. *)
Definition pointer {D A} (decode : json → res A) (set : option A → D → D)
    : json → D → res (D * option error) := λ v dec,
  match v with
  | JNull => Ok (set None dec, None)
  | _ => a ← decode v; Ok (set (Some a) dec, None)
  end.

(** A field that is a slice of a type with its own decoder; [null] makes it nil. *)
Fixpoint decode_elements {A} (decode : json → res A) (l : list json) : res (list A) :=
  match l with
  | [] => Ok []
  | v :: l => a ← decode v; l ← decode_elements decode l; Ok (a :: l)
  end.
Definition slice_of {D A} (decode : json → res A) (set : option (list A) → D → D)
    : json → D → res (D * option error) := λ v dec,
  match v with
  | JNull => Ok (set None dec, None)
  | JArray l => l ← decode_elements decode l; Ok (set (Some l) dec, None)
  | _ => Ok (dec, Some type_error)
  end.

(** The JSON of go-ethereum's types: [hexutil.Uint64] and [Big] have shortest hex
    texts; [FixedJSON n] decodes the arrays of [n] bytes ([common.Hash],
    [common.Address], [types.Bloom]), whose text is that of their bytes. *)
Class HexJson := {
  Uint64_MarshalText : Z → bytes;
  Big_MarshalText : Z → bytes;
  FixedJSON : nat → json → res bytes;
  Bytes_FromJSON : json → res bytes;
  Uint64_UnmarshalJSON : json → res Z;
  Big_UnmarshalJSON : json → res Z;
}.

(** What is encoded decodes to itself, and nothing but a string decodes. *)
Class HexJsonLaws `{!Hexutil, !HexJson} : Prop := {
  FixedJSON_text n b :
    len b = Z.of_nat n → FixedJSON n (JString (Bytes_MarshalText b)) = Ok b;
  Bytes_FromJSON_text b : Bytes_FromJSON (JString (Bytes_MarshalText b)) = Ok b;
  Uint64_text v : u64 v → Uint64_UnmarshalJSON (JString (Uint64_MarshalText v)) = Ok v;
  Big_text v : 0 ≤ v < 2 ^ 256 → Big_UnmarshalJSON (JString (Big_MarshalText v)) = Ok v;
}.

(** Names and texts of the program as byte strings. *)
Definition name (s : string) : bytes := text_bytes s.

(** ** Execution payloads *)

(** The local struct of [UnmarshalJSON]: pointers, nil when a field was not seen. *)
Module payload_dec.
Record t := mk {
  ParentHash : option bytes;
  FeeRecipient : option bytes;
  StateRoot : option bytes;
  ReceiptsRoot : option bytes;
  LogsBloom : option bytes;
  Random : option bytes;
  Number : option Z;
  GasLimit : option Z;
  GasUsed : option Z;
  Timestamp : option Z;
  ExtraData : option bytes;
  BaseFeePerGas : option Z;
  BlockHash : option bytes;
  Transactions : option (list bytes);
}.
Definition zero : t :=
  mk None None None None None None None None None None None None None None.
Definition set_ParentHash (x : option bytes) (d : t) : t :=
  mk x (FeeRecipient d) (StateRoot d) (ReceiptsRoot d) (LogsBloom d) (Random d) (Number
    d) (GasLimit d) (GasUsed d) (Timestamp d) (ExtraData d) (BaseFeePerGas d) (BlockHash
    d) (Transactions d).
Definition set_FeeRecipient (x : option bytes) (d : t) : t :=
  mk (ParentHash d) x (StateRoot d) (ReceiptsRoot d) (LogsBloom d) (Random d) (Number d)
    (GasLimit d) (GasUsed d) (Timestamp d) (ExtraData d) (BaseFeePerGas d) (BlockHash d)
    (Transactions d).
Definition set_StateRoot (x : option bytes) (d : t) : t :=
  mk (ParentHash d) (FeeRecipient d) x (ReceiptsRoot d) (LogsBloom d) (Random d) (Number
    d) (GasLimit d) (GasUsed d) (Timestamp d) (ExtraData d) (BaseFeePerGas d) (BlockHash
    d) (Transactions d).
Definition set_ReceiptsRoot (x : option bytes) (d : t) : t :=
  mk (ParentHash d) (FeeRecipient d) (StateRoot d) x (LogsBloom d) (Random d) (Number d)
    (GasLimit d) (GasUsed d) (Timestamp d) (ExtraData d) (BaseFeePerGas d) (BlockHash d)
    (Transactions d).
Definition set_LogsBloom (x : option bytes) (d : t) : t :=
  mk (ParentHash d) (FeeRecipient d) (StateRoot d) (ReceiptsRoot d) x (Random d) (Number
    d) (GasLimit d) (GasUsed d) (Timestamp d) (ExtraData d) (BaseFeePerGas d) (BlockHash
    d) (Transactions d).
Definition set_Random (x : option bytes) (d : t) : t :=
  mk (ParentHash d) (FeeRecipient d) (StateRoot d) (ReceiptsRoot d) (LogsBloom d) x
    (Number d) (GasLimit d) (GasUsed d) (Timestamp d) (ExtraData d) (BaseFeePerGas d)
    (BlockHash d) (Transactions d).
Definition set_Number (x : option Z) (d : t) : t :=
  mk (ParentHash d) (FeeRecipient d) (StateRoot d) (ReceiptsRoot d) (LogsBloom d)
    (Random d) x (GasLimit d) (GasUsed d) (Timestamp d) (ExtraData d) (BaseFeePerGas d)
    (BlockHash d) (Transactions d).
Definition set_GasLimit (x : option Z) (d : t) : t :=
  mk (ParentHash d) (FeeRecipient d) (StateRoot d) (ReceiptsRoot d) (LogsBloom d)
    (Random d) (Number d) x (GasUsed d) (Timestamp d) (ExtraData d) (BaseFeePerGas d)
    (BlockHash d) (Transactions d).
Definition set_GasUsed (x : option Z) (d : t) : t :=
  mk (ParentHash d) (FeeRecipient d) (StateRoot d) (ReceiptsRoot d) (LogsBloom d)
    (Random d) (Number d) (GasLimit d) x (Timestamp d) (ExtraData d) (BaseFeePerGas d)
    (BlockHash d) (Transactions d).
Definition set_Timestamp (x : option Z) (d : t) : t :=
  mk (ParentHash d) (FeeRecipient d) (StateRoot d) (ReceiptsRoot d) (LogsBloom d)
    (Random d) (Number d) (GasLimit d) (GasUsed d) x (ExtraData d) (BaseFeePerGas d)
    (BlockHash d) (Transactions d).
Definition set_ExtraData (x : option bytes) (d : t) : t :=
  mk (ParentHash d) (FeeRecipient d) (StateRoot d) (ReceiptsRoot d) (LogsBloom d)
    (Random d) (Number d) (GasLimit d) (GasUsed d) (Timestamp d) x (BaseFeePerGas d)
    (BlockHash d) (Transactions d).
Definition set_BaseFeePerGas (x : option Z) (d : t) : t :=
  mk (ParentHash d) (FeeRecipient d) (StateRoot d) (ReceiptsRoot d) (LogsBloom d)
    (Random d) (Number d) (GasLimit d) (GasUsed d) (Timestamp d) (ExtraData d) x
    (BlockHash d) (Transactions d).
Definition set_BlockHash (x : option bytes) (d : t) : t :=
  mk (ParentHash d) (FeeRecipient d) (StateRoot d) (ReceiptsRoot d) (LogsBloom d)
    (Random d) (Number d) (GasLimit d) (GasUsed d) (Timestamp d) (ExtraData d)
    (BaseFeePerGas d) x (Transactions d).
Definition set_Transactions (x : option (list bytes)) (d : t) : t :=
  mk (ParentHash d) (FeeRecipient d) (StateRoot d) (ReceiptsRoot d) (LogsBloom d)
    (Random d) (Number d) (GasLimit d) (GasUsed d) (Timestamp d) (ExtraData d)
    (BaseFeePerGas d) (BlockHash d) x.
End payload_dec.

(** Assignments to the fields of a payload. *)
Module payload_set.
Import ExecutionPayloadV1.
Definition set_ParentHash (x : bytes) (d : t) : t :=
  mk x (FeeRecipient d) (StateRoot d) (ReceiptsRoot d) (LogsBloom d) (Random d) (Number
    d) (GasLimit d) (GasUsed d) (Timestamp d) (ExtraData d) (BaseFeePerGas d) (BlockHash
    d) (Transactions d).
Definition set_FeeRecipient (x : bytes) (d : t) : t :=
  mk (ParentHash d) x (StateRoot d) (ReceiptsRoot d) (LogsBloom d) (Random d) (Number d)
    (GasLimit d) (GasUsed d) (Timestamp d) (ExtraData d) (BaseFeePerGas d) (BlockHash d)
    (Transactions d).
Definition set_StateRoot (x : bytes) (d : t) : t :=
  mk (ParentHash d) (FeeRecipient d) x (ReceiptsRoot d) (LogsBloom d) (Random d) (Number
    d) (GasLimit d) (GasUsed d) (Timestamp d) (ExtraData d) (BaseFeePerGas d) (BlockHash
    d) (Transactions d).
Definition set_ReceiptsRoot (x : bytes) (d : t) : t :=
  mk (ParentHash d) (FeeRecipient d) (StateRoot d) x (LogsBloom d) (Random d) (Number d)
    (GasLimit d) (GasUsed d) (Timestamp d) (ExtraData d) (BaseFeePerGas d) (BlockHash d)
    (Transactions d).
Definition set_LogsBloom (x : bytes) (d : t) : t :=
  mk (ParentHash d) (FeeRecipient d) (StateRoot d) (ReceiptsRoot d) x (Random d) (Number
    d) (GasLimit d) (GasUsed d) (Timestamp d) (ExtraData d) (BaseFeePerGas d) (BlockHash
    d) (Transactions d).
Definition set_Random (x : bytes) (d : t) : t :=
  mk (ParentHash d) (FeeRecipient d) (StateRoot d) (ReceiptsRoot d) (LogsBloom d) x
    (Number d) (GasLimit d) (GasUsed d) (Timestamp d) (ExtraData d) (BaseFeePerGas d)
    (BlockHash d) (Transactions d).
Definition set_Number (x : Z) (d : t) : t :=
  mk (ParentHash d) (FeeRecipient d) (StateRoot d) (ReceiptsRoot d) (LogsBloom d)
    (Random d) x (GasLimit d) (GasUsed d) (Timestamp d) (ExtraData d) (BaseFeePerGas d)
    (BlockHash d) (Transactions d).
Definition set_GasLimit (x : Z) (d : t) : t :=
  mk (ParentHash d) (FeeRecipient d) (StateRoot d) (ReceiptsRoot d) (LogsBloom d)
    (Random d) (Number d) x (GasUsed d) (Timestamp d) (ExtraData d) (BaseFeePerGas d)
    (BlockHash d) (Transactions d).
Definition set_GasUsed (x : Z) (d : t) : t :=
  mk (ParentHash d) (FeeRecipient d) (StateRoot d) (ReceiptsRoot d) (LogsBloom d)
    (Random d) (Number d) (GasLimit d) x (Timestamp d) (ExtraData d) (BaseFeePerGas d)
    (BlockHash d) (Transactions d).
Definition set_Timestamp (x : Z) (d : t) : t :=
  mk (ParentHash d) (FeeRecipient d) (StateRoot d) (ReceiptsRoot d) (LogsBloom d)
    (Random d) (Number d) (GasLimit d) (GasUsed d) x (ExtraData d) (BaseFeePerGas d)
    (BlockHash d) (Transactions d).
Definition set_ExtraData (x : bytes) (d : t) : t :=
  mk (ParentHash d) (FeeRecipient d) (StateRoot d) (ReceiptsRoot d) (LogsBloom d)
    (Random d) (Number d) (GasLimit d) (GasUsed d) (Timestamp d) x (BaseFeePerGas d)
    (BlockHash d) (Transactions d).
Definition set_BaseFeePerGas (x : option Z) (d : t) : t :=
  mk (ParentHash d) (FeeRecipient d) (StateRoot d) (ReceiptsRoot d) (LogsBloom d)
    (Random d) (Number d) (GasLimit d) (GasUsed d) (Timestamp d) (ExtraData d) x
    (BlockHash d) (Transactions d).
Definition set_BlockHash (x : bytes) (d : t) : t :=
  mk (ParentHash d) (FeeRecipient d) (StateRoot d) (ReceiptsRoot d) (LogsBloom d)
    (Random d) (Number d) (GasLimit d) (GasUsed d) (Timestamp d) (ExtraData d)
    (BaseFeePerGas d) x (Transactions d).
Definition set_Transactions (x : list bytes) (d : t) : t :=
  mk (ParentHash d) (FeeRecipient d) (StateRoot d) (ReceiptsRoot d) (LogsBloom d)
    (Random d) (Number d) (GasLimit d) (GasUsed d) (Timestamp d) (ExtraData d)
    (BaseFeePerGas d) (BlockHash d) x.
End payload_set.

(** ** [types/gen_ep.go] *)
Section payload.
Context `{!Hexutil, !HexJson}.
Import ExecutionPayloadV1.

Definition text_of (b : bytes) : json := JString (Bytes_MarshalText b).
Definition uint64_of (v : Z) : json := JString (Uint64_MarshalText v).

Definition payload_fields : list (field payload_dec.t) := [
  (name "parentHash", pointer (FixedJSON 32) payload_dec.set_ParentHash);
  (name "feeRecipient", pointer (FixedJSON 20) payload_dec.set_FeeRecipient);
  (name "stateRoot", pointer (FixedJSON 32) payload_dec.set_StateRoot);
  (name "receiptsRoot", pointer (FixedJSON 32) payload_dec.set_ReceiptsRoot);
  (name "logsBloom", pointer (FixedJSON 256) payload_dec.set_LogsBloom);
  (name "prevRandao", pointer (FixedJSON 32) payload_dec.set_Random);
  (name "blockNumber", pointer Uint64_UnmarshalJSON payload_dec.set_Number);
  (name "gasLimit", pointer Uint64_UnmarshalJSON payload_dec.set_GasLimit);
  (name "gasUsed", pointer Uint64_UnmarshalJSON payload_dec.set_GasUsed);
  (name "timestamp", pointer Uint64_UnmarshalJSON payload_dec.set_Timestamp);
  (name "extraData", pointer Bytes_FromJSON payload_dec.set_ExtraData);
  (name "baseFeePerGas", pointer Big_UnmarshalJSON payload_dec.set_BaseFeePerGas);
  (name "blockHash", pointer (FixedJSON 32) payload_dec.set_BlockHash);
  (name "transactions", slice_of Bytes_FromJSON payload_dec.set_Transactions)].

(** [MarshalJSON].  A list does not tell a nil slice from an empty one: [nil_txs]
    says whether [e.Transactions] is nil. *)
Definition payload_MarshalJSON (nil_txs : bool) (e : t) : json :=
  JObject [
    (name "parentHash", text_of (ParentHash e));
    (name "feeRecipient", text_of (FeeRecipient e));
    (name "stateRoot", text_of (StateRoot e));
    (name "receiptsRoot", text_of (ReceiptsRoot e));
    (name "logsBloom", text_of (LogsBloom e));
    (name "prevRandao", text_of (Random e));
    (name "blockNumber", uint64_of (Number e));
    (name "gasLimit", uint64_of (GasLimit e));
    (name "gasUsed", uint64_of (GasUsed e));
    (name "timestamp", uint64_of (Timestamp e));
    (name "extraData", text_of (ExtraData e));
    (name "baseFeePerGas",
      match BaseFeePerGas e with Some f => JString (Big_MarshalText f) | None => JNull end);
    (name "blockHash", text_of (BlockHash e));
    (name "transactions", if nil_txs then JNull else JArray (text_of <$> Transactions e))].

Definition missing (field : string) : error :=
  Errorf ("missing required field '" ++ field ++ "' for ExecutionPayloadV1")%string.

(** [if dec.F == nil { return errors.New(...) }; e.F = *dec.F]. *)
Definition required {A} (field : string) (p : option A) (set : A → t → t) : M t unit := λ e,
  match p with
  | None => (e, Err (missing field))
  | Some a => (set a e, Ok tt)
  end.

Definition payload_UnmarshalJSON (input : json) : M t unit :=
  dec ← lift (json_Unmarshal payload_fields input payload_dec.zero);
  required "parentHash" (payload_dec.ParentHash dec) payload_set.set_ParentHash;;
  required "feeRecipient" (payload_dec.FeeRecipient dec) payload_set.set_FeeRecipient;;
  required "stateRoot" (payload_dec.StateRoot dec) payload_set.set_StateRoot;;
  required "receiptsRoot" (payload_dec.ReceiptsRoot dec) payload_set.set_ReceiptsRoot;;
  required "logsBloom" (payload_dec.LogsBloom dec) payload_set.set_LogsBloom;;
  required "prevRandao" (payload_dec.Random dec) payload_set.set_Random;;
  required "blockNumber" (payload_dec.Number dec) payload_set.set_Number;;
  required "gasLimit" (payload_dec.GasLimit dec) payload_set.set_GasLimit;;
  required "gasUsed" (payload_dec.GasUsed dec) payload_set.set_GasUsed;;
  required "timestamp" (payload_dec.Timestamp dec) payload_set.set_Timestamp;;
  required "extraData" (payload_dec.ExtraData dec) payload_set.set_ExtraData;;
  required "baseFeePerGas" (payload_dec.BaseFeePerGas dec)
    (λ f, payload_set.set_BaseFeePerGas (Some f));;
  required "blockHash" (payload_dec.BlockHash dec) payload_set.set_BlockHash;;
  required "transactions" (payload_dec.Transactions dec) payload_set.set_Transactions.
End payload.

(** ** [types/gen_blockparams.go] *)
Module attributes_dec.
Record t := mk {
  Timestamp : option Z;
  PrevRandao : option bytes;
  SuggestedFeeRecipient : option bytes;
}.
Definition zero : t := mk None None None.
Definition set_Timestamp (x : option Z) (d : t) : t :=
  mk x (PrevRandao d) (SuggestedFeeRecipient d).
Definition set_PrevRandao (x : option bytes) (d : t) : t :=
  mk (Timestamp d) x (SuggestedFeeRecipient d).
Definition set_SuggestedFeeRecipient (x : option bytes) (d : t) : t :=
  mk (Timestamp d) (PrevRandao d) x.
End attributes_dec.

Section attributes.
Context `{!Hexutil, !HexJson}.
Import PayloadAttributesV1.

Definition attributes_fields : list (field attributes_dec.t) := [
  (name "timestamp", pointer Uint64_UnmarshalJSON attributes_dec.set_Timestamp);
  (name "prevRandao", pointer (FixedJSON 32) attributes_dec.set_PrevRandao);
  (name "suggestedFeeRecipient",
    pointer (FixedJSON 20) attributes_dec.set_SuggestedFeeRecipient)].

Definition attributes_MarshalJSON (p : t) : json :=
  JObject [
    (name "timestamp", uint64_of (Timestamp p));
    (name "prevRandao", text_of (PrevRandao p));
    (name "suggestedFeeRecipient", text_of (SuggestedFeeRecipient p))].

(** A field that was not seen keeps the receiver's value. *)
Definition attributes_UnmarshalJSON (input : json) : M t unit := λ p,
  match json_Unmarshal attributes_fields input attributes_dec.zero with
  | Err err => (p, Err err)
  | Panic => (p, Panic)
  | Ok dec =>
      (mk (default (Timestamp p) (attributes_dec.Timestamp dec))
          (default (PrevRandao p) (attributes_dec.PrevRandao dec))
          (default (SuggestedFeeRecipient p) (attributes_dec.SuggestedFeeRecipient dec)),
       Ok tt)
  end.
End attributes.

(** ** The engine behind JSON-RPC

    The server decodes the parameters before it calls the method; parameters that
    do not decode are refused and the method is not called.  The client decodes the
    payload it is answered. *)
Definition payload_zero : ExecutionPayloadV1.t :=
  ExecutionPayloadV1.mk (zeros 32) (zeros 20) (zeros 32) (zeros 32) (zeros 256) (zeros 32)
    0 0 0 0 [] None (zeros 32) [].
Definition attributes_zero : PayloadAttributesV1.t :=
  PayloadAttributesV1.mk 0 (zeros 32) (zeros 20).

(** The receiver after decoding into a new value. *)
Definition decoded {A} (decode : json → M A unit) (zero : A) (input : json) : res A :=
  match decode input zero with
  | (a, Ok _) => Ok a
  | (_, Err e) => Err e
  | (_, Panic) => Panic
  end.

Definition invalid_params : error := Rpc (-32602) "invalid argument".

(** A call whose parameter is decoded first. *)
Definition with_argument {S A B} (arg : res A) (method : A → M S B) : M S B :=
  match arg with
  | Ok a => method a
  | _ => fail invalid_params
  end.

Section over_json.
Context `{!Hexutil, !HexJson, !Geth, !LRU}.

Definition read_payload : json → res ExecutionPayloadV1.t :=
  decoded payload_UnmarshalJSON payload_zero.
Definition read_attributes : json → res PayloadAttributesV1.t :=
  decoded attributes_UnmarshalJSON attributes_zero.

Definition json_getPayloadV1 (id : bytes) : M EngineBackend ExecutionPayloadV1.t :=
  p ← call_getPayloadV1 id;
  lift (read_payload (payload_MarshalJSON false p)).

Definition json_newPayloadV1 (nil_txs : bool) (p : ExecutionPayloadV1.t)
    : M EngineBackend PayloadStatusV1.t :=
  with_argument (read_payload (payload_MarshalJSON nil_txs p)) call_newPayloadV1.

Definition json_forkchoiceUpdatedV1 (heads : ForkchoiceStateV1.t)
    (attr : option PayloadAttributesV1.t) : M EngineBackend ForkchoiceUpdatedResult.t :=
  match attr with
  | None => call_forkchoiceUpdatedV1 heads None
  | Some p =>
      with_argument (read_attributes (attributes_MarshalJSON p))
        (λ p, call_forkchoiceUpdatedV1 heads (Some p))
  end.
End over_json.

(** ** Decoding what was encoded *)

(** The values Go's types hold: arrays of their lengths, integers of their widths,
    a base fee that fits in the 256 bits its decoder accepts. *)
Module payload_json.
Import ExecutionPayloadV1.
Record Wf (p : t) : Prop := {
  wf_parent : len (ParentHash p) = 32;
  wf_recipient : len (FeeRecipient p) = 20;
  wf_state : len (StateRoot p) = 32;
  wf_receipts : len (ReceiptsRoot p) = 32;
  wf_bloom : len (LogsBloom p) = 256;
  wf_random : len (Random p) = 32;
  wf_number : u64 (Number p);
  wf_gas_limit : u64 (GasLimit p);
  wf_gas_used : u64 (GasUsed p);
  wf_timestamp : u64 (Timestamp p);
  wf_base_fee : ptr (λ f, 0 ≤ f < 2 ^ 256) (BaseFeePerGas p);
  wf_hash : len (BlockHash p) = 32;
}.
End payload_json.

Module attributes_json.
Import PayloadAttributesV1.
Record Wf (p : t) : Prop := {
  wf_timestamp : u64 (Timestamp p);
  wf_random : len (PrevRandao p) = 32;
  wf_recipient : len (SuggestedFeeRecipient p) = 20;
}.
End attributes_json.

Section objects.
Context {D : Type}.
Implicit Types (fs : list (field D)) (obj : list (bytes * json)) (dec : D).

Lemma decode_object_cons fs key v obj dec dec' set :
  struct_field fs key = Some set → set v dec = Ok (dec', None) →
  decode_object fs ((key, v) :: obj) dec None = decode_object fs obj dec' None.
Proof. intros Hf Hs. cbn [decode_object]. rewrite Hf, Hs. done. Qed.

Lemma find_field_lookup same fs key set :
  find_field same fs key = Some set →
  ∃ i nm, fs !! i = Some (nm, set) ∧ same nm key = true.
Proof.
  induction fs as [|[nm s] fs IH]; [done|]. cbn. destruct (same nm key) eqn:E.
  - intros [= ->]. by exists O, nm.
  - intros Hf. destruct (IH Hf) as (i & nm' & ? & ?). by exists (S i), nm'.
Qed.

Lemma struct_field_lookup fs key set :
  struct_field fs key = Some set →
  ∃ i nm, fs !! i = Some (nm, set) ∧ fold_name key = fold_name nm.
Proof.
  unfold struct_field. intros Hf. destruct (find_field name_eq fs key) eqn:E.
  - injection Hf as ->. apply find_field_lookup in E as (i & nm & Hi & Hk).
    apply bool_decide_eq_true_1 in Hk as ->. by exists i, key.
  - apply find_field_lookup in Hf as (i & nm & Hi & Hk).
    apply bool_decide_eq_true_1 in Hk. by exists i, nm.
Qed.

(** What holds after reading an object and did not hold before was established by
    one of its entries. *)
Lemma decode_object_cause fs obj dec dec' saved (P : D → Prop) `{∀ d, Decision (P d)} :
  decode_object fs obj dec saved = Ok dec' → P dec' →
  P dec ∨ ∃ key v i nm set d d' err, (key, v) ∈ obj ∧ fs !! i = Some (nm, set) ∧
    fold_name key = fold_name nm ∧ set v d = Ok (d', err) ∧ ¬ P d ∧ P d'.
Proof.
  revert dec saved. induction obj as [|[key v] obj IH]; intros dec saved Hd HP.
  { cbn in Hd. destruct saved; [done|]. injection Hd as ->. by left. }
  cbn [decode_object] in Hd. destruct (struct_field fs key) as [set|] eqn:Ef.
  - destruct (set v dec) as [[d1 err]|?|] eqn:Es; try done.
    apply struct_field_lookup in Ef as (i & nm & Hi & Hk).
    destruct (IH _ _ Hd HP) as [H1|(key' & v' & i' & nm' & set' & d & d' & e & Hin & Hrest)].
    + destruct (decide (P dec)) as [|Hn]; [by left|]. right.
      exists key, v, i, nm, set, dec, d1, err. split; [apply list_elem_of_here|done].
    + right. exists key', v', i', nm', set', d, d', e.
      split; [by apply list_elem_of_further|done].
  - destruct (IH _ _ Hd HP) as [|(key' & v' & i' & nm' & set' & d & d' & e & Hin & Hrest)];
      [by left|].
    right. exists key', v', i', nm', set', d, d', e.
    split; [by apply list_elem_of_further|done].
Qed.
End objects.

Section laws.
Context `{!Hexutil, !HexJson, !HexJsonLaws}.

Lemma pointer_text {D} n (set : option bytes → D → D) b dec :
  len b = Z.of_nat n →
  pointer (FixedJSON n) set (text_of b) dec = Ok (set (Some b) dec, None).
Proof. intros Hb. unfold pointer, text_of. by rewrite FixedJSON_text. Qed.

Lemma pointer_bytes {D} (set : option bytes → D → D) b dec :
  pointer Bytes_FromJSON set (text_of b) dec = Ok (set (Some b) dec, None).
Proof. unfold pointer, text_of. by rewrite Bytes_FromJSON_text. Qed.

Lemma pointer_uint64 {D} (set : option Z → D → D) v dec :
  u64 v → pointer Uint64_UnmarshalJSON set (uint64_of v) dec = Ok (set (Some v) dec, None).
Proof. intros Hb. unfold pointer, uint64_of. by rewrite Uint64_text. Qed.

Lemma pointer_big {D} (set : option Z → D → D) v dec :
  0 ≤ v < 2 ^ 256 →
  pointer Big_UnmarshalJSON set (JString (Big_MarshalText v)) dec = Ok (set (Some v) dec, None).
Proof. intros Hb. unfold pointer. by rewrite Big_text. Qed.

Lemma decode_texts (l : list bytes) : decode_elements Bytes_FromJSON (text_of <$> l) = Ok l.
Proof.
  induction l as [|b l IH]; [done|]. rewrite fmap_cons. cbn [decode_elements].
  rewrite (Bytes_FromJSON_text b : Bytes_FromJSON (text_of b) = Ok b). cbn. by rewrite IH.
Qed.

Lemma slice_texts {D} (set : option (list bytes) → D → D) l dec :
  slice_of Bytes_FromJSON set (JArray (text_of <$> l)) dec = Ok (set (Some l) dec, None).
Proof. unfold slice_of. by rewrite decode_texts. Qed.
End laws.

(** Reads the next field of an object. *)
Ltac read_field :=
  erewrite decode_object_cons;
    [|reflexivity
     |first [by apply pointer_text|by apply pointer_bytes|by apply pointer_uint64
            |by apply pointer_big|by apply slice_texts|reflexivity]].

Section codec.
Context `{!Hexutil, !HexJson, !HexJsonLaws}.
Import ExecutionPayloadV1.

(** The local struct after reading the encoding of a payload. *)
Definition full (fee : option Z) (txs : option (list bytes)) (p : t) : payload_dec.t :=
  payload_dec.mk (Some (ParentHash p)) (Some (FeeRecipient p)) (Some (StateRoot p))
    (Some (ReceiptsRoot p)) (Some (LogsBloom p)) (Some (Random p)) (Some (Number p))
    (Some (GasLimit p)) (Some (GasUsed p)) (Some (Timestamp p)) (Some (ExtraData p)) fee
    (Some (BlockHash p)) txs.

Lemma decode_payload nil_txs p :
  payload_json.Wf p →
  json_Unmarshal payload_fields (payload_MarshalJSON nil_txs p) payload_dec.zero =
  Ok (full (BaseFeePerGas p) (if nil_txs then None else Some (Transactions p)) p).
Proof.
  intros [? ? ? ? ? ? ? ? ? ? Hfee ?]. unfold json_Unmarshal, payload_MarshalJSON.
  destruct (BaseFeePerGas p) as [f|]; [|done]. destruct nil_txs; do 14 read_field; reflexivity.
Qed.

(** A decoded struct whose fields are all set assigns them all. *)
Lemma UnmarshalJSON_full input fee txs p e :
  json_Unmarshal payload_fields input payload_dec.zero = Ok (full fee txs p) →
  payload_UnmarshalJSON input e =
  match fee with
  | None => (payload_set.set_BaseFeePerGas (BaseFeePerGas e)
               (payload_set.set_BlockHash (BlockHash e)
                 (payload_set.set_Transactions (Transactions e) p)),
             Err (missing "baseFeePerGas"))
  | Some f =>
      match txs with
      | None => (payload_set.set_BaseFeePerGas (Some f)
                   (payload_set.set_Transactions (Transactions e) p),
                 Err (missing "transactions"))
      | Some txs => (payload_set.set_BaseFeePerGas (Some f)
                       (payload_set.set_Transactions txs p), Ok tt)
      end
  end.
Proof.
  intros Hd. destruct p, e. unfold payload_UnmarshalJSON. rewrite Hd. by destruct fee, txs.
Qed.

(** *** Which fields were seen *)
Definition isSome {A} (p : option A) : bool := match p with Some _ => true | None => false end.

Definition seen (d : payload_dec.t) : list bool :=
  [isSome (payload_dec.ParentHash d);
   isSome (payload_dec.FeeRecipient d);
   isSome (payload_dec.StateRoot d);
   isSome (payload_dec.ReceiptsRoot d);
   isSome (payload_dec.LogsBloom d);
   isSome (payload_dec.Random d);
   isSome (payload_dec.Number d);
   isSome (payload_dec.GasLimit d);
   isSome (payload_dec.GasUsed d);
   isSome (payload_dec.Timestamp d);
   isSome (payload_dec.ExtraData d);
   isSome (payload_dec.BaseFeePerGas d);
   isSome (payload_dec.BlockHash d);
   isSome (payload_dec.Transactions d)].

Lemma pointer_inv {D A} (decode : json → res A) (set : option A → D → D) v d d' err :
  pointer decode set v d = Ok (d', err) →
  ∃ x, d' = set x d ∧ (isSome x = true → v ≠ JNull).
Proof.
  unfold pointer. intros Hv. destruct v; try (injection Hv as <- _; by exists None).
  all: destruct (decode _) as [a|?|]; [|done..]; injection Hv as <- _; by exists (Some a).
Qed.

Lemma slice_of_inv {D A} (decode : json → res A) (set : option (list A) → D → D) v d d' err :
  slice_of decode set v d = Ok (d', err) →
  d' = d ∨ ∃ x, d' = set x d ∧ (isSome x = true → v ≠ JNull).
Proof.
  unfold slice_of. intros Hv. destruct v; try (injection Hv as <- _; by left).
  - injection Hv as <- _. right. by exists None.
  - destruct (decode_elements _ _) as [a|?|]; [|done..]. injection Hv as <- _.
    right. by exists (Some a).
Qed.

(** Decoding a value into a field touches no other field, and [null] unsets it. *)
Lemma set_seen i nm set v d d' err :
  payload_fields !! i = Some (nm, set) → set v d = Ok (d', err) →
  seen d' = seen d ∨ ∃ b, seen d' = <[i := b]> (seen d) ∧ (b = true → v ≠ JNull).
Proof.
  intros Hi Hs. unfold payload_fields in Hi.
  do 13 (destruct i as [|i];
    [injection Hi as <- <-; apply pointer_inv in Hs as (x & -> & Hx);
     right; exists (isSome x); split; [by destruct d|done]|]).
  destruct i as [|i]; [|done]. injection Hi as <- <-.
  apply slice_of_inv in Hs as [->|(x & -> & Hx)]; [by left|].
  right. exists (isSome x). split; [by destruct d|done].
Qed.

(** A field that was set was set by an entry of its name that is not [null]. *)
Lemma seen_cause obj d i nm :
  decode_object payload_fields obj payload_dec.zero None = Ok d →
  seen d !! i = Some true → payload_fields.*1 !! i = Some nm →
  ∃ key v, (key, v) ∈ obj ∧ fold_name key = fold_name nm ∧ v ≠ JNull.
Proof.
  intros Hd Hseen Hnm.
  destruct (decode_object_cause _ _ _ _ _ (λ d, seen d !! i = Some true) Hd Hseen)
    as [Hz|(key & v & j & nm' & set & d1 & d2 & err & Hin & Hj & Hk & Hs & Hn & Hy)].
  { do 14 (destruct i as [|i]; [done|]). done. }
  exists key, v. split; [done|].
  destruct (set_seen _ _ _ _ _ _ _ Hj Hs) as [E|(b & E & Hb)]; [congruence|].
  destruct (decide (j = i)) as [->|Hne].
  - assert (Some nm = Some nm') as [= ->].
    { etrans; [symmetry; exact Hnm|]. etrans; [apply list_lookup_fmap|]. exact (f_equal (fmap fst) Hj). }
    split; [done|].
    apply Hb. rewrite E in Hy. apply list_lookup_insert_Some in Hy as [?|?]; naive_solver.
  - rewrite E, list_lookup_insert_ne in Hy by done. done.
Qed.

Lemma required_inv {A} n (p : option A) set e e' :
  required n p set e = (e', Ok tt) → ∃ a, p = Some a ∧ e' = set a e.
Proof. destruct p as [a|]; [|done]. intros [= <-]. by exists a. Qed.

Lemma required_bind_inv {A} n (p : option A) set (k : M t unit) e e' :
  (required n p set;; k) e = (e', Ok tt) → ∃ a, p = Some a ∧ k (set a e) = (e', Ok tt).
Proof. destruct p as [a|]; [|done]. intros Hk. by exists a. Qed.

Lemma UnmarshalJSON_inv input e p :
  payload_UnmarshalJSON input e = (p, Ok tt) →
  ∃ fee, BaseFeePerGas p = Some fee ∧
    json_Unmarshal payload_fields input payload_dec.zero =
    Ok (full (Some fee) (Some (Transactions p)) p).
Proof.
  unfold payload_UnmarshalJSON. intros Hp.
  destruct (json_Unmarshal _ _ _) as [d|?|] eqn:E; [|done..].
  cbn -[required] in Hp. destruct d, e.
  do 13 (apply required_bind_inv in Hp as (? & Heq & Hp); cbn in Heq; subst).
  apply required_inv in Hp as (txs & Heq & ->). cbn in Heq; subst. by eexists.
Qed.
End codec.

(** ** What the codecs promise *)
Section properties.
Context `{!Hexutil, !HexJson, !HexJsonLaws}.

Lemma MarshalJSON_roundtrip p e f :
  payload_json.Wf p → ExecutionPayloadV1.BaseFeePerGas p = Some f →
  payload_UnmarshalJSON (payload_MarshalJSON false p) e = (p, Ok tt).
Proof.
  intros Hwf Hf. erewrite UnmarshalJSON_full by by apply decode_payload. rewrite Hf.
  destruct p. cbn in *. by rewrite Hf.
Qed.

Lemma MarshalJSON_nil p e f :
  payload_json.Wf p → ExecutionPayloadV1.BaseFeePerGas p = Some f →
  (payload_UnmarshalJSON (payload_MarshalJSON true p) e).2 = Err (missing "transactions").
Proof.
  intros Hwf Hf. erewrite UnmarshalJSON_full by by apply decode_payload. by rewrite Hf.
Qed.

(** C25: the JSON codec of payloads.  A payload whose base fee is set and whose
    transactions are not nil is read back as it was, whatever the receiver held;
    one with nil transactions is refused, with the error for the missing field.
    Any input that is accepted is an object with, for each of the fourteen fields,
    an entry of its name (up to case) other than [null], and what it decodes to
    does not depend on the receiver. *)
Theorem payload_json_codec :
  (∀ p, payload_json.Wf p →
    (∀ e, payload_UnmarshalJSON (payload_MarshalJSON false p) e = (p, Ok tt)) ∧
    ∀ e, (payload_UnmarshalJSON (payload_MarshalJSON true p) e).2 = Err (missing "transactions")) ∧
  (∀ input e q, payload_UnmarshalJSON input e = (q, Ok tt) →
    (∀ e', payload_UnmarshalJSON input e' = (q, Ok tt)) ∧
    ∃ obj, input = JObject obj ∧
      ∀ nm, nm ∈ payload_fields.*1 →
        ∃ key v, (key, v) ∈ obj ∧ fold_name key = fold_name nm ∧ v ≠ JNull).
Proof.
  split.
  - intros p Hwf. pose proof (payload_json.wf_base_fee _ Hwf) as Hf.
    destruct (ExecutionPayloadV1.BaseFeePerGas p) as [f|] eqn:E; [|done].
    split; eauto using MarshalJSON_roundtrip, MarshalJSON_nil.
  - intros input e q (fee & Hfee & Hd)%UnmarshalJSON_inv. split.
    { intros e'. rewrite (UnmarshalJSON_full _ _ _ _ _ Hd). destruct q. by rewrite <- Hfee. }
    destruct input as [|?|?|?|?|obj]; try done. exists obj. split; [done|].
    intros nm [i Hi]%list_elem_of_lookup. eapply seen_cause; [exact Hd| |exact Hi].
    apply lookup_lt_Some in Hi. do 14 (destruct i as [|i]; [done|]). cbn in Hi. lia.
Qed.

(** Payload attributes.  They are read back as they were written, whatever the
    receiver held; no field is required: one that is absent or [null] keeps what
    the receiver had. *)
Theorem attributes_json_codec :
  (∀ p e, attributes_json.Wf p → attributes_UnmarshalJSON (attributes_MarshalJSON p) e = (p, Ok tt)) ∧
  (∀ e, attributes_UnmarshalJSON JNull e = (e, Ok tt) ∧
    attributes_UnmarshalJSON (JObject []) e = (e, Ok tt)) ∧
  (∀ e v, attributes_UnmarshalJSON (JObject [(name "prevRandao", v)]) e =
    match v with
    | JNull => (e, Ok tt)
    | _ =>
        match FixedJSON 32 v with
        | Ok r => (PayloadAttributesV1.mk (PayloadAttributesV1.Timestamp e) r
                     (PayloadAttributesV1.SuggestedFeeRecipient e), Ok tt)
        | Err err => (e, Err err)
        | Panic => (e, Panic)
        end
    end).
Proof.
  split_and!.
  - intros p e [? ? ?]. unfold attributes_UnmarshalJSON, attributes_MarshalJSON, json_Unmarshal.
    do 3 read_field. by destruct p.
  - intros [? ? ?]. by split.
  - intros e v. unfold attributes_UnmarshalJSON, json_Unmarshal. cbn [decode_object].
    change (struct_field attributes_fields (name "prevRandao")) with
      (Some (pointer (FixedJSON 32) attributes_dec.set_PrevRandao)).
    destruct v; cbn; destruct e; try done; by destruct (FixedJSON 32 _).
Qed.
End properties.

(** ** The engine client and server, composed *)
Section engine_over_json.
Context `{!Hexutil, !HexJson, !HexJsonLaws, !Geth, !GethLaws, !LRU}.

Lemma read_written p : payload_json.Wf p → read_payload (payload_MarshalJSON false p) = Ok p.
Proof.
  intros Hwf. pose proof (payload_json.wf_base_fee _ Hwf) as Hf. unfold read_payload, decoded.
  destruct (ExecutionPayloadV1.BaseFeePerGas p) as [f|] eqn:E; [|done].
  by rewrite (MarshalJSON_roundtrip p _ f).
Qed.

Lemma read_nil p : payload_json.Wf p →
  read_payload (payload_MarshalJSON true p) = Err (missing "transactions").
Proof.
  intros Hwf. pose proof (payload_json.wf_base_fee _ Hwf) as Hf. unfold read_payload, decoded.
  destruct (ExecutionPayloadV1.BaseFeePerGas p) as [f|] eqn:E; [|done].
  pose proof (MarshalJSON_nil p payload_zero f Hwf E) as Hn.
  destruct (payload_UnmarshalJSON _ _) as [q r]. cbn in Hn. by rewrite Hn.
Qed.

Lemma read_written_attributes p :
  attributes_json.Wf p → read_attributes (attributes_MarshalJSON p) = Ok p.
Proof.
  intros [? ? ?]. unfold read_attributes, decoded, attributes_UnmarshalJSON,
    attributes_MarshalJSON, json_Unmarshal.
  do 3 read_field. by destruct p.
Qed.


(** The payload the slot loop sends to have its hash refused never gets that
    far.  Its transactions are nil, so they are written as [null], the engine's
    decoder refuses the parameter and the method is not called; with an empty list
    of transactions the engine would have answered [INVALID_BLOCK_HASH]. *)
Theorem invalid_hash_payload_undecodable head s :
  len (header_Hash head) = 32 → u64 (Header.GasLimit head) →
  ptr (λ f, 0 ≤ f < 2 ^ 256) (Header.BaseFee head) →
  let p := invalid_hash_payload head in
  json_newPayloadV1 true p s = (s, Err invalid_params) ∧
  (ValidateHash p = Ok false →
   json_newPayloadV1 false p s = (s, Ok (status ExecutionInvalidBlockHash None))).
Proof.
  intros Hh Hg Hf p. assert (payload_json.Wf p) as Hwf.
  { split; try done; try (by apply Z.mod_pos_bound); try (by apply HexToHash_len). }
  unfold json_newPayloadV1. rewrite read_nil, read_written by done. split; [done|].
  intros Hv. cbn [with_argument]. unfold call_newPayloadV1, engine_server, rpc_method.
  unfold Engine.NewPayloadV1. mrun. rewrite Hv. done.
Qed.
End engine_over_json.
