(* ===== verification/JsonRef.v ===== *)
(** * The JSON of go-ethereum's types

    An executable instance of [HexJson] and its laws: byte strings in the hex of
    [HexutilRef], integers in hex without leading zeros. *)

From Stdlib Require Import Strings.Byte.
From S2P Require Import Prelude Numeral BigInt Common HexutilRef Json.
#[local] Open Scope Z_scope.
#[local] Open Scope go_scope.

Definition hex_json_bytes (input : json) : res bytes :=
  match input with
  | JString text =>
      match hex_unmarshal [] text with
      | (b, None) => Ok b
      | (_, Some e) => Err e
      end
  | _ => Err (Lib "non-string")
  end.

Definition hex_json_fixed (n : nat) (input : json) : res bytes :=
  b ← hex_json_bytes input;
  if len b =? Z.of_nat n then Ok b else Err (Lib "hex string has wrong length").

(** [0x] and the digits, the most significant first. *)
Definition hex_number (v : Z) : bytes :=
  x30 :: x78 :: (if v =? 0 then [x30] else rev (hex_digit <$> digits 16 256 v)).

Definition hex_value (text : bytes) : Z := foldl (λ v c, v * 16 + digit_value c) 0 text.

Definition hex_json_number (limit : Z) (input : json) : res Z :=
  match input with
  | JString (x30 :: x78 :: text) =>
      if bool_decide (text = []) || negb (forallb (λ c, digit_value c <? 16) text)
      then Err (Lib "invalid hex string")
      else if hex_value text <? limit then Ok (hex_value text)
      else Err (Lib "hex number out of range")
  | _ => Err (Lib "hex string without 0x prefix")
  end.

#[export] Instance ref_hex_json : HexJson := {
  Uint64_MarshalText := hex_number;
  Big_MarshalText := hex_number;
  FixedJSON := hex_json_fixed;
  Bytes_FromJSON := hex_json_bytes;
  Uint64_UnmarshalJSON := hex_json_number (2 ^ 64);
  Big_UnmarshalJSON := hex_json_number (2 ^ 256);
}.

Lemma hex_json_text b : hex_json_bytes (JString (hex_encode b)) = Ok b.
Proof. cbn. by rewrite hex_decode_encode. Qed.

Lemma digit_value_hex d : 0 ≤ d < 16 → digit_value (hex_digit d) = d.
Proof.
  intros Hd. rewrite <- (Z2Nat.id d) by lia. assert (Z.to_nat d < 16)%nat as Hn by lia.
  revert Hn. generalize (Z.to_nat d). intros n Hn. do 16 (destruct n as [|n]; [reflexivity|]). lia.
Qed.

Lemma hex_number_text v limit :
  0 ≤ v < limit → limit ≤ 2 ^ 256 → hex_json_number limit (JString (hex_number v)) = Ok v.
Proof.
  intros Hv Hl. unfold hex_json_number, hex_number.
  destruct (Z.eqb_spec v 0) as [->|Hne].
  { change ((if 0 <? limit then Ok 0 else Err (Lib "hex number out of range")) = Ok 0).
    by rewrite (proj2 (Z.ltb_lt 0 limit)) by lia. }
  set (ds := digits 16 256 v).
  assert (Forall (λ d, 0 ≤ d < 16) ds) as Hds by (by apply digits_range).
  assert (v < 16 ^ Z.of_nat 256) as Hv' by (change 16 with (2 ^ 4); rewrite <- Z.pow_mul_r by lia;
    eapply Z.lt_le_trans; [|apply (Z.pow_le_mono_r 2 256); lia]; lia).
  assert (hex_value (rev (hex_digit <$> ds)) = v) as Hval.
  { unfold hex_value. rewrite <- (value_digits 16 ltac:(lia) 256 v) by lia. fold ds.
    transitivity (foldl (λ v d, v * 16 + d) 0 (rev ds)).
    - change (hex_digit <$> ds) with (map hex_digit ds). rewrite <- map_rev. assert (Forall (λ d, 0 ≤ d < 16) (rev ds)) as Hr by (by apply Forall_rev).
      generalize 0. induction Hr as [|d l Hd _ IH]; intros acc; [done|].
      cbn [map foldl]. by rewrite digit_value_hex, IH.
    - rewrite value_rev_fold. lia. }
  rewrite bool_decide_false.
  2:{ intros Hnil. rewrite Hnil in Hval. by apply Hne. }
  replace (forallb (λ c, digit_value c <? 16) (rev (hex_digit <$> ds))) with true.
  2:{ symmetry. apply forallb_forall. intros c Hc. apply in_rev, list_elem_of_In in Hc.
      apply list_elem_of_fmap in Hc as (d & -> & Hd). rewrite Forall_forall in Hds.
      specialize (Hds d Hd). rewrite digit_value_hex by done. lia. }
  cbn [orb negb]. rewrite Hval. by rewrite (proj2 (Z.ltb_lt v limit)) by lia.
Qed.

#[export] Instance ref_hex_json_laws : HexJsonLaws.
Proof.
  split.
  - intros n b Hb. cbn -[hex_json_bytes]. unfold hex_json_fixed. rewrite hex_json_text. cbn.
    by rewrite Hb, Z.eqb_refl.
  - apply hex_json_text.
  - intros v Hv. apply hex_number_text; [exact Hv|lia].
  - intros v Hv. apply hex_number_text; [exact Hv|lia].
Qed.
