(* ===== verification/NodeRef.v ===== *)
(** * Reference implementations for the consensus mock

    Executable instances of what the consensus mock calls, with their laws: random
    numbers from a script, a proof-of-work engine that gives every block the
    difficulty two, a store with an empty chain, a peer that speaks from a script,
    entropy that counts. *)

From Stdlib Require Import Strings.Byte Floats.SpecFloat.
From S2P Require Import Prelude Numeral BigInt Common Signing BLSRef.
From S2P Require Import Geth GethRef Payload MockChain Mining P2p Float64 Clock Behavior.
From S2P Require Import Prologue Startup Eth.
#[local] Open Scope Z_scope.
#[local] Open Scope go_scope.

(** Out-of-range conversions as on amd64. *)
#[export] Instance amd64 : Platform := {|
  uint64_out_of_range _ := 2 ^ 63; int64_out_of_range _ := - 2 ^ 63
|}.

(** A scripted source of random numbers: an odd number draws one half, an even one
    zero. *)
Definition half : spec_float := S754_finite false (2 ^ 52) (-53).
#[export] Instance script_rand : Rand := {|
  rng := list Z;
  Int63n r n := (tail r, default 0 (head r) mod n);
  Read r n := (tail r, replicate n (byte_of_Z (default 0 (head r))));
  Float64 r := (tail r, if Z.odd (default 0 (head r)) then half else S754_zero false);
|}.
#[export] Instance script_rand_laws : RandLaws.
Proof.
  split.
  - intros r n Hn. cbn. by apply Z.mod_pos_bound.
  - intros r. cbn. destruct (Z.odd _); [right|by left]. by eexists _, _.
Qed.

(** ** Mining *)
#[export] Instance toy_pow : ConsensusEngine := {|
  engine_Prepare _ _ h := Ok (with_difficulty h 2);
  engine_FinalizeAndAssemble _ _ h sdb txs _ rs := Ok (toy_assemble h txs rs, sdb);
  engine_Seal _ b _ := Ok (Some b);
|}.
#[export] Instance toy_pow_laws : PoWLaws.
Proof.
  split.
  - intros _ _ h h' [= <-]. by exists 2.
  - by intros _ _ h sdb b sdb' [= <- _].
  - by intros _ b b' [= <-].
Qed.

(** The path of a genesis file is its contents, and its first byte the terminal
    total difficulty. *)
#[export] Instance toy_chain_store : ChainStore := {|
  Genesis := toy_config;
  genesis_Config g := g;
  genesis_GasLimit _ := 30000000;
  genesis_Commit _ db := (db, None);
  ReadCanonicalHash _ _ := zeros 32;
  NewBlockChain _ _ := Ok toy_start;
  os_Open path := if bool_decide (path = []) then Err (Lib "no such file") else Ok path;
  decode_genesis file := Ok (mk_config (Z_of_byte (hd x00 file)) 0);
  NewMemoryDatabase := tt;
  NewLevelDBDatabase _ := Ok tt;
|}.
#[export] Instance toy_chain_store_laws : ChainStoreLaws.
Proof. split. intros db cfg bc [= <-]. apply toy_start_valid. Qed.

(** ** The peer *)

(** A connection is the list of messages the peer still sends. *)
Definition toy_caps (raw : bytes) : list Cap.t := (λ b, Cap.mk "eth" (Z_of_byte b)) <$> raw.
#[export] Instance toy_p2p : DevP2P := {|
  net := list (Z * bytes);
  net_Dial _ := Ok [(0, [x40; x42; x44]); (16, x42 :: x01 :: toy_head)];
  rlpx_Handshake _ n := (n, None);
  conn_Read n := match n with [] => ([], Err (Lib "EOF")) | m :: n => (n, Ok m) end;
  conn_Write _ _ n := (n, None);
  SetSnappy n := n;
  FromECDSAPub k := x04 :: k;
  encode_hello h := Ok (byte_of_Z ∘ Cap.Version <$> Hello.Caps h);
  decode_hello raw := Ok (Hello.mk 5 "geth" (toy_caps raw) 0 []);
  encode_status s :=
    Ok (byte_of_Z (StatusPacket.ProtocolVersion s) :: byte_of_Z (StatusPacket.TD s) ::
        StatusPacket.Head s);
  decode_status raw :=
    match raw with
    | v :: td :: h => Ok (StatusPacket.mk (Z_of_byte v) 1 (Z_of_byte td) h toy_head [])
    | _ => Err (Lib "unexpected EOF")
    end;
  decode_disc_reason _ := Ok 0;
  encode_new_block b td := Ok (toy_block_hash b);
  chain_Genesis_Hash _ := toy_head;
  forkid_NewID _ _ _ := [];
|}.
#[export] Instance toy_enode : Enode := {| enode_Parse := @Ok bytes |}.

(** ** Entropy *)
#[export] Instance counting_entropy : Entropy := {|
  RandKey i := Ok (byte_of_Z (Z.of_nat i + 16));
  Now i := 1000 + Z.of_nat i;
|}.

(** ** The blocks of the toy chain *)
#[export] Instance toy_blocks : EthBlocks := {|
  GetBlockByHash bc h :=
    List.find (λ b, bool_decide (toy_block_hash b = h)) (toy_store bc ++ [toy_genesis]);
  GetBlockByNumber bc n :=
    if n <? 2 ^ 63
    then List.find (λ b, wrap64 (Header.Number (toy_header b)) =? n) (toy_canon bc ++ [toy_genesis])
    else None;
  tx_Hash tx := pad_hash tx;
  header_Size h := 500 + len (Header.Extra h);
  block_Size b := 500 + len (concat (toy_txs b));
  PendingBlockNumber := -2;
  LatestBlockNumber := -1;
|}.
#[export] Instance toy_blocks_laws : EthBlocksLaws.
Proof.
  split.
  - intros bc h b Hb. apply find_some in Hb as [_ Hb]. by apply bool_decide_eq_true_1 in Hb.
  - intros bc n b. cbn. destruct (n <? 2 ^ 63); [|done]. intros Hb.
    apply find_some in Hb as [_ Hb]. by apply Z.eqb_eq in Hb.
  - intros bc n Hn. cbn. by rewrite (proj2 (Z.ltb_ge n (2 ^ 63))).
  - done.
  - by cbn.
Qed.
