(* ===== verification/Examples.v ===== *)
(** * Instances of the properties

    The properties of [Common], [Signing], [Payload], [MockChain], [Engine] and
    [Relay] at concrete inputs, with the reference implementations of every
    library: a chain of one genesis block, an engine that builds a payload on it,
    and a relay in front of that engine. *)

From Stdlib Require Import Strings.Byte Floats.SpecFloat.
From S2P Require Import Prelude Numeral BigInt Fastssz FastsszRef Hasher HasherRef SszObject.
From S2P Require Import FixedContainers VarContainers BlockContainers SszProperties.
From S2P Require Import Common HexutilRef Signing BLSRef Geth GethRef Payload MockChain.
From S2P Require Import Cache CacheRef Engine Http Relay RelayServing Float64 Clock Behavior Api RelayRef Consensus NodeRef.
#[local] Open Scope Z_scope.
#[local] Open Scope go_scope.

#[local] Transparent forkData.spec forkData.hash_spec SigningData.spec SigningData.hash_spec
  forkData.hashable SigningData.hashable forkData.codec SigningData.codec.
#[local] Transparent RegisterValidatorRequestMessage.codec RegisterValidatorRequestMessage.spec
  RegisterValidatorRequestMessage.hashable RegisterValidatorRequestMessage.hash_spec.
#[local] Transparent BuilderBid.codec BuilderBid.spec BuilderBid.hashable BuilderBid.hash_spec.
#[local] Transparent ExecutionPayloadHeader.codec ExecutionPayloadHeader.spec
  ExecutionPayloadHeader.hashable ExecutionPayloadHeader.hash_spec.
#[local] Transparent BlindedBeaconBlockBody.codec BlindedBeaconBlockBody.spec
  BlindedBeaconBlockBody.hashable BlindedBeaconBlockBody.hash_spec.
#[local] Transparent BlindedBeaconBlock.codec BlindedBeaconBlock.spec
  BlindedBeaconBlock.hashable BlindedBeaconBlock.hash_spec.
#[local] Transparent Eth1Data.codec Eth1Data.spec SyncAggregate.codec SyncAggregate.spec.
#[local] Transparent Checkpoint.codec Checkpoint.spec AttestationData.codec AttestationData.spec.
#[local] Transparent IndexedAttestation.codec IndexedAttestation.spec
  AttesterSlashing.codec AttesterSlashing.spec Attestation.codec Attestation.spec
  VoluntaryExit.codec VoluntaryExit.spec Deposit.codec Deposit.spec.

(** ** Text encodings *)

(** A key of 47 bytes is refused; a hash given as text without its prefix keeps its
    old value. *)
Lemma hex_codec_witness :
  PublicKey.UnmarshalText (zeros 48) (Bytes_MarshalText (replicate 47 x01))
  = (zeros 48, Some ErrLength) ∧
  Hash.UnmarshalText (replicate 32 x01) [x61; x62] = (replicate 32 x01, None).
Proof.
  destruct hex_codec as [(_ & Hp & _) He].
  split; [exact (proj1 (Hp (zeros 48) (replicate 47 x01) eq_refl))|].
  destruct (He (replicate 32 x01) [] [x61; x62] (Lib "hex string without 0x prefix")
    (replicate 32 x01) eq_refl eq_refl) as (_ & _ & _ & Hh & _).
  exact (Hh eq_refl).
Defined.

(** Forty-two; and the JSON number 1234, which loses its first and last digits. *)
Lemma u256_codec_witness :
  U256Str.UnmarshalText (zeros 32) (U256Str.MarshalText (x2a :: zeros 31)) = Ok (x2a :: zeros 31, None) ∧
  U256Str.UnmarshalJSON (zeros 32) [x31; x32; x33; x34] = Ok (x17 :: zeros 31, None).
Proof.
  destruct (u256_codec (zeros 32) eq_refl) as [Hr Hd].
  split; [exact (proj1 (Hr (x2a :: zeros 31) eq_refl))|].
  exact (proj1 (proj2 (Hd 23 x31 x34 ltac:(lia)))).
Defined.

(** ** Signing *)
Definition validator_sk : @bls_secret_key ref_bls := x05.
Definition relay_sk : @bls_secret_key ref_bls := x07.
Definition sample_root : bytes := replicate 32 x33.

Lemma domain_spec_witness :
  ∃ d1, ComputeDomain DomainTypeBeaconProposer 2 (Some sample_root) = Ok d1 ∧
    ComputeDomain DomainTypeAppBuilder 0 None ≠ Ok d1.
Proof.
  destruct (domain_spec DomainTypeBeaconProposer 2 (Some sample_root)
    ltac:(unfold u32; lia) eq_refl eq_refl) as (d1 & Hd1 & _ & _ & Hsep).
  exists d1. split; [exact Hd1|]. intros Hd2.
  by apply (Hsep DomainTypeAppBuilder 0 None d1 ltac:(unfold u32; lia) eq_refl eq_refl).
Defined.

(** A registration of the key [x05 ...] at time [ts]. *)
Definition registration (ts : Z) : RegisterValidatorRequestMessage.t :=
  RegisterValidatorRequestMessage.mk (replicate 20 x44) 30000000 ts (x05 :: zeros 47).

Lemma registration_wf ts : u64 ts → wf (registration ts).
Proof. intros Hts. by repeat split; try apply Hts. Qed.

(** The empty byte string is not a signature; what the validator signs is one. *)
Lemma signature_spec_witness :
  VerifySignature (registration 100) builder_domain (x05 :: zeros 47) [] ≠ Ok true ∧
  ∃ msg, ComputeSigningRoot (registration 100) builder_domain = Ok msg ∧
    VerifySignature (registration 100) builder_domain (pk_Marshal (sk_PublicKey validator_sk))
      (sig_Marshal (sk_Sign validator_sk msg)) = Ok true.
Proof.
  destruct (signature_spec (registration 100) builder_domain) as [Hv Hs];
    [by apply registration_wf|by vm_compute|].
  split; [|exact (Hs validator_sk)].
  intros H. destruct (proj1 (proj2 (Hv (x05 :: zeros 47) [])) H) as (sg & p & Hsg & _). discriminate Hsg.
Defined.

(** Equality by evaluation of both sides. *)
Ltac vm_refl := lazymatch goal with |- ?a = ?b => exact (eq_refl b <: a = b) end.

(** A computation whose outcome is known, its final state left unevaluated. *)
Lemma run_to {S A} (x : S * res A) r : x.2 = r → x = (x.1, r).
Proof. by destruct x; intros <-. Qed.

(** ** The engine *)
Definition sample_chain : MockChain := mk_chain (H := ref_geth) toy_start tt (mk_config 1 0) 30000000.
Definition engine0 : EngineBackend := mk_backend sample_chain 0 (mk_cache [] 10).
Definition attributes (ts : Z) : PayloadAttributesV1.t :=
  PayloadAttributesV1.mk ts (replicate 32 x55) (replicate 20 x66).
Definition heads (h : bytes) : ForkchoiceStateV1.t := ForkchoiceStateV1.mk h (zeros 32) (zeros 32).

(** The engine after it was asked for a payload on the genesis block; the payload;
    the engine after it processed that payload; a payload built on top of it. *)
Definition engine1 : EngineBackend :=
  (ForkchoiceUpdatedV1 (Some (heads toy_head)) (Some (attributes 1012)) engine0).1.
Definition empty_payload : ExecutionPayloadV1.t :=
  ExecutionPayloadV1.mk [] [] [] [] [] [] 0 0 0 0 [] None [] [].
Definition payload1 : ExecutionPayloadV1.t := Eval vm_compute in
  default empty_payload (lru_Get (recentPayloads engine1) (KHash toy_head)).1.
Definition engine2 : EngineBackend :=
  (NewPayloadV1 (Some payload1) engine1).1.
Definition head1 : bytes := Eval vm_compute in
  ExecutionPayloadV1.BlockHash payload1.
Definition engine3 : EngineBackend :=
  (ForkchoiceUpdatedV1 (Some (heads head1)) (Some (attributes 1024)) engine2).1.
Definition payload2 : ExecutionPayloadV1.t := Eval vm_compute in
  default empty_payload (lru_Get (recentPayloads engine3) (KHash head1)).1.

Lemma payload1_wf : ExecutionPayloadV1.Wf payload1.
Proof.
  repeat split; try apply Forall_nil_2; vm_compute; discriminate.
Qed.

Lemma payload_conversions_witness :
  ∃ h r, PayloadToPayloadHeader payload1 = Ok h ∧ wf h ∧
    le_decode (ExecutionPayloadHeader.BaseFeePerGas h) = 7 * 2 ^ 248 ∧
    ELPayloadToRESTPayload payload1 = Ok r ∧ RESTPayloadToELPayload r = Ok payload1.
Proof.
  destruct (payload_conversions payload1 7 payload1_wf ltac:(vm_refl)) as (Hh & Hwf & Hf & r & Hr & Hb).
  eexists _, r. split; [exact Hh|]. split; [exact Hwf|]. split; [exact (Hf ltac:(lia))|].
  exact (conj Hr Hb).
Defined.

(** A payload whose state root is off by one byte is refused, the chain kept. *)
Definition bad_payload : ExecutionPayloadV1.t :=
  ExecutionPayloadV1.mk toy_head [] (replicate 32 x10) (ExecutionPayloadV1.ReceiptsRoot payload1)
    (zeros 256) [] 1 30000000 0 1012 [] None head1 [].

(** The block of a good payload; on [engine2] the chain has it already. *)
Definition accepted_block : toy_block :=
  match (ProcessPayload payload1 (mockChain engine1)).2 with Ok b => b | _ => toy_genesis end.

Lemma process_payload_outcomes_witness :
  (* refused before the insertion *)
  chain (ProcessPayload bad_payload (mockChain engine1)).1 = chain (mockChain engine1) ∧
  (* accepted *)
  GetHeaderByHash (chain (ProcessPayload payload1 (mockChain engine1)).1) head1
  = Some (toy_header accepted_block) ∧
  (* refused by the insertion *)
  ∃ b db c refusal, InsertChain (chain (mockChain engine2)) db b
    = (chain c, database c, Some refusal) ∧ block_Hash b = head1.
Proof.
  assert ((ProcessPayload bad_payload (mockChain engine1)).2
          = Err (Errorf "state root difference")) as E1 by vm_refl.
  assert ((ProcessPayload payload1 (mockChain engine1)).2 = Ok accepted_block) as E2 by vm_refl.
  assert ((ProcessPayload payload1 (mockChain engine2)).2 = Err insertion_failed) as E3 by vm_refl.
  assert (ExecutionPayloadV1.BlockHash payload1 = head1) as Hh by vm_refl.
  rewrite <- Hh. split; [|split].
  - exact (process_payload_outcomes _ _ _ _ (run_to _ _ E1)).
  - destruct (process_payload_outcomes _ _ _ _ (run_to _ _ E2)) as (_ & _ & _ & _ & _ & H).
    exact H.
  - destruct (process_payload_outcomes _ _ _ _ (run_to _ _ E3))
      as (_ & b & db & refusal & _ & [Hb _] & H).
    exists b, db, (ProcessPayload payload1 (mockChain engine2)).1, refusal. exact (conj H Hb).
Defined.

Lemma new_payload_status_witness :
  NewPayloadV1 (Some payload1) engine1 = (engine2, Ok (status ExecutionValid None)) ∧
  ∃ h, GetHeaderByHash (chain (mockChain engine2)) head1 = Some h ∧ Header.Number h = 1.
Proof.
  assert (NewPayloadV1 (Some payload1) engine1 = (engine2, Ok (status ExecutionValid None))) as E
    by vm_refl.
  split; [exact E|].
  assert (ValidateHash payload1 = Ok true) as Hv by vm_refl.
  pose proof (new_payload_status engine1 payload1 true 1 Hv eq_refl) as H.
  assert (GetHeaderByHash (chain (mockChain engine1)) (ExecutionPayloadV1.ParentHash payload1)
          = Some (toy_header toy_genesis)) as Hp by vm_refl.
  cbv zeta in H. rewrite Hp in H.
  destruct (H engine2 _ E) as (_ & _ & _ & h & Hf & Hn & _). exists h. split; [exact Hf|].
  by rewrite Hn.
Defined.

Lemma payload_on_payload_rejected_witness :
  NewPayloadV1 (Some payload2) engine2
  = (engine2, Ok (status ExecutionInvalidTerminalBlock None)).
Proof.
  apply (payload_on_payload_rejected engine1 engine2 (status ExecutionValid None) payload1
    payload2 1); [vm_refl|lia|vm_refl..].
Defined.

Lemma forkchoice_builds_payload_witness :
  ∃ id p, (GetPayloadV1 id engine1).2 = Ok p ∧ ExecutionPayloadV1.ParentHash p = toy_head ∧
    ExecutionPayloadV1.Timestamp p = 1012.
Proof.
  pose (r := ForkchoiceUpdatedResult.mk (status ExecutionValid (Some toy_head)) (Some (be_encode 8 1))).
  assert ((ForkchoiceUpdatedV1 (Some (heads toy_head)) (Some (attributes 1012)) engine0).2 = Ok r)
    as Hr by vm_refl.
  assert (ForkchoiceUpdatedV1 (Some (heads toy_head)) (Some (attributes 1012)) engine0
          = (engine1, Ok r)) as E by (unfold engine1; exact (run_to _ _ Hr)).
  assert (1 < capacity (recentPayloads engine0))%nat as Hcap by (cbn; lia).
  destruct (forkchoice_builds_payload engine0 engine1 (heads toy_head) (attributes 1012) r
    ltac:(vm_refl) Hcap E)
    as (id & p & parent & _ & _ & _ & _ & Hp & _ & Ht & _ & Hg & _).
  exists id, p. split; [exact Hg|]. split; [exact Hp|exact Ht].
Defined.

(** A run that builds a payload and processes it. *)
Lemma engine_run_sample : engine_run sample_chain 1 engine2.
Proof.
  apply (run_step _ 1 engine1 1).
  - apply (run_step _ 0 engine0 1); [apply (run_start _ engine0); vm_refl|].
    exact (step_build 0 engine0 (heads toy_head) (attributes 1012)).
  - unfold engine2. exact (step_new 1 engine1 (Some payload1)).
Qed.

Lemma engine_run_invariant_witness : engine_inv 1 engine2.
Proof. exact (engine_run_invariant sample_chain 1 engine2 engine_run_sample). Defined.

(** ** The relay *)

(** A registration of the validator at time [ts], signed by the validator. *)
Definition signed_registration (ts : Z) : SignedValidatorRegistration.t :=
  SignedValidatorRegistration.mk (Some (registration ts))
    (sig_Marshal (sk_Sign validator_sk (signing_root (registration ts) builder_domain))).

(** A block on the header of [payload1], signed by the validator. *)
Definition header1 : ExecutionPayloadHeader.t := header_of payload1 7.
Definition body1 : BlindedBeaconBlockBody.t :=
  BlindedBeaconBlockBody.mk (replicate 96 x11)
    (Some (Eth1Data.mk (replicate 32 x12) 4 (replicate 32 x13))) (replicate 32 x14)
    [] [] [] [] [] (Some (SyncAggregate.mk (replicate 64 xff) (replicate 96 x15)))
    (Some header1).
Definition block1 : BlindedBeaconBlock.t :=
  BlindedBeaconBlock.mk 301 4 (replicate 32 x16) (replicate 32 x17) (Some body1).
Definition block_domain : bytes :=
  DomainTypeBeaconProposer ++ take 28 (fork_root 2 (Some sample_root)).
Definition signed_block1 : SignedBlindedBeaconBlock.t :=
  SignedBlindedBeaconBlock.mk (Some block1)
    (sig_Marshal (sk_Sign validator_sk (signing_root block1 block_domain))).

(** The requests the examples send: two registrations, the second newer; the newer
    one alone; one without a message; the signed block. *)
Definition register_request (l : list SignedValidatorRegistration.t) : bytes :=
  match encode_registrations l with Ok b => b | _ => [] end.
Definition two_registrations : bytes :=
  register_request [signed_registration 100; signed_registration 200].
Definition newer_registration : bytes := register_request [signed_registration 200].
Definition nil_registration : bytes :=
  register_request [signed_registration 100; SignedValidatorRegistration.mk None []].
Definition block_request : bytes :=
  match encode_block signed_block1 with Ok b => b | _ => [] end.

Lemma block_request_ok : decode_block block_request = Ok (Some signed_block1).
Proof. vm_refl. Qed.

Definition validator_pk : bytes := pk_Marshal (sk_PublicKey validator_sk).
Definition relay0 : RelayBackend :=
  mk_relay engine1 (pk_Marshal (sk_PublicKey relay_sk)) relay_sk sample_root ∅ (zeros 48).
Definition relay1 : RelayBackend :=
  with_registrations relay0 {[ validator_pk := registration 100 ]}.
Definition relay2 : RelayBackend := with_pubkey relay0 validator_pk.

Lemma signed_registration_wf ts :
  u64 ts → ptr wf (SignedValidatorRegistration.Message (signed_registration ts)).
Proof. apply registration_wf. Qed.

Lemma relay0_keys : keys_ok relay0.
Proof. by repeat split; vm_compute. Qed.

(** The second registration of the batch is newer, and refused. *)
Lemma register_batch_spec_witness :
  ∃ regs' rest,
    batch_run (registrations relay0) [signed_registration 100; signed_registration 200] regs' rest
    ∧ rest ≠ [].
Proof.
  destruct (register_batch_spec two_registrations
    [signed_registration 100; signed_registration 200] relay0)
    as (regs' & rest & Hrun & Hout); [vm_refl| |].
  - by repeat constructor; apply signed_registration_wf.
  - exists regs', rest. split; [exact Hrun|]. intros ->.
    destruct Hout as [[_ H]|(msg & H & _)]; [|by apply H].
    apply (f_equal (λ o, sent (inner o.1.2))) in H. vm_compute in H. discriminate H.
Defined.

Lemma newer_registration_refused_witness :
  handleRegisterValidator newer_registration (relay1, fresh)
  = ((relay1, error_answer errInvalidTimestamp), Ok tt).
Proof.
  refine (newer_registration_refused newer_registration (signed_registration 200) (registration 200)
    (registration 100) relay1 _ _ _ _ _);
    [vm_refl|reflexivity|by apply registration_wf|vm_refl|vm_refl].
Defined.

Lemma register_nil_message_witness :
  ∃ regs, (LoggingMiddleware (handleRegisterValidator nil_registration) relay0 empty_response).1
  = (with_registrations relay0 regs, mk_response (Some StatusInternalServerError) None []).
Proof.
  exists {[ validator_pk := registration 100 ]}.
  erewrite (register_nil_message nil_registration [signed_registration 100] _
    (SignedValidatorRegistration.mk None []) []).
  - reflexivity.
  - vm_refl.
  - by repeat constructor; apply signed_registration_wf.
  - reflexivity.
  - eapply (batch_step _ _ (registration 100)); [|apply batch_done].
    split; [reflexivity|]. split; [vm_refl|]. intros prefs Hp. discriminate Hp.
Defined.

Lemma get_header_spec_witness :
  ∃ out, handleGetHeader [x37] (Bytes_MarshalText toy_head) (Bytes_MarshalText validator_pk)
           (relay0, fresh)
  = ((with_pubkey (after_lookup relay0 toy_head) validator_pk, json_answer StatusOK true out),
     Ok tt).
Proof.
  destruct (get_header_spec [x37] toy_head validator_pk payload1 relay0)
    as (hd & sg & out & _ & _ & _ & _ & Hrun);
    [reflexivity|reflexivity|reflexivity|apply relay0_keys|vm_refl|apply payload1_wf|].
  by exists out.
Defined.

Lemma get_header_rejects_witness :
  handleGetHeader [x61] [] [] (relay0, fresh) = ((relay0, error_answer errInvalidSlot), Ok tt) ∧
  handleGetHeader [x37] (Bytes_MarshalText sample_root) (Bytes_MarshalText validator_pk)
    (relay0, fresh)
  = ((after_lookup relay0 (HexToHash (Bytes_MarshalText sample_root)),
      error_answer (text_bytes "Cannot get unknown payload")), Ok tt).
Proof.
  split; [exact (get_header_rejects [x61] [] [] relay0)|].
  pose proof (get_header_rejects [x37] (Bytes_MarshalText sample_root)
    (Bytes_MarshalText validator_pk) relay0) as H.
  assert (ParseInt_ok [x37] = true) as Hs by vm_refl.
  assert (len (Bytes_MarshalText validator_pk) = 98) as Hp by vm_refl.
  assert (len (Bytes_MarshalText sample_root) = 66) as Hh by vm_refl.
  assert (cached relay0 (HexToHash (Bytes_MarshalText sample_root)) = None) as Hc by vm_refl.
  rewrite Hs, Hp, Hh in H. exact (proj1 (H Hc)).
Defined.

Lemma block1_wf : wf block1.
Proof.
  destruct (PayloadToPayloadHeader_ok payload1 payload1_wf) as (fee & Hfee & _ & _ & Hh).
  injection Hfee as <-. repeat split; try apply Forall_nil_2; try (vm_compute; discriminate).
  all: apply Hh.
Qed.

(** The block's signature verifies and its payload is found. *)
Lemma get_payload_spec_witness :
  ∃ out r', handleGetPayload block_request (relay2, fresh) = ((r', json_answer 0 false out), Ok tt).
Proof.
  pose proof (get_payload_spec block_request signed_block1 block1 body1 header1 relay2
    block_request_ok eq_refl block1_wf eq_refl eq_refl eq_refl relay0_keys) as H.
  cbv zeta in H. rewrite bool_decide_true in H by vm_refl.
  assert (cached relay2 (ExecutionPayloadHeader.ParentHash header1) = Some payload1) as Hc
    by vm_refl.
  rewrite Hc in H. destruct (H payload1_wf) as (rest & out & _ & _ & Hrun).
  eexists out, _. exact Hrun.
Defined.

Lemma header_then_payload_witness :
  ∃ out1 r1 out2 r2,
    handleGetHeader [x37] (Bytes_MarshalText toy_head) (Bytes_MarshalText validator_pk)
      (relay0, fresh) = ((r1, json_answer StatusOK true out1), Ok tt) ∧
    handleGetPayload block_request (r1, fresh) = ((r2, json_answer 0 false out2), Ok tt).
Proof.
  destruct (header_then_payload [x37] toy_head validator_sk payload1 relay0)
    as (hd & sg & out1 & r1 & Hconv & Hget & Henc & Hpay);
    [reflexivity|apply relay0_keys|vm_refl|apply payload1_wf|reflexivity|].
  assert (hd = header1) as ->.
  { enough (Ok hd = Ok header1) as Heq by congruence. rewrite <- Hconv. vm_refl. }
  assert (proposer_domain relay0 = block_domain) as Hd by vm_refl. rewrite Hd in Hpay.
  destruct (Hpay block_request block1 body1 block1_wf eq_refl eq_refl block_request_ok)
    as (rest & out2 & r2 & Hrun & _).
  exists out1, r1, out2, r2. exact (conj Hget Hrun).
Defined.

(** The relay started with the key [07 00 ... 00] and an engine that builds a
    payload. *)
Definition relay_key : bytes := x30 :: x37 :: replicate 62 x30.

Lemma relay_run_sample : relay_run sample_chain (hex_encode sample_root) relay_key 1 relay0.
Proof.
  pose (start := mk_relay engine0 (pk relay0) relay_sk sample_root ∅ (zeros 48)).
  apply (relay_next _ _ _ 0 start 1).
  - by apply (relay_start _ _ _ engine0); vm_refl.
  - change relay0 with (with_engine start engine1). apply relay_engine. unfold engine1.
    exact (step_build 0 engine0 (heads toy_head) (attributes 1012)).
Qed.

Lemma relay_run_invariant_witness : ∃ sk0, relay_inv 1 sk0 relay0.
Proof.
  destruct (relay_run_invariant _ _ _ _ _ relay_run_sample) as (b & sk0 & _ & _ & H).
  by exists sk0.
Defined.

(** ** The consensus mock *)

(** No event at all; a draw of zero triggers an event of frequency one quarter, a draw
    of one half does not. *)
Definition quarter : spec_float := S754_finite false (2 ^ 52) (-54).
Definition no_freq : Frequencies :=
  mk_freq (S754_zero false) (S754_zero false) (S754_zero false) (S754_zero false)
    (S754_zero false) (S754_zero false).
Definition quiet : ConsensusBehavior := mk_behavior [] no_freq 64.

(** Slots of 12 seconds from 1000 on; through the relay, and without it. *)
Definition builder_cmd : ConsensusCmd :=
  mk_cmd 1000 (12 * Second) 32 0 [x01] sample_root quiet [mk_validator validator_pk validator_sk].
Definition engine_cmd : ConsensusCmd := mk_cmd 1000 (12 * Second) 32 5 [] sample_root quiet [].
Definition world0 : World (W:=RelayBackend) (E:=EngineBackend) :=
  mk_world sample_chain ([5] : @rng script_rand) relay0 engine1.
Definition id1 : bytes := be_encode 8 1.

Lemma slot_timestamp_spec_witness : SlotTimestamp 1606824023 (12 * Second) 7000000 = 1690824023.
Proof.
  rewrite (proj1 (slot_timestamp_spec 1606824023 12 7000000 0 0 ltac:(lia) ltac:(lia)
    ltac:(unfold Second; lia) ltac:(lia) ltac:(unfold Second; lia))).
  vm_refl.
Defined.

Lemma builder_header_verified_witness :
  ∃ bid sg, VerifySignature bid builder_domain (BuilderBid.Pubkey bid) sg = Ok true ∧
    BuilderBid.Header bid = Some header1.
Proof.
  assert (api.BuilderGetHeader 1 toy_head validator_pk relay0
          = (with_pubkey (after_lookup relay0 toy_head) validator_pk, Ok (Some header1))) as E
    by vm_refl.
  destruct (builder_header_verified _ _ _ _ _ _ E) as (resp & bid & sg & v & _ & _ & _ & Hv & Hh).
  exists bid, sg. split; [exact Hv|exact Hh].
Defined.

Lemma builder_proposal_witness : ∃ w, getMockProposal builder_cmd [] 1 world0 = (w, Ok payload1).
Proof.
  destruct (builder_proposal builder_cmd [] 1 payload1 world0) as (w & Hw & _);
    [done|done|lia|apply relay0_keys|reflexivity|vm_refl|apply payload1_wf|vm_refl|].
  exists w. exact Hw.
Defined.

(** The payload of slot 1 is proposed in slot 1. *)
Lemma proposal_gate_witness :
  ∃ w w1 r, mockProposal engine_cmd id1 1 false world0 = (w, Ok Continues) ∧
    getMockProposal engine_cmd id1 1 world0 = (w1, r) ∧
    (w = w1 ∨ ∃ p, r = Ok p ∧
       ValidateTimestamp 1000 (12 * Second) (ExecutionPayloadV1.Timestamp p) 1 = Ok tt).
Proof.
  assert ((mockProposal engine_cmd id1 1 false world0).2 = Ok Continues) as Hr by vm_refl.
  destruct (mockProposal engine_cmd id1 1 false world0) as [w r0] eqn:E. cbn [snd] in Hr. subst r0.
  destruct (proposal_gate _ _ _ _ _ _ _ E) as (w1 & r & Hget & Hcase).
  exists w, w1, r. split; [reflexivity|]. split; [exact Hget|].
  destruct Hcase as [Hw|(p & Hr & _ & Hts & _)]; [left; exact Hw|right].
  exists p. split; [exact Hr|exact Hts].
Defined.

(** In slot 2 it is refused, and the bounded run exits. *)
Lemma stale_proposal_refused_witness :
  (mockProposal engine_cmd id1 2 false world0).2 = Ok Exits.
Proof.
  assert ((getMockProposal engine_cmd id1 2 world0).2 = Ok payload1) as Hr by vm_refl.
  destruct (getMockProposal engine_cmd id1 2 world0) as [w1 r] eqn:E. cbn [snd] in Hr. subst r.
  assert (ExecutionPayloadV1.Timestamp payload1 = SlotTimestamp 1000 (12 * Second) 1) as Hts by vm_refl.
  rewrite (stale_proposal_refused engine_cmd id1 2 1 12 payload1 world0 w1 eq_refl
    ltac:(lia) ltac:(lia) ltac:(unfold Second; lia) ltac:(lia) ltac:(unfold Second; lia)
    ltac:(lia) E Hts).
  reflexivity.
Defined.
