(* ===== verification/ExamplesNode.v ===== *)
(** * Instances of the properties: the consensus mock and the JSON codecs

    The properties of the slot loop, the prologue, the start, the peer-to-peer
    connection and the JSON codecs at concrete inputs. *)

From Stdlib Require Import Strings.Byte Floats.SpecFloat.
From S2P Require Import Prelude Numeral BigInt Fastssz FastsszRef Hasher HasherRef SszObject.
From S2P Require Import FixedContainers VarContainers BlockContainers SszProperties.
From S2P Require Import Common HexutilRef Signing BLSRef Geth GethRef Payload MockChain Mining P2p.
From S2P Require Import Cache CacheRef Engine Http Relay RelayServing Float64 Clock Behavior Prologue.
From S2P Require Import Api Router RouterRef RelayRef Consensus Startup SlotLoop SlotProperties Exits RunNode Json JsonRef Eth NodeRef Transport RelayStart TransportRef.
From S2P Require Import Examples.
#[local] Open Scope Z_scope.
#[local] Open Scope go_scope.

(** ** The peer-to-peer connection *)
Definition conn0 : Conn :=
  mk_conn [(0, [x40; x42; x44]); (16, x42 :: x01 :: toy_head)] [] 0 66 [Cap.mk "eth" 66].

Lemma negotiate_spec_witness :
  negotiateEthProtocol [Cap.mk "eth" 64; Cap.mk "snap" 1; Cap.mk "eth" 68; Cap.mk "eth" 66] conn0
  = (with_negotiated conn0 66, Ok tt).
Proof.
  destruct (negotiate_spec [Cap.mk "eth" 64; Cap.mk "snap" 1; Cap.mk "eth" 68; Cap.mk "eth" 66]
    conn0 ltac:(cbn; lia)) as (v & Hv & _ & _ & _ & _).
  rewrite Hv. assert (v = 66) as ->; [|reflexivity].
  injection Hv as Hv. rewrite <- Hv. vm_refl.
Defined.

Definition peer_cfg : @ChainConfig ref_geth := mk_config 3 0.
Definition peer_chain : @BlockChain ref_geth := toy_start.

(** The scripted peer sends a status with our head. *)
Lemma peer_spec_witness :
  (Peer peer_cfg peer_chain None conn0).2 = Ok tt ∧
  negotiatedProtoVersion (Peer peer_cfg peer_chain None conn0).1 ≠ 0.
Proof.
  assert ((Peer peer_cfg peer_chain None conn0).2 = Ok tt) as Hr by vm_refl.
  split; [exact Hr|].
  destruct (peer_spec peer_cfg peer_chain conn0 _ (run_to _ _ Hr))
    as (hello & n1 & n2 & raw & msg & n4 & code & raw' & _ & _ & _ & _ & _ & Hne & _).
  exact Hne.
Defined.

(** ** The prologue *)
Definition fresh_key : @PrivateKey ref_geth := ([] : bytes).
Definition start_db : @Database ref_geth * @rng script_rand := (tt, [] : list Z).


(** ** Starting *)
Definition secret_text : bytes := replicate 64 x34.

(** A secret file that ends in a newline. *)
Lemma jwt_secret_spec_witness : loadJwtSecret (Ok (secret_text ++ [x0a])) = Ok (replicate 32 x44).
Proof.
  assert (hex_decode secret_text = Some (replicate 32 x44)) as Hd by vm_refl.
  exact (proj1 (proj2 (jwt_secret_spec secret_text (replicate 32 x44) [] Hd)) eq_refl x0a).
Defined.

(** Two validators start against a relay without registrations. *)
Lemma run_registers_validators_witness :
  ∃ regs' c', Run builder_cmd 2 (hex_encode sample_root) [] (Ok secret_text) (λ _, Ok tt) relay0
    = (with_registrations relay0 regs', Ok (c', replicate 32 x44, tt)) ∧
    regs' !! (x11 :: zeros 47) = Some (registration_message (x11 :: zeros 47) 1001).
Proof.
  destruct (run_registers_validators builder_cmd 2 (hex_encode sample_root) [] (Ok secret_text)
    (λ _, Ok tt) (replicate 32 x44) tt [x10; x11] relay0)
    as (regs' & c' & Hrun & _ & _ & Hreg & _).
  - vm_compute. discriminate.
  - discriminate.
  - vm_refl.
  - reflexivity.
  - reflexivity.
  - vm_refl.
  - by vm_compute; repeat constructor; set_solver.
  - intros sk _. reflexivity.
  - exists regs', c'. split; [exact Hrun|]. exact (Hreg 1%nat x11 eq_refl).
Defined.

Definition started_engine : EngineBackend :=
  match EngineCmd_Run (Ok secret_text) [] (text_bytes "genesis.json") with
  | Ok (_, e) => e | _ => engine1
  end.

(** The relay with a key that was drawn, on an engine that starts. *)
Lemma default_relay_starts_witness :
  ∃ c r, RelayCmd_Default (Ok (x07 : @bls_secret_key ref_bls)) = Ok c ∧
    RelayCmd_Run c engine1 (Ok secret_text) = Ok (replicate 32 x44, r) ∧ sk r = x07 ∧
    pk r = x07 :: zeros 47.
Proof.
  assert (EngineCmd_Run (Ok secret_text) [] (text_bytes "genesis.json")
    = Ok (replicate 32 x44, started_engine)) as He by vm_refl.
  destruct (default_relay_starts (x07 : @bls_secret_key ref_bls) engine1 (Ok secret_text) _ _ He)
    as (c & r & Hc & Hr & _ & Hsk & Hpk & _).
  exists c, r. auto.
Defined.

(** ** The servers of the engine *)
Definition no_service : @service toy_rpc_server := ([] : bytes).

Lemma http_server_unauthenticated_witness :
  ∃ srv http ws, startRPC EngineCmd_Default [x44] no_service no_service = Ok (srv, http, ws) ∧
    ∀ p h, (p, h) ∈ Handler ws → lets_pass h None 7 = false.
Proof.
  destruct (startRPC EngineCmd_Default [x44] no_service no_service) as [[[srv http] ws]|?|] eqn:Hs;
    [|vm_compute in Hs; discriminate Hs..].
  exists srv, http, ws. split; [done|]. intros p h Hin.
  exact (proj1 (proj2 (http_server_unauthenticated _ _ _ _ _ _ _ Hs ltac:(discriminate)) p h 7 Hin)).
Defined.

(** ** The relay over HTTP *)

(** A header is asked for through the routes; a wrong method finds none. *)
Lemma relay_over_http_witness :
  client_header http_relay 7 toy_head validator_pk relay0
  = client_header relay_server 7 toy_head validator_pk relay0 ∧
  (relay_http "GET" (text_bytes "/eth/v1/builder/validators") [] relay0).2
  = Ok (mk_response (Some 404) (Some "text/plain; charset=utf-8"%string)
          (text_bytes "404 page not found" ++ newline)).
Proof.
  split; [|vm_refl].
  exact (proj1 (proj2 (relay_over_http 7 toy_head validator_pk []
    (SignedBlindedBeaconBlock.mk None []) relay0 ltac:(lia) ltac:(discriminate) ltac:(discriminate)))).
Defined.

(** ** The slot loop *)

(** The time of a slot, in nanoseconds. *)
Definition at_slot (slot : Z) : Z := (1000 + 12 * slot) * Second.

(** A node that starts with given draws. *)
Definition node_with (draws : list Z) : Node (W:=RelayBackend) (E:=EngineBackend) :=
  start_node (mk_world sample_chain (draws : @rng script_rand) relay0 engine1).
Definition node0 : Node := node_with [1; 1; 1; 1].

(** A tick past the bound of the run; and a proposal of a payload that the engine
    does not have. *)
Definition proposing_node : Node (W:=RelayBackend) (E:=EngineBackend) :=
  with_goroutines node0 [GoProposal (zeros 8) 1].

Lemma exit_codes_witness :
  ended (step engine_cmd 0 (Tick (at_slot 6)) node0) = Some (Exited 0) ∧
  ended (step engine_cmd 0 (Tick (at_slot 7)) (step engine_cmd 0 (Resume 0) proposing_node))
  = Some (Exited 1).
Proof.
  split.
  - apply (exit_codes engine_cmd 0 node0 [Tick (at_slot 6)] _ 0 eq_refl ltac:(by vm_compute)
      (loop_step _ _ _ [] _ _ (loop_start _ _ _))).
    exists [], (Tick (at_slot 6)), [], node0. split; [done|]. split; [apply loop_start|].
    split; [done|]. by vm_compute.
  - apply (exit_codes engine_cmd 0 proposing_node [Resume 0; Tick (at_slot 7)] _ 1 eq_refl
      ltac:(by vm_compute)
      (loop_step _ _ _ [Resume 0] _ _ (loop_step _ _ _ [] _ _ (loop_start _ _ _)))).
    exists [], (Resume 0), [Tick (at_slot 7)], proposing_node. split; [done|].
    split; [apply loop_start|]. split; [done|]. split; [by vm_compute|]. split; [done|].
    exists (GoProposal (zeros 8) 1). split; [done|].
    assert ((getMockProposal engine_cmd (zeros 8) 1 (world proposing_node)).2
            = Err (Rpc UnavailablePayload "unknown payload")) as Hg by vm_refl.
    exact (refused_no_payload _ _ _ _ _ _ (run_to _ _ Hg)).
Defined.

(** The first slot builds a block; its goroutine goes on. *)
Lemma slot_decisions_witness :
  step engine_cmd 0 (Tick (at_slot 1)) node0
  = settle ((parent ← choose_parent engine_cmd 0; external_block engine_cmd parent 1)
      (with_rng node0 (after 2 (rng_of node0)))).
Proof.
  pose proof (slot_decisions engine_cmd 0 (at_slot 1) node0 eq_refl) as H. cbv zeta in H.
  assert (running_slot engine_cmd (at_slot 1) = Some 1) as Hs by vm_refl.
  assert (float64_lt (drawn 0 node0) (GapSlot no_freq) = false) as Hg by vm_refl.
  assert (float64_lt (drawn 1 node0) (InvalidHashFreq no_freq) = false) as Hb by vm_refl.
  rewrite Hs in H. change (Freq (behavior engine_cmd)) with no_freq in H. rewrite Hg, Hb in H.
  exact H.
Defined.

(** Two blocks are mined for the scripted peer; then the loop builds one and sends
    it. *)
Definition mined_start : @Database ref_geth * @rng script_rand := (tt, [1; 1; 1; 1; 1; 1]).
Definition mined_chain : MockChain := mk_chain toy_start tt (mk_config 4 0) 30000000.
Definition mined_world : World (W:=RelayBackend) (E:=EngineBackend) :=
  mk_world mined_chain ([1; 1; 1; 1] : @rng script_rand) relay0 engine1.

Lemma loop_run_invariant_witness :
  loop_inv (step engine_cmd 2 (Resume 0) (step engine_cmd 2 (Tick (at_slot 1))
    (start_node mined_world))).
Proof.
  refine (proj1 (loop_run_invariant engine_cmd [x01] [x04] fresh_key mined_start relay0 engine1
    [Tick (at_slot 1); Resume 0] _ _)).
  refine (RunNode engine_cmd [x01] [x04] fresh_key mined_start relay0 engine1
    [Tick (at_slot 1); Resume 0] _ 2 2 mined_chain tt ([1; 1; 1; 1] : @rng script_rand) _ _).
  - vm_refl.
  - apply (loop_step _ _ _ [Tick (at_slot 1)]). apply (loop_step _ _ _ []). apply loop_start.
Defined.

(** The start of the second epoch. *)
Lemma finality_lag_witness :
  let n := step builder_cmd 0 (Tick (at_slot 32)) node0 in
  finalizedHash n = zeros 32 ∧ safeHash n = zeros 32 ∧ nextFinalized n = toy_head.
Proof.
  intros n.
  assert (epoch_run builder_cmd 0 node0 [toy_head] n) as Hrun.
  { pose proof (epoch_step builder_cmd 0 node0 [] (Tick (at_slot 32)) node0 (epoch_start _ _ _)
      (λ _, eq_refl)) as H.
    assert (starts_epoch builder_cmd node0 (Tick (at_slot 32)) = true) as Hs by vm_refl.
    rewrite Hs in H. exact H. }
  destruct (finality_lag builder_cmd 0 (world node0) _ _ Hrun) as (Hf & Hn & Hs).
  split; [exact Hf|]. split; [|exact Hn]. rewrite Hs by discriminate. exact Hf.
Defined.

(** The block of the first slot, sent and followed by a forkchoice update. *)
Lemma one_pending_payload_witness :
  (length (senders (step engine_cmd 0 (Resume 0) (step engine_cmd 0 (Resume 0)
    (step engine_cmd 0 (Tick (at_slot 1)) node0)))) ≤ 1)%nat.
Proof.
  apply (one_pending_payload engine_cmd 0 (world node0) [Tick (at_slot 1); Resume 0; Resume 0]).
  apply (synchronous_step _ _ _ [Tick (at_slot 1); Resume 0]); [|discriminate].
  apply (synchronous_step _ _ _ [Tick (at_slot 1)]); [|discriminate].
  apply (synchronous_step _ _ _ []); [apply synchronous_start|reflexivity].
Defined.

(** *** Reorgs *)
Definition reorging : ConsensusBehavior :=
  mk_behavior [] (mk_freq (S754_zero false) (S754_zero false) (S754_zero false)
    (S754_zero false) quarter (S754_zero false)) 64.
Definition reorg_cmd : ConsensusCmd := mk_cmd 1000 (12 * Second) 32 5 [] sample_root reorging [].

(** No gap, no invalid hash, a reorg of half the depth. *)
Definition reorg_node : Node := node_with [1; 1; 0; 1].
Definition after_reorg : Node := (on_slot reorg_cmd 0 1 reorg_node).1.
Definition mocked_block : toy_block :=
  match goroutines after_reorg with [GoExecution b _ _ _] => b | _ => toy_genesis end.

(** Two blocks on the genesis block, and another that leaves both behind. *)
Definition child (parent : toy_block) (time : Z) : toy_block :=
  toy_assemble (Header.mk (toy_block_hash parent) [] (zeros 20) (replicate 32 x0f) [] [] [] 0
    (Header.Number (toy_header parent) + 1) 30000000 0 time [] (zeros 32) (zeros 8) (Some 7)) [] [].
Definition low1 : toy_block := child toy_genesis 1012.
Definition low2 : toy_block := child low1 1024.
Definition side1 : toy_block := child toy_genesis 1036.
Definition forked : toy_chain :=
  (toy_insert (toy_insert (toy_insert toy_start low1).1 low2).1 side1).1.

Lemma forked_valid : @valid_chain ref_geth ref_chain_laws forked.
Proof. unfold forked. do 3 apply toy_insert_valid. exact toy_start_valid. Qed.

(** A node whose chain was reorganised below its finalized block. *)
Definition forked_with (draws : list Z) : Node (W:=RelayBackend) (E:=EngineBackend) :=
  mk_node (mk_world (mk_chain (H := ref_geth) forked tt (mk_config 1 0) 30000000)
      (draws : @rng script_rand) relay0 engine1)
    (toy_block_hash low2) (toy_block_hash low2) (toy_block_hash low2) [] [] None.
Definition forked_node : Node := forked_with [1; 1; 0; 1].

(** The block of a slot that draws no reorg there. *)
Definition no_reorg_node : Node := forked_with [1; 1; 1; 1].
Definition after_no_reorg : Node := (on_slot reorg_cmd 0 4 no_reorg_node).1.
Definition head_block : toy_block :=
  match goroutines after_no_reorg with [GoExecution b _ _ _] => b | _ => toy_genesis end.

(** A reorg above the finalized block, and a head below it that is extended. *)
Lemma reorg_respects_finality_witness :
  (0 < Header.Number (toy_header mocked_block) ≤ 1 ∧
   known (node_chain after_reorg) (toy_block_hash mocked_block)) ∧
  Header.ParentHash (toy_header head_block) = toy_block_hash side1 ∧
  Header.Number (toy_header head_block) = Header.Number (toy_header low2).
Proof.
  split.
  - assert ((on_slot reorg_cmd 0 1 reorg_node).2 = Ok tt) as Hr by vm_refl.
    assert (goroutines after_reorg = [GoExecution mocked_block (zeros 32) (zeros 32) 1]) as Hg
      by vm_refl.
    assert (final_block reorg_node = None) as Hf by vm_refl.
    destruct (reorg_respects_finality reorg_cmd 0 1 reorg_node after_reorg (Ok tt) mocked_block
      (zeros 32) (zeros 32) 1 toy_start_valid ltac:(vm_compute; split; [discriminate|reflexivity])
      ltac:(vm_compute; reflexivity) ltac:(lia) ltac:(intros f Hf'; congruence) (run_to _ _ Hr) Hg)
      as (Hn & _ & Hk & _).
    split; [|exact Hk]. rewrite Hf in Hn.
    change (Header.Number (head_header reorg_node)) with 0 in Hn. exact Hn.
  - assert ((on_slot reorg_cmd 0 4 no_reorg_node).2 = Ok tt) as Hr by vm_refl.
    assert (goroutines after_no_reorg = [GoExecution head_block (toy_block_hash low2)
      (toy_block_hash low2) 4]) as Hg by vm_refl.
    assert (final_block no_reorg_node = Some (toy_header low2)) as Hf by vm_refl.
    destruct (reorg_respects_finality reorg_cmd 0 4 no_reorg_node after_no_reorg (Ok tt) head_block
      (toy_block_hash low2) (toy_block_hash low2) 4 forked_valid
      ltac:(vm_compute; split; [discriminate|reflexivity]) ltac:(vm_compute; reflexivity) ltac:(lia)
      ltac:(intros f; rewrite Hf; intros [= <-]; vm_compute; split; [discriminate|reflexivity])
      (run_to _ _ Hr) Hg) as (Hn & _).
    rewrite Hf in Hn. assert (Header.Number (head_header no_reorg_node) = 1) as Hh by vm_refl.
    assert (Header.Number (toy_header low2) = 2) as Hl by vm_refl.
    assert (head_hash no_reorg_node = toy_block_hash side1) as Hs by vm_refl.
    rewrite Hh, Hl, Hs in Hn. destruct Hn as (_ & Hp & Hn). split; [exact Hp|].
    rewrite Hl. exact Hn.
Defined.

Lemma reorg_below_finalized_crashes_witness :
  ended (step reorg_cmd 0 (Tick (at_slot 4)) forked_node) = Some Crashed.
Proof.
  apply (reorg_below_finalized_crashes reorg_cmd 0 (at_slot 4) 4 (toy_header low2) forked_node).
  - exact forked_valid.
  - reflexivity.
  - reflexivity.
  - vm_refl.
  - vm_compute. discriminate.
  - vm_compute. split; [discriminate|reflexivity].
  - lia.
  - vm_refl.
  - vm_compute. split; reflexivity.
  - vm_refl.
  - vm_refl.
  - vm_refl.
Defined.

(** *** A payload that outlives its slot *)
Definition bad_hash : ConsensusBehavior :=
  mk_behavior [] (mk_freq (S754_zero false) (S754_zero false) (S754_zero false)
    (S754_zero false) (S754_zero false) quarter) 64.
Definition bad_hash_cmd : ConsensusCmd := mk_cmd 1000 (12 * Second) 32 5 [] sample_root bad_hash [].

(** A node that waits with the payload of slot one, and sends a bad hash in it. *)
Definition waiting_node : Node := with_senders (node_with [1; 0; 1; 1]) [id1].

Lemma invalid_hash_slot_fails_run_witness :
  ended (step bad_hash_cmd 0 (Resume 1) (step bad_hash_cmd 0 (Tick (at_slot 2))
    (step bad_hash_cmd 0 (Tick (at_slot 1)) waiting_node))) = Some (Exited 1).
Proof.
  refine (proj2 (proj2 (invalid_hash_slot_fails_run bad_hash_cmd 0 (at_slot 1) (at_slot 2) 1 12 id1
    payload1 waiting_node eq_refl ltac:(lia) ltac:(lia) ltac:(unfold Second; lia) ltac:(discriminate)
    eq_refl eq_refl eq_refl ltac:(vm_refl) ltac:(vm_refl) ltac:(vm_refl) ltac:(vm_refl)
    ltac:(vm_refl) ltac:(vm_refl) _ ltac:(vm_refl)))).
  intros g. vm_refl.
Defined.

(** ** JSON *)
Lemma payload1_json : payload_json.Wf payload1.
Proof. split; vm_compute; try reflexivity; (split; [discriminate|reflexivity]). Qed.

Lemma payload_json_codec_witness :
  payload_UnmarshalJSON (payload_MarshalJSON false payload1) payload2 = (payload1, Ok tt) ∧
  (payload_UnmarshalJSON (payload_MarshalJSON true payload1) payload2).2
  = Err (missing "transactions").
Proof.
  destruct payload_json_codec as [H _]. destruct (H payload1 payload1_json) as [Hr Hn].
  exact (conj (Hr payload2) (Hn payload2)).
Defined.

Lemma attributes_json_codec_witness :
  attributes_UnmarshalJSON (attributes_MarshalJSON (attributes 1012)) (attributes 0)
  = (attributes 1012, Ok tt).
Proof.
  destruct attributes_json_codec as [H _]. apply H.
  split; [vm_compute; split; [discriminate|reflexivity]|reflexivity|reflexivity].
Defined.


Lemma invalid_hash_payload_undecodable_witness :
  json_newPayloadV1 true (invalid_hash_payload (toy_header toy_genesis)) engine1
  = (engine1, Err invalid_params) ∧
  json_newPayloadV1 false (invalid_hash_payload (toy_header toy_genesis)) engine1
  = (engine1, Ok (status ExecutionInvalidBlockHash None)).
Proof.
  destruct (invalid_hash_payload_undecodable (toy_header toy_genesis) engine1) as [Hn Hf].
  - reflexivity.
  - vm_compute. split; [discriminate|reflexivity].
  - vm_compute. split; [discriminate|reflexivity].
  - split; [exact Hn|]. apply Hf. vm_refl.
Defined.

